(* ===== verification/_CoqProject ===== *)
-Q . S2P
Prelude.v
GoStrings.v
GoHeap.v
Types.v
DeepCopy.v
DeepCopySpec.v
Conversion.v
Fixtures.v
Regex.v
ResourceId.v
ResourceIdSpec.v
MicDesired.v
MicVmss.v
MicNode.v
MicConsolidate.v
Concurrency.v
Termination.v
Stats.v
Retry.v
CloudIdentity.v
CloudInterface.v
CloudProvider.v
CrdInterface.v
Crd.v
CrdSim.v
Metrics.v
PodClient.v
Auth.v
CloudInit.v
Kube.v
Nmi.v
NmiSpec.v
Http.v
Router.v
NmiServer.v
NmiServerSpec.v
NmiSim.v
Informers.v
Iptables.v
IptablesSpec.v
Process.v
NmiMain.v
MicUpdate.v
MicUpdateFacts.v
MicUpdateSpec.v
MicRemoval.v
MicReconcile.v
MicSync.v
MicSyncFacts.v
MicSyncSpec.v
MicQuiet.v
MicProgress.v
MicReplan.v
MicMachine.v
MicStart.v
MicMain.v
EndToEnd.v
EndToEndSim.v
MicMainSim.v
