(* ===== verification/Prelude.v ===== *)
(** * Azure/aad-pod-identity: a verification of its two services, MIC and NMI

    ** The program

    aad-pod-identity gives Kubernetes pods identities of Azure Active Directory. An
    [AzureIdentity] names an identity, an [AzureIdentityBinding] gives it to the pods with a
    label; the objects in between, [AzureAssignedIdentity], say which pod has which identity
    and how far its assignment is (Created, Assigned, Unassigned).

    - MIC, the managed identity controller (src/pkg/mic), runs once per cluster. Woken by
      events and ticks it lists pods, bindings, identities and assigned identities, computes
      the assigned identities that there should be, compares them with those that there
      are, and carries out the difference: it creates, updates and deletes the objects
      (src/pkg/crd) and assigns the identities to virtual machines and scale sets through the
      Azure API (src/pkg/cloudprovider, src/pkg/retry), one goroutine per machine and per
      object.
    - NMI, the node managed identity server (src/pkg/nmi), runs on every node. Packet filter
      rules send it the pods' requests to the metadata service. It finds the pod by its
      address (src/pkg/k8s), the pod's identities in the assigned identities (standard mode) or
      the bindings (managed mode), and answers with a token from the adal library
      (src/pkg/auth). Other requests go on to the metadata service.

    MIC and NMI only meet in the cluster's objects: NMI waits for an assigned identity to
    become Assigned, which MIC writes when the machine has the identity; NMI's informer lists
    the objects with the label of its node, which MIC writes too. [assigned_pod_is_served]
    joins the theorems about the two there.

    ** Conventions

    A Go function that can fail is a function to [outcome]: a value, an error, or a panic. One
    that changes a world is in the monad [M W] (a state, a clock, an API). Libraries and
    services outside src/ are type classes of operations with a second class of laws, which
    state their documented behaviour: [CrdAPI] (the API server), [SDK] (the compute API),
    [Adal], [KubeInt]/[Caches], [Recorder] (metrics), [Mux] (the request router), [Proxy],
    [IPTables], [Conntrack], [ConfigMaps], [CloudLib], [ClientGo], [InformerRuntime], [MicLib], [ProcessLib], [FsNotify]
    and [MetaOps]. Each is instantiated by a concrete simulation on which the witnesses run. Go's iteration over a map in random order is [GoRange]: an oracle gives the
    order, per loop and map, and the theorems hold for every oracle. 64-bit durations wrap
    ([wrap64]); other integers only count, far from their bounds, and are [Z] or [nat].
    Strings are byte strings, case folding is that of ASCII letters. Logging is not modelled,
    except the errors of MIC's goroutines: "no error is logged" is how a cycle says that it
    went well. What a client promises about errors and panics is a class of its own, so that
    the theorems that do not need it do without: [ClientTotal] and [CloudTotal] (the two clients
    of MIC do not panic on complete objects), discharged from [CrdAPITotal] and [SDKTotal].

    ** Files

    Shared: [Prelude] (outcomes, the monad, map iteration), [GoStrings] (Go's strings and
    path), [Regex] (a backtracking matcher, with soundness and completeness), [Fixtures].

    The data: [Types] and [Conversion] (src/pkg/apis/aadpodidentity and its v1 package:
    types, conversions both ways, ordering of bindings), [ResourceId] and [ResourceIdSpec]
    (resource ids, src/pkg/utils and src/pkg/cloudprovider/cloudprovider.go). The generated deep
    copies need pointers: [GoHeap] is a heap of typed cells, with copies of pointers,
    slices and maps and a reader that tells which cells a value owns; [DeepCopy] has the types as
    they are in memory and the functions of both packages; [DeepCopySpec] what they promise.

    MIC: [MicDesired] (desired objects and the three-way diff), [MicVmss] (vmss.go: groups of
    nodes behind two maps of shared pointers, as a heap), [MicNode] (the work per node, which
    ids may be removed), [MicConsolidate] (merging the work of a scale set's nodes),
    [MicUpdate] (updateUserMSI and its goroutines as processes of [Concurrency]),
    [MicUpdateFacts] and [MicUpdateSpec] (their guarantees under every interleaving),
    [MicRemoval] (no object goes before its identity is off the machine),
    [MicReconcile] (reconciliation with Azure), [MicSync] (planning and running a cycle, the
    sync loop), [MicSyncFacts] and [MicSyncSpec] (a whole cycle), [MicQuiet] (the next cycle),
    [MicProgress] (the loop does not panic or hang, and ends; [Termination] has the semaphores),
    [MicReplan] (the cycle after one with errors),
    [MicStart] (the recorded type upgrade, the start), [MicMain] and [MicMainSim] (src/cmd/mic
    and [NewMICClient]: from the flags up to the election, which does not return while the
    process lives), [Stats] (src/pkg/stats).

    The clients of MIC: [CrdInterface] is what MIC relies on of the resource client; [Crd]
    (src/pkg/crd) discharges it, [CrdSim] runs it. [CloudInterface] is what it relies on of the
    cloud; [CloudProvider], with [CloudIdentity] (the identities of a machine), [Retry] and
    [CloudInit] (configuration and construction, over the files of the moment), discharges it.
    [Metrics] has src/pkg/metrics, [PodClient] src/pkg/pod and the pods of
    src/pkg/k8s/client.go.

    NMI: [Auth] (src/pkg/auth, src/version), [Kube] (the rest of src/pkg/k8s/client.go, behind
    the interface [KubeInt]), [Nmi] (standard.go, managed.go, nmi.go, behind the interface
    [TokenClientInt]) and [NmiSpec], [Http] (requests, responses, JSON), [Router]
    (what the server relies on of gorilla/mux, and a concrete router), [NmiServer]
    (server.go) and [NmiServerSpec], [NmiSim] (a simulated node), [Iptables] and
    [IptablesSpec] (iptables.go, conntrack.go, and the loop of the server over them),
    [Informers] (the construction and start of clients and informers, MIC's included: crd.go,
    client.go, pod.go, node.go, register.go) and [NmiMain] (src/cmd/nmi: from the flags to the
    running parts).

    Both: [Process] (the logging options, the health probe, the export of the metrics, the file
    watcher: src/pkg/log, probes, metrics, filewatcher), [MicMachine] (new assignments reach the machine of their node), [EndToEnd] and
    [EndToEndSim] (MIC's cycle, the API server and the NMI of a node together).

    ** What the theorems show

    - The whole: [assigned_pod_is_served]. After a cycle of MIC without errors, a pod whose
      assignment the cycle created or updated gets its identity from the NMI of its node at
      once, and the machine has that identity. [served_only_if_wanted]: after a cycle nobody gets
      an identity without a pod, a label, a binding and an identity that ask for it.
    - The sync cycle: [sync_cycle_converges] for whole cycles; [cycle_then_quiet] (the next one
      finds nothing to do); [failed_work_is_replanned] (whatever fails in a cycle is on the
      lists of the next one); [sync_loop_ends] (no panic, no deadlock, no endless execution,
      whatever fails); [node_update_converges] for one machine;
      [assigned_only_if_on_machine] and [deleted_only_if_off_machine], under every
      interleaving and whatever fails; [computeLists_classified] and [desired_sound_and_complete] for the plan;
      [removed_only_if_unused], [unused_are_removed] and [consolidate_conserves] for what
      reaches the machines; [getVMSSGroups_spec], a refinement of the pointer structure;
      [reconcile_restores]; [one_sync_at_a_time]; [statistics_exact]; [upgraded_once];
      [mic_is_put_together] (the command builds what the cycle and the start need) and
      [configuration_followed] (the cloud client holds what its file had when it was last
      written, over any history);
      isolation of namespaces ([desired_namespaced_isolation]), independence of the order of
      the caches ([desired_order_independent]).
    - The cloud: [UpdateUserMSI_effect], [SetUserIdentities_spec], [UpdateIdentities_batches]
      (termination and batch bounds), [truncate_run], [client_Get_backs_off],
      [Do_bounded], [client_Init_spec], [ParseResourceID_roundtrip].
    - The objects: [RemoveAssignedIdentity_removes], [ListPodIds_spec],
      [GetPodIDsWithBinding_spec], [assigned_identity_roundtrip]; [deep_copy_separates] (no write to
      an object is seen through its deep copy, in both packages, except the tenants of an
      identity and the metadata of a v1 list).
    - NMI: [token_only_if_entitled], from the address of a request to the identity of its
      token, in both modes; [every_request_answered] (every handler, every error path, panics
      and redirects included); [routes_spec] (which paths can reach the metadata service);
      [assigned_in_time] (waiting for what the cache comes to show succeeds), [nmi_reads_its_caches] (each mode has the
      informers that it reads), [GetPodInfo_spec], [IsPodExcepted_spec]; [rules_kept] (the
      redirection stays in place); [token_calls_report_once], [reports_are_viewed].

    ** Bounds and fuel

    [UpdateIdentities] loops with fuel one more than the number of ids, which
    [UpdateIdentities_batches] proves to be enough; [Plus] in a regular expression with the
    length of the text, which [re_match_complete] proves to be enough; the loop of NMI that
    waits for an identity is bounded by its attempts, as in the code. The sync loop and the
    loop over the packet filter rules run over an arbitrary list of wake-ups. Goroutines are
    interleaved without a bound, except in [sync_loop_ends], where those of a node wait for the
    [createDeleteBatch] tokens of their semaphore.

    ** Not modelled

    The parsing of the command line (the flags and their defaults are modelled), client-go's
    leader election (its lock, periods and callbacks are), listeners, the profiling endpoint, the
    copies of apimachinery's metadata, and what is logged. The
    reading of a response by the client is Go's; a response is modelled up to its status,
    header and body. Texts that come from [fmt] verbs for structs are not modelled, and
    error texts are kept as far as the code or its callers look at them. *)

From stdpp Require Export base tactics option list gmap fin_maps strings sets sorting pretty.
From Stdlib Require Export ZArith Lia.

#[export] Set Default Goal Selector "!".
#[export] Set Warnings "-clear-no-such-hyp,-register-all".

(** ** Errors, panics and the outcome of a Go function *)

(** The dynamic type of an [error] value, as far as the code inspects it:
    [apierrors.IsNotFound] and the type assertion to [adal.TokenRefreshError]. *)
Inductive error_kind := KPlain | KNotFound | KTokenRefresh.

Record error := mk_error { err_kind : error_kind; Error : string }.

#[export] Instance error_kind_eq_dec : EqDecision error_kind.
Proof. solve_decision. Defined.
#[export] Instance error_eq_dec : EqDecision error.
Proof. solve_decision. Defined.

(** [fmt.Errorf] builds a plain error: the dynamic type of a wrapped error is lost. *)
Definition Errorf (s : string) : error := mk_error KPlain s.

(** [apierrors.IsNotFound]. *)
Definition IsNotFound (e : error) : bool := bool_decide (err_kind e = KNotFound).

(** What a call returns: a value, a non-nil error, or a run-time panic. *)
Inductive outcome (A : Type) := Ret (a : A) | Fail (e : error) | Panic.
Arguments Ret {A} a.
Arguments Fail {A} e.
Arguments Panic {A}.

#[export] Instance outcome_eq_dec {A} `{EqDecision A} : EqDecision (outcome A).
Proof. solve_decision. Defined.

#[export] Instance outcome_ret : MRet outcome := @Ret.
#[export] Instance outcome_bind : MBind outcome := λ A B k m,
  match m with Ret a => k a | Fail e => Fail e | Panic => Panic end.
#[export] Instance outcome_fmap : FMap outcome := λ A B f m,
  match m with Ret a => Ret (f a) | Fail e => Fail e | Panic => Panic end.

(** Dereferencing a pointer: a nil pointer panics. *)
Definition deref {A} (p : option A) : outcome A :=
  match p with Some a => Ret a | None => Panic end.

(** ** A state-passing monad over [outcome] *)

Definition M (W A : Type) : Type := W → outcome A * W.

#[export] Instance M_ret W : MRet (M W) := λ A a w, (Ret a, w).
#[export] Instance M_bind W : MBind (M W) := λ A B k m w,
  match m w with
  | (Ret a, w') => k a w'
  | (Fail e, w') => (Fail e, w')
  | (Panic, w') => (Panic, w')
  end.

(** [lift o] runs a stateless outcome in the state monad. *)
Definition lift {W A} (o : outcome A) : M W A := λ w, (o, w).
Definition fail {W A} (e : error) : M W A := λ w, (Fail e, w).
Definition get {W} : M W W := λ w, (Ret w, w).
Definition modify {W} (f : W → W) : M W unit := λ w, (Ret tt, f w).

(** [if err := m; err != nil { h err }]: recover from an error, not from a panic. *)
Definition catch {W A} (m : M W A) (h : error → M W A) : M W A := λ w,
  match m w with (Fail e, w') => h e w' | r => r end.

(** A computation whose outcome is known ends in the state it ends in. *)
Lemma surjective_pairing_ret {A W} (p : outcome A * W) r : p.1 = r → p = (r, p.2).
Proof. by destruct p; intros <-. Qed.

(** A bind that returns has run both parts. *)
Lemma bind_Ret {W A B} (m : M W A) (k : A → M W B) w b w' :
  mbind (M := M W) k m w = (Ret b, w') → ∃ a w1, m w = (Ret a, w1) ∧ k a w1 = (Ret b, w').
Proof. unfold mbind, M_bind. destruct (m w) as [[a|e|] v]; intros H; simplify_eq. eauto. Qed.

(** A loop that accumulates and may stop with an error or a panic. *)
Fixpoint foldM {A B} (f : B → A → outcome B) (b : B) (l : list A) : outcome B :=
  match l with
  | [] => Ret b
  | x :: l' => b' ← f b x; foldM f b' l'
  end.

Lemma foldM_Ret {A B} (f : B → A → outcome B) (g : B → A → B) b l :
  (∀ b x, x ∈ l → f b x = Ret (g b x)) → foldM f b l = Ret (foldl g b l).
Proof.
  revert b. induction l as [|x l IH]; intros b Hf; [done|]. simpl.
  rewrite Hf by set_solver. apply IH. set_solver.
Qed.

(** A [for _, x := range l] loop over a slice. *)
Fixpoint for_each {W A} (body : A → M W unit) (l : list A) : M W unit :=
  match l with
  | [] => mret tt
  | x :: l' => body x ≫= λ _, for_each body l'
  end.

(** A loop that accumulates in the state monad. *)
Fixpoint fold_each {W A B} (f : B → A → M W B) (b : B) (l : list A) : M W B :=
  match l with
  | [] => mret b
  | x :: l' => f b x ≫= λ b', fold_each f b' l'
  end.

Lemma for_each_app {W A} (body : A → M W unit) l1 l2 w :
  for_each body (l1 ++ l2) w = (for_each body l1 ≫= λ _, for_each body l2) w.
Proof.
  revert w. induction l1 as [|x l1 IH]; intros w; [done|]. simpl.
  unfold mbind, M_bind. destruct (body x w) as [[[]| |] w']; [|done|done].
  by rewrite IH.
Qed.

(** An invariant of the state that every iteration keeps is kept by the loop. *)
Lemma for_each_invariant {W A} (I : W → Prop) (body : A → M W unit) l w :
  (∀ x w, x ∈ l → I w → I (body x w).2) → I w → I (for_each body l w).2.
Proof.
  revert w. induction l as [|x l IH]; intros w Hstep Hw; [done|]. simpl.
  unfold mbind, M_bind. specialize (Hstep x w) as Hx.
  destruct (body x w) as [[[]| |] w'] eqn:E; simpl in *; [|set_solver|set_solver].
  apply IH; [|set_solver]. intros y w'' Hy. apply Hstep. set_solver.
Qed.

(** ** Maps and the order of [range] over a map

    Go iterates over a map in an unspecified order that may differ at every
    loop. A development-wide oracle gives, for each loop ([site]) and map, the
    order in which that loop visits it; theorems quantify over the oracle. *)

Class GoRange := {
  go_range : ∀ {V : Type}, nat → gmap string V → list (string * V);
  go_range_perm : ∀ {V : Type} (site : nat) (m : gmap string V),
    go_range site m ≡ₚ map_to_list m
}.

(** The oracle used by the concrete runs. *)
Definition canonical_range : GoRange := {|
  go_range := λ V _ m, map_to_list m;
  go_range_perm := λ V _ m, Permutation_refl _
|}.

Section range_facts.
Context `{R : GoRange} {V : Type}.
Implicit Types m : gmap string V.

Lemma elem_of_go_range n m k v : (k, v) ∈ go_range n m ↔ m !! k = Some v.
Proof. rewrite go_range_perm. apply elem_of_map_to_list. Qed.

Lemma NoDup_fst_go_range n m : NoDup (go_range n m).*1.
Proof. rewrite go_range_perm. apply NoDup_fst_map_to_list. Qed.

Lemma NoDup_go_range n m : NoDup (go_range n m).
Proof. eapply NoDup_fmap_1, NoDup_fst_go_range. Qed.

Lemma length_go_range n m : length (go_range n m) = size m.
Proof. rewrite go_range_perm. by rewrite length_map_to_list. Qed.

Lemma go_range_nil n m : go_range n m = [] ↔ m = ∅.
Proof.
  split; intros E.
  - apply map_to_list_empty_iff. apply Permutation_nil_r. by rewrite <- (go_range_perm n), E.
  - subst. apply Permutation_nil_r. rewrite go_range_perm. by rewrite map_to_list_empty.
Qed.
End range_facts.

(** A loop over a map whose iteration for key [k] changes the state at [k] only can be
    read off key by key, whatever the order of the iterations. *)
Section pointwise.
Context {S T V : Type} (view : S → string → T) (step : S → string * V → S)
  (upd : string → V → T → T).
Hypothesis step_local : ∀ st k v k',
  view (step st (k, v)) k' = if decide (k = k') then upd k v (view st k') else view st k'.

Lemma foldl_pointwise_list (l : list (string * V)) st k' :
  NoDup l.*1 →
  view (foldl step st l) k' =
    match (list_to_map l : gmap string V) !! k' with
    | Some v => upd k' v (view st k')
    | None => view st k'
    end.
Proof.
  revert st. induction l as [|[k v] l IH]; intros st Hnd; [done|].
  rewrite fmap_cons in Hnd. apply NoDup_cons in Hnd as [Hk Hnd]. simpl.
  rewrite IH, step_local by done. destruct (decide (k = k')) as [->|Hne].
  - rewrite lookup_insert_eq. by rewrite not_elem_of_list_to_map_1.
  - by rewrite lookup_insert_ne.
Qed.

Lemma foldl_pointwise `{R : GoRange} n (m : gmap string V) st k' :
  view (foldl step st (go_range n m)) k' =
    match m !! k' with Some v => upd k' v (view st k') | None => view st k' end.
Proof.
  rewrite foldl_pointwise_list by apply NoDup_fst_go_range.
  by rewrite (list_to_map_proper (go_range n m) (map_to_list m)), list_to_map_to_list
    by auto using NoDup_fst_go_range, go_range_perm.
Qed.
End pointwise.

(** A Go map read [m[k]] of a missing key gives the zero value. *)
Definition map_get (m : gmap string string) (k : string) : string := default "" (m !! k).

(** ** Machine integers and durations *)

(** [int] and [time.Duration] are 64 bits wide and wrap around. *)
Definition wrap64 (z : Z) : Z := ((z + 2 ^ 63) mod 2 ^ 64 - 2 ^ 63)%Z.

(** [time.Second], in nanoseconds. *)
Definition Second : Z := 1000000000.

(** ** Automation *)

Create HintDb go discriminated.
Create Rewrite HintDb go.
#[export] Hint Resolve NoDup_fst_go_range NoDup_go_range : go.
#[export] Hint Rewrite @elem_of_go_range @length_go_range : go.

(** Split the outcome of a monadic call that a [match] in the goal scrutinises. *)
Ltac case_outcome :=
  match goal with
  | |- context [match ?o with Ret _ => _ | Fail _ => _ | Panic => _ end] =>
      let E := fresh "Eo" in destruct o eqn:E
  end.

(** A decidable proposition without variables holds by evaluation. *)
Ltac by_computation := apply (bool_decide_unpack _); vm_compute; exact I.

Ltac simplify_monad := unfold mbind, M_bind, outcome_bind, mret, M_ret, outcome_ret in *; simpl in *.
