(* ===== verification/GoStrings.v ===== *)
(** * The functions of Go's [strings] and [path] packages that the code calls.

    Strings are byte strings. Case folding ([ToLower], [EqualFold]) is modelled
    on the ASCII letters, the alphabet of Azure resource ids, client ids (GUIDs)
    and Kubernetes names; bytes above 127 are left unchanged. *)

From S2P Require Import Prelude.
From Stdlib Require Export Ascii.

Open Scope string_scope.
Open Scope list_scope.

#[global] Arguments String.append !_ _ / : simpl nomatch.

Lemma str_app_assoc a b c : (a +:+ b) +:+ c = a +:+ (b +:+ c).
Proof. induction a as [|d a IH]; simpl; [done|]. by rewrite IH. Qed.

Lemma str_app_nil_r a : a +:+ "" = a.
Proof. induction a as [|d a IH]; simpl; [done|]. by rewrite IH. Qed.

(** ** Case folding *)

Definition lower_ascii (c : ascii) : ascii :=
  let n := nat_of_ascii c in
  if (65 <=? n)%nat && (n <=? 90)%nat then ascii_of_nat (n + 32) else c.

(** [strings.ToLower] *)
Fixpoint ToLower (s : string) : string :=
  match s with
  | EmptyString => EmptyString
  | String c s' => String (lower_ascii c) (ToLower s')
  end.

(** [strings.EqualFold] *)
Definition EqualFold (a b : string) : bool := bool_decide (ToLower a = ToLower b).

Lemma lower_ascii_idemp c : lower_ascii (lower_ascii c) = lower_ascii c.
Proof. by destruct c as [[] [] [] [] [] [] [] []]. Qed.

Lemma ToLower_idemp s : ToLower (ToLower s) = ToLower s.
Proof. induction s as [|c s IH]; simpl; [done|]. by rewrite lower_ascii_idemp, IH. Qed.

Lemma ToLower_app a b : ToLower (a +:+ b) = ToLower a +:+ ToLower b.
Proof. induction a as [|c a IH]; simpl; [done|]. by rewrite IH. Qed.

Lemma EqualFold_spec a b : EqualFold a b = true ↔ ToLower a = ToLower b.
Proof. apply bool_decide_eq_true. Qed.

Lemma EqualFold_refl a : EqualFold a a = true.
Proof. by apply EqualFold_spec. Qed.

Lemma EqualFold_sym a b : EqualFold a b = EqualFold b a.
Proof. apply bool_decide_ext. split; congruence. Qed.

Lemma EqualFold_trans a b c :
  EqualFold a b = true → EqualFold b c = true → EqualFold a c = true.
Proof. rewrite !EqualFold_spec. congruence. Qed.

(** ** Searching *)

(** [strings.HasPrefix] *)
Fixpoint HasPrefix (s p : string) {struct p} : bool :=
  match p, s with
  | EmptyString, _ => true
  | String c p', String d s' => Ascii.eqb c d && HasPrefix s' p'
  | String _ _, EmptyString => false
  end.

(** [strings.Contains] *)
Fixpoint Contains (s sub : string) : bool :=
  HasPrefix s sub ||
  match s with EmptyString => false | String _ s' => Contains s' sub end.

(** [strings.IndexByte], [None] for -1. *)
Fixpoint IndexByte (s : string) (c : ascii) : option nat :=
  match s with
  | EmptyString => None
  | String d s' => if Ascii.eqb c d then Some 0 else S <$> IndexByte s' c
  end.

Lemma HasPrefix_app p s : HasPrefix (p +:+ s) p = true.
Proof. induction p as [|c p IH]; simpl; [done|]. by rewrite Ascii.eqb_refl, IH. Qed.

Lemma HasPrefix_spec s p : HasPrefix s p = true ↔ ∃ t, s = p +:+ t.
Proof.
  split; [|intros [t ->]; apply HasPrefix_app].
  revert s. induction p as [|c p IH]; intros s H; [by exists s|].
  destruct s as [|d s]; [done|]. simpl in H.
  apply andb_true_iff in H as [Hc H]. apply Ascii.eqb_eq in Hc as ->.
  destruct (IH s H) as [t ->]. by exists t.
Qed.

Lemma Contains_spec s sub : Contains s sub = true ↔ ∃ a b, s = a +:+ sub +:+ b.
Proof.
  split.
  - induction s as [|c s IH]; simpl; rewrite orb_true_iff, HasPrefix_spec.
    + intros [[t ->]|?]; [by exists "", t|done].
    + intros [[t ->]|Hs]; [by exists "", t|].
      destruct (IH Hs) as (a & b & ->). by exists (String c a), b.
  - intros (a & b & ->). induction a as [|c a IH]; simpl.
    + destruct (sub +:+ b) eqn:E; simpl; rewrite <- E, HasPrefix_app; done.
    + by rewrite IH, orb_true_r.
Qed.

Lemma Contains_app_r a s sub : Contains s sub = true → Contains (a +:+ s) sub = true.
Proof.
  rewrite !Contains_spec. intros (x & y & ->). exists (a +:+ x), y.
  by rewrite str_app_assoc.
Qed.

(** ** Splitting and joining *)

(** [strings.Split] with a one-byte separator *)
Fixpoint Split (s : string) (c : ascii) : list string :=
  match s with
  | EmptyString => [""]
  | String d s' =>
      if Ascii.eqb c d then "" :: Split s' c
      else match Split s' c with
           | h :: t => String d h :: t
           | [] => [String d ""]
           end
  end.

(** [strings.Join] *)
Fixpoint Join (l : list string) (sep : string) : string :=
  match l with
  | [] => ""
  | [s] => s
  | s :: l' => s +:+ sep +:+ Join l' sep
  end.

(** [c] does not occur in [s]. *)
Fixpoint free_of (c : ascii) (s : string) : bool :=
  match s with EmptyString => true | String d s' => negb (Ascii.eqb c d) && free_of c s' end.

Lemma Split_not_nil s c : Split s c ≠ [].
Proof. destruct s as [|d s]; simpl; [done|]. destruct (Ascii.eqb c d), (Split s c); done. Qed.

Lemma Join_Split s c : Join (Split s c) (String c "") = s.
Proof.
  induction s as [|d s IH]; simpl; [done|].
  destruct (Ascii.eqb_spec c d) as [->|Hne].
  - destruct (Split s d) eqn:E; [by apply Split_not_nil in E|]. simpl in *. by rewrite IH.
  - destruct (Split s c) as [|h t] eqn:E; [by apply Split_not_nil in E|].
    destruct t; simpl in *; by rewrite IH.
Qed.

Lemma Split_free s c : free_of c s = true → Split s c = [s].
Proof.
  induction s as [|d s IH]; simpl; [done|]. rewrite andb_true_iff, negb_true_iff.
  intros [-> Hs]. by rewrite (IH Hs).
Qed.

Lemma Split_app s t c : free_of c s = true → Split (s +:+ String c t) c = s :: Split t c.
Proof.
  induction s as [|d s IH]; simpl; [by rewrite Ascii.eqb_refl|].
  rewrite andb_true_iff, negb_true_iff. intros [-> Hs]. by rewrite (IH Hs).
Qed.

(** Splitting is a left inverse of joining separator-free fields. *)
Lemma Split_Join l c :
  l ≠ [] → Forall (λ s, free_of c s = true) l → Split (Join l (String c "")) c = l.
Proof.
  intros Hne Hl. induction Hl as [|s l Hs Hl IH]; [done|].
  destruct l as [|s' l]; [by apply Split_free|].
  change (Join _ _) with (s +:+ String c (Join (s' :: l) (String c ""))).
  by rewrite Split_app, IH.
Qed.

(** ** Package [path] *)

Definition slash : ascii := "/".

Lemma Split_all_free s : Forall (λ x, free_of slash x = true) (Split s slash).
Proof.
  induction s as [|c s IH]; [by repeat constructor|]. cbn [Split]. destruct (Ascii.eqb slash c) eqn:E; [by constructor|].
  destruct (Split s slash); [|inversion IH; subst]; constructor; cbn [free_of]; rewrite ?E; done.
Qed.

(** The last element of a non-empty list of fields, [""] if there is none. *)
Definition last_field (l : list string) : string := default "" (last l).

(** [path.Split], second result: what follows the last slash. *)
Definition path_Split_file (p : string) : string := last_field (Split p slash).

(** Removal of trailing slashes, as [path.Base] does it. *)
Fixpoint drop_trailing_empty (l : list string) : list string :=
  match l with
  | [] => []
  | s :: l' =>
      match drop_trailing_empty l' with
      | [] => if bool_decide (s = "") then [] else [s]
      | l'' => s :: l''
      end
  end.

(** [path.Base]: the last element of the path, ["."] for an empty path and ["/"]
    for a path that holds slashes only. *)
Definition path_Base (p : string) : string :=
  if bool_decide (p = "") then "."
  else match last (drop_trailing_empty (Split p slash)) with
       | Some s => s
       | None => "/"
       end.

(** The elements that [path.Clean] keeps: empty and ["."] elements are dropped, a
    [".."] removes the element before it, if there is one that is not [".."];
    at the root of a rooted path it is dropped. [acc] is in reverse order. *)
Fixpoint clean_elems (rooted : bool) (l acc : list string) : list string :=
  match l with
  | [] => rev acc
  | s :: l' =>
      if bool_decide (s = "" ∨ s = ".") then clean_elems rooted l' acc
      else if bool_decide (s = "..") then
        match acc with
        | [] => clean_elems rooted l' (if rooted then [] else [".."])
        | x :: acc' =>
            if bool_decide (x = "..") then clean_elems rooted l' (s :: acc)
            else clean_elems rooted l' acc'
        end
      else clean_elems rooted l' (s :: acc)
  end.

(** [path.Clean] *)
Definition path_Clean (p : string) : string :=
  if bool_decide (p = "") then "."
  else
    let rooted := HasPrefix p "/" in
    let body := Join (clean_elems rooted (Split p slash) []) "/" in
    if rooted then "/" +:+ body
    else if bool_decide (body = "") then "." else body.

(** [path.Join]: the non-empty elements joined with slashes, cleaned. *)
Definition path_Join (elems : list string) : string :=
  let ne := filter (λ s, s ≠ "") elems in
  match ne with [] => "" | _ => path_Clean (Join ne "/") end.

(** An element that [path.Clean] keeps as it is. *)
Definition plain_elem (s : string) : bool :=
  free_of slash s && negb (bool_decide (s = "")) && negb (bool_decide (s = "."))
    && negb (bool_decide (s = "..")).

Lemma plain_elem_spec s :
  plain_elem s = true ↔ free_of slash s = true ∧ s ≠ "" ∧ s ≠ "." ∧ s ≠ "..".
Proof.
  unfold plain_elem. rewrite !andb_true_iff, !negb_true_iff, !bool_decide_eq_false. tauto.
Qed.

Lemma Split_app_suffix a s c :
  ∃ l, l ≠ [] ∧ Split (a +:+ String c s) c = l ++ Split s c.
Proof.
  induction a as [|d a (l & Hl & IH)]; simpl.
  - rewrite Ascii.eqb_refl. by exists [""].
  - rewrite IH. destruct (Ascii.eqb c d); [by exists ("" :: l)|].
    destruct l as [|h t]; [done|]. by exists (String d h :: t).
Qed.

Lemma last_Split_app c a s : free_of c s = true → last (Split (a +:+ String c s) c) = Some s.
Proof.
  intros Hs. destruct (Split_app_suffix a s c) as (l & _ & ->).
  by rewrite (Split_free _ _ Hs), last_snoc.
Qed.

Lemma str_app_inj_r a b s : a +:+ s = b +:+ s → a = b.
Proof.
  intros H. assert (String.length a = String.length b) as Hl.
  { apply (f_equal String.length) in H. revert H.
    assert (∀ x y, String.length (x +:+ y) = (String.length x + String.length y)%nat) as Hlen.
    { intros x y. induction x as [|c x IH]; simpl; [done|]. by rewrite IH. }
    rewrite !Hlen. lia. }
  revert b H Hl. induction a as [|c a IH]; intros [|d b] H Hl; simpl in *; try done.
  injection H as -> H. f_equal. apply IH; [done|lia].
Qed.

(** The text after the last separator, and the text before it, are determined. *)
Lemma sep_inj_r c a a' s s' :
  free_of c s = true → free_of c s' = true →
  a +:+ String c s = a' +:+ String c s' → a = a' ∧ s = s'.
Proof.
  intros Hs Hs' H. pose proof (last_Split_app c a s Hs) as E.
  rewrite H, (last_Split_app c a' s' Hs') in E. injection E as ->.
  split; [by eapply str_app_inj_r|done].
Qed.

Lemma path_Split_file_app a s :
  free_of slash s = true → path_Split_file (a +:+ "/" +:+ s) = s.
Proof. intros Hs. unfold path_Split_file, last_field.
  change ("/" +:+ s) with (String slash s). by rewrite last_Split_app. Qed.

Lemma path_Split_file_plain s : free_of slash s = true → path_Split_file s = s.
Proof. intros Hs. unfold path_Split_file, last_field. by rewrite Split_free. Qed.

Lemma path_Base_plain s : free_of slash s = true → s ≠ "" → path_Base s = s.
Proof.
  intros Hs Hne. unfold path_Base. rewrite bool_decide_false, Split_free by done.
  simpl. by rewrite bool_decide_false.
Qed.

(** ** Go's [<] on strings: lexicographic on bytes *)

Fixpoint str_ltb (a b : string) : bool :=
  match a, b with
  | EmptyString, EmptyString => false
  | EmptyString, String _ _ => true
  | String _ _, EmptyString => false
  | String c a', String d b' =>
      (nat_of_ascii c <? nat_of_ascii d)%nat || (Ascii.eqb c d && str_ltb a' b')
  end.

Lemma str_ltb_irrefl a : str_ltb a a = false.
Proof. induction a as [|c a IH]; simpl; [done|]. by rewrite Nat.ltb_irrefl, IH, andb_false_r. Qed.

Lemma str_ltb_trans a b c : str_ltb a b = true → str_ltb b c = true → str_ltb a c = true.
Proof.
  revert b c. induction a as [|x a IH]; intros [|y b] [|z c]; simpl; try done.
  rewrite !orb_true_iff, !andb_true_iff, !Nat.ltb_lt, !Ascii.eqb_eq.
  intros [Hxy|[-> Hxy]] [Hyz|[-> Hyz]]; [left; lia..|right; eauto].
Qed.

Lemma nat_of_ascii_inj c d : nat_of_ascii c = nat_of_ascii d → c = d.
Proof. intros H. by rewrite <- (ascii_nat_embedding c), H, ascii_nat_embedding. Qed.

Lemma str_ltb_total a b : str_ltb a b = false → str_ltb b a = false → a = b.
Proof.
  revert b. induction a as [|x a IH]; intros [|y b]; simpl; try done.
  rewrite !orb_false_iff, !andb_false_iff, !Nat.ltb_ge, !Ascii.eqb_neq.
  intros [H1 H2] [H3 H4]. assert (x = y) as -> by (apply nat_of_ascii_inj; lia).
  f_equal. apply IH; [by destruct H2|by destruct H4].
Qed.

(** ** Decimal numbers *)

Definition digit (a : ascii) : option Z :=
  let n := Z.of_nat (nat_of_ascii a) in
  if bool_decide (48 <= n <= 57)%Z then Some (n - 48)%Z else None.

Fixpoint digits (s : string) (acc : Z) : option Z :=
  match s with
  | EmptyString => Some acc
  | String a s' => match digit a with Some d => digits s' (10 * acc + d)%Z | None => None end
  end.

Definition parse_digits (s : string) : option Z :=
  match s with EmptyString => None | _ => digits s 0 end.
