(* ===== verification/GoHeap.v ===== *)
(** * Go's pointers: a heap of typed cells, the values that structures in it represent, and
    what it means to copy one deeply.

    A reader follows the pointers of a structure and gives the pure value it stands for,
    with the addresses it has read: the owned ones, which a deep copy replaces by new ones,
    and the shared ones, which it keeps. [copies] says that a function makes such a copy. *)

From S2P Require Import Prelude.

Abbreviation loc := positive.
Abbreviation heap cell := (gmap loc cell).

(** What a cell of the heap can hold: [to_cell] puts a value of type [T] into a cell. *)
Class CellType (cell T : Type) := {
  to_cell : T → cell;
  of_cell : cell → option T;
  of_to_cell : ∀ x, of_cell (to_cell x) = Some x
}.

(** The zero value of a Go type. *)
Class Zero (T : Type) := zero : T.

Section heap.
Context {cell : Type}.

(** ** Operations *)

(** [new(T)] and [make]: an address not in use, with the value given. *)
Definition new {T} `{CellType cell T} (x : T) : M (heap cell) loc := λ h,
  let l := fresh (dom h) in (Ret l, <[l := to_cell x]> h).

Definition load {T} `{CellType cell T} (l : loc) : M (heap cell) T := λ h,
  match h !! l ≫= of_cell with Some x => (Ret x, h) | None => (Panic, h) end.

Definition store {T} `{CellType cell T} (l : loc) (x : T) : M (heap cell) unit := λ h,
  match h !! l with Some _ => (Ret tt, <[l := to_cell x]> h) | None => (Panic, h) end.

(** ** Readers *)

(** A value with the owned and the shared addresses that it was read from. *)
Definition rd (A : Type) : Type := heap cell → option (A * (gset loc * gset loc)).

#[export] Instance rd_ret : MRet rd := λ A a h, Some (a, (∅, ∅)).
#[export] Instance rd_bind : MBind rd := λ A B k m h,
  match m h with
  | Some (a, (o, s)) =>
      match k a h with Some (b, (o', s')) => Some (b, (o ∪ o', s ∪ s')) | None => None end
  | None => None
  end.

(** The content of a cell that a deep copy replaces, and of one that it keeps. *)
Definition owned_cell {T} `{CellType cell T} (l : loc) : rd T := λ h,
  x ← h !! l ≫= of_cell; Some (x, ({[l]}, ∅)).
Definition shared_cell {T} `{CellType cell T} (l : loc) : rd T := λ h,
  x ← h !! l ≫= of_cell; Some (x, (∅, {[l]})).

(** All that a reader reads is shared. *)
Definition as_shared {A} (m : rd A) : rd A := λ h,
  match m h with Some (a, (o, s)) => Some (a, (∅, o ∪ s)) | None => None end.

(** A pointer that may be nil. *)
Definition rd_ptr {T V} `{CellType cell T} (r : T → rd V) (p : option loc) : rd (option V) :=
  match p with
  | None => mret None
  | Some l => x ← owned_cell l; v ← r x; mret (Some v)
  end.

Fixpoint rd_list {T V} (r : T → rd V) (l : list T) : rd (list V) :=
  match l with [] => mret [] | x :: l' => v ← r x; vs ← rd_list r l'; mret (v :: vs) end.

(** ** What a reader depends on *)

(** A reader depends on the addresses it names only, and these are in the heap. *)
Class Local {A} (m : rd A) := local : ∀ h a o s, m h = Some (a, (o, s)) →
  o ∪ s ⊆ dom h ∧ ∀ h2 : heap cell, (∀ l, l ∈ o ∪ s → h2 !! l = h !! l) → m h2 = Some (a, (o, s)).

#[export] Instance ret_local {A} (a : A) : Local (mret a : rd A).
Proof. intros h b o s [= <- <- <-]. split; [set_solver|done]. Qed.

Lemma rd_bind_inv {A B} (m : rd A) (k : A → rd B) h b o s : (m ≫= k) h = Some (b, (o, s)) →
  ∃ a o1 s1 o2 s2, m h = Some (a, (o1, s1)) ∧ k a h = Some (b, (o2, s2)) ∧ o = o1 ∪ o2 ∧ s = s1 ∪ s2.
Proof.
  unfold mbind, rd_bind. destruct (m h) as [[a [o1 s1]]|]; [|done].
  destruct (k a h) as [[b' [o2 s2]]|] eqn:E; [|done]. intros [= -> <- <-]. by exists a, o1, s1, o2, s2.
Qed.

Lemma rd_bind_run {A B} (m : rd A) (k : A → rd B) h a b o1 s1 o2 s2 :
  m h = Some (a, (o1, s1)) → k a h = Some (b, (o2, s2)) → (m ≫= k) h = Some (b, (o1 ∪ o2, s1 ∪ s2)).
Proof. unfold mbind, rd_bind. by intros -> ->. Qed.

#[export] Instance bind_local {A B} (m : rd A) (k : A → rd B) :
  Local m → (∀ a, Local (k a)) → Local (m ≫= k).
Proof.
  intros Hm Hk h b o s (a & o1 & s1 & o2 & s2 & H1 & H2 & -> & ->)%rd_bind_inv.
  apply Hm in H1 as [D1 H1]. apply Hk in H2 as [D2 H2]. split; [set_solver|]. intros h2 Heq.
  apply (rd_bind_run _ _ _ a); [apply H1|apply H2]; intros l Hl; apply Heq; set_solver.
Qed.

Lemma cell_local {T} `{CellType cell T} l (f : gset loc * gset loc) (h : heap cell) a o s : f.1 ∪ f.2 = {[l]} →
  (x ← h !! l ≫= of_cell; Some (x, f)) = Some (a, (o, s)) →
  o ∪ s ⊆ dom h ∧ ∀ h2 : heap cell, (∀ l, l ∈ o ∪ s → h2 !! l = h !! l) → (x ← h2 !! l ≫= of_cell; Some (x, f)) = Some (a, (o, s)).
Proof.
  intros Hf H1. destruct (h !! l) as [c|] eqn:E; [|done]. cbn in H1. destruct (of_cell c) as [x|] eqn:Ec; [|done]. cbn in H1.
  injection H1 as <- ->. cbn in Hf. split.
  - rewrite Hf. intros l' ->%elem_of_singleton. by apply elem_of_dom.
  - intros h2 Heq. assert (h2 !! l = Some c) as E2 by (rewrite <- E; apply Heq; set_solver). rewrite E2. cbn. by rewrite Ec.
Qed.

#[export] Instance owned_local {T} `{CellType cell T} l : Local (owned_cell l : rd T).
Proof. intros h a o s. apply cell_local. cbn. set_solver. Qed.
#[export] Instance shared_local {T} `{CellType cell T} l : Local (shared_cell l : rd T).
Proof. intros h a o s. apply cell_local. cbn. set_solver. Qed.

#[export] Instance as_shared_local {A} (m : rd A) : Local m → Local (as_shared m).
Proof.
  intros Hm h a o s. unfold as_shared. destruct (m h) as [[b [o1 s1]]|] eqn:E; [|done]. intros [= -> <- <-].
  apply Hm in E as [D E]. split; [set_solver|]. intros h2 Heq. rewrite E; [done|]. set_solver.
Qed.

#[export] Instance rd_ptr_local {T V} `{CellType cell T} (r : T → rd V) p : (∀ x, Local (r x)) → Local (rd_ptr r p).
Proof. intros Hr. destruct p; cbn; apply _. Qed.

#[export] Instance rd_list_local {T V} (r : T → rd V) l : (∀ x, Local (r x)) → Local (rd_list r l).
Proof. intros Hr. induction l; cbn; apply _. Qed.

(** A reader that shares nothing. *)
Class Deep {A} (m : rd A) := deep : ∀ h a o s, m h = Some (a, (o, s)) → s = ∅.

#[export] Instance ret_deep {A} (a : A) : Deep (mret a : rd A).
Proof. by intros h b o s [= _ _ <-]. Qed.
#[export] Instance bind_deep {A B} (m : rd A) (k : A → rd B) : Deep m → (∀ a, Deep (k a)) → Deep (m ≫= k).
Proof. intros Hm Hk h b o s (a & o1 & s1 & o2 & s2 & ->%Hm & ->%Hk & _ & ->)%rd_bind_inv. set_solver. Qed.
#[export] Instance owned_deep {T} `{CellType cell T} l : Deep (owned_cell l : rd T).
Proof. intros h a o s. unfold owned_cell. destruct (h !! l ≫= of_cell); [|done]. by intros [= _ _ <-]. Qed.
#[export] Instance rd_ptr_deep {T V} `{CellType cell T} (r : T → rd V) p : (∀ x, Deep (r x)) → Deep (rd_ptr r p).
Proof. intros Hr. destruct p; cbn; apply _. Qed.
#[export] Instance rd_list_deep {T V} (r : T → rd V) l : (∀ x, Deep (r x)) → Deep (rd_list r l).
Proof. intros Hr. induction l; cbn; apply _. Qed.

(** More cells do not change what is read. *)
Lemma rd_mono {A} (m : rd A) `{!Local m} (h h' : heap cell) r : h ⊆ h' → m h = Some r → m h' = Some r.
Proof.
  intros Hsub. destruct r as [a [o s]]. intros [D H]%local. apply H. intros l Hl%D.
  apply elem_of_dom in Hl as [c Hc]. rewrite Hc. by eapply lookup_weaken.
Qed.

(** ** Deep copies *)

(** [f] returns a structure of the same value; all that it owns is new, what it shares is
    shared with the original, and nothing else has changed. *)
Class copies {T V} (r : T → rd V) (f : T → M (heap cell) T) : Prop :=
  deep_copied : ∀ h x v o s, r x h = Some (v, (o, s)) →
  ∃ y h' o', f x h = (Ret y, h') ∧ h ⊆ h' ∧ r y h' = Some (v, (o', s)) ∧ o' ## dom h.

(** The same in the middle of a function: [m], run from [h], ends with a structure of value
    [v] that owns nothing of the heap [h0] the function started from. *)
Definition yields {T V} (m : M (heap cell) T) (h0 h : heap cell) (r : T → rd V) (v : V) (s : gset loc) : Prop :=
  ∃ y h' o', m h = (Ret y, h') ∧ h0 ⊆ h' ∧ r y h' = Some (v, (o', s)) ∧ o' ## dom h0.

Lemma M_bind_run {A B} (m : M (heap cell) A) (k : A → M (heap cell) B) h a h' : m h = (Ret a, h') → (m ≫= k) h = k a h'.
Proof. unfold mbind, M_bind. by intros ->. Qed.

Lemma load_run {T} `{CellType cell T} l x (h : heap cell) : h !! l ≫= of_cell = Some x → load l h = (Ret x, h).
Proof. unfold load. by intros ->. Qed.

Lemma load_cell {T} `{CellType cell T} l (x : T) (h : heap cell) : h !! l = Some (to_cell x) → load l h = (Ret x, h).
Proof. intros E. apply load_run. rewrite E. apply of_to_cell. Qed.

Lemma cell_mono {T} `{CellType cell T} l (x : T) (h h' : heap cell) : h ⊆ h' → h !! l ≫= of_cell = Some x → h' !! l ≫= of_cell = Some x.
Proof. intros Hs. destruct (h !! l) as [c|] eqn:El; [|done]. by rewrite (lookup_weaken _ _ _ _ El Hs). Qed.

Lemma load_mono {T} `{CellType cell T} l (x : T) (h h' : heap cell) : h ⊆ h' → h !! l ≫= of_cell = Some x → load l h' = (Ret x, h').
Proof. intros Hs Hl. by eapply load_run, cell_mono. Qed.

Lemma store_run {T} `{CellType cell T} l (x : T) (h : heap cell) : is_Some (h !! l) → store l x h = (Ret tt, <[l := to_cell x]> h).
Proof. unfold store. by intros [c ->]. Qed.

(** One field is copied, then the rest. *)
Lemma yields_bind {T1 V1 T V} (r1 : T1 → rd V1) f1 `{Hc : copies T1 V1 r1 f1} a (k : T1 → M (heap cell) T) h0 h (r : T → rd V) v s v1 o1 s1 :
  r1 a h = Some (v1, (o1, s1)) → h0 ⊆ h →
  (∀ y h1 o1', h ⊆ h1 → h0 ⊆ h1 → r1 y h1 = Some (v1, (o1', s1)) → o1' ## dom h0 → yields (k y) h0 h1 r v s) →
  yields (f1 a ≫= k) h0 h r v s.
Proof.
  intros Ha Hsub Hk. destruct (Hc h a v1 o1 s1 Ha) as (y & h1 & o1' & E & H1 & Hy & Hd).
  destruct (Hk y h1 o1') as (z & h' & o' & E' & ?); [done|by etrans|done| |].
  { apply subseteq_dom in Hsub. set_solver. }
  exists z, h', o'. by rewrite (M_bind_run _ _ _ _ _ E).
Qed.

Lemma yields_ret {T V} (y : T) h0 h (r : T → rd V) v o s :
  h0 ⊆ h → r y h = Some (v, (o, s)) → o ## dom h0 → yields (mret y) h0 h r v s.
Proof. intros ???. by exists y, h, o. Qed.

Lemma fresh_new (h : heap cell) : h !! fresh (dom h) = None.
Proof. apply not_elem_of_dom, is_fresh. Qed.

Lemma subseteq_insert_fresh (h h' : heap cell) l c : h ⊆ h' → h !! l = None → h ⊆ <[l := c]> h'.
Proof.
  intros Hs Hl. apply map_subseteq_spec. intros l' c' Hl'. rewrite lookup_insert_ne by congruence.
  by eapply lookup_weaken.
Qed.

(** ** The copies of pointers, slices and maps *)

(** [*out = new(T); ...; **out = y] for a pointer that may be nil. *)
Definition copy_ptr {T} `{CellType cell T, Zero T} (f : T → M (heap cell) T) (p : option loc) : M (heap cell) (option loc) :=
  match p with
  | None => mret None
  | Some l =>
      out ← new (zero : T);
      x ← load l;
      y ← f x;
      _ ← store out y;
      mret (Some out)
  end.

(** [*out = make([]T, len( *in)); for i := range *in { ... }] *)
Definition copy_item {T} `{CellType cell (list T)} (f : T → M (heap cell) T) (l out : loc) (i : nat) : M (heap cell) unit :=
  xs ← (load l : M (heap cell) (list T));
  x ← lift (deref (xs !! i));
  y ← f x;
  ys ← (load out : M (heap cell) (list T));
  store out (<[i := y]> ys).

Definition copy_slice {T} `{CellType cell (list T), Zero T} (f : T → M (heap cell) T) (p : option loc) :
    M (heap cell) (option loc) :=
  match p with
  | None => mret None
  | Some l =>
      xs ← (load l : M (heap cell) (list T));
      out ← new (replicate (length xs) (zero : T));
      _ ← for_each (copy_item f l out) (seq 0 (length xs));
      mret (Some out)
  end.

(** [*out = make(map[string]string, len( *in)); for key, val := range *in { ( *out)[key] = val }] *)
Definition copy_entry `{CellType cell (gmap string string)} (out : loc) (kv : string * string) : M (heap cell) unit :=
  m ← (load out : M (heap cell) (gmap string string));
  store out (<[kv.1 := kv.2]> m).

Definition copy_map `{R : GoRange} `{CellType cell (gmap string string)} (site : nat) (p : option loc) :
    M (heap cell) (option loc) :=
  match p with
  | None => mret None
  | Some l =>
      m ← (load l : M (heap cell) (gmap string string));
      out ← new (∅ : gmap string string);
      _ ← for_each (copy_entry out) (go_range site m);
      mret (Some out)
  end.

(** Reading a slice, and a map of which nil and the empty one are the same. *)
Definition rd_slice {T V} `{CellType cell (list T)} (r : T → rd V) (p : option loc) : rd (option (list V)) :=
  rd_ptr (rd_list r) p.
Definition rd_map `{CellType cell (gmap string string)} (p : option loc) : rd (gmap string string) :=
  match p with None => mret ∅ | Some l => owned_cell l end.

#[export] Instance rd_slice_local {T V} `{CellType cell (list T)} (r : T → rd V) p : (∀ x, Local (r x)) → Local (rd_slice r p).
Proof. intros Hr. apply _. Qed.
#[export] Instance rd_map_deep `{CellType cell (gmap string string)} p : Deep (rd_map p).
Proof. destruct p; cbn; apply _. Qed.
#[export] Instance rd_map_local `{CellType cell (gmap string string)} p : Local (rd_map p).
Proof. destruct p; cbn; apply _. Qed.

Lemma owned_cell_inv {T} `{CellType cell T} l (h : heap cell) x o s : (owned_cell l : rd T) h = Some (x, (o, s)) →
  h !! l ≫= of_cell = Some x ∧ o = {[l]} ∧ s = ∅.
Proof. unfold owned_cell. destruct (h !! l ≫= of_cell); [|done]. by intros [= -> <- <-]. Qed.

Lemma owned_cell_run {T} `{CellType cell T} l (h : heap cell) (x : T) : h !! l = Some (to_cell x) →
  (owned_cell l : rd T) h = Some (x, ({[l]}, ∅)).
Proof. unfold owned_cell. intros ->. cbn. by rewrite of_to_cell. Qed.

(** What is read without a cell can be read in the heap without it. *)
Lemma rd_delete {A} (m : rd A) `{!Local m} h a o s l : m h = Some (a, (o, s)) → l ∉ o ∪ s → m (delete l h) = Some (a, (o, s)).
Proof. intros [_ H]%local Hl. apply H. intros l' Hl'. rewrite lookup_delete_ne; [done|congruence]. Qed.

(** A field without pointers. *)
#[export] Instance ret_copies {T} : copies (mret : T → rd T) mret.
Proof. intros h x v o s [= -> <- <-]. exists v, h, ∅. split; [done|]. split; [done|]. split; [done|]. set_solver. Qed.

(** A new cell for [x], filled by a copy of [x]. *)
#[export] Instance copy_ptr_copies {T V} `{CellType cell T, Zero T} (r : T → rd V) f : (∀ x, Local (r x)) → copies r f → copies (rd_ptr r) (copy_ptr f).
Proof.
  intros Hr Hf h p v o s. destruct p as [l|]; cbn [rd_ptr copy_ptr].
  2: { intros [= <- <- <-]. exists None, h, ∅. split; [done|]. split; [done|]. split; [done|]. set_solver. }
  intros (x & ? & ? & ? & ? & (Hl & -> & ->)%owned_cell_inv & (w & o2 & s2 & ? & ? & Hx & [= <- <- <-] & -> & ->)%rd_bind_inv & -> & ->)%rd_bind_inv.
  set (out := fresh (dom h)). pose proof (fresh_new h) as Hout. fold out in Hout.
  assert (h ⊆ <[out := to_cell (zero : T)]> h) as H1 by (apply subseteq_insert_fresh; [reflexivity|done]).
  destruct (Hf _ x w o2 s2 (rd_mono _ _ _ _ H1 Hx)) as (y & h2 & o' & E & H2 & Hy & Hd).
  assert (is_Some (h2 !! out)) as Hout2 by (eexists; eapply lookup_weaken; [|exact H2]; apply lookup_insert_eq).
  destruct (local _ _ _ _ Hx) as [D _].
  assert (out ∉ o' ∪ s2) as Hni by (apply not_elem_of_dom in Hout; rewrite dom_insert in Hd; set_solver).
  exists (Some out), (<[out := to_cell y]> h2), ({[out]} ∪ (o' ∪ ∅)). split; [|split; [|split]].
  - rewrite (M_bind_run _ _ _ _ _ (eq_refl : new (zero : T) h = (Ret out, _))).
    rewrite (M_bind_run _ _ _ _ _ (load_mono _ _ _ _ H1 Hl)).
    by rewrite (M_bind_run _ _ _ _ _ E), (M_bind_run _ _ _ _ _ (store_run _ _ _ Hout2)).
  - apply subseteq_insert_fresh; [etrans; [exact H1|exact H2]|done].
  - assert (r y (<[out := to_cell y]> h2) = Some (w, (o', s2))) as Hy'.
    { destruct (local _ _ _ _ Hy) as [_ Hloc]. apply Hloc. intros l' Hl'. rewrite lookup_insert_ne; [done|intros <-; set_solver]. }
    apply (rd_bind_run _ _ _ y); [apply owned_cell_run, lookup_insert_eq|].
    by apply (rd_bind_run _ _ _ w _ o' s2 ∅ ∅).
  - apply not_elem_of_dom in Hout. rewrite dom_insert in Hd. set_solver.
Qed.

Lemma copy_item_run {T} `{CellType cell (list T)} (f : T → M (heap cell) T) l out i (h h1 : heap cell) xs x y ys :
  h !! l ≫= of_cell = Some xs → xs !! i = Some x → f x h = (Ret y, h1) → h1 !! out = Some (to_cell ys) →
  copy_item f l out i h = (Ret tt, <[out := to_cell (<[i := y]> ys)]> h1).
Proof.
  intros Hl Hi E Ho. unfold copy_item. rewrite (M_bind_run _ _ _ _ _ (load_run _ _ _ Hl)). rewrite (M_bind_run _ _ h x h).
  2: { unfold lift. by rewrite Hi. }
  rewrite (M_bind_run _ _ _ _ _ E).
  rewrite (M_bind_run _ _ _ _ _ (load_cell _ _ _ Ho)).
  apply store_run. by eexists.
Qed.

Lemma slice_loop {T V} `{CellType cell (list T), Zero T} (r : T → rd V) f l out (full : list T) (h0 : heap cell) :
  (∀ x, Local (r x)) → copies r f → h0 !! l ≫= of_cell = Some full →
  ∀ xs2 xs1 ys1 h vs o s, full = xs1 ++ xs2 → length ys1 = length xs1 → h0 ⊆ delete out h →
  h !! out = Some (to_cell (ys1 ++ replicate (length xs2) zero)) → rd_list r xs2 h0 = Some (vs, (o, s)) →
  ∃ ys2 h' o', for_each (copy_item f l out) (seq (length xs1) (length xs2)) h = (Ret tt, h') ∧
    h0 ⊆ delete out h' ∧ h' !! out = Some (to_cell (ys1 ++ ys2)) ∧
    delete out h ⊆ delete out h' ∧ rd_list r ys2 (delete out h') = Some (vs, (o', s)) ∧ o' ## dom h0.
Proof.
  intros Hr Hf Hfull xs2. induction xs2 as [|x xs2 IH]; intros xs1 ys1 h vs o s Hxs Hlen Hsub Hout.
  { intros [= <- <- <-]. exists [], h, ∅. split; [done|]. split; [done|]. split; [done|]. split; [done|]. split; [done|]. set_solver. }
  intros (v & o1 & s1 & o2 & s2 & Hx & (vs' & o3 & s3 & ? & ? & Hxs2 & [= <- <- <-] & -> & ->)%rd_bind_inv & -> & ->)%rd_bind_inv.
  assert (delete out h ⊆ h) as Hdel by apply delete_subseteq.
  assert (h0 ⊆ h) as Hsub' by (etrans; [exact Hsub|exact Hdel]).
  destruct (local _ _ _ _ Hx) as [D _].
  destruct (Hf h x v o1 s1 (rd_mono _ _ _ _ Hsub' Hx)) as (y & h1 & o' & E & H1 & Hy & Hd).
  assert (h1 !! out = Some (to_cell (ys1 ++ replicate (length (x :: xs2)) zero))) as Hout1 by (by eapply lookup_weaken).
  set (h2 := <[out := to_cell ((ys1 ++ [y]) ++ replicate (length xs2) zero)]> h1).
  assert (delete out h2 = delete out h1) as Ed by apply delete_insert_eq.
  assert (delete out h ⊆ delete out h2) as Hm by (rewrite Ed; by apply delete_mono).
  assert (out ∉ o' ∪ s1) as Hni.
  { assert (out ∈ dom h) by (apply elem_of_dom; by eexists). assert (dom h0 ⊆ dom (delete out h)) as Dd by (by apply subseteq_dom).
    rewrite dom_delete in Dd. set_solver. }
  assert (h0 ⊆ delete out h2) as Hsub2 by (etrans; [exact Hsub|exact Hm]).
  destruct (IH (xs1 ++ [x]) (ys1 ++ [y]) h2 vs' o3 s3) as (ys2 & h' & o'' & El & G1 & G2 & G3 & G4 & G5).
  - by rewrite Hxs, <- (assoc_L (++)).
  - rewrite !length_app. cbn. lia.
  - done.
  - apply lookup_insert_eq.
  - done.
  - exists (y :: ys2), h', (o' ∪ (o'' ∪ ∅)). split; [|split; [done|split; [|split; [|split]]]].
    + cbn [length seq for_each]. rewrite length_app, Nat.add_1_r in El.
      assert (full !! length xs1 = Some x) as Hi by (rewrite Hxs; by apply list_lookup_middle).
      rewrite (M_bind_run _ _ _ _ _ (copy_item_run f l out _ h h1 full x y _ (cell_mono _ _ _ _ Hsub' Hfull) Hi E Hout1)).
      assert (<[length xs1 := y]> (ys1 ++ replicate (length (x :: xs2)) zero) = (ys1 ++ [y]) ++ replicate (length xs2) zero) as ->.
      { rewrite <- Hlen, <- (Nat.add_0_r (length ys1)), insert_app_r, <- (assoc_L (++)). done. }
      exact El.
    + rewrite G2. by rewrite <- (assoc_L (++)).
    + etrans; [exact Hm|exact G3].
    + assert (r y (delete out h2) = Some (v, (o', s1))) as Hy2 by (rewrite Ed; by apply rd_delete).
      apply (rd_bind_run _ _ _ v); [by eapply rd_mono|]. by apply (rd_bind_run _ _ _ vs' _ o'' s3 ∅ ∅).
    + assert (dom h0 ⊆ dom h) by (by apply subseteq_dom). set_solver.
Qed.

#[export] Instance copy_slice_copies {T V} `{CellType cell (list T), Zero T} (r : T → rd V) f :
  (∀ x, Local (r x)) → copies r f → copies (rd_slice r) (copy_slice f).
Proof.
  intros Hr Hf h p v o s. destruct p as [l|]; cbn [rd_slice rd_ptr copy_slice].
  2: { intros [= <- <- <-]. exists None, h, ∅. split; [done|]. split; [done|]. split; [done|]. set_solver. }
  intros (xs & ? & ? & ? & ? & (Hl & -> & ->)%owned_cell_inv & (w & o2 & s2 & ? & ? & Hx & [= <- <- <-] & -> & ->)%rd_bind_inv & -> & ->)%rd_bind_inv.
  set (out := fresh (dom h)). pose proof (fresh_new h) as Hout. fold out in Hout.
  set (h1 := <[out := to_cell (replicate (length xs) (zero : T))]> h).
  destruct (slice_loop r f l out xs h Hr Hf Hl xs [] [] h1 w o2 s2) as (ys & h' & o' & E & G1 & G2 & _ & G4 & G5); try done.
  - unfold h1. by rewrite delete_insert_id.
  - apply lookup_insert_eq.
  - assert (delete out h' ⊆ h') as Hdel by apply delete_subseteq.
    exists (Some out), h', ({[out]} ∪ (o' ∪ ∅)). split; [|split; [|split]].
    + rewrite (M_bind_run _ _ _ _ _ (load_run _ _ _ Hl)).
      rewrite (M_bind_run _ _ _ _ _ (eq_refl : new (replicate (length xs) (zero : T)) h = (Ret out, h1))).
      by rewrite (M_bind_run _ _ _ _ _ E).
    + etrans; [exact G1|exact Hdel].
    + apply (rd_bind_run _ _ _ ys); [by apply owned_cell_run|].
      apply (rd_bind_run _ _ _ w _ o' s2 ∅ ∅); [exact (rd_mono _ _ _ _ Hdel G4)|done].
    + apply not_elem_of_dom in Hout. set_solver.
Qed.

Lemma map_loop `{CellType cell (gmap string string)} (l : list (string * string)) out : ∀ (h : heap cell) m,
  h !! out = Some (to_cell m) →
  for_each (copy_entry out) l h =
  (Ret tt, <[out := to_cell (foldl (λ m (kv : string * string), <[kv.1 := kv.2]> m) m l)]> h).
Proof.
  induction l as [|kv l IH]; intros h m Hm; cbn [for_each foldl]; [by rewrite insert_id|].
  rewrite (M_bind_run _ _ _ tt (<[out := to_cell (<[kv.1 := kv.2]> m)]> h)).
  2: { unfold copy_entry. rewrite (M_bind_run _ _ _ _ _ (load_cell _ _ _ Hm)).
    apply store_run. by eexists. }
  rewrite (IH _ (<[kv.1 := kv.2]> m)) by apply lookup_insert_eq.
  by rewrite insert_insert_eq.
Qed.

(** Copying a map entry by entry, in whatever order, gives the map. *)
Lemma copy_entries `{R : GoRange} site (m : gmap string string) :
  foldl (λ m (kv : string * string), <[kv.1 := kv.2]> m) ∅ (go_range site m) = m.
Proof.
  apply map_eq. intros k.
  rewrite (foldl_pointwise (λ (m : gmap string string) k, m !! k) _ (λ _ v _, Some v)).
  - rewrite lookup_empty. by destruct (m !! k).
  - intros st k1 v k2. cbn. rewrite lookup_insert. by case_decide.
Qed.

#[export] Instance copy_map_copies `{R : GoRange} `{CellType cell (gmap string string)} site : copies rd_map (copy_map site).
Proof.
  intros h p m o s. destruct p as [l|]; cbn [rd_map copy_map].
  2: { intros [= <- <- <-]. exists None, h, ∅. split; [done|]. split; [done|]. split; [done|]. set_solver. }
  intros (Hl & -> & ->)%owned_cell_inv. set (out := fresh (dom h)). pose proof (fresh_new h) as Hout. fold out in Hout.
  set (h1 := <[out := to_cell (∅ : gmap string string)]> h).
  exists (Some out), (<[out := to_cell m]> h1), {[out]}. split; [|split; [|split]].
  - rewrite (M_bind_run _ _ _ _ _ (load_run _ _ _ Hl)).
    rewrite (M_bind_run _ _ _ _ _ (eq_refl : new (∅ : gmap string string) h = (Ret out, h1))).
    assert (h1 !! out = Some (to_cell (∅ : gmap string string))) as H1 by apply lookup_insert_eq.
    rewrite (M_bind_run _ _ _ _ _ (map_loop (go_range site m) out h1 ∅ H1)). by rewrite copy_entries.
  - unfold h1. rewrite insert_insert_eq. apply subseteq_insert_fresh; [reflexivity|done].
  - apply owned_cell_run, lookup_insert_eq.
  - apply not_elem_of_dom in Hout. set_solver.
Qed.
End heap.

Arguments rd : clear implicits.
