(* ===== verification/Types.v ===== *)
(** * The API types: pkg/apis/aadpodidentity (internal) and its v1 package, with the
    conversions between them, the ordering of bindings and the namespaced-identity test.

    [ObjectMeta] and [TypeMeta] are the Kubernetes metadata structs: the fields the code
    reads or writes are fields here, the others are carried along in [MetaRest], which no
    definition inspects. [int], [int32] and the integer enumerations are [Z]; the code
    only copies and compares them. *)

From S2P Require Import Prelude GoStrings.

(** ** Kubernetes metadata *)

Record ObjectMeta := mkObjectMeta {
  Name : string;
  Namespace : string;
  ResourceVersion : string;
  Labels : gmap string string;
  Annotations : gmap string string;
  Finalizers : list string;
  MetaRest : list (string * string)
}.

Record TypeMeta := mkTypeMeta { Kind : string; APIVersion : string }.

Record SecretReference := mkSecretReference { sr_Name : string; sr_Namespace : string }.

#[export] Instance ObjectMeta_eq_dec : EqDecision ObjectMeta.
Proof. solve_decision. Defined.
#[export] Instance TypeMeta_eq_dec : EqDecision TypeMeta.
Proof. solve_decision. Defined.
#[export] Instance SecretReference_eq_dec : EqDecision SecretReference.
Proof. solve_decision. Defined.

(** Zero values of Go structs. *)
Definition zeroMeta : ObjectMeta := mkObjectMeta "" "" "" ∅ ∅ [] [].
Definition zeroTypeMeta : TypeMeta := mkTypeMeta "" "".
Definition zeroSecretRef : SecretReference := mkSecretReference "" "".

(** [ObjectMeta.SetLabels] *)
Definition SetLabels (m : ObjectMeta) (l : gmap string string) : ObjectMeta :=
  mkObjectMeta (Name m) (Namespace m) (ResourceVersion m) l (Annotations m) (Finalizers m) (MetaRest m).

(** [ObjectMeta.SetFinalizers] *)
Definition SetFinalizers (m : ObjectMeta) (l : list string) : ObjectMeta :=
  mkObjectMeta (Name m) (Namespace m) (ResourceVersion m) (Labels m) (Annotations m) l (MetaRest m).

(** ** Constants of types.go *)

Inductive EventType :=
  | PodCreated | PodDeleted | PodUpdated
  | IdentityCreated | IdentityDeleted | IdentityUpdated
  | BindingCreated | BindingDeleted | BindingUpdated
  | Exit.

#[export] Instance EventType_eq_dec : EqDecision EventType.
Proof. solve_decision. Defined.

Definition CRDGroup : string := "aadpodidentity.k8s.io".
Definition CRDVersion : string := "v1".
Definition CRDLabelKey : string := "aadpodidbinding".
Definition BehaviorKey : string := "aadpodidentity.k8s.io/Behavior".
Definition BehaviorNamespaced : string := "namespaced".
Definition AssignedIDCreated : string := "Created".
Definition AssignedIDAssigned : string := "Assigned".
Definition AssignedIDUnAssigned : string := "Unassigned".

Definition AzureIDResource : string := "azureidentities".
Definition AzureIDBindingResource : string := "azureidentitybindings".
Definition AzureAssignedIDResource : string := "azureassignedidentities".
Definition AzurePodIdentityExceptionResource : string := "azurepodidentityexceptions".

(** [IdentityType] is an [int]: values other than the three constants reach the code. *)
Definition IdentityType : Type := Z.
Definition UserAssignedMSI : IdentityType := 0%Z.
Definition ServicePrincipal : IdentityType := 1%Z.
Definition ServicePrincipalCertificate : IdentityType := 2%Z.

(** ** The internal types *)

Record AzureIdentitySpec := mkAzureIdentitySpec {
  ais_ObjectMeta : ObjectMeta;
  ais_Type : Z;
  ais_ResourceID : string;
  ais_ClientID : string;
  ais_ClientPassword : SecretReference;
  ais_TenantID : string;
  ais_AuxiliaryTenantIDs : list string;
  ais_ADResourceID : string;
  ais_ADEndpoint : string;
  ais_Replicas : option Z
}.

Record AzureIdentityStatus := mkAzureIdentityStatus {
  aist_ObjectMeta : ObjectMeta;
  aist_AvailableReplicas : Z
}.

Record AzureIdentity := mkAzureIdentity {
  ai_TypeMeta : TypeMeta;
  ai_ObjectMeta : ObjectMeta;
  ai_Spec : AzureIdentitySpec;
  ai_Status : AzureIdentityStatus
}.

Record AzureIdentityBindingSpec := mkAzureIdentityBindingSpec {
  aibs_ObjectMeta : ObjectMeta;
  aibs_AzureIdentity : string;
  aibs_Selector : string;
  aibs_Weight : Z
}.

Record AzureIdentityBindingStatus := mkAzureIdentityBindingStatus {
  aibst_ObjectMeta : ObjectMeta;
  aibst_AvailableReplicas : Z
}.

Record AzureIdentityBinding := mkAzureIdentityBinding {
  aib_TypeMeta : TypeMeta;
  aib_ObjectMeta : ObjectMeta;
  aib_Spec : AzureIdentityBindingSpec;
  aib_Status : AzureIdentityBindingStatus
}.

(** The two references are pointers: [None] is nil. *)
Record AzureAssignedIdentitySpec := mkAzureAssignedIdentitySpec {
  aas_ObjectMeta : ObjectMeta;
  aas_AzureIdentityRef : option AzureIdentity;
  aas_AzureBindingRef : option AzureIdentityBinding;
  aas_Pod : string;
  aas_PodNamespace : string;
  aas_NodeName : string;
  aas_Replicas : option Z
}.

Record AzureAssignedIdentityStatus := mkAzureAssignedIdentityStatus {
  aast_ObjectMeta : ObjectMeta;
  aast_Status : string;
  aast_AvailableReplicas : Z
}.

Record AzureAssignedIdentity := mkAzureAssignedIdentity {
  aai_TypeMeta : TypeMeta;
  aai_ObjectMeta : ObjectMeta;
  aai_Spec : AzureAssignedIdentitySpec;
  aai_Status : AzureAssignedIdentityStatus
}.

Record AzurePodIdentityExceptionSpec := mkAzurePodIdentityExceptionSpec {
  apes_ObjectMeta : ObjectMeta;
  apes_PodLabels : gmap string string
}.

Record AzurePodIdentityExceptionStatus := mkAzurePodIdentityExceptionStatus {
  apest_ObjectMeta : ObjectMeta;
  apest_Status : string
}.

Record AzurePodIdentityException := mkAzurePodIdentityException {
  ape_TypeMeta : TypeMeta;
  ape_ObjectMeta : ObjectMeta;
  ape_Spec : AzurePodIdentityExceptionSpec;
  ape_Status : AzurePodIdentityExceptionStatus
}.

#[export] Instance AzureIdentitySpec_eq_dec : EqDecision AzureIdentitySpec.
Proof. solve_decision. Defined.
#[export] Instance AzureIdentityStatus_eq_dec : EqDecision AzureIdentityStatus.
Proof. solve_decision. Defined.
#[export] Instance AzureIdentity_eq_dec : EqDecision AzureIdentity.
Proof. solve_decision. Defined.
#[export] Instance AzureIdentityBindingSpec_eq_dec : EqDecision AzureIdentityBindingSpec.
Proof. solve_decision. Defined.
#[export] Instance AzureIdentityBindingStatus_eq_dec : EqDecision AzureIdentityBindingStatus.
Proof. solve_decision. Defined.
#[export] Instance AzureIdentityBinding_eq_dec : EqDecision AzureIdentityBinding.
Proof. solve_decision. Defined.
#[export] Instance AzureAssignedIdentitySpec_eq_dec : EqDecision AzureAssignedIdentitySpec.
Proof. solve_decision. Defined.
#[export] Instance AzureAssignedIdentityStatus_eq_dec : EqDecision AzureAssignedIdentityStatus.
Proof. solve_decision. Defined.
#[export] Instance AzureAssignedIdentity_eq_dec : EqDecision AzureAssignedIdentity.
Proof. solve_decision. Defined.

(** ** utils.go *)

(** [IsNamespacedIdentity] *)
Definition IsNamespacedIdentity (azureID : AzureIdentity) : bool :=
  match Annotations (ai_ObjectMeta azureID) !! BehaviorKey with
  | Some val => if bool_decide (val = BehaviorNamespaced) then true else false
  | None => false
  end.

Lemma IsNamespacedIdentity_spec a :
  IsNamespacedIdentity a = true ↔ Annotations (ai_ObjectMeta a) !! BehaviorKey = Some BehaviorNamespaced.
Proof.
  unfold IsNamespacedIdentity. destruct (_ !! _) as [v|]; [|done].
  destruct (bool_decide_reflect (v = BehaviorNamespaced)); naive_solver.
Qed.

(** ** sort.go: the order on bindings *)

(** [AzureIdentityBindings.Less], on the two elements it compares. *)
Definition Less (a b : AzureIdentityBinding) : bool :=
  if bool_decide (Namespace (aib_ObjectMeta a) = Namespace (aib_ObjectMeta b))
  then str_ltb (Name (aib_ObjectMeta a)) (Name (aib_ObjectMeta b))
  else str_ltb (Namespace (aib_ObjectMeta a)) (Namespace (aib_ObjectMeta b)).

(** The key that identifies a binding in the cluster. *)
Definition binding_key (b : AzureIdentityBinding) : string * string :=
  (Namespace (aib_ObjectMeta b), Name (aib_ObjectMeta b)).

Lemma Less_irrefl a : Less a a = false.
Proof. unfold Less. by rewrite bool_decide_true, str_ltb_irrefl. Qed.

Lemma Less_trans a b c : Less a b = true → Less b c = true → Less a c = true.
Proof.
  unfold Less. repeat case_bool_decide; try congruence.
  - apply str_ltb_trans.
  - intros L1 L2. pose proof (str_ltb_trans _ _ _ L1 L2) as L3.
    replace (Namespace (aib_ObjectMeta c)) with (Namespace (aib_ObjectMeta a)) in L3 by congruence.
    by rewrite str_ltb_irrefl in L3.
  - apply str_ltb_trans.
Qed.

Lemma Less_total a b : Less a b = false → Less b a = false → binding_key a = binding_key b.
Proof.
  unfold Less, binding_key. repeat case_bool_decide; try congruence.
  - intros L1 L2. f_equal; [done|]. by apply str_ltb_total.
  - intros L1 L2. by pose proof (str_ltb_total _ _ L1 L2).
Qed.

(** [sort.Sort(AzureIdentityBindings(_))]. The library leaves the relative order of
    equivalent elements open; keys of objects in a cluster are distinct, and
    [sort_bindings_canonical] shows that the result is then the only sorted
    permutation. *)
Fixpoint insert_binding (x : AzureIdentityBinding) (l : list AzureIdentityBinding) :
    list AzureIdentityBinding :=
  match l with
  | [] => [x]
  | y :: l' => if Less y x then y :: insert_binding x l' else x :: l
  end.

Definition sort_bindings (l : list AzureIdentityBinding) : list AzureIdentityBinding :=
  foldr insert_binding [] l.

(** No later element is [Less] than an earlier one. *)
Definition bindings_sorted (l : list AzureIdentityBinding) : Prop :=
  StronglySorted (λ a b, Less b a = false) l.

Lemma insert_binding_perm x l : insert_binding x l ≡ₚ x :: l.
Proof.
  induction l as [|y l IH]; simpl; [done|]. destruct (Less y x); [|done].
  rewrite IH. apply Permutation_swap.
Qed.

Lemma sort_bindings_perm l : sort_bindings l ≡ₚ l.
Proof. induction l as [|x l IH]; simpl; [done|]. by rewrite insert_binding_perm, IH. Qed.

Lemma insert_binding_sorted x l : bindings_sorted l → bindings_sorted (insert_binding x l).
Proof.
  intros Hl. induction Hl as [|y l Hl IH Hy]; simpl; [repeat constructor|].
  destruct (Less y x) eqn:E.
  - constructor; [done|]. apply Forall_forall. intros z Hz.
    rewrite insert_binding_perm in Hz. apply elem_of_cons in Hz as [->|Hz].
    + destruct (Less x y) eqn:E'; [|done]. by rewrite <- (Less_irrefl x), (Less_trans _ _ _ E' E).
    + by eapply Forall_forall in Hy.
  - constructor; [by constructor|]. constructor; [done|].
    apply Forall_forall. intros z Hz. eapply Forall_forall in Hy; [|done].
    destruct (Less z x) eqn:E'; [|done].
    destruct (Less x y) eqn:E''; [by rewrite <- Hy, (Less_trans _ _ _ E' E'')|].
    injection (Less_total _ _ E E'') as Hns Hn. revert E' Hy. unfold Less.
    rewrite Hns, Hn. congruence.
Qed.

Lemma sort_bindings_sorted l : bindings_sorted (sort_bindings l).
Proof. induction l as [|x l IH]; simpl; [constructor|]. by apply insert_binding_sorted. Qed.

(** Two sorted permutations of bindings with distinct keys are equal. *)
Lemma bindings_sorted_unique l1 l2 :
  NoDup (binding_key <$> l1) → l1 ≡ₚ l2 → bindings_sorted l1 → bindings_sorted l2 → l1 = l2.
Proof.
  intros Hnd Hp H1. revert l2 Hnd Hp. induction H1 as [|x l1 Hl1 IH Hx]; intros l2 Hnd Hp H2.
  { by apply Permutation_nil in Hp as ->. }
  destruct H2 as [|y l2 Hl2 Hy]; [by apply Permutation_sym, Permutation_nil in Hp|].
  assert (x = y) as ->.
  { assert (y ∈ x :: l1) as Hyin by (rewrite Hp; left).
    assert (x ∈ y :: l2) as Hxin by (rewrite <- Hp; left).
    apply elem_of_cons in Hyin as [|Hyin]; [done|]. apply elem_of_cons in Hxin as [|Hxin]; [done|].
    eapply Forall_forall in Hx; [|done]. eapply Forall_forall in Hy; [|done].
    pose proof (Less_total _ _ Hy Hx) as Hk.
    rewrite fmap_cons in Hnd. apply NoDup_cons in Hnd as [Hnin _]. exfalso. apply Hnin.
    rewrite Hk. by apply list_elem_of_fmap_2. }
  f_equal. apply IH; [|by eapply Permutation_cons_inv|done].
  rewrite fmap_cons in Hnd. by apply NoDup_cons in Hnd as [].
Qed.

(** The sorted list does not depend on the order in which the bindings were listed. *)
Lemma sort_bindings_canonical l1 l2 :
  NoDup (binding_key <$> l1) → l1 ≡ₚ l2 → sort_bindings l1 = sort_bindings l2.
Proof.
  intros Hnd Hp. apply bindings_sorted_unique; [|by rewrite !sort_bindings_perm|..].
  - by rewrite sort_bindings_perm.
  - apply sort_bindings_sorted.
  - apply sort_bindings_sorted.
Qed.

(** ** The Kubernetes objects the code reads

    The fields of [corev1.Pod], [corev1.Node] and [corev1.Secret] that the code uses. *)

Record OwnerReference := mkOwnerReference { or_Kind : string; or_Name : string }.

Record Pod := mkPod {
  pod_ObjectMeta : ObjectMeta;
  pod_OwnerReferences : list OwnerReference;
  pod_NodeName : string;
  pod_Phase : string;
  pod_PodIP : string
}.

Record Node := mkNode { node_Name : string; node_ProviderID : string }.

Record Secret := mkSecret { secret_Data : gmap string string }.
