(* ===== verification/DeepCopy.v ===== *)
(** * The generated deep copies
    (pkg/apis/aadpodidentity/aadpodidentity_deepcopy_generated.go and its v1 counterpart).

    The structs as they lie in memory: maps, slices and pointers are addresses of a heap, [None]
    is nil. The structs of the two packages have the same fields and share their
    representation; each package has its own functions, those of v1 with names that start
    with [V1]. They differ in the four list types, where the internal package copies [ListMeta]
    deeply and the v1 package assigns it.

    [metav1.ObjectMeta] and [metav1.ListMeta] are structs of apimachinery: their
    representation and their [DeepCopyInto] are parameters, with the law that these copies are deep. *)

From S2P Require Import Prelude GoStrings Types GoHeap.

(** ** The metadata structs of apimachinery in memory *)

Class MetaTypes := {
  Meta : Type;          (* metav1.ObjectMeta *)
  LMeta : Type;         (* metav1.ListMeta *)
  LibCell : Type;       (* what they point to, besides strings, maps and numbers *)
  zeroMeta_mem : Meta;
  zeroLMeta_mem : LMeta
}.

(** What a [metav1.ListMeta] stands for. *)
Record ListMeta := mkListMeta {
  lm_SelfLink : string;
  lm_ResourceVersion : string;
  lm_Continue : string;
  lm_RemainingItemCount : option Z
}.

Section types.
Context `{MT : MetaTypes}.

(** ** The structs in memory *)

Record mAzureIdentitySpec := mk_mAzureIdentitySpec {
  mais_ObjectMeta : Meta;
  mais_Type : Z;
  mais_ResourceID : string;
  mais_ClientID : string;
  mais_ClientPassword : SecretReference;
  mais_TenantID : string;
  mais_AuxiliaryTenantIDs : option loc;
  mais_ADResourceID : string;
  mais_ADEndpoint : string;
  mais_Replicas : option loc
}.

Record mAzureIdentityStatus := mk_mAzureIdentityStatus {
  maist_ObjectMeta : Meta;
  maist_AvailableReplicas : Z
}.

Record mAzureIdentity := mk_mAzureIdentity {
  mai_TypeMeta : TypeMeta;
  mai_ObjectMeta : Meta;
  mai_Spec : mAzureIdentitySpec;
  mai_Status : mAzureIdentityStatus
}.

Record mAzureIdentityBindingSpec := mk_mAzureIdentityBindingSpec {
  maibs_ObjectMeta : Meta;
  maibs_AzureIdentity : string;
  maibs_Selector : string;
  maibs_Weight : Z
}.

Record mAzureIdentityBindingStatus := mk_mAzureIdentityBindingStatus {
  maibst_ObjectMeta : Meta;
  maibst_AvailableReplicas : Z
}.

Record mAzureIdentityBinding := mk_mAzureIdentityBinding {
  maib_TypeMeta : TypeMeta;
  maib_ObjectMeta : Meta;
  maib_Spec : mAzureIdentityBindingSpec;
  maib_Status : mAzureIdentityBindingStatus
}.

Record mAzureAssignedIdentitySpec := mk_mAzureAssignedIdentitySpec {
  maas_ObjectMeta : Meta;
  maas_AzureIdentityRef : option loc;
  maas_AzureBindingRef : option loc;
  maas_Pod : string;
  maas_PodNamespace : string;
  maas_NodeName : string;
  maas_Replicas : option loc
}.

Record mAzureAssignedIdentityStatus := mk_mAzureAssignedIdentityStatus {
  maast_ObjectMeta : Meta;
  maast_Status : string;
  maast_AvailableReplicas : Z
}.

Record mAzureAssignedIdentity := mk_mAzureAssignedIdentity {
  maai_TypeMeta : TypeMeta;
  maai_ObjectMeta : Meta;
  maai_Spec : mAzureAssignedIdentitySpec;
  maai_Status : mAzureAssignedIdentityStatus
}.

Record mAzurePodIdentityExceptionSpec := mk_mAzurePodIdentityExceptionSpec {
  mapes_ObjectMeta : Meta;
  mapes_PodLabels : option loc
}.

Record mAzurePodIdentityExceptionStatus := mk_mAzurePodIdentityExceptionStatus {
  mapest_ObjectMeta : Meta;
  mapest_Status : string
}.

Record mAzurePodIdentityException := mk_mAzurePodIdentityException {
  mape_TypeMeta : TypeMeta;
  mape_ObjectMeta : Meta;
  mape_Spec : mAzurePodIdentityExceptionSpec;
  mape_Status : mAzurePodIdentityExceptionStatus
}.

Record mAzureIdentityList := mk_mAzureIdentityList {
  mail_TypeMeta : TypeMeta;
  mail_ListMeta : LMeta;
  mail_Items : option loc
}.

Record mAzureIdentityBindingList := mk_mAzureIdentityBindingList {
  maibl_TypeMeta : TypeMeta;
  maibl_ListMeta : LMeta;
  maibl_Items : option loc
}.

Record mAzureAssignedIdentityList := mk_mAzureAssignedIdentityList {
  maail_TypeMeta : TypeMeta;
  maail_ListMeta : LMeta;
  maail_Items : option loc
}.

Record mAzurePodIdentityExceptionList := mk_mAzurePodIdentityExceptionList {
  mapel_TypeMeta : TypeMeta;
  mapel_ListMeta : LMeta;
  mapel_Items : option loc
}.

(** What a cell of the heap holds. *)
Inductive mcell :=
  | CInt (x : Z)
  | CStrings (x : list string)
  | CMap (x : gmap string string)
  | CLib (x : LibCell)
  | CAzureIdentitySpec (x : mAzureIdentitySpec)
  | CAzureIdentityStatus (x : mAzureIdentityStatus)
  | CAzureIdentity (x : mAzureIdentity)
  | CAzureIdentityBindingSpec (x : mAzureIdentityBindingSpec)
  | CAzureIdentityBindingStatus (x : mAzureIdentityBindingStatus)
  | CAzureIdentityBinding (x : mAzureIdentityBinding)
  | CAzureAssignedIdentitySpec (x : mAzureAssignedIdentitySpec)
  | CAzureAssignedIdentityStatus (x : mAzureAssignedIdentityStatus)
  | CAzureAssignedIdentity (x : mAzureAssignedIdentity)
  | CAzurePodIdentityExceptionSpec (x : mAzurePodIdentityExceptionSpec)
  | CAzurePodIdentityExceptionStatus (x : mAzurePodIdentityExceptionStatus)
  | CAzurePodIdentityException (x : mAzurePodIdentityException)
  | CAzureIdentityList (x : mAzureIdentityList)
  | CAzureIdentityBindingList (x : mAzureIdentityBindingList)
  | CAzureAssignedIdentityList (x : mAzureAssignedIdentityList)
  | CAzurePodIdentityExceptionList (x : mAzurePodIdentityExceptionList)
  | CAzureIdentitys (x : list mAzureIdentity)
  | CAzureIdentityBindings (x : list mAzureIdentityBinding)
  | CAzureAssignedIdentitys (x : list mAzureAssignedIdentity)
  | CAzurePodIdentityExceptions (x : list mAzurePodIdentityException).

#[export] Instance CInt_cell : CellType mcell (Z) := {|
  to_cell := CInt; of_cell := λ c, match c with CInt x => Some x | _ => None end; of_to_cell := λ _, eq_refl |}.
#[export] Instance CStrings_cell : CellType mcell (list string) := {|
  to_cell := CStrings; of_cell := λ c, match c with CStrings x => Some x | _ => None end; of_to_cell := λ _, eq_refl |}.
#[export] Instance CMap_cell : CellType mcell (gmap string string) := {|
  to_cell := CMap; of_cell := λ c, match c with CMap x => Some x | _ => None end; of_to_cell := λ _, eq_refl |}.
#[export] Instance CLib_cell : CellType mcell (LibCell) := {|
  to_cell := CLib; of_cell := λ c, match c with CLib x => Some x | _ => None end; of_to_cell := λ _, eq_refl |}.
#[export] Instance CAzureIdentitySpec_cell : CellType mcell (mAzureIdentitySpec) := {|
  to_cell := CAzureIdentitySpec; of_cell := λ c, match c with CAzureIdentitySpec x => Some x | _ => None end; of_to_cell := λ _, eq_refl |}.
#[export] Instance CAzureIdentityStatus_cell : CellType mcell (mAzureIdentityStatus) := {|
  to_cell := CAzureIdentityStatus; of_cell := λ c, match c with CAzureIdentityStatus x => Some x | _ => None end; of_to_cell := λ _, eq_refl |}.
#[export] Instance CAzureIdentity_cell : CellType mcell (mAzureIdentity) := {|
  to_cell := CAzureIdentity; of_cell := λ c, match c with CAzureIdentity x => Some x | _ => None end; of_to_cell := λ _, eq_refl |}.
#[export] Instance CAzureIdentityBindingSpec_cell : CellType mcell (mAzureIdentityBindingSpec) := {|
  to_cell := CAzureIdentityBindingSpec; of_cell := λ c, match c with CAzureIdentityBindingSpec x => Some x | _ => None end; of_to_cell := λ _, eq_refl |}.
#[export] Instance CAzureIdentityBindingStatus_cell : CellType mcell (mAzureIdentityBindingStatus) := {|
  to_cell := CAzureIdentityBindingStatus; of_cell := λ c, match c with CAzureIdentityBindingStatus x => Some x | _ => None end; of_to_cell := λ _, eq_refl |}.
#[export] Instance CAzureIdentityBinding_cell : CellType mcell (mAzureIdentityBinding) := {|
  to_cell := CAzureIdentityBinding; of_cell := λ c, match c with CAzureIdentityBinding x => Some x | _ => None end; of_to_cell := λ _, eq_refl |}.
#[export] Instance CAzureAssignedIdentitySpec_cell : CellType mcell (mAzureAssignedIdentitySpec) := {|
  to_cell := CAzureAssignedIdentitySpec; of_cell := λ c, match c with CAzureAssignedIdentitySpec x => Some x | _ => None end; of_to_cell := λ _, eq_refl |}.
#[export] Instance CAzureAssignedIdentityStatus_cell : CellType mcell (mAzureAssignedIdentityStatus) := {|
  to_cell := CAzureAssignedIdentityStatus; of_cell := λ c, match c with CAzureAssignedIdentityStatus x => Some x | _ => None end; of_to_cell := λ _, eq_refl |}.
#[export] Instance CAzureAssignedIdentity_cell : CellType mcell (mAzureAssignedIdentity) := {|
  to_cell := CAzureAssignedIdentity; of_cell := λ c, match c with CAzureAssignedIdentity x => Some x | _ => None end; of_to_cell := λ _, eq_refl |}.
#[export] Instance CAzurePodIdentityExceptionSpec_cell : CellType mcell (mAzurePodIdentityExceptionSpec) := {|
  to_cell := CAzurePodIdentityExceptionSpec; of_cell := λ c, match c with CAzurePodIdentityExceptionSpec x => Some x | _ => None end; of_to_cell := λ _, eq_refl |}.
#[export] Instance CAzurePodIdentityExceptionStatus_cell : CellType mcell (mAzurePodIdentityExceptionStatus) := {|
  to_cell := CAzurePodIdentityExceptionStatus; of_cell := λ c, match c with CAzurePodIdentityExceptionStatus x => Some x | _ => None end; of_to_cell := λ _, eq_refl |}.
#[export] Instance CAzurePodIdentityException_cell : CellType mcell (mAzurePodIdentityException) := {|
  to_cell := CAzurePodIdentityException; of_cell := λ c, match c with CAzurePodIdentityException x => Some x | _ => None end; of_to_cell := λ _, eq_refl |}.
#[export] Instance CAzureIdentityList_cell : CellType mcell (mAzureIdentityList) := {|
  to_cell := CAzureIdentityList; of_cell := λ c, match c with CAzureIdentityList x => Some x | _ => None end; of_to_cell := λ _, eq_refl |}.
#[export] Instance CAzureIdentityBindingList_cell : CellType mcell (mAzureIdentityBindingList) := {|
  to_cell := CAzureIdentityBindingList; of_cell := λ c, match c with CAzureIdentityBindingList x => Some x | _ => None end; of_to_cell := λ _, eq_refl |}.
#[export] Instance CAzureAssignedIdentityList_cell : CellType mcell (mAzureAssignedIdentityList) := {|
  to_cell := CAzureAssignedIdentityList; of_cell := λ c, match c with CAzureAssignedIdentityList x => Some x | _ => None end; of_to_cell := λ _, eq_refl |}.
#[export] Instance CAzurePodIdentityExceptionList_cell : CellType mcell (mAzurePodIdentityExceptionList) := {|
  to_cell := CAzurePodIdentityExceptionList; of_cell := λ c, match c with CAzurePodIdentityExceptionList x => Some x | _ => None end; of_to_cell := λ _, eq_refl |}.
#[export] Instance CAzureIdentitys_cell : CellType mcell (list mAzureIdentity) := {|
  to_cell := CAzureIdentitys; of_cell := λ c, match c with CAzureIdentitys x => Some x | _ => None end; of_to_cell := λ _, eq_refl |}.
#[export] Instance CAzureIdentityBindings_cell : CellType mcell (list mAzureIdentityBinding) := {|
  to_cell := CAzureIdentityBindings; of_cell := λ c, match c with CAzureIdentityBindings x => Some x | _ => None end; of_to_cell := λ _, eq_refl |}.
#[export] Instance CAzureAssignedIdentitys_cell : CellType mcell (list mAzureAssignedIdentity) := {|
  to_cell := CAzureAssignedIdentitys; of_cell := λ c, match c with CAzureAssignedIdentitys x => Some x | _ => None end; of_to_cell := λ _, eq_refl |}.
#[export] Instance CAzurePodIdentityExceptions_cell : CellType mcell (list mAzurePodIdentityException) := {|
  to_cell := CAzurePodIdentityExceptions; of_cell := λ c, match c with CAzurePodIdentityExceptions x => Some x | _ => None end; of_to_cell := λ _, eq_refl |}.

(** ** Zero values *)

#[export] Instance zero_Z : Zero Z := 0%Z.
#[export] Instance zero_Meta : Zero Meta := zeroMeta_mem.
#[export] Instance zero_LMeta : Zero LMeta := zeroLMeta_mem.
#[export] Instance zero_mAzureIdentitySpec : Zero mAzureIdentitySpec := mk_mAzureIdentitySpec zero 0%Z "" "" zeroSecretRef "" None "" "" None.
#[export] Instance zero_mAzureIdentityStatus : Zero mAzureIdentityStatus := mk_mAzureIdentityStatus zero 0%Z.
#[export] Instance zero_mAzureIdentity : Zero mAzureIdentity := mk_mAzureIdentity zeroTypeMeta zero zero zero.
#[export] Instance zero_mAzureIdentityBindingSpec : Zero mAzureIdentityBindingSpec := mk_mAzureIdentityBindingSpec zero "" "" 0%Z.
#[export] Instance zero_mAzureIdentityBindingStatus : Zero mAzureIdentityBindingStatus := mk_mAzureIdentityBindingStatus zero 0%Z.
#[export] Instance zero_mAzureIdentityBinding : Zero mAzureIdentityBinding := mk_mAzureIdentityBinding zeroTypeMeta zero zero zero.
#[export] Instance zero_mAzureAssignedIdentitySpec : Zero mAzureAssignedIdentitySpec := mk_mAzureAssignedIdentitySpec zero None None "" "" "" None.
#[export] Instance zero_mAzureAssignedIdentityStatus : Zero mAzureAssignedIdentityStatus := mk_mAzureAssignedIdentityStatus zero "" 0%Z.
#[export] Instance zero_mAzureAssignedIdentity : Zero mAzureAssignedIdentity := mk_mAzureAssignedIdentity zeroTypeMeta zero zero zero.
#[export] Instance zero_mAzurePodIdentityExceptionSpec : Zero mAzurePodIdentityExceptionSpec := mk_mAzurePodIdentityExceptionSpec zero None.
#[export] Instance zero_mAzurePodIdentityExceptionStatus : Zero mAzurePodIdentityExceptionStatus := mk_mAzurePodIdentityExceptionStatus zero "".
#[export] Instance zero_mAzurePodIdentityException : Zero mAzurePodIdentityException := mk_mAzurePodIdentityException zeroTypeMeta zero zero zero.
#[export] Instance zero_mAzureIdentityList : Zero mAzureIdentityList := mk_mAzureIdentityList zeroTypeMeta zero None.
#[export] Instance zero_mAzureIdentityBindingList : Zero mAzureIdentityBindingList := mk_mAzureIdentityBindingList zeroTypeMeta zero None.
#[export] Instance zero_mAzureAssignedIdentityList : Zero mAzureAssignedIdentityList := mk_mAzureAssignedIdentityList zeroTypeMeta zero None.
#[export] Instance zero_mAzurePodIdentityExceptionList : Zero mAzurePodIdentityExceptionList := mk_mAzurePodIdentityExceptionList zeroTypeMeta zero None.
End types.

Abbreviation mem := (heap mcell).

(** ** The functions of apimachinery *)

Class MetaOps `{MT : MetaTypes} := {
  ObjectMeta_DeepCopyInto : Meta → M mem Meta;
  ListMeta_DeepCopyInto : LMeta → M mem LMeta
}.

(** What the structs stand for, and that the library copies them deeply. *)
Class MetaLaws `{MT : MetaTypes} (ops : MetaOps) := {
  rd_meta : Meta → rd mcell ObjectMeta;
  rd_lmeta : LMeta → rd mcell ListMeta;
  rd_meta_local : ∀ m, Local (rd_meta m);
  rd_lmeta_local : ∀ m, Local (rd_lmeta m);
  rd_meta_deep : ∀ m, Deep (rd_meta m);
  rd_lmeta_deep : ∀ m, Deep (rd_lmeta m);
  ObjectMeta_copies : copies rd_meta ObjectMeta_DeepCopyInto;
  ListMeta_copies : copies rd_lmeta ListMeta_DeepCopyInto
}.
#[export] Existing Instances rd_meta_local rd_lmeta_local rd_meta_deep rd_lmeta_deep ObjectMeta_copies ListMeta_copies.

(** ** DeepCopyInto

    [in.DeepCopyInto(out)] reads [*in] and sets every field of [*out], first by the assignment
    [*out = *in], then field by field: it is a function from the struct read to the struct
    written. *)

Section functions.
Context `{R : GoRange} `{ops : MetaOps}.

Definition AzureIdentitySpec_DeepCopyInto (inp : mAzureIdentitySpec) : M mem mAzureIdentitySpec :=
  oObjectMeta ← ObjectMeta_DeepCopyInto (mais_ObjectMeta inp);
  oReplicas ← copy_ptr (mret : Z → M mem Z) (mais_Replicas inp);
  mret (mk_mAzureIdentitySpec oObjectMeta (mais_Type inp) (mais_ResourceID inp) (mais_ClientID inp) (mais_ClientPassword inp) (mais_TenantID inp) (mais_AuxiliaryTenantIDs inp) (mais_ADResourceID inp) (mais_ADEndpoint inp) oReplicas).

Definition AzureIdentityStatus_DeepCopyInto (inp : mAzureIdentityStatus) : M mem mAzureIdentityStatus :=
  oObjectMeta ← ObjectMeta_DeepCopyInto (maist_ObjectMeta inp);
  mret (mk_mAzureIdentityStatus oObjectMeta (maist_AvailableReplicas inp)).

Definition AzureIdentity_DeepCopyInto (inp : mAzureIdentity) : M mem mAzureIdentity :=
  oObjectMeta ← ObjectMeta_DeepCopyInto (mai_ObjectMeta inp);
  oSpec ← AzureIdentitySpec_DeepCopyInto (mai_Spec inp);
  oStatus ← AzureIdentityStatus_DeepCopyInto (mai_Status inp);
  mret (mk_mAzureIdentity (mai_TypeMeta inp) oObjectMeta oSpec oStatus).

Definition AzureIdentityBindingSpec_DeepCopyInto (inp : mAzureIdentityBindingSpec) : M mem mAzureIdentityBindingSpec :=
  oObjectMeta ← ObjectMeta_DeepCopyInto (maibs_ObjectMeta inp);
  mret (mk_mAzureIdentityBindingSpec oObjectMeta (maibs_AzureIdentity inp) (maibs_Selector inp) (maibs_Weight inp)).

Definition AzureIdentityBindingStatus_DeepCopyInto (inp : mAzureIdentityBindingStatus) : M mem mAzureIdentityBindingStatus :=
  oObjectMeta ← ObjectMeta_DeepCopyInto (maibst_ObjectMeta inp);
  mret (mk_mAzureIdentityBindingStatus oObjectMeta (maibst_AvailableReplicas inp)).

Definition AzureIdentityBinding_DeepCopyInto (inp : mAzureIdentityBinding) : M mem mAzureIdentityBinding :=
  oObjectMeta ← ObjectMeta_DeepCopyInto (maib_ObjectMeta inp);
  oSpec ← AzureIdentityBindingSpec_DeepCopyInto (maib_Spec inp);
  oStatus ← AzureIdentityBindingStatus_DeepCopyInto (maib_Status inp);
  mret (mk_mAzureIdentityBinding (maib_TypeMeta inp) oObjectMeta oSpec oStatus).

Definition AzureAssignedIdentitySpec_DeepCopyInto (inp : mAzureAssignedIdentitySpec) : M mem mAzureAssignedIdentitySpec :=
  oObjectMeta ← ObjectMeta_DeepCopyInto (maas_ObjectMeta inp);
  oAzureIdentityRef ← copy_ptr AzureIdentity_DeepCopyInto (maas_AzureIdentityRef inp);
  oAzureBindingRef ← copy_ptr AzureIdentityBinding_DeepCopyInto (maas_AzureBindingRef inp);
  oReplicas ← copy_ptr (mret : Z → M mem Z) (maas_Replicas inp);
  mret (mk_mAzureAssignedIdentitySpec oObjectMeta oAzureIdentityRef oAzureBindingRef (maas_Pod inp) (maas_PodNamespace inp) (maas_NodeName inp) oReplicas).

Definition AzureAssignedIdentityStatus_DeepCopyInto (inp : mAzureAssignedIdentityStatus) : M mem mAzureAssignedIdentityStatus :=
  oObjectMeta ← ObjectMeta_DeepCopyInto (maast_ObjectMeta inp);
  mret (mk_mAzureAssignedIdentityStatus oObjectMeta (maast_Status inp) (maast_AvailableReplicas inp)).

Definition AzureAssignedIdentity_DeepCopyInto (inp : mAzureAssignedIdentity) : M mem mAzureAssignedIdentity :=
  oObjectMeta ← ObjectMeta_DeepCopyInto (maai_ObjectMeta inp);
  oSpec ← AzureAssignedIdentitySpec_DeepCopyInto (maai_Spec inp);
  oStatus ← AzureAssignedIdentityStatus_DeepCopyInto (maai_Status inp);
  mret (mk_mAzureAssignedIdentity (maai_TypeMeta inp) oObjectMeta oSpec oStatus).

Definition AzurePodIdentityExceptionSpec_DeepCopyInto (inp : mAzurePodIdentityExceptionSpec) : M mem mAzurePodIdentityExceptionSpec :=
  oObjectMeta ← ObjectMeta_DeepCopyInto (mapes_ObjectMeta inp);
  oPodLabels ← copy_map 401 (mapes_PodLabels inp);
  mret (mk_mAzurePodIdentityExceptionSpec oObjectMeta oPodLabels).

Definition AzurePodIdentityExceptionStatus_DeepCopyInto (inp : mAzurePodIdentityExceptionStatus) : M mem mAzurePodIdentityExceptionStatus :=
  oObjectMeta ← ObjectMeta_DeepCopyInto (mapest_ObjectMeta inp);
  mret (mk_mAzurePodIdentityExceptionStatus oObjectMeta (mapest_Status inp)).

Definition AzurePodIdentityException_DeepCopyInto (inp : mAzurePodIdentityException) : M mem mAzurePodIdentityException :=
  oObjectMeta ← ObjectMeta_DeepCopyInto (mape_ObjectMeta inp);
  oSpec ← AzurePodIdentityExceptionSpec_DeepCopyInto (mape_Spec inp);
  oStatus ← AzurePodIdentityExceptionStatus_DeepCopyInto (mape_Status inp);
  mret (mk_mAzurePodIdentityException (mape_TypeMeta inp) oObjectMeta oSpec oStatus).

Definition AzureIdentityList_DeepCopyInto (inp : mAzureIdentityList) : M mem mAzureIdentityList :=
  oListMeta ← ListMeta_DeepCopyInto (mail_ListMeta inp);
  oItems ← copy_slice AzureIdentity_DeepCopyInto (mail_Items inp);
  mret (mk_mAzureIdentityList (mail_TypeMeta inp) oListMeta oItems).

Definition AzureIdentityBindingList_DeepCopyInto (inp : mAzureIdentityBindingList) : M mem mAzureIdentityBindingList :=
  oListMeta ← ListMeta_DeepCopyInto (maibl_ListMeta inp);
  oItems ← copy_slice AzureIdentityBinding_DeepCopyInto (maibl_Items inp);
  mret (mk_mAzureIdentityBindingList (maibl_TypeMeta inp) oListMeta oItems).

Definition AzureAssignedIdentityList_DeepCopyInto (inp : mAzureAssignedIdentityList) : M mem mAzureAssignedIdentityList :=
  oListMeta ← ListMeta_DeepCopyInto (maail_ListMeta inp);
  oItems ← copy_slice AzureAssignedIdentity_DeepCopyInto (maail_Items inp);
  mret (mk_mAzureAssignedIdentityList (maail_TypeMeta inp) oListMeta oItems).

Definition AzurePodIdentityExceptionList_DeepCopyInto (inp : mAzurePodIdentityExceptionList) : M mem mAzurePodIdentityExceptionList :=
  oListMeta ← ListMeta_DeepCopyInto (mapel_ListMeta inp);
  oItems ← copy_slice AzurePodIdentityException_DeepCopyInto (mapel_Items inp);
  mret (mk_mAzurePodIdentityExceptionList (mapel_TypeMeta inp) oListMeta oItems).

(** The v1 package; in its lists, [out.ListMeta = in.ListMeta]. *)

Definition V1AzureIdentitySpec_DeepCopyInto (inp : mAzureIdentitySpec) : M mem mAzureIdentitySpec :=
  oObjectMeta ← ObjectMeta_DeepCopyInto (mais_ObjectMeta inp);
  oReplicas ← copy_ptr (mret : Z → M mem Z) (mais_Replicas inp);
  mret (mk_mAzureIdentitySpec oObjectMeta (mais_Type inp) (mais_ResourceID inp) (mais_ClientID inp) (mais_ClientPassword inp) (mais_TenantID inp) (mais_AuxiliaryTenantIDs inp) (mais_ADResourceID inp) (mais_ADEndpoint inp) oReplicas).

Definition V1AzureIdentityStatus_DeepCopyInto (inp : mAzureIdentityStatus) : M mem mAzureIdentityStatus :=
  oObjectMeta ← ObjectMeta_DeepCopyInto (maist_ObjectMeta inp);
  mret (mk_mAzureIdentityStatus oObjectMeta (maist_AvailableReplicas inp)).

Definition V1AzureIdentity_DeepCopyInto (inp : mAzureIdentity) : M mem mAzureIdentity :=
  oObjectMeta ← ObjectMeta_DeepCopyInto (mai_ObjectMeta inp);
  oSpec ← V1AzureIdentitySpec_DeepCopyInto (mai_Spec inp);
  oStatus ← V1AzureIdentityStatus_DeepCopyInto (mai_Status inp);
  mret (mk_mAzureIdentity (mai_TypeMeta inp) oObjectMeta oSpec oStatus).

Definition V1AzureIdentityBindingSpec_DeepCopyInto (inp : mAzureIdentityBindingSpec) : M mem mAzureIdentityBindingSpec :=
  oObjectMeta ← ObjectMeta_DeepCopyInto (maibs_ObjectMeta inp);
  mret (mk_mAzureIdentityBindingSpec oObjectMeta (maibs_AzureIdentity inp) (maibs_Selector inp) (maibs_Weight inp)).

Definition V1AzureIdentityBindingStatus_DeepCopyInto (inp : mAzureIdentityBindingStatus) : M mem mAzureIdentityBindingStatus :=
  oObjectMeta ← ObjectMeta_DeepCopyInto (maibst_ObjectMeta inp);
  mret (mk_mAzureIdentityBindingStatus oObjectMeta (maibst_AvailableReplicas inp)).

Definition V1AzureIdentityBinding_DeepCopyInto (inp : mAzureIdentityBinding) : M mem mAzureIdentityBinding :=
  oObjectMeta ← ObjectMeta_DeepCopyInto (maib_ObjectMeta inp);
  oSpec ← V1AzureIdentityBindingSpec_DeepCopyInto (maib_Spec inp);
  oStatus ← V1AzureIdentityBindingStatus_DeepCopyInto (maib_Status inp);
  mret (mk_mAzureIdentityBinding (maib_TypeMeta inp) oObjectMeta oSpec oStatus).

Definition V1AzureAssignedIdentitySpec_DeepCopyInto (inp : mAzureAssignedIdentitySpec) : M mem mAzureAssignedIdentitySpec :=
  oObjectMeta ← ObjectMeta_DeepCopyInto (maas_ObjectMeta inp);
  oAzureIdentityRef ← copy_ptr V1AzureIdentity_DeepCopyInto (maas_AzureIdentityRef inp);
  oAzureBindingRef ← copy_ptr V1AzureIdentityBinding_DeepCopyInto (maas_AzureBindingRef inp);
  oReplicas ← copy_ptr (mret : Z → M mem Z) (maas_Replicas inp);
  mret (mk_mAzureAssignedIdentitySpec oObjectMeta oAzureIdentityRef oAzureBindingRef (maas_Pod inp) (maas_PodNamespace inp) (maas_NodeName inp) oReplicas).

Definition V1AzureAssignedIdentityStatus_DeepCopyInto (inp : mAzureAssignedIdentityStatus) : M mem mAzureAssignedIdentityStatus :=
  oObjectMeta ← ObjectMeta_DeepCopyInto (maast_ObjectMeta inp);
  mret (mk_mAzureAssignedIdentityStatus oObjectMeta (maast_Status inp) (maast_AvailableReplicas inp)).

Definition V1AzureAssignedIdentity_DeepCopyInto (inp : mAzureAssignedIdentity) : M mem mAzureAssignedIdentity :=
  oObjectMeta ← ObjectMeta_DeepCopyInto (maai_ObjectMeta inp);
  oSpec ← V1AzureAssignedIdentitySpec_DeepCopyInto (maai_Spec inp);
  oStatus ← V1AzureAssignedIdentityStatus_DeepCopyInto (maai_Status inp);
  mret (mk_mAzureAssignedIdentity (maai_TypeMeta inp) oObjectMeta oSpec oStatus).

Definition V1AzurePodIdentityExceptionSpec_DeepCopyInto (inp : mAzurePodIdentityExceptionSpec) : M mem mAzurePodIdentityExceptionSpec :=
  oObjectMeta ← ObjectMeta_DeepCopyInto (mapes_ObjectMeta inp);
  oPodLabels ← copy_map 401 (mapes_PodLabels inp);
  mret (mk_mAzurePodIdentityExceptionSpec oObjectMeta oPodLabels).

Definition V1AzurePodIdentityExceptionStatus_DeepCopyInto (inp : mAzurePodIdentityExceptionStatus) : M mem mAzurePodIdentityExceptionStatus :=
  oObjectMeta ← ObjectMeta_DeepCopyInto (mapest_ObjectMeta inp);
  mret (mk_mAzurePodIdentityExceptionStatus oObjectMeta (mapest_Status inp)).

Definition V1AzurePodIdentityException_DeepCopyInto (inp : mAzurePodIdentityException) : M mem mAzurePodIdentityException :=
  oObjectMeta ← ObjectMeta_DeepCopyInto (mape_ObjectMeta inp);
  oSpec ← V1AzurePodIdentityExceptionSpec_DeepCopyInto (mape_Spec inp);
  oStatus ← V1AzurePodIdentityExceptionStatus_DeepCopyInto (mape_Status inp);
  mret (mk_mAzurePodIdentityException (mape_TypeMeta inp) oObjectMeta oSpec oStatus).

Definition V1AzureIdentityList_DeepCopyInto (inp : mAzureIdentityList) : M mem mAzureIdentityList :=
  oItems ← copy_slice V1AzureIdentity_DeepCopyInto (mail_Items inp);
  mret (mk_mAzureIdentityList (mail_TypeMeta inp) (mail_ListMeta inp) oItems).

Definition V1AzureIdentityBindingList_DeepCopyInto (inp : mAzureIdentityBindingList) : M mem mAzureIdentityBindingList :=
  oItems ← copy_slice V1AzureIdentityBinding_DeepCopyInto (maibl_Items inp);
  mret (mk_mAzureIdentityBindingList (maibl_TypeMeta inp) (maibl_ListMeta inp) oItems).

Definition V1AzureAssignedIdentityList_DeepCopyInto (inp : mAzureAssignedIdentityList) : M mem mAzureAssignedIdentityList :=
  oItems ← copy_slice V1AzureAssignedIdentity_DeepCopyInto (maail_Items inp);
  mret (mk_mAzureAssignedIdentityList (maail_TypeMeta inp) (maail_ListMeta inp) oItems).

Definition V1AzurePodIdentityExceptionList_DeepCopyInto (inp : mAzurePodIdentityExceptionList) : M mem mAzurePodIdentityExceptionList :=
  oItems ← copy_slice V1AzurePodIdentityException_DeepCopyInto (mapel_Items inp);
  mret (mk_mAzurePodIdentityExceptionList (mapel_TypeMeta inp) (mapel_ListMeta inp) oItems).

(** ** DeepCopy

    [if in == nil { return nil }; out := new(T); in.DeepCopyInto(out); return out] *)

Definition AzureIdentitySpec_DeepCopy : option loc → M mem (option loc) := copy_ptr AzureIdentitySpec_DeepCopyInto.
Definition AzureIdentityStatus_DeepCopy : option loc → M mem (option loc) := copy_ptr AzureIdentityStatus_DeepCopyInto.
Definition AzureIdentity_DeepCopy : option loc → M mem (option loc) := copy_ptr AzureIdentity_DeepCopyInto.
Definition AzureIdentityBindingSpec_DeepCopy : option loc → M mem (option loc) := copy_ptr AzureIdentityBindingSpec_DeepCopyInto.
Definition AzureIdentityBindingStatus_DeepCopy : option loc → M mem (option loc) := copy_ptr AzureIdentityBindingStatus_DeepCopyInto.
Definition AzureIdentityBinding_DeepCopy : option loc → M mem (option loc) := copy_ptr AzureIdentityBinding_DeepCopyInto.
Definition AzureAssignedIdentitySpec_DeepCopy : option loc → M mem (option loc) := copy_ptr AzureAssignedIdentitySpec_DeepCopyInto.
Definition AzureAssignedIdentityStatus_DeepCopy : option loc → M mem (option loc) := copy_ptr AzureAssignedIdentityStatus_DeepCopyInto.
Definition AzureAssignedIdentity_DeepCopy : option loc → M mem (option loc) := copy_ptr AzureAssignedIdentity_DeepCopyInto.
Definition AzurePodIdentityExceptionSpec_DeepCopy : option loc → M mem (option loc) := copy_ptr AzurePodIdentityExceptionSpec_DeepCopyInto.
Definition AzurePodIdentityExceptionStatus_DeepCopy : option loc → M mem (option loc) := copy_ptr AzurePodIdentityExceptionStatus_DeepCopyInto.
Definition AzurePodIdentityException_DeepCopy : option loc → M mem (option loc) := copy_ptr AzurePodIdentityException_DeepCopyInto.
Definition AzureIdentityList_DeepCopy : option loc → M mem (option loc) := copy_ptr AzureIdentityList_DeepCopyInto.
Definition AzureIdentityBindingList_DeepCopy : option loc → M mem (option loc) := copy_ptr AzureIdentityBindingList_DeepCopyInto.
Definition AzureAssignedIdentityList_DeepCopy : option loc → M mem (option loc) := copy_ptr AzureAssignedIdentityList_DeepCopyInto.
Definition AzurePodIdentityExceptionList_DeepCopy : option loc → M mem (option loc) := copy_ptr AzurePodIdentityExceptionList_DeepCopyInto.
Definition V1AzureIdentitySpec_DeepCopy : option loc → M mem (option loc) := copy_ptr V1AzureIdentitySpec_DeepCopyInto.
Definition V1AzureIdentityStatus_DeepCopy : option loc → M mem (option loc) := copy_ptr V1AzureIdentityStatus_DeepCopyInto.
Definition V1AzureIdentity_DeepCopy : option loc → M mem (option loc) := copy_ptr V1AzureIdentity_DeepCopyInto.
Definition V1AzureIdentityBindingSpec_DeepCopy : option loc → M mem (option loc) := copy_ptr V1AzureIdentityBindingSpec_DeepCopyInto.
Definition V1AzureIdentityBindingStatus_DeepCopy : option loc → M mem (option loc) := copy_ptr V1AzureIdentityBindingStatus_DeepCopyInto.
Definition V1AzureIdentityBinding_DeepCopy : option loc → M mem (option loc) := copy_ptr V1AzureIdentityBinding_DeepCopyInto.
Definition V1AzureAssignedIdentitySpec_DeepCopy : option loc → M mem (option loc) := copy_ptr V1AzureAssignedIdentitySpec_DeepCopyInto.
Definition V1AzureAssignedIdentityStatus_DeepCopy : option loc → M mem (option loc) := copy_ptr V1AzureAssignedIdentityStatus_DeepCopyInto.
Definition V1AzureAssignedIdentity_DeepCopy : option loc → M mem (option loc) := copy_ptr V1AzureAssignedIdentity_DeepCopyInto.
Definition V1AzurePodIdentityExceptionSpec_DeepCopy : option loc → M mem (option loc) := copy_ptr V1AzurePodIdentityExceptionSpec_DeepCopyInto.
Definition V1AzurePodIdentityExceptionStatus_DeepCopy : option loc → M mem (option loc) := copy_ptr V1AzurePodIdentityExceptionStatus_DeepCopyInto.
Definition V1AzurePodIdentityException_DeepCopy : option loc → M mem (option loc) := copy_ptr V1AzurePodIdentityException_DeepCopyInto.
Definition V1AzureIdentityList_DeepCopy : option loc → M mem (option loc) := copy_ptr V1AzureIdentityList_DeepCopyInto.
Definition V1AzureIdentityBindingList_DeepCopy : option loc → M mem (option loc) := copy_ptr V1AzureIdentityBindingList_DeepCopyInto.
Definition V1AzureAssignedIdentityList_DeepCopy : option loc → M mem (option loc) := copy_ptr V1AzureAssignedIdentityList_DeepCopyInto.
Definition V1AzurePodIdentityExceptionList_DeepCopy : option loc → M mem (option loc) := copy_ptr V1AzurePodIdentityExceptionList_DeepCopyInto.

(** ** DeepCopyObject

    A [runtime.Object] is an interface value: a dynamic type and a pointer. A nil pointer of
    one of the types gives the nil interface, not an interface that holds nil. *)

Inductive runtime_Object :=
  | ObjAzureIdentity (l : loc)
  | ObjAzureIdentityBinding (l : loc)
  | ObjAzureAssignedIdentity (l : loc)
  | ObjAzurePodIdentityException (l : loc)
  | ObjAzureIdentityList (l : loc)
  | ObjAzureIdentityBindingList (l : loc)
  | ObjAzureAssignedIdentityList (l : loc)
  | ObjAzurePodIdentityExceptionList (l : loc).

Definition to_object (obj : loc → runtime_Object) (c : option loc) : option runtime_Object :=
  match c with Some c => Some (obj c) | None => None end.

Definition AzureIdentity_DeepCopyObject (inp : option loc) : M mem (option runtime_Object) :=
  c ← AzureIdentity_DeepCopy inp; mret (to_object ObjAzureIdentity c).
Definition AzureIdentityBinding_DeepCopyObject (inp : option loc) : M mem (option runtime_Object) :=
  c ← AzureIdentityBinding_DeepCopy inp; mret (to_object ObjAzureIdentityBinding c).
Definition AzureAssignedIdentity_DeepCopyObject (inp : option loc) : M mem (option runtime_Object) :=
  c ← AzureAssignedIdentity_DeepCopy inp; mret (to_object ObjAzureAssignedIdentity c).
Definition AzurePodIdentityException_DeepCopyObject (inp : option loc) : M mem (option runtime_Object) :=
  c ← AzurePodIdentityException_DeepCopy inp; mret (to_object ObjAzurePodIdentityException c).
Definition AzureIdentityList_DeepCopyObject (inp : option loc) : M mem (option runtime_Object) :=
  c ← AzureIdentityList_DeepCopy inp; mret (to_object ObjAzureIdentityList c).
Definition AzureIdentityBindingList_DeepCopyObject (inp : option loc) : M mem (option runtime_Object) :=
  c ← AzureIdentityBindingList_DeepCopy inp; mret (to_object ObjAzureIdentityBindingList c).
Definition AzureAssignedIdentityList_DeepCopyObject (inp : option loc) : M mem (option runtime_Object) :=
  c ← AzureAssignedIdentityList_DeepCopy inp; mret (to_object ObjAzureAssignedIdentityList c).
Definition AzurePodIdentityExceptionList_DeepCopyObject (inp : option loc) : M mem (option runtime_Object) :=
  c ← AzurePodIdentityExceptionList_DeepCopy inp; mret (to_object ObjAzurePodIdentityExceptionList c).
Definition V1AzureIdentity_DeepCopyObject (inp : option loc) : M mem (option runtime_Object) :=
  c ← V1AzureIdentity_DeepCopy inp; mret (to_object ObjAzureIdentity c).
Definition V1AzureIdentityBinding_DeepCopyObject (inp : option loc) : M mem (option runtime_Object) :=
  c ← V1AzureIdentityBinding_DeepCopy inp; mret (to_object ObjAzureIdentityBinding c).
Definition V1AzureAssignedIdentity_DeepCopyObject (inp : option loc) : M mem (option runtime_Object) :=
  c ← V1AzureAssignedIdentity_DeepCopy inp; mret (to_object ObjAzureAssignedIdentity c).
Definition V1AzurePodIdentityException_DeepCopyObject (inp : option loc) : M mem (option runtime_Object) :=
  c ← V1AzurePodIdentityException_DeepCopy inp; mret (to_object ObjAzurePodIdentityException c).
Definition V1AzureIdentityList_DeepCopyObject (inp : option loc) : M mem (option runtime_Object) :=
  c ← V1AzureIdentityList_DeepCopy inp; mret (to_object ObjAzureIdentityList c).
Definition V1AzureIdentityBindingList_DeepCopyObject (inp : option loc) : M mem (option runtime_Object) :=
  c ← V1AzureIdentityBindingList_DeepCopy inp; mret (to_object ObjAzureIdentityBindingList c).
Definition V1AzureAssignedIdentityList_DeepCopyObject (inp : option loc) : M mem (option runtime_Object) :=
  c ← V1AzureAssignedIdentityList_DeepCopy inp; mret (to_object ObjAzureAssignedIdentityList c).
Definition V1AzurePodIdentityExceptionList_DeepCopyObject (inp : option loc) : M mem (option runtime_Object) :=
  c ← V1AzurePodIdentityExceptionList_DeepCopy inp; mret (to_object ObjAzurePodIdentityExceptionList c).

(** The call through the interface, for the types of either package. *)
Definition DeepCopyObject (obj : runtime_Object) : M mem (option runtime_Object) :=
  match obj with
  | ObjAzureIdentity l => AzureIdentity_DeepCopyObject (Some l)
  | ObjAzureIdentityBinding l => AzureIdentityBinding_DeepCopyObject (Some l)
  | ObjAzureAssignedIdentity l => AzureAssignedIdentity_DeepCopyObject (Some l)
  | ObjAzurePodIdentityException l => AzurePodIdentityException_DeepCopyObject (Some l)
  | ObjAzureIdentityList l => AzureIdentityList_DeepCopyObject (Some l)
  | ObjAzureIdentityBindingList l => AzureIdentityBindingList_DeepCopyObject (Some l)
  | ObjAzureAssignedIdentityList l => AzureAssignedIdentityList_DeepCopyObject (Some l)
  | ObjAzurePodIdentityExceptionList l => AzurePodIdentityExceptionList_DeepCopyObject (Some l)
  end.

Definition V1DeepCopyObject (obj : runtime_Object) : M mem (option runtime_Object) :=
  match obj with
  | ObjAzureIdentity l => V1AzureIdentity_DeepCopyObject (Some l)
  | ObjAzureIdentityBinding l => V1AzureIdentityBinding_DeepCopyObject (Some l)
  | ObjAzureAssignedIdentity l => V1AzureAssignedIdentity_DeepCopyObject (Some l)
  | ObjAzurePodIdentityException l => V1AzurePodIdentityException_DeepCopyObject (Some l)
  | ObjAzureIdentityList l => V1AzureIdentityList_DeepCopyObject (Some l)
  | ObjAzureIdentityBindingList l => V1AzureIdentityBindingList_DeepCopyObject (Some l)
  | ObjAzureAssignedIdentityList l => V1AzureAssignedIdentityList_DeepCopyObject (Some l)
  | ObjAzurePodIdentityExceptionList l => V1AzurePodIdentityExceptionList_DeepCopyObject (Some l)
  end.
End functions.

(** ** What the structs stand for *)

Record AzureIdentityList := mkAzureIdentityList {
  ail_TypeMeta : TypeMeta;
  ail_ListMeta : ListMeta;
  ail_Items : option (list AzureIdentity)
}.

Record AzureIdentityBindingList := mkAzureIdentityBindingList {
  aibl_TypeMeta : TypeMeta;
  aibl_ListMeta : ListMeta;
  aibl_Items : option (list AzureIdentityBinding)
}.

Record AzureAssignedIdentityList := mkAzureAssignedIdentityList {
  aail_TypeMeta : TypeMeta;
  aail_ListMeta : ListMeta;
  aail_Items : option (list AzureAssignedIdentity)
}.

Record AzurePodIdentityExceptionList := mkAzurePodIdentityExceptionList {
  apel_TypeMeta : TypeMeta;
  apel_ListMeta : ListMeta;
  apel_Items : option (list AzurePodIdentityException)
}.

Section readers.
Context `{laws : MetaLaws}.
Abbreviation R := (rd mcell).

(** [AuxiliaryTenantIDs]: a slice that the copies keep. *)
Definition rd_tenants (p : option loc) : R (list string) :=
  match p with None => mret [] | Some l => shared_cell l end.

#[export] Instance rd_tenants_local p : Local (rd_tenants p).
Proof. destruct p; cbn; apply _. Qed.

Definition rd_int : option loc → R (option Z) := rd_ptr (mret : Z → R Z).

#[export] Instance rd_int_local p : Local (rd_int p).
Proof. apply _. Qed.

Definition rd_AzureIdentitySpec (x : mAzureIdentitySpec) : R AzureIdentitySpec :=
  vObjectMeta ← rd_meta (mais_ObjectMeta x);
  vAuxiliaryTenantIDs ← rd_tenants (mais_AuxiliaryTenantIDs x);
  vReplicas ← rd_int (mais_Replicas x);
  mret (mkAzureIdentitySpec vObjectMeta (mais_Type x) (mais_ResourceID x) (mais_ClientID x) (mais_ClientPassword x) (mais_TenantID x) vAuxiliaryTenantIDs (mais_ADResourceID x) (mais_ADEndpoint x) vReplicas).
#[export] Instance rd_AzureIdentitySpec_local x : Local (rd_AzureIdentitySpec x).
Proof. apply _. Qed.

Definition rd_AzureIdentityStatus (x : mAzureIdentityStatus) : R AzureIdentityStatus :=
  vObjectMeta ← rd_meta (maist_ObjectMeta x);
  mret (mkAzureIdentityStatus vObjectMeta (maist_AvailableReplicas x)).
#[export] Instance rd_AzureIdentityStatus_local x : Local (rd_AzureIdentityStatus x).
Proof. apply _. Qed.

Definition rd_AzureIdentity (x : mAzureIdentity) : R AzureIdentity :=
  vObjectMeta ← rd_meta (mai_ObjectMeta x);
  vSpec ← rd_AzureIdentitySpec (mai_Spec x);
  vStatus ← rd_AzureIdentityStatus (mai_Status x);
  mret (mkAzureIdentity (mai_TypeMeta x) vObjectMeta vSpec vStatus).
#[export] Instance rd_AzureIdentity_local x : Local (rd_AzureIdentity x).
Proof. apply _. Qed.

Definition rd_AzureIdentityBindingSpec (x : mAzureIdentityBindingSpec) : R AzureIdentityBindingSpec :=
  vObjectMeta ← rd_meta (maibs_ObjectMeta x);
  mret (mkAzureIdentityBindingSpec vObjectMeta (maibs_AzureIdentity x) (maibs_Selector x) (maibs_Weight x)).
#[export] Instance rd_AzureIdentityBindingSpec_local x : Local (rd_AzureIdentityBindingSpec x).
Proof. apply _. Qed.

Definition rd_AzureIdentityBindingStatus (x : mAzureIdentityBindingStatus) : R AzureIdentityBindingStatus :=
  vObjectMeta ← rd_meta (maibst_ObjectMeta x);
  mret (mkAzureIdentityBindingStatus vObjectMeta (maibst_AvailableReplicas x)).
#[export] Instance rd_AzureIdentityBindingStatus_local x : Local (rd_AzureIdentityBindingStatus x).
Proof. apply _. Qed.

Definition rd_AzureIdentityBinding (x : mAzureIdentityBinding) : R AzureIdentityBinding :=
  vObjectMeta ← rd_meta (maib_ObjectMeta x);
  vSpec ← rd_AzureIdentityBindingSpec (maib_Spec x);
  vStatus ← rd_AzureIdentityBindingStatus (maib_Status x);
  mret (mkAzureIdentityBinding (maib_TypeMeta x) vObjectMeta vSpec vStatus).
#[export] Instance rd_AzureIdentityBinding_local x : Local (rd_AzureIdentityBinding x).
Proof. apply _. Qed.

Definition rd_AzureAssignedIdentitySpec (x : mAzureAssignedIdentitySpec) : R AzureAssignedIdentitySpec :=
  vObjectMeta ← rd_meta (maas_ObjectMeta x);
  vAzureIdentityRef ← rd_ptr rd_AzureIdentity (maas_AzureIdentityRef x);
  vAzureBindingRef ← rd_ptr rd_AzureIdentityBinding (maas_AzureBindingRef x);
  vReplicas ← rd_int (maas_Replicas x);
  mret (mkAzureAssignedIdentitySpec vObjectMeta vAzureIdentityRef vAzureBindingRef (maas_Pod x) (maas_PodNamespace x) (maas_NodeName x) vReplicas).
#[export] Instance rd_AzureAssignedIdentitySpec_local x : Local (rd_AzureAssignedIdentitySpec x).
Proof. apply _. Qed.

Definition rd_AzureAssignedIdentityStatus (x : mAzureAssignedIdentityStatus) : R AzureAssignedIdentityStatus :=
  vObjectMeta ← rd_meta (maast_ObjectMeta x);
  mret (mkAzureAssignedIdentityStatus vObjectMeta (maast_Status x) (maast_AvailableReplicas x)).
#[export] Instance rd_AzureAssignedIdentityStatus_local x : Local (rd_AzureAssignedIdentityStatus x).
Proof. apply _. Qed.

Definition rd_AzureAssignedIdentity (x : mAzureAssignedIdentity) : R AzureAssignedIdentity :=
  vObjectMeta ← rd_meta (maai_ObjectMeta x);
  vSpec ← rd_AzureAssignedIdentitySpec (maai_Spec x);
  vStatus ← rd_AzureAssignedIdentityStatus (maai_Status x);
  mret (mkAzureAssignedIdentity (maai_TypeMeta x) vObjectMeta vSpec vStatus).
#[export] Instance rd_AzureAssignedIdentity_local x : Local (rd_AzureAssignedIdentity x).
Proof. apply _. Qed.

Definition rd_AzurePodIdentityExceptionSpec (x : mAzurePodIdentityExceptionSpec) : R AzurePodIdentityExceptionSpec :=
  vObjectMeta ← rd_meta (mapes_ObjectMeta x);
  vPodLabels ← rd_map (mapes_PodLabels x);
  mret (mkAzurePodIdentityExceptionSpec vObjectMeta vPodLabels).
#[export] Instance rd_AzurePodIdentityExceptionSpec_local x : Local (rd_AzurePodIdentityExceptionSpec x).
Proof. apply _. Qed.

Definition rd_AzurePodIdentityExceptionStatus (x : mAzurePodIdentityExceptionStatus) : R AzurePodIdentityExceptionStatus :=
  vObjectMeta ← rd_meta (mapest_ObjectMeta x);
  mret (mkAzurePodIdentityExceptionStatus vObjectMeta (mapest_Status x)).
#[export] Instance rd_AzurePodIdentityExceptionStatus_local x : Local (rd_AzurePodIdentityExceptionStatus x).
Proof. apply _. Qed.

Definition rd_AzurePodIdentityException (x : mAzurePodIdentityException) : R AzurePodIdentityException :=
  vObjectMeta ← rd_meta (mape_ObjectMeta x);
  vSpec ← rd_AzurePodIdentityExceptionSpec (mape_Spec x);
  vStatus ← rd_AzurePodIdentityExceptionStatus (mape_Status x);
  mret (mkAzurePodIdentityException (mape_TypeMeta x) vObjectMeta vSpec vStatus).
#[export] Instance rd_AzurePodIdentityException_local x : Local (rd_AzurePodIdentityException x).
Proof. apply _. Qed.

Definition rd_AzureIdentityList (x : mAzureIdentityList) : R AzureIdentityList :=
  vListMeta ← rd_lmeta (mail_ListMeta x);
  vItems ← rd_slice rd_AzureIdentity (mail_Items x);
  mret (mkAzureIdentityList (mail_TypeMeta x) vListMeta vItems).
#[export] Instance rd_AzureIdentityList_local x : Local (rd_AzureIdentityList x).
Proof. apply _. Qed.

Definition rd_AzureIdentityBindingList (x : mAzureIdentityBindingList) : R AzureIdentityBindingList :=
  vListMeta ← rd_lmeta (maibl_ListMeta x);
  vItems ← rd_slice rd_AzureIdentityBinding (maibl_Items x);
  mret (mkAzureIdentityBindingList (maibl_TypeMeta x) vListMeta vItems).
#[export] Instance rd_AzureIdentityBindingList_local x : Local (rd_AzureIdentityBindingList x).
Proof. apply _. Qed.

Definition rd_AzureAssignedIdentityList (x : mAzureAssignedIdentityList) : R AzureAssignedIdentityList :=
  vListMeta ← rd_lmeta (maail_ListMeta x);
  vItems ← rd_slice rd_AzureAssignedIdentity (maail_Items x);
  mret (mkAzureAssignedIdentityList (maail_TypeMeta x) vListMeta vItems).
#[export] Instance rd_AzureAssignedIdentityList_local x : Local (rd_AzureAssignedIdentityList x).
Proof. apply _. Qed.

Definition rd_AzurePodIdentityExceptionList (x : mAzurePodIdentityExceptionList) : R AzurePodIdentityExceptionList :=
  vListMeta ← rd_lmeta (mapel_ListMeta x);
  vItems ← rd_slice rd_AzurePodIdentityException (mapel_Items x);
  mret (mkAzurePodIdentityExceptionList (mapel_TypeMeta x) vListMeta vItems).
#[export] Instance rd_AzurePodIdentityExceptionList_local x : Local (rd_AzurePodIdentityExceptionList x).
Proof. apply _. Qed.

(** For the v1 lists: the copies keep what [ListMeta] points to. *)

Definition rd_V1AzureIdentityList (x : mAzureIdentityList) : R AzureIdentityList :=
  vListMeta ← as_shared (rd_lmeta (mail_ListMeta x));
  vItems ← rd_slice rd_AzureIdentity (mail_Items x);
  mret (mkAzureIdentityList (mail_TypeMeta x) vListMeta vItems).
#[export] Instance rd_V1AzureIdentityList_local x : Local (rd_V1AzureIdentityList x).
Proof. apply _. Qed.

Definition rd_V1AzureIdentityBindingList (x : mAzureIdentityBindingList) : R AzureIdentityBindingList :=
  vListMeta ← as_shared (rd_lmeta (maibl_ListMeta x));
  vItems ← rd_slice rd_AzureIdentityBinding (maibl_Items x);
  mret (mkAzureIdentityBindingList (maibl_TypeMeta x) vListMeta vItems).
#[export] Instance rd_V1AzureIdentityBindingList_local x : Local (rd_V1AzureIdentityBindingList x).
Proof. apply _. Qed.

Definition rd_V1AzureAssignedIdentityList (x : mAzureAssignedIdentityList) : R AzureAssignedIdentityList :=
  vListMeta ← as_shared (rd_lmeta (maail_ListMeta x));
  vItems ← rd_slice rd_AzureAssignedIdentity (maail_Items x);
  mret (mkAzureAssignedIdentityList (maail_TypeMeta x) vListMeta vItems).
#[export] Instance rd_V1AzureAssignedIdentityList_local x : Local (rd_V1AzureAssignedIdentityList x).
Proof. apply _. Qed.

Definition rd_V1AzurePodIdentityExceptionList (x : mAzurePodIdentityExceptionList) : R AzurePodIdentityExceptionList :=
  vListMeta ← as_shared (rd_lmeta (mapel_ListMeta x));
  vItems ← rd_slice rd_AzurePodIdentityException (mapel_Items x);
  mret (mkAzurePodIdentityExceptionList (mapel_TypeMeta x) vListMeta vItems).
#[export] Instance rd_V1AzurePodIdentityExceptionList_local x : Local (rd_V1AzurePodIdentityExceptionList x).
Proof. apply _. Qed.

(** The value of an object. *)
Inductive ObjectValue :=
  | ValAzureIdentity (v : AzureIdentity)
  | ValAzureIdentityBinding (v : AzureIdentityBinding)
  | ValAzureAssignedIdentity (v : AzureAssignedIdentity)
  | ValAzurePodIdentityException (v : AzurePodIdentityException)
  | ValAzureIdentityList (v : AzureIdentityList)
  | ValAzureIdentityBindingList (v : AzureIdentityBindingList)
  | ValAzureAssignedIdentityList (v : AzureAssignedIdentityList)
  | ValAzurePodIdentityExceptionList (v : AzurePodIdentityExceptionList).

Definition rd_object (obj : runtime_Object) : R ObjectValue :=
  match obj with
  | ObjAzureIdentity l => x ← owned_cell l; v ← rd_AzureIdentity x; mret (ValAzureIdentity v)
  | ObjAzureIdentityBinding l => x ← owned_cell l; v ← rd_AzureIdentityBinding x; mret (ValAzureIdentityBinding v)
  | ObjAzureAssignedIdentity l => x ← owned_cell l; v ← rd_AzureAssignedIdentity x; mret (ValAzureAssignedIdentity v)
  | ObjAzurePodIdentityException l => x ← owned_cell l; v ← rd_AzurePodIdentityException x; mret (ValAzurePodIdentityException v)
  | ObjAzureIdentityList l => x ← owned_cell l; v ← rd_AzureIdentityList x; mret (ValAzureIdentityList v)
  | ObjAzureIdentityBindingList l => x ← owned_cell l; v ← rd_AzureIdentityBindingList x; mret (ValAzureIdentityBindingList v)
  | ObjAzureAssignedIdentityList l => x ← owned_cell l; v ← rd_AzureAssignedIdentityList x; mret (ValAzureAssignedIdentityList v)
  | ObjAzurePodIdentityExceptionList l => x ← owned_cell l; v ← rd_AzurePodIdentityExceptionList x; mret (ValAzurePodIdentityExceptionList v)
  end.

Definition rd_V1object (obj : runtime_Object) : R ObjectValue :=
  match obj with
  | ObjAzureIdentity l => x ← owned_cell l; v ← rd_AzureIdentity x; mret (ValAzureIdentity v)
  | ObjAzureIdentityBinding l => x ← owned_cell l; v ← rd_AzureIdentityBinding x; mret (ValAzureIdentityBinding v)
  | ObjAzureAssignedIdentity l => x ← owned_cell l; v ← rd_AzureAssignedIdentity x; mret (ValAzureAssignedIdentity v)
  | ObjAzurePodIdentityException l => x ← owned_cell l; v ← rd_AzurePodIdentityException x; mret (ValAzurePodIdentityException v)
  | ObjAzureIdentityList l => x ← owned_cell l; v ← rd_V1AzureIdentityList x; mret (ValAzureIdentityList v)
  | ObjAzureIdentityBindingList l => x ← owned_cell l; v ← rd_V1AzureIdentityBindingList x; mret (ValAzureIdentityBindingList v)
  | ObjAzureAssignedIdentityList l => x ← owned_cell l; v ← rd_V1AzureAssignedIdentityList x; mret (ValAzureAssignedIdentityList v)
  | ObjAzurePodIdentityExceptionList l => x ← owned_cell l; v ← rd_V1AzurePodIdentityExceptionList x; mret (ValAzurePodIdentityExceptionList v)
  end.

#[export] Instance rd_object_local obj : Local (rd_object obj).
Proof. destruct obj; cbn; apply _. Qed.
#[export] Instance rd_V1object_local obj : Local (rd_V1object obj).
Proof. destruct obj; cbn; apply _. Qed.
End readers.
