(* ===== verification/DeepCopySpec.v ===== *)
(** * What the generated deep copies promise, and where they break the promise.

    A deep copy has the value of the original and owns nothing of it: whoever writes to the
    original afterwards does not change the copy, nor the other way round. The generated
    functions keep this for everything but the slice [AuxiliaryTenantIDs] of an identity
    and, in the v1 package, for what [ListMeta] of a list points to. *)

From S2P Require Import Prelude GoStrings Types GoHeap DeepCopy.

(** ** Copying a struct field by field *)

(** Split a hypothesis on the reading of a struct into its fields. *)
Ltac read_fields :=
  repeat match goal with
  | H : (_ ≫= _) _ = Some (_, (_, _)) |- _ =>
      let o := fresh "o" in let s := fresh "s" in
      apply rd_bind_inv in H as (? & o & s & ? & ? & ? & H & -> & ->)
  | H : mret _ _ = Some (_, (_, _)) |- _ => injection H as <- <- <-
  end.

(** The reader of a field copied next is known from its copying function. *)
Ltac copy_field :=
  eapply yields_bind; [apply _|eassumption|first [eassumption|reflexivity]|];
  let Hsub := fresh "Hsub" in
  intros ? ? ? Hsub ? ? ?;
  repeat match goal with
  | H : _ ?h = Some _ |- _ =>
      match type of Hsub with h ⊆ _ => apply (rd_mono _ _ _ _ Hsub) in H end
  end.

Section owned.
Context `{MT : MetaTypes}.

Lemma rd_tenants_owned p h v o s : rd_tenants p h = Some (v, (o, s)) → o = ∅.
Proof.
  destruct p as [l|]; cbn; [|by intros [= _ <- _]]. unfold shared_cell.
  destruct (h !! l ≫= of_cell); [|done]. by intros [= _ <- _].
Qed.

Lemma as_shared_owned {A} (m : rd mcell A) h v o s : as_shared m h = Some (v, (o, s)) → o = ∅.
Proof. unfold as_shared. destruct (m h) as [[a [o1 s1]]|]; [|done]. by intros [= _ <- _]. Qed.

End owned.

(** A struct is copied: its fields are, one after the other. *)
Tactic Notation "copy_struct" reference(reader) reference(copier) :=
  lazymatch goal with |- copies ?r ?f => intros h x v o s H; change (yields (f x) h h r v s) end;
  unfold reader in * |-; read_fields; unfold copier;
  repeat copy_field;
  eapply yields_ret; [eassumption|unfold reader; cbn; repeat (eapply rd_bind_run; [eassumption|]); reflexivity|];
  repeat match goal with
  | H : rd_tenants _ _ = Some (_, (?o, _)) |- _ => is_var o; pose proof (rd_tenants_owned _ _ _ _ _ H); subst o
  | H : as_shared _ _ = Some (_, (?o, _)) |- _ => is_var o; pose proof (as_shared_owned _ _ _ _ _ H); subst o
  end; set_solver.

Section copies.
Context `{R : GoRange} `{laws : MetaLaws}.

#[export] Instance AzureIdentitySpec_copies : copies rd_AzureIdentitySpec AzureIdentitySpec_DeepCopyInto.
Proof. copy_struct rd_AzureIdentitySpec AzureIdentitySpec_DeepCopyInto. Qed.
#[export] Instance AzureIdentityStatus_copies : copies rd_AzureIdentityStatus AzureIdentityStatus_DeepCopyInto.
Proof. copy_struct rd_AzureIdentityStatus AzureIdentityStatus_DeepCopyInto. Qed.
#[export] Instance AzureIdentity_copies : copies rd_AzureIdentity AzureIdentity_DeepCopyInto.
Proof. copy_struct rd_AzureIdentity AzureIdentity_DeepCopyInto. Qed.
#[export] Instance AzureIdentityBindingSpec_copies : copies rd_AzureIdentityBindingSpec AzureIdentityBindingSpec_DeepCopyInto.
Proof. copy_struct rd_AzureIdentityBindingSpec AzureIdentityBindingSpec_DeepCopyInto. Qed.
#[export] Instance AzureIdentityBindingStatus_copies : copies rd_AzureIdentityBindingStatus AzureIdentityBindingStatus_DeepCopyInto.
Proof. copy_struct rd_AzureIdentityBindingStatus AzureIdentityBindingStatus_DeepCopyInto. Qed.
#[export] Instance AzureIdentityBinding_copies : copies rd_AzureIdentityBinding AzureIdentityBinding_DeepCopyInto.
Proof. copy_struct rd_AzureIdentityBinding AzureIdentityBinding_DeepCopyInto. Qed.
#[export] Instance AzureAssignedIdentitySpec_copies : copies rd_AzureAssignedIdentitySpec AzureAssignedIdentitySpec_DeepCopyInto.
Proof. copy_struct rd_AzureAssignedIdentitySpec AzureAssignedIdentitySpec_DeepCopyInto. Qed.
#[export] Instance AzureAssignedIdentityStatus_copies : copies rd_AzureAssignedIdentityStatus AzureAssignedIdentityStatus_DeepCopyInto.
Proof. copy_struct rd_AzureAssignedIdentityStatus AzureAssignedIdentityStatus_DeepCopyInto. Qed.
#[export] Instance AzureAssignedIdentity_copies : copies rd_AzureAssignedIdentity AzureAssignedIdentity_DeepCopyInto.
Proof. copy_struct rd_AzureAssignedIdentity AzureAssignedIdentity_DeepCopyInto. Qed.
#[export] Instance AzurePodIdentityExceptionSpec_copies : copies rd_AzurePodIdentityExceptionSpec AzurePodIdentityExceptionSpec_DeepCopyInto.
Proof. copy_struct rd_AzurePodIdentityExceptionSpec AzurePodIdentityExceptionSpec_DeepCopyInto. Qed.
#[export] Instance AzurePodIdentityExceptionStatus_copies : copies rd_AzurePodIdentityExceptionStatus AzurePodIdentityExceptionStatus_DeepCopyInto.
Proof. copy_struct rd_AzurePodIdentityExceptionStatus AzurePodIdentityExceptionStatus_DeepCopyInto. Qed.
#[export] Instance AzurePodIdentityException_copies : copies rd_AzurePodIdentityException AzurePodIdentityException_DeepCopyInto.
Proof. copy_struct rd_AzurePodIdentityException AzurePodIdentityException_DeepCopyInto. Qed.
#[export] Instance AzureIdentityList_copies : copies rd_AzureIdentityList AzureIdentityList_DeepCopyInto.
Proof. copy_struct rd_AzureIdentityList AzureIdentityList_DeepCopyInto. Qed.
#[export] Instance AzureIdentityBindingList_copies : copies rd_AzureIdentityBindingList AzureIdentityBindingList_DeepCopyInto.
Proof. copy_struct rd_AzureIdentityBindingList AzureIdentityBindingList_DeepCopyInto. Qed.
#[export] Instance AzureAssignedIdentityList_copies : copies rd_AzureAssignedIdentityList AzureAssignedIdentityList_DeepCopyInto.
Proof. copy_struct rd_AzureAssignedIdentityList AzureAssignedIdentityList_DeepCopyInto. Qed.
#[export] Instance AzurePodIdentityExceptionList_copies : copies rd_AzurePodIdentityExceptionList AzurePodIdentityExceptionList_DeepCopyInto.
Proof. copy_struct rd_AzurePodIdentityExceptionList AzurePodIdentityExceptionList_DeepCopyInto. Qed.
#[export] Instance V1AzureIdentitySpec_copies : copies rd_AzureIdentitySpec V1AzureIdentitySpec_DeepCopyInto.
Proof. copy_struct rd_AzureIdentitySpec V1AzureIdentitySpec_DeepCopyInto. Qed.
#[export] Instance V1AzureIdentityStatus_copies : copies rd_AzureIdentityStatus V1AzureIdentityStatus_DeepCopyInto.
Proof. copy_struct rd_AzureIdentityStatus V1AzureIdentityStatus_DeepCopyInto. Qed.
#[export] Instance V1AzureIdentity_copies : copies rd_AzureIdentity V1AzureIdentity_DeepCopyInto.
Proof. copy_struct rd_AzureIdentity V1AzureIdentity_DeepCopyInto. Qed.
#[export] Instance V1AzureIdentityBindingSpec_copies : copies rd_AzureIdentityBindingSpec V1AzureIdentityBindingSpec_DeepCopyInto.
Proof. copy_struct rd_AzureIdentityBindingSpec V1AzureIdentityBindingSpec_DeepCopyInto. Qed.
#[export] Instance V1AzureIdentityBindingStatus_copies : copies rd_AzureIdentityBindingStatus V1AzureIdentityBindingStatus_DeepCopyInto.
Proof. copy_struct rd_AzureIdentityBindingStatus V1AzureIdentityBindingStatus_DeepCopyInto. Qed.
#[export] Instance V1AzureIdentityBinding_copies : copies rd_AzureIdentityBinding V1AzureIdentityBinding_DeepCopyInto.
Proof. copy_struct rd_AzureIdentityBinding V1AzureIdentityBinding_DeepCopyInto. Qed.
#[export] Instance V1AzureAssignedIdentitySpec_copies : copies rd_AzureAssignedIdentitySpec V1AzureAssignedIdentitySpec_DeepCopyInto.
Proof. copy_struct rd_AzureAssignedIdentitySpec V1AzureAssignedIdentitySpec_DeepCopyInto. Qed.
#[export] Instance V1AzureAssignedIdentityStatus_copies : copies rd_AzureAssignedIdentityStatus V1AzureAssignedIdentityStatus_DeepCopyInto.
Proof. copy_struct rd_AzureAssignedIdentityStatus V1AzureAssignedIdentityStatus_DeepCopyInto. Qed.
#[export] Instance V1AzureAssignedIdentity_copies : copies rd_AzureAssignedIdentity V1AzureAssignedIdentity_DeepCopyInto.
Proof. copy_struct rd_AzureAssignedIdentity V1AzureAssignedIdentity_DeepCopyInto. Qed.
#[export] Instance V1AzurePodIdentityExceptionSpec_copies : copies rd_AzurePodIdentityExceptionSpec V1AzurePodIdentityExceptionSpec_DeepCopyInto.
Proof. copy_struct rd_AzurePodIdentityExceptionSpec V1AzurePodIdentityExceptionSpec_DeepCopyInto. Qed.
#[export] Instance V1AzurePodIdentityExceptionStatus_copies : copies rd_AzurePodIdentityExceptionStatus V1AzurePodIdentityExceptionStatus_DeepCopyInto.
Proof. copy_struct rd_AzurePodIdentityExceptionStatus V1AzurePodIdentityExceptionStatus_DeepCopyInto. Qed.
#[export] Instance V1AzurePodIdentityException_copies : copies rd_AzurePodIdentityException V1AzurePodIdentityException_DeepCopyInto.
Proof. copy_struct rd_AzurePodIdentityException V1AzurePodIdentityException_DeepCopyInto. Qed.
#[export] Instance V1AzureIdentityList_copies : copies rd_V1AzureIdentityList V1AzureIdentityList_DeepCopyInto.
Proof. copy_struct rd_V1AzureIdentityList V1AzureIdentityList_DeepCopyInto. Qed.
#[export] Instance V1AzureIdentityBindingList_copies : copies rd_V1AzureIdentityBindingList V1AzureIdentityBindingList_DeepCopyInto.
Proof. copy_struct rd_V1AzureIdentityBindingList V1AzureIdentityBindingList_DeepCopyInto. Qed.
#[export] Instance V1AzureAssignedIdentityList_copies : copies rd_V1AzureAssignedIdentityList V1AzureAssignedIdentityList_DeepCopyInto.
Proof. copy_struct rd_V1AzureAssignedIdentityList V1AzureAssignedIdentityList_DeepCopyInto. Qed.
#[export] Instance V1AzurePodIdentityExceptionList_copies : copies rd_V1AzurePodIdentityExceptionList V1AzurePodIdentityExceptionList_DeepCopyInto.
Proof. copy_struct rd_V1AzurePodIdentityExceptionList V1AzurePodIdentityExceptionList_DeepCopyInto. Qed.
End copies.

(** ** Objects *)

Section objects.
Context `{R : GoRange} `{laws : MetaLaws}.

(** The objects without an [AzureIdentity] in them. *)
Definition without_identity (obj : runtime_Object) : bool :=
  match obj with
  | ObjAzureIdentityBinding _ | ObjAzureIdentityBindingList _
  | ObjAzurePodIdentityException _ | ObjAzurePodIdentityExceptionList _ => true
  | _ => false
  end.

(** An interface value: a copy of the struct behind the pointer, by [copy_ptr]. *)
Lemma object_copied {T V} `{CellType mcell T, Zero T} (r : T → rd mcell V) f (obj : loc → runtime_Object) (val : V → ObjectValue)
    `{Hl : ∀ x, Local (r x)} `{Hc : !copies r f} l h v own shared :
  (x ← owned_cell l; w ← r x; mret (val w) : rd mcell ObjectValue) h = Some (v, (own, shared)) →
  ∃ l' h' own', (c ← copy_ptr f (Some l); mret (to_object obj c)) h = (Ret (Some (obj l')), h') ∧ h ⊆ h' ∧
    (x ← owned_cell l'; w ← r x; mret (val w) : rd mcell ObjectValue) h' = Some (v, (own', shared)) ∧ own' ## dom h.
Proof.
  intros (x & o1 & s1 & ? & ? & Ho & (w & o2 & s2 & ? & ? & Hx & [= <- <- <-] & -> & ->)%rd_bind_inv & -> & ->)%rd_bind_inv.
  assert (rd_ptr r (Some l) h = Some (Some w, (o1 ∪ (o2 ∪ ∅), s1 ∪ (s2 ∪ ∅)))) as Hp
    by (by repeat (eapply rd_bind_run; [eassumption|])).
  destruct (copy_ptr_copies r f Hl Hc h (Some l) _ _ _ Hp) as (p & h' & o' & E & Hsub & Hp' & Hd).
  destruct p as [l'|]; [|discriminate Hp'].
  apply rd_bind_inv in Hp' as (y & o3 & s3 & ? & ? & Ho' & (w' & o4 & s4 & ? & ? & Hy & [= -> <- <-] & -> & ->)%rd_bind_inv & -> & Es).
  exists l', h', (o3 ∪ (o4 ∪ ∅)). split; [by rewrite (M_bind_run _ _ _ _ _ E)|]. split; [done|]. split; [|done].
  rewrite Es. by repeat (eapply rd_bind_run; [eassumption|]).
Qed.

Lemma DeepCopyObject_copied obj h v own shared : rd_object obj h = Some (v, (own, shared)) →
  ∃ obj' h' own', DeepCopyObject obj h = (Ret (Some obj'), h') ∧ h ⊆ h' ∧ rd_object obj' h' = Some (v, (own', shared)) ∧ own' ## dom h.
Proof.
  destruct obj as [l|l|l|l|l|l|l|l]; intros H;
    (eapply object_copied in H as (l' & h' & own' & E & H); [|apply _..]; by eexists _, h', own').
Qed.

Lemma V1DeepCopyObject_copied obj h v own shared : rd_V1object obj h = Some (v, (own, shared)) →
  ∃ obj' h' own', V1DeepCopyObject obj h = (Ret (Some obj'), h') ∧ h ⊆ h' ∧ rd_V1object obj' h' = Some (v, (own', shared)) ∧ own' ## dom h.
Proof.
  destruct obj as [l|l|l|l|l|l|l|l]; intros H;
    (eapply object_copied in H as (l' & h' & own' & E & H); [|apply _..]; by eexists _, h', own').
Qed.

(** The two packages. *)
Inductive package := Internal | V1.
Definition copy_object (pkg : package) : runtime_Object → M mem (option runtime_Object) :=
  match pkg with Internal => DeepCopyObject | V1 => V1DeepCopyObject end.
Definition read_object (pkg : package) : runtime_Object → rd mcell ObjectValue :=
  match pkg with Internal => rd_object | V1 => rd_V1object end.

#[export] Instance read_object_local pkg obj : Local (read_object pkg obj).
Proof. destruct pkg; apply _. Qed.

Lemma copy_object_copied pkg obj h v own shared : read_object pkg obj h = Some (v, (own, shared)) →
  ∃ obj' h' own', copy_object pkg obj h = (Ret (Some obj'), h') ∧ h ⊆ h' ∧ read_object pkg obj' h' = Some (v, (own', shared)) ∧ own' ## dom h.
Proof. destruct pkg; [apply DeepCopyObject_copied|apply V1DeepCopyObject_copied]. Qed.

(** Objects of which nothing is shared: no identity is in them, and no metadata of a v1 list. *)
Definition copied_whole (pkg : package) (obj : runtime_Object) : bool :=
  without_identity obj &&
  match pkg, obj with V1, (ObjAzureIdentityBindingList _ | ObjAzurePodIdentityExceptionList _) => false | _, _ => true end.

Lemma copied_whole_deep pkg obj : copied_whole pkg obj = true → Deep (read_object pkg obj).
Proof. destruct pkg, obj; try done; intros _; cbn [read_object rd_object rd_V1object]; apply _. Qed.

(** A reader of objects, of either package, and a copying function for it. *)
Lemma copy_is_separate (rdo : runtime_Object → rd mcell ObjectValue) `{Hloc0 : !∀ obj, Local (rdo obj)} obj obj' h h' v own own' shared :
  rdo obj h = Some (v, (own, shared)) → h ⊆ h' → rdo obj' h' = Some (v, (own', shared)) → own' ## dom h →
  rdo obj h' = Some (v, (own, shared)) ∧ own' ## own ∪ shared ∧
  (own ## shared → ∀ h2 : mem, (∀ l, l ∉ own → h2 !! l = h' !! l) → rdo obj' h2 = Some (v, (own', shared))) ∧
  (∀ h2 : mem, (∀ l, l ∉ own' → h2 !! l = h' !! l) → rdo obj h2 = Some (v, (own, shared))).
Proof.
  intros H Hsub H' Hd. destruct (local _ _ _ _ H) as [D _]. pose proof (rd_mono _ _ _ _ Hsub H) as Ho.
  split; [done|]. split; [set_solver|]. split.
  - intros Hos h2 Hw. destruct (local _ _ _ _ H') as [_ Hloc]. apply Hloc. intros l Hl. apply Hw. set_solver.
  - intros h2 Hw. destruct (local _ _ _ _ Ho) as [_ Hloc]. apply Hloc. intros l Hl. apply Hw. set_solver.
Qed.

(** C30: a deep copy through [runtime.Object], of either package, returns without a panic an object of
    the same type and value that owns only new cells: whatever is written afterwards to the
    cells that the original owns does not change the copy, and whatever is written to those of
    the copy does not change the original. The two may share the cells of
    [AuxiliaryTenantIDs] and, in the v1 package, those of the [ListMeta] of a list; other
    objects share nothing. *)
Theorem deep_copy_separates (pkg : package) (obj : runtime_Object) (h : mem) (v : ObjectValue) (own shared : gset loc) :
  read_object pkg obj h = Some (v, (own, shared)) →
  ∃ obj' h' own', copy_object pkg obj h = (Ret (Some obj'), h') ∧ h ⊆ h' ∧
    read_object pkg obj' h' = Some (v, (own', shared)) ∧ read_object pkg obj h' = Some (v, (own, shared)) ∧ own' ## own ∪ shared ∧
    (own ## shared → ∀ h2 : mem, (∀ l, l ∉ own → h2 !! l = h' !! l) → read_object pkg obj' h2 = Some (v, (own', shared))) ∧
    (∀ h2 : mem, (∀ l, l ∉ own' → h2 !! l = h' !! l) → read_object pkg obj h2 = Some (v, (own, shared))) ∧
    (copied_whole pkg obj = true → shared = ∅).
Proof.
  intros H. destruct (copy_object_copied _ _ _ _ _ _ H) as (obj' & h' & own' & E & Hsub & H' & Hd).
  destruct (copy_is_separate (read_object pkg) obj obj' h h' v own own' shared H Hsub H' Hd) as (H1 & H2 & H3 & H4).
  exists obj', h', own'. do 7 (split; [done|]). intros Hw. by apply (copied_whole_deep pkg obj Hw h v own).
Qed.

(** A nil pointer of any of the types is copied to the nil interface. *)
Lemma DeepCopyObject_nil (h : mem) :
  Forall (λ copy : option loc → M mem (option runtime_Object), copy None h = (Ret None, h))
    [AzureIdentity_DeepCopyObject; AzureIdentityBinding_DeepCopyObject; AzureAssignedIdentity_DeepCopyObject;
     AzurePodIdentityException_DeepCopyObject; AzureIdentityList_DeepCopyObject; AzureIdentityBindingList_DeepCopyObject;
     AzureAssignedIdentityList_DeepCopyObject; AzurePodIdentityExceptionList_DeepCopyObject;
     V1AzureIdentity_DeepCopyObject; V1AzureIdentityBinding_DeepCopyObject; V1AzureAssignedIdentity_DeepCopyObject;
     V1AzurePodIdentityException_DeepCopyObject; V1AzureIdentityList_DeepCopyObject; V1AzureIdentityBindingList_DeepCopyObject;
     V1AzureAssignedIdentityList_DeepCopyObject; V1AzurePodIdentityExceptionList_DeepCopyObject].
Proof. by repeat constructor. Qed.
End objects.

(** ** A concrete representation of the metadata *)

Record sim_meta := mkSimMeta {
  sm_Name : string; sm_Namespace : string; sm_ResourceVersion : string;
  sm_Labels : option loc; sm_Annotations : option loc; sm_Finalizers : option loc
}.

Record sim_lmeta := mkSimLMeta {
  sl_SelfLink : string; sl_ResourceVersion : string; sl_Continue : string; sl_RemainingItemCount : option loc
}.

#[export] Instance sim_types : MetaTypes := {|
  Meta := sim_meta; LMeta := sim_lmeta; LibCell := unit;
  zeroMeta_mem := mkSimMeta "" "" "" None None None; zeroLMeta_mem := mkSimLMeta "" "" "" None
|}.

#[export] Instance zero_strings : Zero (list string) := [].

Definition sim_ObjectMeta_DeepCopyInto (m : sim_meta) : M mem sim_meta :=
  labels ← copy_map (R := canonical_range) 0 (sm_Labels m);
  annotations ← copy_map (R := canonical_range) 0 (sm_Annotations m);
  finalizers ← copy_ptr (mret : list string → M mem (list string)) (sm_Finalizers m);
  mret (mkSimMeta (sm_Name m) (sm_Namespace m) (sm_ResourceVersion m) labels annotations finalizers).

Definition sim_ListMeta_DeepCopyInto (m : sim_lmeta) : M mem sim_lmeta :=
  count ← copy_ptr (mret : Z → M mem Z) (sl_RemainingItemCount m);
  mret (mkSimLMeta (sl_SelfLink m) (sl_ResourceVersion m) (sl_Continue m) count).

#[export] Instance sim_meta_ops : MetaOps := {|
  ObjectMeta_DeepCopyInto := sim_ObjectMeta_DeepCopyInto; ListMeta_DeepCopyInto := sim_ListMeta_DeepCopyInto
|}.

Definition rd_sim_meta (m : sim_meta) : rd mcell ObjectMeta :=
  labels ← rd_map (sm_Labels m);
  annotations ← rd_map (sm_Annotations m);
  finalizers ← rd_ptr (mret : list string → rd mcell (list string)) (sm_Finalizers m);
  mret (mkObjectMeta (sm_Name m) (sm_Namespace m) (sm_ResourceVersion m) labels annotations (default [] finalizers) []).

Definition rd_sim_lmeta (m : sim_lmeta) : rd mcell ListMeta :=
  count ← rd_ptr (mret : Z → rd mcell Z) (sl_RemainingItemCount m);
  mret (mkListMeta (sl_SelfLink m) (sl_ResourceVersion m) (sl_Continue m) count).

#[export] Instance rd_sim_meta_local m : Local (rd_sim_meta m).
Proof. unfold rd_sim_meta. apply _. Qed.
#[export] Instance rd_sim_lmeta_local m : Local (rd_sim_lmeta m).
Proof. unfold rd_sim_lmeta. apply _. Qed.
#[export] Instance rd_sim_meta_deep m : Deep (rd_sim_meta m).
Proof. unfold rd_sim_meta. apply _. Qed.
#[export] Instance rd_sim_lmeta_deep m : Deep (rd_sim_lmeta m).
Proof. unfold rd_sim_lmeta. apply _. Qed.
#[export] Instance sim_ObjectMeta_copies : copies rd_sim_meta sim_ObjectMeta_DeepCopyInto.
Proof. copy_struct rd_sim_meta sim_ObjectMeta_DeepCopyInto. Qed.
#[export] Instance sim_ListMeta_copies : copies rd_sim_lmeta sim_ListMeta_DeepCopyInto.
Proof. copy_struct rd_sim_lmeta sim_ListMeta_DeepCopyInto. Qed.

#[export] Instance sim_meta_laws : MetaLaws sim_meta_ops := {|
  rd_meta := rd_sim_meta; rd_lmeta := rd_sim_lmeta;
  rd_meta_local := rd_sim_meta_local; rd_lmeta_local := rd_sim_lmeta_local;
  rd_meta_deep := rd_sim_meta_deep; rd_lmeta_deep := rd_sim_lmeta_deep;
  ObjectMeta_copies := sim_ObjectMeta_copies; ListMeta_copies := sim_ListMeta_copies
|}.

(** An identity with one auxiliary tenant and a label, assigned to a pod. *)
Definition sim_zero_meta : sim_meta := mkSimMeta "" "" "" None None None.
Definition identity_spec_mem : mAzureIdentitySpec :=
  mk_mAzureIdentitySpec sim_zero_meta 1 "" "client" zeroSecretRef "tenant" (Some 2%positive) "" "" (Some 3%positive).
Definition identity_mem : mAzureIdentity :=
  mk_mAzureIdentity zeroTypeMeta (mkSimMeta "id" "ns" "7" (Some 4%positive) None None) identity_spec_mem (mk_mAzureIdentityStatus sim_zero_meta 1).
Definition assigned_mem : mAzureAssignedIdentity :=
  mk_mAzureAssignedIdentity zeroTypeMeta sim_zero_meta
    (mk_mAzureAssignedIdentitySpec sim_zero_meta (Some 1%positive) None "pod" "ns" "node" None)
    (mk_mAzureAssignedIdentityStatus sim_zero_meta "Created" 1).
Definition list_mem : mAzureIdentityBindingList :=
  mk_mAzureIdentityBindingList zeroTypeMeta (mkSimLMeta "" "9" "" (Some 3%positive)) None.

Definition heap1 : mem :=
  <[1%positive := CAzureIdentity identity_mem]> (<[2%positive := CStrings ["extra"]]> (<[3%positive := CInt 5]>
  (<[4%positive := CMap {["app" := "web"]}]> (<[5%positive := CAzureAssignedIdentity assigned_mem]>
  (<[6%positive := CAzureIdentityBindingList list_mem]> ∅))))).

Lemma deep_copy_separates_witness :
  ∃ v own shared, rd_object (ObjAzureAssignedIdentity 5%positive) heap1 = Some (v, (own, shared)) ∧ own ## shared ∧
  ∃ obj' h' own', DeepCopyObject (R := canonical_range) (ObjAzureAssignedIdentity 5%positive) heap1 = (Ret (Some obj'), h') ∧
    rd_object obj' h' = Some (v, (own', shared)) ∧ own' ## own ∪ shared.
Proof.
  assert (match rd_object (ObjAzureAssignedIdentity 5%positive) heap1 with
    | Some (_, (own, shared)) => bool_decide (own ## shared) | None => false end = true) as H by (vm_compute; reflexivity).
  destruct (rd_object (ObjAzureAssignedIdentity 5%positive) heap1) as [[v [own shared]]|] eqn:E; [|discriminate H].
  exists v, own, shared. split; [reflexivity|]. split.
  - apply bool_decide_eq_true in H. exact H.
  - destruct (deep_copy_separates (R := canonical_range) Internal _ _ _ _ _ E) as (obj' & h' & own' & H1 & _ & H2 & _ & H3 & _).
    exists obj', h', own'. split; [exact H1|]. split; [exact H2|exact H3].
Defined.

(** [AuxiliaryTenantIDs] is shared: an element written through the original shows in the copy. *)
Definition tenants_of (v : option (ObjectValue * (gset loc * gset loc))) : list string :=
  match v with Some (ValAzureIdentity i, _) => ais_AuxiliaryTenantIDs (ai_Spec i) | _ => [] end.

Theorem auxiliary_tenants_are_shared :
  ∃ obj' h', DeepCopyObject (R := canonical_range) (ObjAzureIdentity 1%positive) heap1 = (Ret (Some obj'), h') ∧
    tenants_of (rd_object obj' h') = ["extra"] ∧
    tenants_of (rd_object obj' (store 2%positive ["changed"] h').2) = ["changed"].
Proof.
  assert (∃ r, DeepCopyObject (R := canonical_range) (ObjAzureIdentity 1%positive) heap1 = r) as [[[[obj'|]|e|] h'] E] by (by eexists);
    vm_compute in E; try discriminate E.
  injection E as <- <-. eexists _, _. split; [vm_compute; reflexivity|]. split; vm_compute; reflexivity.
Qed.

(** In the v1 package so is the number of remaining items of a list; the internal package
    copies it. *)
Definition remaining_of (v : option (ObjectValue * (gset loc * gset loc))) : option Z :=
  match v with Some (ValAzureIdentityBindingList l, _) => lm_RemainingItemCount (aibl_ListMeta l) | _ => None end.

Definition remaining_after_write (copy : runtime_Object → M mem (option runtime_Object)) : option Z :=
  match copy (ObjAzureIdentityBindingList 6%positive) heap1 with
  | (Ret (Some obj'), h') => remaining_of (rd_object obj' (store 3%positive 8%Z h').2)
  | _ => None
  end.

Theorem V1_list_meta_is_shared :
  remaining_after_write (V1DeepCopyObject (R := canonical_range)) = Some 8%Z ∧
  remaining_after_write (DeepCopyObject (R := canonical_range)) = Some 5%Z.
Proof. split; vm_compute; reflexivity. Qed.
