(* ===== verification/Conversion.v ===== *)
(** * The v1 API types (pkg/apis/aadpodidentity/v1/types.go) and the conversions between
    them and the internal types (conversion.go), with their round-trip properties. *)

From S2P Require Import Prelude GoStrings Types.

(** ** The v1 types: the same fields as the internal ones, under other JSON names *)

Record V1AzureIdentitySpec := mkV1AzureIdentitySpec {
  v1ais_ObjectMeta : ObjectMeta;
  v1ais_Type : Z;
  v1ais_ResourceID : string;
  v1ais_ClientID : string;
  v1ais_ClientPassword : SecretReference;
  v1ais_TenantID : string;
  v1ais_AuxiliaryTenantIDs : list string;
  v1ais_ADResourceID : string;
  v1ais_ADEndpoint : string;
  v1ais_Replicas : option Z
}.

Record V1AzureIdentityStatus := mkV1AzureIdentityStatus {
  v1aist_ObjectMeta : ObjectMeta;
  v1aist_AvailableReplicas : Z
}.

Record V1AzureIdentity := mkV1AzureIdentity {
  v1ai_TypeMeta : TypeMeta;
  v1ai_ObjectMeta : ObjectMeta;
  v1ai_Spec : V1AzureIdentitySpec;
  v1ai_Status : V1AzureIdentityStatus
}.

Record V1AzureIdentityBindingSpec := mkV1AzureIdentityBindingSpec {
  v1aibs_ObjectMeta : ObjectMeta;
  v1aibs_AzureIdentity : string;
  v1aibs_Selector : string;
  v1aibs_Weight : Z
}.

Record V1AzureIdentityBindingStatus := mkV1AzureIdentityBindingStatus {
  v1aibst_ObjectMeta : ObjectMeta;
  v1aibst_AvailableReplicas : Z
}.

Record V1AzureIdentityBinding := mkV1AzureIdentityBinding {
  v1aib_TypeMeta : TypeMeta;
  v1aib_ObjectMeta : ObjectMeta;
  v1aib_Spec : V1AzureIdentityBindingSpec;
  v1aib_Status : V1AzureIdentityBindingStatus
}.

Record V1AzureAssignedIdentitySpec := mkV1AzureAssignedIdentitySpec {
  v1aas_ObjectMeta : ObjectMeta;
  v1aas_AzureIdentityRef : option V1AzureIdentity;
  v1aas_AzureBindingRef : option V1AzureIdentityBinding;
  v1aas_Pod : string;
  v1aas_PodNamespace : string;
  v1aas_NodeName : string;
  v1aas_Replicas : option Z
}.

Record V1AzureAssignedIdentityStatus := mkV1AzureAssignedIdentityStatus {
  v1aast_ObjectMeta : ObjectMeta;
  v1aast_Status : string;
  v1aast_AvailableReplicas : Z
}.

Record V1AzureAssignedIdentity := mkV1AzureAssignedIdentity {
  v1aai_TypeMeta : TypeMeta;
  v1aai_ObjectMeta : ObjectMeta;
  v1aai_Spec : V1AzureAssignedIdentitySpec;
  v1aai_Status : V1AzureAssignedIdentityStatus
}.

Record V1AzurePodIdentityExceptionSpec := mkV1AzurePodIdentityExceptionSpec {
  v1apes_ObjectMeta : ObjectMeta;
  v1apes_PodLabels : gmap string string
}.

Record V1AzurePodIdentityExceptionStatus := mkV1AzurePodIdentityExceptionStatus {
  v1apest_ObjectMeta : ObjectMeta;
  v1apest_Status : string
}.

Record V1AzurePodIdentityException := mkV1AzurePodIdentityException {
  v1ape_TypeMeta : TypeMeta;
  v1ape_ObjectMeta : ObjectMeta;
  v1ape_Spec : V1AzurePodIdentityExceptionSpec;
  v1ape_Status : V1AzurePodIdentityExceptionStatus
}.

(** [SchemeGroupVersion.String()] (register.go) *)
Definition SchemeGroupVersion : string := CRDGroup +:+ "/" +:+ "v1".

(** [TypeMeta.SetGroupVersionKind] with [SchemeGroupVersion] and the given kind *)
Definition SetGroupVersionKind (kind : string) : TypeMeta := mkTypeMeta kind SchemeGroupVersion.

(** ** From v1 to internal *)

Definition ConvertV1BindingToInternalBinding (b : V1AzureIdentityBinding) : AzureIdentityBinding :=
  {| aib_TypeMeta := v1aib_TypeMeta b;
     aib_ObjectMeta := v1aib_ObjectMeta b;
     aib_Spec := {| aibs_ObjectMeta := v1aibs_ObjectMeta (v1aib_Spec b);
                    aibs_AzureIdentity := v1aibs_AzureIdentity (v1aib_Spec b);
                    aibs_Selector := v1aibs_Selector (v1aib_Spec b);
                    aibs_Weight := v1aibs_Weight (v1aib_Spec b) |};
     aib_Status := {| aibst_ObjectMeta := v1aibst_ObjectMeta (v1aib_Status b);
                      aibst_AvailableReplicas := v1aibst_AvailableReplicas (v1aib_Status b) |} |}.

Definition ConvertV1IdentityToInternalIdentity (i : V1AzureIdentity) : AzureIdentity :=
  {| ai_TypeMeta := v1ai_TypeMeta i;
     ai_ObjectMeta := v1ai_ObjectMeta i;
     ai_Spec := {| ais_ObjectMeta := v1ais_ObjectMeta (v1ai_Spec i);
                   ais_Type := v1ais_Type (v1ai_Spec i);
                   ais_ResourceID := v1ais_ResourceID (v1ai_Spec i);
                   ais_ClientID := v1ais_ClientID (v1ai_Spec i);
                   ais_ClientPassword := v1ais_ClientPassword (v1ai_Spec i);
                   ais_TenantID := v1ais_TenantID (v1ai_Spec i);
                   ais_AuxiliaryTenantIDs := v1ais_AuxiliaryTenantIDs (v1ai_Spec i);
                   ais_ADResourceID := v1ais_ADResourceID (v1ai_Spec i);
                   ais_ADEndpoint := v1ais_ADEndpoint (v1ai_Spec i);
                   ais_Replicas := v1ais_Replicas (v1ai_Spec i) |};
     ai_Status := {| aist_ObjectMeta := v1aist_ObjectMeta (v1ai_Status i);
                     aist_AvailableReplicas := v1aist_AvailableReplicas (v1ai_Status i) |} |}.

(** [var retIdentity aadpodid.AzureIdentity]: the zero values used for nil references. *)
Definition zeroAzureIdentity : AzureIdentity :=
  mkAzureIdentity zeroTypeMeta zeroMeta
    (mkAzureIdentitySpec zeroMeta 0 "" "" zeroSecretRef "" [] "" "" None)
    (mkAzureIdentityStatus zeroMeta 0).
Definition zeroAzureIdentityBinding : AzureIdentityBinding :=
  mkAzureIdentityBinding zeroTypeMeta zeroMeta
    (mkAzureIdentityBindingSpec zeroMeta "" "" 0) (mkAzureIdentityBindingStatus zeroMeta 0).

Definition ConvertV1AssignedIdentityToInternalAssignedIdentity (a : V1AzureAssignedIdentity) :
    AzureAssignedIdentity :=
  let retIdentity :=
    match v1aas_AzureIdentityRef (v1aai_Spec a) with
    | Some i => ConvertV1IdentityToInternalIdentity i
    | None => zeroAzureIdentity
    end in
  let retBinding :=
    match v1aas_AzureBindingRef (v1aai_Spec a) with
    | Some b => ConvertV1BindingToInternalBinding b
    | None => zeroAzureIdentityBinding
    end in
  {| aai_TypeMeta := v1aai_TypeMeta a;
     aai_ObjectMeta := v1aai_ObjectMeta a;
     aai_Spec := {| aas_ObjectMeta := v1aas_ObjectMeta (v1aai_Spec a);
                    aas_AzureIdentityRef := Some retIdentity;
                    aas_AzureBindingRef := Some retBinding;
                    aas_Pod := v1aas_Pod (v1aai_Spec a);
                    aas_PodNamespace := v1aas_PodNamespace (v1aai_Spec a);
                    aas_NodeName := v1aas_NodeName (v1aai_Spec a);
                    aas_Replicas := v1aas_Replicas (v1aai_Spec a) |};
     aai_Status := {| aast_ObjectMeta := v1aast_ObjectMeta (v1aai_Status a);
                      aast_Status := v1aast_Status (v1aai_Status a);
                      aast_AvailableReplicas := v1aast_AvailableReplicas (v1aai_Status a) |} |}.

Definition ConvertV1PodIdentityExceptionToInternalPodIdentityException
    (e : V1AzurePodIdentityException) : AzurePodIdentityException :=
  {| ape_TypeMeta := v1ape_TypeMeta e;
     ape_ObjectMeta := v1ape_ObjectMeta e;
     ape_Spec := {| apes_ObjectMeta := v1apes_ObjectMeta (v1ape_Spec e);
                    apes_PodLabels := v1apes_PodLabels (v1ape_Spec e) |};
     ape_Status := {| apest_ObjectMeta := v1apest_ObjectMeta (v1ape_Status e);
                      apest_Status := v1apest_Status (v1ape_Status e) |} |}.

(** ** From internal to v1: every conversion also sets the type metadata *)

Definition ConvertInternalBindingToV1Binding (b : AzureIdentityBinding) : V1AzureIdentityBinding :=
  {| v1aib_TypeMeta := SetGroupVersionKind "AzureIdentityBinding";
     v1aib_ObjectMeta := aib_ObjectMeta b;
     v1aib_Spec := {| v1aibs_ObjectMeta := aibs_ObjectMeta (aib_Spec b);
                      v1aibs_AzureIdentity := aibs_AzureIdentity (aib_Spec b);
                      v1aibs_Selector := aibs_Selector (aib_Spec b);
                      v1aibs_Weight := aibs_Weight (aib_Spec b) |};
     v1aib_Status := {| v1aibst_ObjectMeta := aibst_ObjectMeta (aib_Status b);
                        v1aibst_AvailableReplicas := aibst_AvailableReplicas (aib_Status b) |} |}.

Definition ConvertInternalIdentityToV1Identity (i : AzureIdentity) : V1AzureIdentity :=
  {| v1ai_TypeMeta := SetGroupVersionKind "AzureIdentity";
     v1ai_ObjectMeta := ai_ObjectMeta i;
     v1ai_Spec := {| v1ais_ObjectMeta := ais_ObjectMeta (ai_Spec i);
                     v1ais_Type := ais_Type (ai_Spec i);
                     v1ais_ResourceID := ais_ResourceID (ai_Spec i);
                     v1ais_ClientID := ais_ClientID (ai_Spec i);
                     v1ais_ClientPassword := ais_ClientPassword (ai_Spec i);
                     v1ais_TenantID := ais_TenantID (ai_Spec i);
                     v1ais_AuxiliaryTenantIDs := ais_AuxiliaryTenantIDs (ai_Spec i);
                     v1ais_ADResourceID := ais_ADResourceID (ai_Spec i);
                     v1ais_ADEndpoint := ais_ADEndpoint (ai_Spec i);
                     v1ais_Replicas := ais_Replicas (ai_Spec i) |};
     v1ai_Status := {| v1aist_ObjectMeta := aist_ObjectMeta (ai_Status i);
                       v1aist_AvailableReplicas := aist_AvailableReplicas (ai_Status i) |} |}.

(** The two references are dereferenced without a test: a nil reference panics. *)
Definition ConvertInternalAssignedIdentityToV1AssignedIdentity (a : AzureAssignedIdentity) :
    outcome V1AzureAssignedIdentity :=
  idRef ← deref (aas_AzureIdentityRef (aai_Spec a));
  let retIdentity := ConvertInternalIdentityToV1Identity idRef in
  bindingRef ← deref (aas_AzureBindingRef (aai_Spec a));
  let retBinding := ConvertInternalBindingToV1Binding bindingRef in
  Ret
  {| v1aai_TypeMeta := SetGroupVersionKind "AzureAssignedIdentity";
     v1aai_ObjectMeta := aai_ObjectMeta a;
     v1aai_Spec := {| v1aas_ObjectMeta := aas_ObjectMeta (aai_Spec a);
                      v1aas_AzureIdentityRef := Some retIdentity;
                      v1aas_AzureBindingRef := Some retBinding;
                      v1aas_Pod := aas_Pod (aai_Spec a);
                      v1aas_PodNamespace := aas_PodNamespace (aai_Spec a);
                      v1aas_NodeName := aas_NodeName (aai_Spec a);
                      v1aas_Replicas := aas_Replicas (aai_Spec a) |};
     v1aai_Status := {| v1aast_ObjectMeta := aast_ObjectMeta (aai_Status a);
                        v1aast_Status := aast_Status (aai_Status a);
                        v1aast_AvailableReplicas := aast_AvailableReplicas (aai_Status a) |} |}.

(** ** Round trips *)

(** What a conversion round trip is expected to keep: everything but the type metadata. *)
Definition retype_identity (i : AzureIdentity) : AzureIdentity :=
  mkAzureIdentity (SetGroupVersionKind "AzureIdentity") (ai_ObjectMeta i) (ai_Spec i) (ai_Status i).
Definition retype_binding (b : AzureIdentityBinding) : AzureIdentityBinding :=
  mkAzureIdentityBinding (SetGroupVersionKind "AzureIdentityBinding")
    (aib_ObjectMeta b) (aib_Spec b) (aib_Status b).

Definition retype_assigned (a : AzureAssignedIdentity) : AzureAssignedIdentity :=
  let s := aai_Spec a in
  mkAzureAssignedIdentity (SetGroupVersionKind "AzureAssignedIdentity") (aai_ObjectMeta a)
    (mkAzureAssignedIdentitySpec (aas_ObjectMeta s) (retype_identity <$> aas_AzureIdentityRef s)
       (retype_binding <$> aas_AzureBindingRef s) (aas_Pod s) (aas_PodNamespace s)
       (aas_NodeName s) (aas_Replicas s))
    (aai_Status a).

(** Both references are set. *)
Definition refs_set (a : AzureAssignedIdentity) : bool :=
  bool_decide (is_Some (aas_AzureIdentityRef (aai_Spec a)) ∧ is_Some (aas_AzureBindingRef (aai_Spec a))).

Lemma refs_set_spec a :
  refs_set a = true ↔
  ∃ i b, aas_AzureIdentityRef (aai_Spec a) = Some i ∧ aas_AzureBindingRef (aai_Spec a) = Some b.
Proof. unfold refs_set. rewrite bool_decide_eq_true. unfold is_Some. naive_solver. Qed.

Lemma identity_roundtrip i :
  ConvertV1IdentityToInternalIdentity (ConvertInternalIdentityToV1Identity i) = retype_identity i.
Proof. by destruct i as [? ? [] []]. Qed.

Lemma binding_roundtrip b :
  ConvertV1BindingToInternalBinding (ConvertInternalBindingToV1Binding b) = retype_binding b.
Proof. by destruct b as [? ? [] []]. Qed.

(** The conversion back from v1 always sets both references. *)
Lemma ConvertV1_refs_set a :
  refs_set (ConvertV1AssignedIdentityToInternalAssignedIdentity a) = true.
Proof. apply refs_set_spec. by eexists _, _. Qed.

(** What [ConvertInternal...] returns, on both branches. *)
Lemma convert_assigned_cases a :
  match ConvertInternalAssignedIdentityToV1AssignedIdentity a with
  | Ret v => refs_set a = true ∧
      ConvertV1AssignedIdentityToInternalAssignedIdentity v = retype_assigned a
  | Fail _ => False
  | Panic => refs_set a = false
  end.
Proof.
  unfold ConvertInternalAssignedIdentityToV1AssignedIdentity, retype_assigned, refs_set.
  destruct a as [tm om [som [i|] [b|] p pn n r] [sm st av]]; simpl.
  - split; [done|]. unfold ConvertV1AssignedIdentityToInternalAssignedIdentity; simpl.
    by rewrite identity_roundtrip, binding_roundtrip.
  - done.
  - done.
  - done.
Qed.

(** C28: an assigned identity with both references set survives the conversion to v1 and back,
    up to the type metadata that the conversion sets; without one of them the conversion
    dereferences nil and panics. *)
Theorem assigned_identity_roundtrip (a : AzureAssignedIdentity) :
  (refs_set a = true ↔
     ∃ v, ConvertInternalAssignedIdentityToV1AssignedIdentity a = Ret v ∧
          ConvertV1AssignedIdentityToInternalAssignedIdentity v = retype_assigned a) ∧
  (refs_set a = false ↔ ConvertInternalAssignedIdentityToV1AssignedIdentity a = Panic).
Proof.
  pose proof (convert_assigned_cases a) as H.
  destruct (ConvertInternalAssignedIdentityToV1AssignedIdentity a) as [v|e|]; [|done|].
  - destruct H as [-> ?]. split; split; try done. intros _. eauto.
  - rewrite H. split; split; try done. by intros (v & ? & _).
Qed.
