(* ===== verification/Fixtures.v ===== *)
(** * Small concrete objects on which the witnesses of the theorems are evaluated. *)

From S2P Require Import Prelude GoStrings Types Conversion.

Definition mk_meta (ns name rv : string) (labels : gmap string string) : ObjectMeta :=
  mkObjectMeta name ns rv labels ∅ [] [].

Definition rid (name : string) : string :=
  "/subscriptions/s/resourcegroups/rg/providers/Microsoft.ManagedIdentity/userAssignedIdentities/" +:+ name.

(** A user-assigned identity [ns/name] with client id [name] and resource id [rid name]. *)
Definition mk_identity (ns name : string) : AzureIdentity :=
  mkAzureIdentity zeroTypeMeta (mk_meta ns name "1" ∅)
    (mkAzureIdentitySpec zeroMeta UserAssignedMSI (rid name) name zeroSecretRef "" [] "" "" None)
    (mkAzureIdentityStatus zeroMeta 0).

(** A binding [ns/name] of the pods labelled [sel] to the identity [idname]. *)
Definition mk_binding (ns name idname sel : string) : AzureIdentityBinding :=
  mkAzureIdentityBinding zeroTypeMeta (mk_meta ns name "1" ∅)
    (mkAzureIdentityBindingSpec zeroMeta idname sel 0) (mkAzureIdentityBindingStatus zeroMeta 0).

(** A running pod on [node] with binding label [sel]. *)
Definition mk_pod (ns name node sel : string) : Pod :=
  mkPod (mk_meta ns name "1" {[CRDLabelKey := sel]}) [] node "Running" "10.0.0.1".

(** An assigned identity in state [st]; its name is [pod-ns-idname]. *)
Definition mk_assigned (pod ns node idname bname st : string) : AzureAssignedIdentity :=
  mkAzureAssignedIdentity zeroTypeMeta
    (mk_meta "default" (pod +:+ "-" +:+ ns +:+ "-" +:+ idname) "" {["nodename" := node]})
    (mkAzureAssignedIdentitySpec zeroMeta (Some (mk_identity ns idname))
       (Some (mk_binding ns bname idname "sel")) pod ns node None)
    (mkAzureAssignedIdentityStatus zeroMeta st 1).

(** The map that lists assigned identities by name. *)
Definition by_name (l : list AzureAssignedIdentity) : gmap string AzureAssignedIdentity :=
  list_to_map ((λ a, (Name (aai_ObjectMeta a), a)) <$> l).
