(* ===== verification/Regex.v ===== *)
(** * The subset of Go's [regexp] that the code uses: a backtracking matcher with the
    leftmost-first semantics of the package (a greedy repetition tries its longest match
    first, a lazy one its shortest), with capture groups.

    Characters are bytes; [(?i)] folds ASCII letters. *)

From S2P Require Import Prelude GoStrings.

(** Captures: group number to text; the later binding of a group wins. *)
Abbreviation captures := (gmap nat string).

Inductive re :=
  | Chr (p : ascii → bool)                       (* one byte of a class *)
  | Lit (ci : bool) (l : string)                 (* a literal, case-insensitive if [ci] *)
  | Rep0 (greedy : bool) (p : ascii → bool)      (* [p*] or [p*?] *)
  | Rep1 (greedy : bool) (p : ascii → bool)      (* [p+] or [p+?] *)
  | Opt (r : re)                                 (* [r?] *)
  | Seq (r1 r2 : re)
  | Group (n : nat) (r : re)                     (* [(r)], the [n]-th group *)
  | Plus (r : re).                               (* [r+], greedy *)

Definition or_else {A} (o1 : option A) (o2 : option A) : option A :=
  match o1 with Some a => Some a | None => o2 end.

(** The rest of [s] after the literal [l], if [s] starts with it. *)
Fixpoint strip_lit (ci : bool) (l s : string) : option string :=
  match l with
  | EmptyString => Some s
  | String c l' =>
      match s with
      | EmptyString => None
      | String d s' =>
          if Ascii.eqb (if ci then lower_ascii c else c) (if ci then lower_ascii d else d)
          then strip_lit ci l' s' else None
      end
  end.

(** Repetition of a class, with continuation. *)
Fixpoint rep0 {A} (greedy : bool) (p : ascii → bool) (s : string) (k : string → option A) : option A :=
  match s with
  | EmptyString => k EmptyString
  | String a s' =>
      if p a
      then if greedy then or_else (rep0 greedy p s' k) (k s) else or_else (k s) (rep0 greedy p s' k)
      else k s
  end.

Definition rep1 {A} (greedy : bool) (p : ascii → bool) (s : string) (k : string → option A) : option A :=
  match s with
  | EmptyString => None
  | String a s' => if p a then rep0 greedy p s' k else None
  end.

(** The text consumed between [s] and its suffix [s']. *)
Definition consumed (s s' : string) : string :=
  String.substring 0 (String.length s - String.length s') s.

Fixpoint re_match {A} (r : re) (s : string) (c : captures)
    (k : string → captures → option A) {struct r} : option A :=
  match r with
  | Chr p => match s with String a s' => if p a then k s' c else None | EmptyString => None end
  | Lit ci l => match strip_lit ci l s with Some s' => k s' c | None => None end
  | Rep0 g p => rep0 g p s (λ s', k s' c)
  | Rep1 g p => rep1 g p s (λ s', k s' c)
  | Opt r => or_else (re_match r s c k) (k s c)
  | Seq r1 r2 => re_match r1 s c (λ s' c', re_match r2 s' c' k)
  | Group n r => re_match r s c (λ s' c', k s' (<[n := consumed s s']> c'))
  | Plus r =>
      (fix loop (fuel : nat) (s : string) (c : captures) : option A :=
         re_match r s c (λ s' c',
           match fuel with
           | 0 => k s' c'
           | S fuel' =>
               if (String.length s' <? String.length s)%nat
               then or_else (loop fuel' s' c') (k s' c') else k s' c'
           end)) (String.length s) s c
  end.

(** A match that starts at [s]: the whole text is group 0. *)
Definition re_match_here (r : re) (s : string) : option captures :=
  re_match r s ∅ (λ s' c, Some (<[0 := consumed s s']> c)).

(** [Regexp.FindStringSubmatch]: the leftmost match. *)
Fixpoint FindStringSubmatch (r : re) (s : string) : option captures :=
  or_else (re_match_here r s)
    match s with EmptyString => None | String _ s' => FindStringSubmatch r s' end.

(** [Regexp.MatchString] *)
Definition MatchString (r : re) (s : string) : bool :=
  match FindStringSubmatch r s with Some _ => true | None => false end.

(** A group of the match; [""] if it took no part in it. *)
Definition submatch (c : captures) (n : nat) : string := default "" (c !! n).

(** [seq [r1; ...; rn]] is the concatenation of the pattern's pieces. *)
Fixpoint seq_re (l : list re) : re :=
  match l with
  | [] => Lit false ""
  | [r] => r
  | r :: l' => Seq r (seq_re l')
  end.

(** [.] does not match a newline. *)
Definition dot (a : ascii) : bool := negb (Nat.eqb (nat_of_ascii a) 10).

(** ** Reasoning about repetitions: which split is chosen *)

(** All bytes of a string are in a class. *)
Fixpoint all_in (p : ascii → bool) (s : string) : bool :=
  match s with EmptyString => true | String a s' => p a && all_in p s' end.

Section rep_facts.
Context {A : Type} (p : ascii → bool) (k : string → option A).

(** A lazy repetition takes the shortest prefix after which the rest matches. *)
Lemma rep0_lazy a b r :
  all_in p a = true → k b = Some r →
  (∀ a' b', a +:+ b = a' +:+ b' → (String.length a' < String.length a)%nat → k b' = None) →
  rep0 false p (a +:+ b) k = Some r.
Proof.
  induction a as [|x a IH]; simpl.
  - intros _ Hk _. destruct b as [|y b]; simpl; [done|]. rewrite Hk. by destruct (p y).
  - intros [Hx Ha]%andb_true_iff Hk Hno. rewrite Hx.
    rewrite (Hno "" (String x (a +:+ b))) by (simpl; lia || done). simpl.
    apply IH; [done|done|]. intros a' b' E Hl. apply (Hno (String x a') b').
    + simpl. by rewrite E.
    + simpl. lia.
Qed.

(** A greedy repetition takes the longest one. *)
Lemma rep0_greedy a b r :
  all_in p a = true → k b = Some r →
  (∀ a' b', a +:+ b = a' +:+ b' → (String.length a < String.length a')%nat → k b' = None) →
  rep0 true p (a +:+ b) k = Some r.
Proof.
  intros Ha Hk Hno.
  assert (∀ b1 b2, b = b1 +:+ b2 → b1 ≠ "" → rep0 true p b2 k = None) as Hb.
  { intros b1 b2 Hb Hb1.
    assert (∀ b3 b4, b2 = b3 +:+ b4 → k b4 = None) as Hall.
    { intros b3 b4 ->. apply (Hno (a +:+ b1 +:+ b3) b4).
      - by rewrite Hb, !str_app_assoc.
      - destruct b1; [done|]. clear. induction a; simpl in *; lia. }
    clear -Hall. induction b2 as [|y b2 IH]; simpl; [by apply (Hall "")|].
    rewrite (Hall "" (String y b2)) by done. destruct (p y); [|done].
    rewrite IH; [done|]. intros b3 b4 ->. by apply (Hall (String y b3)). }
  clear Hno. induction a as [|x a IH]; simpl in *.
  - destruct b as [|y b]; simpl; [done|]. destruct (p y); [|done].
    by rewrite (Hb (String y "") b).
  - apply andb_true_iff in Ha as [-> Ha]. by rewrite IH.
Qed.

Lemma rep0_None g s : (∀ a b, s = a +:+ b → k b = None) → rep0 g p s k = None.
Proof.
  induction s as [|y s IH]; simpl; intros Hno; [by apply (Hno "")|].
  rewrite (Hno "" (String y s)) by done. destruct (p y); [|done].
  rewrite IH by (intros a b ->; by apply (Hno (String y a))). by destruct g.
Qed.
End rep_facts.

(** ** Soundness: a match decomposes the text *)

Inductive lang : re → string → Prop :=
  | lang_chr p a : p a = true → lang (Chr p) (String a "")
  | lang_lit l t : t = l → lang (Lit false l) t
  | lang_lit_ci l t : ToLower t = ToLower l → lang (Lit true l) t
  | lang_rep0 g p t : all_in p t = true → lang (Rep0 g p) t
  | lang_rep1 g p t : all_in p t = true → t ≠ "" → lang (Rep1 g p) t
  | lang_opt_none r : lang (Opt r) ""
  | lang_opt_some r t : lang r t → lang (Opt r) t
  | lang_seq r1 r2 t1 t2 : lang r1 t1 → lang r2 t2 → lang (Seq r1 r2) (t1 +:+ t2)
  | lang_group n r t : lang r t → lang (Group n r) t
  | lang_plus_one r t : lang r t → lang (Plus r) t
  | lang_plus_more r t1 t2 : lang r t1 → lang (Plus r) t2 → lang (Plus r) (t1 +:+ t2).

Lemma strip_lit_Some ci l s s' :
  strip_lit ci l s = Some s' → ∃ t, s = t +:+ s' ∧ lang (Lit ci l) t.
Proof.
  revert s. induction l as [|c l IH]; intros s H; simpl in H.
  - injection H as ->. exists "". split; [done|].
    destruct ci; [by apply lang_lit_ci | by apply lang_lit].
  - destruct s as [|d s]; [done|].
    destruct (Ascii.eqb _ _) eqn:E; [|done]. apply Ascii.eqb_eq in E.
    destruct (IH _ H) as (t & -> & Ht). exists (String d t). split; [done|].
    destruct ci; inversion Ht; subst;
      [apply lang_lit_ci | apply lang_lit]; simpl; congruence.
Qed.

Lemma rep0_Some {A} g p s (k : string → option A) x :
  rep0 g p s k = Some x → ∃ t s', s = t +:+ s' ∧ all_in p t = true ∧ k s' = Some x.
Proof.
  induction s as [|a s IH]; simpl; intros H; [by exists "", ""|].
  destruct (p a) eqn:Ha; [|by exists "", (String a s)].
  assert (rep0 g p s k = Some x ∨ k (String a s) = Some x) as [H'|H'].
  { destruct g; unfold or_else in H; case_match; simplify_eq; auto. }
  - destruct (IH H') as (t & s' & -> & Ht & Hk). exists (String a t), s'.
    split; [done|]. simpl. by rewrite Ha.
  - by exists "", (String a s).
Qed.

Lemma rep1_Some {A} g p s (k : string → option A) x :
  rep1 g p s k = Some x → ∃ t s', s = t +:+ s' ∧ t ≠ "" ∧ all_in p t = true ∧ k s' = Some x.
Proof.
  destruct s as [|a s]; simpl; [done|]. destruct (p a) eqn:Ha; [|done].
  intros (t & s' & -> & Ht & Hk)%rep0_Some. exists (String a t), s'. simpl. by rewrite Ha.
Qed.

Lemma re_match_sound {A} r s c (k : string → captures → option A) x :
  re_match r s c k = Some x →
  ∃ t s' c', s = t +:+ s' ∧ lang r t ∧ k s' c' = Some x.
Proof.
  revert s c k. induction r as [p|ci l|g p|g p|r IH|r1 IH1 r2 IH2|n r IH|r IH]; intros s c k H; simpl in H.
  - destruct s as [|a s]; [done|]. destruct (p a) eqn:E; [|done].
    exists (String a ""), s, c. split; [done|]. by split; [constructor|].
  - case_match eqn:E; [|done]. apply strip_lit_Some in E as (t & -> & Ht). by eexists t, _, c.
  - apply rep0_Some in H as (t & s' & -> & Ht & Hk). eexists t, s', c. repeat split; [by constructor|done].
  - apply rep1_Some in H as (t & s' & -> & Hne & Ht & Hk). eexists t, s', c. repeat split; [by constructor|done].
  - unfold or_else in H. case_match eqn:E; simplify_eq.
    + apply IH in E as (t & s' & c' & -> & Ht & Hk). exists t, s', c'. repeat split; [by constructor|done].
    + exists "", s, c. repeat split; [by constructor|done].
  - apply IH1 in H as (t1 & s1 & c1 & -> & Ht1 & H). apply IH2 in H as (t2 & s2 & c2 & -> & Ht2 & H).
    exists (t1 +:+ t2), s2, c2. rewrite str_app_assoc. repeat split; [by constructor|done].
  - apply IH in H as (t & s' & c' & -> & Ht & H). eexists t, s', _. repeat split; [by constructor|done].
  - revert H. generalize (String.length s). intros fuel. revert s c.
    induction fuel as [|fuel IHf]; intros s c H.
    + apply IH in H as (t & s' & c' & -> & Ht & H). exists t, s', c'. repeat split; [by constructor|done].
    + apply IH in H as (t & s' & c' & -> & Ht & H).
      case_match; [|exists t, s', c'; repeat split; [by constructor|done]].
      unfold or_else in H. case_match eqn:E; simplify_eq.
      * apply IHf in E as (t2 & s2 & c2 & -> & Ht2 & H2).
        exists (t +:+ t2), s2, c2. rewrite str_app_assoc. repeat split; [by apply lang_plus_more|done].
      * exists t, s', c'. repeat split; [by constructor|done].
Qed.

Lemma FindStringSubmatch_sound r s c :
  FindStringSubmatch r s = Some c →
  ∃ u t v, s = u +:+ t +:+ v ∧ lang r t.
Proof.
  induction s as [|a s IH]; simpl; unfold or_else; intros H.
  - case_match eqn:E; simplify_eq. apply re_match_sound in E as (t & s' & c' & E & Ht & _).
    exists "", t, s'. by rewrite <- E.
  - case_match eqn:E; simplify_eq.
    + apply re_match_sound in E as (t & s' & c' & -> & Ht & _). by exists "", t, s'.
    + destruct (IH H) as (u & t & v & -> & Ht). by exists (String a u), t, v.
Qed.

(** ** Completeness: a text that the pattern describes is matched *)

Lemma strip_lit_lang ci l t s : lang (Lit ci l) t → strip_lit ci l (t +:+ s) = Some s.
Proof.
  intros H. assert (if ci then ToLower t = ToLower l else t = l) as E by (by inversion H).
  clear H. revert t E. induction l as [|c l IH]; intros [|d t] E; destruct ci; simpl in *; try done;
    injection E as Hc E; rewrite Hc, Ascii.eqb_refl; by apply IH.
Qed.

Lemma is_Some_or_else {A} (o1 o2 : option A) : is_Some o1 ∨ is_Some o2 → is_Some (or_else o1 o2).
Proof. intros [[x ->]|[x ->]]; simpl; [eauto|]. destruct o1; simpl; eauto. Qed.

Lemma rep0_complete {A} g p t s (k : string → option A) :
  all_in p t = true → is_Some (k s) → is_Some (rep0 g p (t +:+ s) k).
Proof.
  intros Ht Hk. induction t as [|a t IH]; simpl in *.
  - destruct s as [|b s]; simpl; [done|]. destruct (p b); [|done]. destruct g; apply is_Some_or_else; auto.
  - apply andb_true_iff in Ht as [-> Ht]. destruct g; apply is_Some_or_else; auto.
Qed.

Lemma str_app_length a b : String.length (a +:+ b) = (String.length a + String.length b)%nat.
Proof. induction a as [|c a IH]; simpl; [done|]. by rewrite IH. Qed.

Lemma re_match_complete {A} r t : lang r t → ∀ s c (k : string → captures → option A),
  (∀ c', is_Some (k s c')) → is_Some (re_match r (t +:+ s) c k).
Proof.
  revert t. induction r as [p|ci l|g p|g p|r IH|r1 IH1 r2 IH2|n r IH|r IH]; intros t Hl s c k Hk; simpl.
  - inversion Hl as [p' a Ha| | | | | | | | | |]; subst. simpl. rewrite Ha. apply Hk.
  - rewrite strip_lit_lang by done. apply Hk.
  - inversion Hl; subst. by apply rep0_complete.
  - inversion Hl as [| | | |g' p' t' Ht Hne| | | | | |]; subst. destruct t as [|a t]; [done|]. simpl in *.
    apply andb_true_iff in Ht as [-> Ht]. by apply rep0_complete.
  - apply is_Some_or_else. inversion Hl; subst; [right; apply Hk|left; by apply IH].
  - inversion Hl as [| | | | | | |r1' r2' t1 t2 H1 H2| | |]; subst. rewrite str_app_assoc. apply IH1; [done|]. intros c1. by apply IH2.
  - inversion Hl; subst. apply IH; [done|]. intros c'. apply Hk.
  - assert (String.length t ≤ String.length (t +:+ s))%nat as Hf by (rewrite str_app_length; lia).
    revert Hf c. generalize (String.length (t +:+ s)). remember (Plus r) as pr eqn:Er.
    induction Hl as [| | | | | | | | |r' t Ht|r' t1 t2 H1 _ H2 IH2]; try done; injection Er as ->; intros fuel Hf c.
    + destruct fuel as [|fuel]; (apply IH; [done|]; intros c'); [apply Hk|]. case_match; [|apply Hk].
      apply is_Some_or_else. right. apply Hk.
    + destruct t1 as [|a t1]; [by apply IH2|]. destruct fuel as [|fuel]; [simpl in Hf; lia|].
      rewrite str_app_assoc. apply IH; [done|]. intros c'.
      assert ((String.length (t2 +:+ s) <? String.length (String a t1 +:+ (t2 +:+ s)))%nat = true) as ->
        by (apply Nat.ltb_lt; rewrite !str_app_length; simpl; lia).
      apply is_Some_or_else. left. apply (IH2 eq_refl). rewrite str_app_length in Hf. simpl in Hf. lia.
Qed.

(** A match at the start, and anywhere, in terms of the language of the pattern. *)
Lemma re_match_here_spec r s : is_Some (re_match_here r s) ↔ ∃ t v, s = t +:+ v ∧ lang r t.
Proof.
  split.
  - intros [x (t & v & _ & Hs & Hl & _)%re_match_sound]. eauto.
  - intros (t & v & -> & Hl). apply re_match_complete; [done|]. eauto.
Qed.

Lemma MatchString_spec r s : MatchString r s = true ↔ ∃ u t v, s = u +:+ t +:+ v ∧ lang r t.
Proof.
  unfold MatchString. split.
  - destruct (FindStringSubmatch r s) as [c|] eqn:E; [|done]. intros _. by apply FindStringSubmatch_sound in E.
  - intros (u & t & v & -> & Hl). assert (is_Some (FindStringSubmatch r (u +:+ t +:+ v))) as [c ->]; [|done].
    induction u as [|a u IH]; simpl.
    + destruct (re_match_here_spec r (t +:+ v)) as [_ [c Hc]]; [eauto|].
      destruct (t +:+ v); simpl; rewrite Hc; simpl; eauto.
    + apply is_Some_or_else. by right.
Qed.

Lemma consumed_app a b : consumed (a +:+ b) b = a.
Proof.
  unfold consumed. rewrite str_app_length.
  replace (_ + _ - _)%nat with (String.length a) by lia.
  induction a as [|c a IH]; simpl; [by destruct b|]. by rewrite IH.
Qed.

Lemma strip_lit_app ci l s : strip_lit ci l (l +:+ s) = Some s.
Proof. induction l as [|c l IH]; simpl; [done|]. by rewrite Ascii.eqb_refl. Qed.

(** Versions for [p+]. *)
Lemma rep1_lazy {A} (p : ascii → bool) (k : string → option A) a b r :
  a ≠ "" → all_in p a = true → k b = Some r →
  (∀ a' b', a +:+ b = a' +:+ b' → (String.length a' < String.length a)%nat → k b' = None) →
  rep1 false p (a +:+ b) k = Some r.
Proof.
  destruct a as [|x a]; [done|]. simpl. intros _ [-> Ha]%andb_true_iff Hk Hno.
  apply rep0_lazy; [done|done|]. intros a' b' E Hl. apply (Hno (String x a') b'); simpl.
  - by rewrite E.
  - lia.
Qed.

Lemma rep1_greedy {A} (p : ascii → bool) (k : string → option A) a b r :
  a ≠ "" → all_in p a = true → k b = Some r →
  (∀ a' b', a +:+ b = a' +:+ b' → (String.length a < String.length a')%nat → k b' = None) →
  rep1 true p (a +:+ b) k = Some r.
Proof.
  destruct a as [|x a]; [done|]. simpl. intros _ [-> Ha]%andb_true_iff Hk Hno.
  apply rep0_greedy; [done|done|]. intros a' b' E Hl. apply (Hno (String x a') b'); simpl.
  - by rewrite E.
  - lia.
Qed.
