(* ===== verification/ResourceId.v ===== *)
(** * Resource ids: [cloudprovider.ParseResourceID], [extractIdentitiesFromError] and
    pkg/utils ([ValidateResourceID], [RedactClientID], [IsKubenetCNI]). *)

From S2P Require Import Prelude GoStrings Regex.

(** ** pkg/utils/utils.go *)

Definition double_quote : string := String (ascii_of_nat 34) "".

(** [(?i)/subscriptions/(.+?)/resourcegroups/(.+?)/providers/Microsoft.ManagedIdentity/userAssignedIdentities/(.+)],
    whose unescaped dot matches any byte. *)
Definition resourceIDFormat : re := seq_re
  [Lit true "/subscriptions/"; Group 1 (Rep1 false dot); Lit true "/resourcegroups/";
   Group 2 (Rep1 false dot); Lit true "/providers/Microsoft"; Chr dot;
   Lit true "ManagedIdentity/userAssignedIdentities/"; Group 3 (Rep1 true dot)].

Definition ValidateResourceID (resourceID : string) : option error :=
  if MatchString resourceIDFormat resourceID then None
  else Some (Errorf ("invalid resource id: " +:+ double_quote +:+ resourceID +:+ double_quote +:+
    ", must match /subscriptions/<subid>/resourcegroups/<resourcegroup>/providers/Microsoft.ManagedIdentity/userAssignedIdentities/<name>")).

(** [\s] of Go: tab, newline, form feed, carriage return, space. *)
Definition is_space (a : ascii) : bool :=
  let n := nat_of_ascii a in
  (n =? 9)%nat || (n =? 10)%nat || (n =? 12)%nat || (n =? 13)%nat || (n =? 32)%nat.
Definition not_space (a : ascii) : bool := negb (is_space a).

(** [redact] with the pattern [^(\S{4})(\S|\s)*(\S{4})$]: the whole text is replaced if its
    first and last four bytes are not spaces and do not overlap; [$1] and [$3] are those
    bytes. The replacement is split at the place where they go. *)
Definition redact (src mid : string) : string :=
  let n := String.length src in
  let first4 := String.substring 0 4 src in
  let last4 := String.substring (n - 4) 4 src in
  if (8 <=? n)%nat && all_in not_space first4 && all_in not_space last4
  then first4 +:+ mid +:+ last4 else src.

Definition RedactClientID (clientID : string) : string := redact clientID "##### REDACTED #####".

(** [IsKubenetCNI]; [readFile] is [os.ReadFile]. *)
Definition IsKubenetCNI (readFile : string → outcome string) (kubeletConfig : string) : outcome bool :=
  bytes ← readFile kubeletConfig;
  Ret (Contains bytes "--network-plugin=kubenet").

(** ** pkg/cloudprovider/cloudprovider.go: resource ids *)

(** [azure.Resource] of go-autorest *)
Record Resource := mkResource {
  SubscriptionID : string; ResourceGroup : string; Provider : string;
  ResourceType : string; ResourceName : string
}.

#[export] Instance Resource_eq_dec : EqDecision Resource.
Proof. solve_decision. Defined.

Definition zeroResource : Resource := mkResource "" "" "" "" "".

(** [(?i)subscriptions/(.+)/resourceGroups/(.+)/providers/(.+?)/(.+?)/(.+?)/(.+)] *)
Definition nestedResourceIDPattern : re := seq_re
  [Lit true "subscriptions/"; Group 1 (Rep1 true dot); Lit true "/resourceGroups/";
   Group 2 (Rep1 true dot); Lit true "/providers/"; Group 3 (Rep1 false dot); Lit true "/";
   Group 4 (Rep1 false dot); Lit true "/"; Group 5 (Rep1 false dot); Lit true "/";
   Group 6 (Rep1 true dot)].

(** [(?i)subscriptions/(.+)/resourceGroups/(.+)/providers/(.+?)/(.+?)/(.+)] *)
Definition resourceIDPattern : re := seq_re
  [Lit true "subscriptions/"; Group 1 (Rep1 true dot); Lit true "/resourceGroups/";
   Group 2 (Rep1 true dot); Lit true "/providers/"; Group 3 (Rep1 false dot); Lit true "/";
   Group 4 (Rep1 false dot); Lit true "/"; Group 5 (Rep1 true dot)].

Definition VMResourceType : string := "virtualMachines".
Definition VMSSResourceType : string := "virtualMachineScaleSets".

(** [ParseResourceID]: both results; a match of either pattern has at least five groups. *)
Definition ParseResourceID (resourceID : string) : Resource * option error :=
  match or_else (FindStringSubmatch nestedResourceIDPattern resourceID)
                (FindStringSubmatch resourceIDPattern resourceID) with
  | None => (zeroResource, Some (Errorf ("failed to parse " +:+ resourceID +:+ ": invalid resource ID format")))
  | Some m => (mkResource (submatch m 1) (submatch m 2) (submatch m 3) (submatch m 4)
                 (path_Base (submatch m 5)), None)
  end.

(** [[a-zA-Z0-9-_]] under [(?i)] *)
Definition id_char (a : ascii) : bool :=
  let n := nat_of_ascii (lower_ascii a) in
  ((97 <=? n)%nat && (n <=? 122)%nat) || ((48 <=? n)%nat && (n <=? 57)%nat)
  || (n =? 45)%nat || (n =? 95)%nat.

(** [userAssignedIdentitiesPattern]: a quoted, comma-separated list of identity ids *)
Definition userAssignedIdentitiesPattern : re := seq_re
  [Lit false "'";
   Plus (Group 1 (seq_re
     [Opt (Lit false ","); Lit true "/subscriptions/"; Rep1 true id_char;
      Lit true "/resourcegroups/"; Rep1 true id_char; Lit true "/providers/Microsoft"; Chr dot;
      Lit true "ManagedIdentity/userAssignedIdentities/"; Rep1 true id_char]));
   Lit false "'"].

(** [match[1 : len(match)-1]] *)
Definition strip_ends (s : string) : string := String.substring 1 (String.length s - 2) s.

Definition extractIdentitiesFromError (err : option error) : list string :=
  match err with
  | None => []
  | Some e =>
      match FindStringSubmatch userAssignedIdentitiesPattern (Error e) with
      | None => []
      | Some m =>
          filter (λ id, ValidateResourceID id = None) (Split (strip_ends (submatch m 0)) ",")
      end
  end.

(** ** Examples *)

Example parse_vmss :
  ParseResourceID "azure:///subscriptions/xxx/resourceGroups/yyy/providers/Microsoft.Compute/virtualMachineScaleSets/zzz/virtualMachines/0"
  = (mkResource "xxx" "yyy" "Microsoft.Compute" "virtualMachineScaleSets" "zzz", None).
Proof. vm_compute. reflexivity. Qed.

Example parse_vm :
  ParseResourceID "azure:///subscriptions/xxx/resourceGroups/yyy/providers/Microsoft.Compute/virtualMachines/zzz"
  = (mkResource "xxx" "yyy" "Microsoft.Compute" "virtualMachines" "zzz", None).
Proof. vm_compute. reflexivity. Qed.

Example extract_two :
  extractIdentitiesFromError (Some (Errorf
    "x ['/subscriptions/a/resourceGroups/b/providers/Microsoft.ManagedIdentity/userAssignedIdentities/c,/subscriptions/a/resourcegroups/b/providers/Microsoft.ManagedIdentity/userAssignedIdentities/d']"))
  = ["/subscriptions/a/resourceGroups/b/providers/Microsoft.ManagedIdentity/userAssignedIdentities/c";
     "/subscriptions/a/resourcegroups/b/providers/Microsoft.ManagedIdentity/userAssignedIdentities/d"].
Proof. vm_compute. reflexivity. Qed.
