(* ===== verification/ResourceIdSpec.v ===== *)
(** * Resource ids: parsing what Azure writes.

    The ids are texts of fields separated by slashes; that the greedy groups of the patterns
    end at the right place follows from the position of the literals among the fields. *)

From S2P Require Import Prelude GoStrings Regex ResourceId.

(** ** Splitting at slashes *)

Lemma Split_app_full a s c : Split (a +:+ String c s) c = Split a c ++ Split s c.
Proof.
  induction a as [|d a IH]; simpl; [by rewrite Ascii.eqb_refl|]. rewrite IH.
  destruct (Ascii.eqb c d); [done|]. destruct (Split a c) eqn:E; [by apply Split_not_nil in E|done].
Qed.

Lemma length_Split s c : (1 ≤ length (Split s c))%nat.
Proof. destruct (Split s c) eqn:E; [by apply Split_not_nil in E|simpl; lia]. Qed.

Lemma Split_single s c x : Split s c = [x] → s = x.
Proof. intros H. by rewrite <- (Join_Split s c), H. Qed.

Lemma lower_slash c : lower_ascii c = slash ↔ c = slash.
Proof. by destruct c as [[] [] [] [] [] [] [] []]. Qed.

Lemma eqb_slash_lower c : Ascii.eqb slash (lower_ascii c) = Ascii.eqb slash c.
Proof. by destruct c as [[] [] [] [] [] [] [] []]. Qed.

Lemma free_lower s : free_of slash (ToLower s) = free_of slash s.
Proof. induction s as [|c s IH]; [done|]. cbn [ToLower free_of]. by rewrite IH, eqb_slash_lower. Qed.

Lemma ToLower_split t u v : ToLower t = u +:+ v → ∃ t1 t2, t = t1 +:+ t2 ∧ ToLower t1 = u ∧ ToLower t2 = v.
Proof.
  revert t. induction u as [|c u IH]; intros t H; [by exists "", t|]. destruct t as [|d t]; [done|]. simpl in H.
  injection H as Hd H. destruct (IH _ H) as (t1 & t2 & -> & <- & <-). exists (String d t1), t2. by rewrite <- Hd.
Qed.

(** A text between slashes that is the word [w] up to case. *)
Lemma lang_segment w t : lang (Lit true ("/" +:+ w +:+ "/")) t →
  ∃ w', t = "/" +:+ w' +:+ "/" ∧ ToLower w' = ToLower w.
Proof.
  intros H. inversion H as [| |l t' Ht| | | | | | | |]; subst.
  change (ToLower t = ToLower ("/" +:+ (w +:+ "/"))) in Ht. rewrite !ToLower_app in Ht.
  apply ToLower_split in Ht as (t1 & t2 & -> & H1 & H2). apply ToLower_split in H2 as (w' & t3 & -> & H2 & H3).
  assert (∀ x, ToLower x = "/" → x = "/") as Hs.
  { intros [|c [|d x]]; [done| |done]. simpl. intros [= Hc]. apply (lower_slash c) in Hc. by subst. }
  apply Hs in H1 as ->. apply Hs in H3 as ->. eauto.
Qed.

Lemma strip_segment w b r : strip_lit true ("/" +:+ w +:+ "/") b = Some r →
  ∃ w', b = "/" +:+ w' +:+ "/" +:+ r ∧ ToLower w' = ToLower w.
Proof.
  intros (t & -> & (w' & -> & Hw)%lang_segment)%strip_lit_Some. exists w'. by rewrite !str_app_assoc.
Qed.

Lemma Split_segment c w' r : free_of slash w' = true →
  Split (c +:+ "/" +:+ w' +:+ "/" +:+ r) slash = Split c slash ++ w' :: Split r slash.
Proof. intros Hw. change (c +:+ "/" +:+ w' +:+ "/" +:+ r) with (c +:+ String slash (w' +:+ String slash r)).
  by rewrite Split_app_full, Split_app.
Qed.

(** Fields without slashes, joined. *)
Abbreviation path l := (Join l "/").
Abbreviation no_slash s := (free_of slash s = true).

Lemma Split_path l : l ≠ [] → Forall (λ s, no_slash s) l → Split (path l) slash = l.
Proof. apply (Split_Join l slash). Qed.

Lemma path_cons s l : l ≠ [] → path (s :: l) = s +:+ "/" +:+ path l.
Proof. by destruct l. Qed.

(** A literal between slashes only occurs later if some later field is that word. *)
Lemma no_later w segs c b r :
  segs ≠ [] → Forall (λ s, no_slash s) segs → no_slash w →
  "/" +:+ path segs = c +:+ b → c ≠ "" → strip_lit true ("/" +:+ w +:+ "/") b = Some r →
  Exists (λ x, ToLower x = ToLower w) (tail segs).
Proof.
  intros Hne Hs Hw E Hc (w' & -> & Hl)%strip_segment. apply (f_equal (λ s, Split s slash)) in E.
  assert (no_slash w') as Hw' by (by rewrite <- free_lower, Hl, free_lower).
  rewrite Split_segment in E by done. change ("/" +:+ path segs) with ("" +:+ String slash (path segs)) in E.
  rewrite Split_app_full, Split_path in E by done. simpl in E.
  destruct (Split c slash) as [|x [|y l]] eqn:Ec; [by apply Split_not_nil in Ec| |].
  - apply Split_single in Ec as ->. by injection E as E _.
  - injection E as _ ->. simpl. apply Exists_app. right. by apply Exists_cons; left.
Qed.

Lemma app_longer a b a' b' : a +:+ b = a' +:+ b' → (String.length a < String.length a')%nat →
  ∃ c, c ≠ "" ∧ a' = a +:+ c ∧ b = c +:+ b'.
Proof.
  revert a'. induction a as [|x a IH]; intros a' E Hl; simpl in *.
  - exists a'. split; [by destruct a'; simpl in *; [lia|]|done].
  - destruct a' as [|y a']; simpl in *; [lia|]. injection E as -> E. destruct (IH _ E) as (c & Hc & -> & ->); [lia|eauto].
Qed.

(** ** The groups of the patterns *)

(** A greedy group before a literal word takes everything up to the word. *)
Lemma greedy_segment {A} a w segs (K : string → string → option A) r :
  a ≠ "" → all_in dot a = true → no_slash w → segs ≠ [] → Forall (λ s, no_slash s) segs →
  Forall (λ x, ToLower x ≠ ToLower w) segs →
  K ("/" +:+ path (w :: segs)) (path segs) = Some r →
  rep1 true dot (a +:+ "/" +:+ path (w :: segs))
    (λ s, match strip_lit true ("/" +:+ w +:+ "/") s with Some s' => K s s' | None => None end) = Some r.
Proof.
  intros Ha Hd Hw Hne Hs Hf HK. apply rep1_greedy; [done|done| |].
  - rewrite path_cons by done. rewrite <- !str_app_assoc, (str_app_assoc "/" w). rewrite strip_lit_app.
    rewrite path_cons in HK by done. by rewrite !str_app_assoc.
  - intros a' b' E Hl. destruct (app_longer _ _ _ _ E Hl) as (c & Hc & -> & Hb).
    destruct (strip_lit true _ b') as [r'|] eqn:Er; [|done].
    eapply no_later in Hb; [|done|by constructor|done|done|exact Er]. simpl in Hb.
    apply Exists_exists in Hb as (x & Hx & Hxw). rewrite Forall_forall in Hf. by destruct (Hf x Hx).
Qed.

(** A lazy group before a slash takes one field. *)
Lemma lazy_segment {A} a s (K : string → string → option A) r :
  a ≠ "" → all_in dot a = true → no_slash a → K ("/" +:+ s) s = Some r →
  rep1 false dot (a +:+ "/" +:+ s) (λ s, match strip_lit true "/" s with Some s' => K s s' | None => None end) = Some r.
Proof.
  intros Ha Hd Hf HK. apply rep1_lazy; [done|done|done|]. intros a' b' E Hl. symmetry in E.
  destruct (app_longer _ _ _ _ E Hl) as (c & Hc & -> & ->). destruct c as [|d c]; [done|].
  assert (d ≠ slash) as Hds.
  { intros ->. clear -Hf. induction a' as [|x a' IH]; cbn [free_of String.append] in Hf; [by rewrite Ascii.eqb_refl in Hf|]. apply andb_true_iff in Hf as [_ Hf]. by apply IH. }
  destruct (strip_lit true "/" _) as [r'|] eqn:Er; [exfalso|done]. apply strip_lit_Some in Er as (t & E' & Ht).
  inversion Ht as [| |l t' Hl'| | | | | | | |]; subst. destruct t as [|e t]; [done|]. injection E' as <- _.
  injection Hl' as He _. by apply (lower_slash d) in He.
Qed.

(** The last group takes the rest. *)
Lemma greedy_end {A} a (k : string → option A) r :
  a ≠ "" → all_in dot a = true → k "" = Some r → rep1 true dot a k = Some r.
Proof.
  intros Ha Hd Hk. rewrite <- (str_app_nil_r a). apply rep1_greedy; [done|done|done|].
  intros a' b' E Hl. apply (f_equal String.length) in E. rewrite !str_app_length in E. simpl in E. lia.
Qed.

(** ** The ids of machines *)

(** A field of an id: not empty, on one line, without slashes, and no key word. *)
Definition field (s : string) : Prop :=
  no_slash s ∧ s ≠ "" ∧ all_in dot s = true ∧ ToLower s ≠ "resourcegroups" ∧ ToLower s ≠ "providers".

Definition fields (r : Resource) : Prop :=
  Forall field [SubscriptionID r; ResourceGroup r; Provider r; ResourceType r; ResourceName r].

(** The id as Azure's cloud provider writes it on nodes. *)
Definition resource_id (r : Resource) : string :=
  "azure:///subscriptions/" +:+ SubscriptionID r +:+ "/resourceGroups/" +:+ ResourceGroup r +:+ "/providers/" +:+
  Provider r +:+ "/" +:+ ResourceType r +:+ "/" +:+ ResourceName r.

(** The id of a part of a resource, such as a machine of a scale set. *)
Definition nested_id (r : Resource) (part : string) : string := resource_id r +:+ "/" +:+ part.

Lemma find_skip q x :
  FindStringSubmatch (Seq (Lit true "subscriptions/") q) ("azure:///" +:+ x) =
  FindStringSubmatch (Seq (Lit true "subscriptions/") q) x.
Proof. reflexivity. Qed.

Lemma find_here r s c : re_match_here r s = Some c → FindStringSubmatch r s = Some c.
Proof. intros H. destruct s; simpl; by rewrite H. Qed.

Lemma consumed_all s : consumed s "" = s.
Proof. rewrite <- (str_app_nil_r s) at 1. apply consumed_app. Qed.

Lemma lang_seq_inv r1 r2 t : lang (Seq r1 r2) t → ∃ t1 t2, t = t1 +:+ t2 ∧ lang r1 t1 ∧ lang r2 t2.
Proof. intros H. inversion H; subst. eauto. Qed.

Lemma lang_slash t : lang (Lit true "/") t → t = "/".
Proof.
  intros H. inversion H as [| |l t' Ht| | | | | | | |]; subst. destruct t as [|c [|d t]]; [done| |done].
  injection Ht as Hc. apply (lower_slash c) in Hc. by subst.
Qed.

Lemma four_fields a b c d : (4 ≤ length (Split (a +:+ "/" +:+ (b +:+ "/" +:+ (c +:+ "/" +:+ d))) slash))%nat.
Proof.
  change (4 ≤ length (Split (a +:+ String slash (b +:+ String slash (c +:+ String slash d))) slash))%nat.
  rewrite !Split_app_full, !length_app. pose proof (length_Split a slash). pose proof (length_Split b slash).
  pose proof (length_Split c slash). pose proof (length_Split d slash). lia.
Qed.

Lemma lookup_middle {A} (l l1 l2 : list A) x : l = l1 ++ x :: l2 → l !! length l1 = Some x ∧ length l = (length l1 + S (length l2))%nat.
Proof. intros ->. by rewrite list_lookup_middle, length_app. Qed.

Section parse.
Variable r : Resource.
Hypothesis Hr : fields r.

Abbreviation sub := (SubscriptionID r).
Abbreviation rg := (ResourceGroup r).
Abbreviation prov := (Provider r).
Abbreviation typ := (ResourceType r).
Abbreviation nm := (ResourceName r).

Lemma fields_of : field sub ∧ field rg ∧ field prov ∧ field typ ∧ field nm.
Proof. unfold fields in Hr. rewrite !Forall_cons in Hr. tauto. Qed.

Lemma parse_plain : ∃ m, FindStringSubmatch resourceIDPattern (resource_id r) = Some m ∧
  mkResource (submatch m 1) (submatch m 2) (submatch m 3) (submatch m 4) (submatch m 5) = r.
Proof.
  destruct fields_of as ((S1 & S2 & S3 & S4 & S5) & (R1 & R2 & R3 & R4 & R5) & (P1 & P2 & P3 & P4 & P5) & (T1 & T2 & T3 & T4 & T5) & (N1 & N2 & N3 & N4 & N5)).
  eexists. split.
  - etransitivity; [refine (find_skip _ ("subscriptions/" +:+ sub +:+ "/" +:+ path ["resourceGroups"; rg; "providers"; prov; typ; nm]))|].
    apply find_here. unfold re_match_here. cbn [re_match]. rewrite strip_lit_app. cbn [seq_re re_match].
    apply (greedy_segment sub "resourceGroups" [rg; "providers"; prov; typ; nm]); [done..| | |].
    { by repeat constructor. } { by repeat constructor. }
    apply (greedy_segment rg "providers" [prov; typ; nm]); [done..| | |].
    { by repeat constructor. } { by repeat constructor. }
    apply (lazy_segment prov (typ +:+ "/" +:+ nm)); [done..|].
    apply (lazy_segment typ nm); [done..|].
    apply greedy_end; [done..|]. reflexivity.
  - unfold submatch. rewrite !lookup_insert. simpl. rewrite !consumed_app, consumed_all. by destruct r.
Qed.

(** The pattern of nested resources takes the part for its sixth group... *)
Lemma parse_nested part : part ≠ "" → all_in dot part = true → Forall (λ s, ToLower s ≠ "resourcegroups" ∧ ToLower s ≠ "providers") (Split part slash) →
  ∃ m, FindStringSubmatch nestedResourceIDPattern (nested_id r part) = Some m ∧
  mkResource (submatch m 1) (submatch m 2) (submatch m 3) (submatch m 4) (submatch m 5) = r.
Proof.
  intros Hp1 Hp2 Hp3.
  destruct fields_of as ((S1 & S2 & S3 & S4 & S5) & (R1 & R2 & R3 & R4 & R5) & (P1 & P2 & P3 & P4 & P5) & (T1 & T2 & T3 & T4 & T5) & (N1 & N2 & N3 & N4 & N5)).
  assert (Forall (λ s, no_slash s) (Split part slash)) as Hf by apply Split_all_free.
  assert (∀ l, path (l ++ Split part slash) = path (l ++ [part])) as Hj.
  { intros l. induction l as [|x l IH]; [apply Join_Split|]. cbn [app]. rewrite !path_cons, IH; [done| |].
    - by destruct l.
    - destruct l; [apply Split_not_nil|done]. }
  eexists. split.
  - assert (nested_id r part = "azure:///" +:+ "subscriptions/" +:+ sub +:+ "/" +:+
      path (["resourceGroups"; rg; "providers"; prov; typ; nm] ++ Split part slash)) as ->.
    { rewrite Hj. unfold nested_id, resource_id. by rewrite !str_app_assoc. }
    etransitivity; [refine (find_skip _ _)|].
    apply find_here. unfold re_match_here. cbn [re_match]. rewrite strip_lit_app. cbn [seq_re re_match].
    apply (greedy_segment sub "resourceGroups" ([rg; "providers"; prov; typ; nm] ++ Split part slash)); [done..| | |].
    { do 5 (constructor; [done|]). done. }
    { do 5 (constructor; [done|]). eapply Forall_impl; [exact Hp3|]. by intros x [? ?]. }
    apply (greedy_segment rg "providers" ([prov; typ; nm] ++ Split part slash)); [done..| | |].
    { do 3 (constructor; [done|]). done. }
    { do 3 (constructor; [done|]). eapply Forall_impl; [exact Hp3|]. by intros x [? ?]. }
    rewrite (Hj [prov; typ; nm]).
    apply (lazy_segment prov (typ +:+ "/" +:+ nm +:+ "/" +:+ part)); [done..|].
    apply (lazy_segment typ (nm +:+ "/" +:+ part)); [done..|].
    apply (lazy_segment nm part); [done..|].
    apply greedy_end; [done..|]. reflexivity.
  - unfold submatch. rewrite !lookup_insert. simpl. rewrite ?Hj, !consumed_app. by destruct r.
Qed.

(** ...and does not match the id of a plain resource, which has too few fields for it. *)
Lemma plain_not_nested : FindStringSubmatch nestedResourceIDPattern (resource_id r) = None.
Proof.
  destruct fields_of as ((S1 & S2 & S3 & S4 & S5) & (R1 & R2 & R3 & R4 & R5) & (P1 & P2 & P3 & P4 & P5) & (T1 & T2 & T3 & T4 & T5) & (N1 & N2 & N3 & N4 & N5)).
  destruct (FindStringSubmatch _ _) as [c|] eqn:E; [exfalso|done].
  apply FindStringSubmatch_sound in E as (u & t & v & E & Hl). unfold nestedResourceIDPattern in Hl. cbn [seq_re] in Hl.
  apply lang_seq_inv in Hl as (s1 & t1 & -> & _ & Hl). apply lang_seq_inv in Hl as (g1 & t2 & -> & _ & Hl).
  apply lang_seq_inv in Hl as (l1 & t3 & -> & _ & Hl). apply lang_seq_inv in Hl as (g2 & t4 & -> & _ & Hl).
  apply lang_seq_inv in Hl as (l2 & t5 & -> & (w' & -> & Hw)%(lang_segment "providers") & Hl).
  apply lang_seq_inv in Hl as (g3 & t6 & -> & _ & Hl). apply lang_seq_inv in Hl as (l3 & t7 & -> & ->%lang_slash & Hl).
  apply lang_seq_inv in Hl as (g4 & t8 & -> & _ & Hl). apply lang_seq_inv in Hl as (l4 & t9 & -> & ->%lang_slash & Hl).
  apply lang_seq_inv in Hl as (g5 & t10 & -> & _ & Hl). apply lang_seq_inv in Hl as (l5 & g6 & -> & ->%lang_slash & _).
  assert (resource_id r = (u +:+ s1 +:+ g1 +:+ l1 +:+ g2) +:+ "/" +:+ w' +:+ "/" +:+
    (g3 +:+ "/" +:+ (g4 +:+ "/" +:+ (g5 +:+ "/" +:+ (g6 +:+ v))))) as E' by (by rewrite E, !str_app_assoc).
  apply (f_equal (λ s, Split s slash)) in E'. rewrite Split_segment in E' by (by rewrite <- free_lower, Hw).
  assert (Split (resource_id r) slash =
    ["azure:"; ""; ""; "subscriptions"; sub; "resourceGroups"; rg; "providers"; prov; typ; nm]) as Hs.
  { apply (Split_path ["azure:"; ""; ""; "subscriptions"; sub; "resourceGroups"; rg; "providers"; prov; typ; nm]); [done|].
    by repeat constructor. }
  rewrite Hs in E'. clear Hs E Hr.
  set (before := Split _ slash) in E' at 1. set (after := Split _ slash) in E'.
  assert (4 ≤ length after)%nat as Ha by (subst after; apply four_fields).
  clearbody before after. destruct (lookup_middle _ _ _ _ E') as [Hn Hlen]. simpl in Hlen.
  destruct (length before) as [|[|[|[|[|[|[|n]]]]]]]; [..|lia]; injection Hn as <-; done.
Qed.
End parse.

(** C39: [ParseResourceID] inverts the writing of resource ids: it reads subscription, resource
    group, provider, type and name back from the id of a resource, and those of the parent
    (such as the scale set) from the id of a part of it (such as one of its machines). *)
Theorem ParseResourceID_roundtrip r part :
  fields r → part ≠ "" → all_in dot part = true →
  Forall (λ s, ToLower s ≠ "resourcegroups" ∧ ToLower s ≠ "providers") (Split part slash) →
  ParseResourceID (resource_id r) = (r, None) ∧ ParseResourceID (nested_id r part) = (r, None).
Proof.
  intros Hr Hp1 Hp2 Hp3. assert (path_Base (ResourceName r) = ResourceName r) as Hb.
  { destruct (fields_of r Hr) as (_ & _ & _ & _ & H1 & H2 & _). by apply path_Base_plain. }
  unfold ParseResourceID. split.
  - rewrite plain_not_nested by done. destruct (parse_plain r Hr) as (m & -> & Hm). simpl. by rewrite <- Hm in Hb |- *; simpl in *; rewrite Hb.
  - destruct (parse_nested r Hr part Hp1 Hp2 Hp3) as (m & -> & Hm). simpl. by rewrite <- Hm in Hb |- *; simpl in *; rewrite Hb.
Qed.

Definition vmss1 : Resource := mkResource "xxx" "MC_rg" "Microsoft.Compute" "virtualMachineScaleSets" "aks-nodepool1-vmss".

Lemma ParseResourceID_roundtrip_witness :
  ParseResourceID (resource_id vmss1) = (vmss1, None) ∧
  ParseResourceID (nested_id vmss1 "virtualMachines/0") = (vmss1, None).
Proof.
  apply ParseResourceID_roundtrip.
  - unfold fields. repeat apply Forall_cons_2; try apply Forall_nil_2;
      (split; [vm_compute; reflexivity|]); (split; [discriminate|]); (split; [vm_compute; reflexivity|]); split; discriminate.
  - discriminate.
  - vm_compute. reflexivity.
  - vm_compute (Split _ _). repeat constructor; discriminate.
Defined.
