(* ===== verification/MicDesired.v ===== *)
(** * MIC: the desired assigned identities and the three-way diff
    (pkg/mic/mic.go: [createDesiredAssignedIdentityList], [convertIDListToMap],
    [makeAssignedIDs], [matchAssignedID], [getAzureAssignedIDsToCreate],
    [getAzureAssignedIDsToDelete], [getAzureAssignedIdentitiesToUpdate]). *)

From S2P Require Import Prelude GoStrings Types Conversion Fixtures.

(** The fields of [mic.Client] that the pure part of a sync cycle reads. *)
Record MicClient := mkMicClient {
  IsNamespaced : bool;
  createDeleteBatch : Z;
  ImmutableUserMSIsMap : option (gmap string bool)
}.

(** ** Names and keys *)

Definition getAssignedIDName (podName podNameSpace idName : string) : string :=
  podName +:+ "-" +:+ podNameSpace +:+ "-" +:+ idName.

Definition getIDKey (ns name : string) : string := Join [ns; name] "/".

Definition checkIfUserAssignedMSI (id : AzureIdentity) : bool :=
  bool_decide (ais_Type (ai_Spec id) = UserAssignedMSI).

(** [convertIDListToMap]: identities of type 0 with a malformed resource id are left out,
    and of two identities with the same key the later one wins. [valid] is
    [utils.ValidateResourceID(_) == nil]. *)
Definition convertIDListToMap (valid : string → bool) (azureIdentities : list AzureIdentity) :
    gmap string AzureIdentity :=
  foldl (λ m azureIdentity,
    if checkIfUserAssignedMSI azureIdentity && negb (valid (ais_ResourceID (ai_Spec azureIdentity)))
    then m
    else <[getIDKey (Namespace (ai_ObjectMeta azureIdentity)) (Name (ai_ObjectMeta azureIdentity))
             := azureIdentity]> m) ∅ azureIdentities.

(** [makeAssignedIDs]; its error result is always nil. *)
Definition makeAssignedIDs (c : MicClient) (azID : AzureIdentity) (azBinding : AzureIdentityBinding)
    (podName podNameSpace nodeName : string) : AzureAssignedIdentity :=
  let labels := <["nodename" := nodeName]> (∅ : gmap string string) in
  let ns := if IsNamespaced c || IsNamespacedIdentity azID
            then Namespace (ai_ObjectMeta azID) else "default" in
  let oMeta := mkObjectMeta (getAssignedIDName podName podNameSpace (Name (ai_ObjectMeta azID)))
                 ns "" labels ∅ [] [] in
  {| aai_TypeMeta := zeroTypeMeta;
     aai_ObjectMeta := oMeta;
     aai_Spec := {| aas_ObjectMeta := zeroMeta;
                    aas_AzureIdentityRef := Some azID;
                    aas_AzureBindingRef := Some azBinding;
                    aas_Pod := podName;
                    aas_PodNamespace := podNameSpace;
                    aas_NodeName := nodeName;
                    aas_Replicas := None |};
     aai_Status := {| aast_ObjectMeta := zeroMeta; aast_Status := ""; aast_AvailableReplicas := 1 |} |}.

(** ** The desired list *)

Abbreviation aai_name a := (Name (aai_ObjectMeta a)).
Abbreviation pod_ns p := (Namespace (pod_ObjectMeta p)).
Abbreviation pod_name p := (Name (pod_ObjectMeta p)).
Abbreviation pod_label p := (map_get (Labels (pod_ObjectMeta p)) CRDLabelKey).

(** Lines 600-605: the bindings whose selector is the pod's label value. *)
Definition matchedBindings (pod : Pod) (listBindings : list AzureIdentityBinding) :
    list AzureIdentityBinding :=
  filter (λ b, aibs_Selector (aib_Spec b) = pod_label pod) listBindings.

(** Lines 620-627: the namespace test, [true] when the binding has to be skipped. *)
Definition namespace_mismatch (c : MicClient) (azureID : AzureIdentity)
    (binding : AzureIdentityBinding) (pod : Pod) : bool :=
  (IsNamespaced c || IsNamespacedIdentity azureID) &&
  negb (bool_decide (Namespace (ai_ObjectMeta azureID) = Namespace (aib_ObjectMeta binding) ∧
                     Namespace (aib_ObjectMeta binding) = pod_ns pod)).

(** Lines 616-650, the body of the loop over the sorted bindings of one pod. *)
Definition assign_binding (c : MicClient) (idMap : gmap string AzureIdentity) (pod : Pod)
    (newAssignedIDs : gmap string AzureAssignedIdentity) (binding : AzureIdentityBinding) :
    gmap string AzureAssignedIdentity :=
  match idMap !! getIDKey (Namespace (aib_ObjectMeta binding)) (aibs_AzureIdentity (aib_Spec binding)) with
  | Some azureID =>
      if namespace_mismatch c azureID binding pod then newAssignedIDs
      else
        let assignedID := makeAssignedIDs c azureID binding (pod_name pod) (pod_ns pod) (pod_NodeName pod) in
        match newAssignedIDs !! aai_name assignedID with
        | Some _ => newAssignedIDs
        | None => <[aai_name assignedID := assignedID]> newAssignedIDs
        end
  | None => newAssignedIDs
  end.

(** Lines 583-651, the body of the loop over the pods. *)
Definition assign_pod (c : MicClient) (listBindings : list AzureIdentityBinding)
    (idMap : gmap string AzureIdentity)
    (acc : gmap string AzureAssignedIdentity * gmap string bool) (pod : Pod) :
    gmap string AzureAssignedIdentity * gmap string bool :=
  let '(newAssignedIDs, nodeRefs) := acc in
  if bool_decide (pod_NodeName pod = "") then acc
  else if bool_decide (pod_label pod = "") then acc
  else
    match matchedBindings pod listBindings with
    | [] => acc
    | matched => (foldl (assign_binding c idMap pod) newAssignedIDs (sort_bindings matched),
                  <[pod_NodeName pod := true]> nodeRefs)
    end.

(** [createDesiredAssignedIdentityList]; its error result is always nil. *)
Definition createDesiredAssignedIdentityList (c : MicClient) (listPods : list Pod)
    (listBindings : list AzureIdentityBinding) (idMap : gmap string AzureIdentity) :
    gmap string AzureAssignedIdentity * gmap string bool :=
  foldl (assign_pod c listBindings idMap) (∅, ∅) listPods.

(** ** Comparing and diffing *)

(** [matchAssignedID]: the conjuncts are evaluated left to right and short-circuit; the
    references are dereferenced when the conjunct that reads them is reached. *)
Definition matchAssignedID (x y : AzureAssignedIdentity) : outcome bool :=
  bindingX ← deref (aas_AzureBindingRef (aai_Spec x));
  bindingY ← deref (aas_AzureBindingRef (aai_Spec y));
  if negb (bool_decide (Name (aib_ObjectMeta bindingX) = Name (aib_ObjectMeta bindingY) ∧
       ResourceVersion (aib_ObjectMeta bindingX) = ResourceVersion (aib_ObjectMeta bindingY)))
  then Ret false
  else
    idX ← deref (aas_AzureIdentityRef (aai_Spec x));
    idY ← deref (aas_AzureIdentityRef (aai_Spec y));
    Ret (bool_decide (Name (ai_ObjectMeta idX) = Name (ai_ObjectMeta idY) ∧
      ResourceVersion (ai_ObjectMeta idX) = ResourceVersion (ai_ObjectMeta idY) ∧
      aas_Pod (aai_Spec x) = aas_Pod (aai_Spec y) ∧
      aas_PodNamespace (aai_Spec x) = aas_PodNamespace (aai_Spec y) ∧
      aas_NodeName (aai_Spec x) = aas_NodeName (aai_Spec y))).

Abbreviation aai_map := (gmap string AzureAssignedIdentity).
Abbreviation aai_status a := (aast_Status (aai_Status a)).

Section diff.
Context `{R : GoRange}.

(** Lines 770-789, one iteration. *)
Definition create_step (old : aai_map) (create : aai_map)
    (kv : string * AzureAssignedIdentity) : outcome aai_map :=
  let '(assignedIDName, newAssignedID) := kv in
  match old !! assignedIDName with
  | Some oldAssignedID =>
      idMatch ← matchAssignedID oldAssignedID newAssignedID;
      let create' :=
        if idMatch && bool_decide (aai_status oldAssignedID = AssignedIDCreated)
        then <[assignedIDName := oldAssignedID]> create else create in
      Ret (if negb idMatch then <[assignedIDName := newAssignedID]> create' else create')
  | None => Ret (<[assignedIDName := newAssignedID]> create)
  end.

Definition getAzureAssignedIDsToCreate (old new : aai_map) : outcome aai_map :=
  if bool_decide (size old = 0%nat) then Ret new
  else foldM (create_step old) ∅ (go_range 770 new).

(** Lines 806-820, one iteration. *)
Definition delete_step (new : aai_map) (del : aai_map)
    (kv : string * AzureAssignedIdentity) : outcome aai_map :=
  let '(assignedIDName, oldAssignedID) := kv in
  match new !! assignedIDName with
  | Some newAssignedID =>
      idMatch ← matchAssignedID oldAssignedID newAssignedID;
      Ret (if (idMatch : bool) then del else <[assignedIDName := oldAssignedID]> del)
  | None => Ret (<[assignedIDName := oldAssignedID]> del)
  end.

Definition getAzureAssignedIDsToDelete (old new : aai_map) : outcome aai_map :=
  if bool_decide (size old = 0%nat) then Ret ∅
  else if bool_decide (size new = 0%nat) then Ret old
  else foldM (delete_step new) ∅ (go_range 806 old).

(** Lines 837-841: the value to update with keeps the metadata of the object on the
    cluster, with the labels of the new one. *)
Definition update_value (delAssignedID addAssignedID : AzureAssignedIdentity) : AzureAssignedIdentity :=
  {| aai_TypeMeta := aai_TypeMeta addAssignedID;
     aai_ObjectMeta := SetLabels (aai_ObjectMeta delAssignedID) (Labels (aai_ObjectMeta addAssignedID));
     aai_Spec := aai_Spec addAssignedID;
     aai_Status := aai_Status addAssignedID |}.

(** The maps the update loop works on; [add] and [del] are updated in place. *)
Record update_state := mkUpdateState {
  us_before : aai_map; us_after : aai_map; us_add : aai_map; us_del : aai_map
}.

(** Lines 835-850, one iteration. *)
Definition update_step (st : update_state) (kv : string * AzureAssignedIdentity) : update_state :=
  let '(assignedIDName, addAssignedID) := kv in
  match us_del st !! assignedIDName with
  | Some delAssignedID =>
      {| us_before := <[assignedIDName := delAssignedID]> (us_before st);
         us_after := <[assignedIDName := update_value delAssignedID addAssignedID]> (us_after st);
         us_add := delete assignedIDName (us_add st);
         us_del := delete assignedIDName (us_del st) |}
  | None => st
  end.

Definition getAzureAssignedIdentitiesToUpdate (add del : aai_map) : update_state :=
  if bool_decide (size add = 0%nat) || bool_decide (size del = 0%nat)
  then mkUpdateState ∅ ∅ add del
  else foldl update_step (mkUpdateState ∅ ∅ add del) (go_range 835 add).

(** Lines 472-482 of [Sync]: the add, delete and update lists. *)
Definition computeLists (currentAssignedIDs newAssignedIDs : aai_map) : outcome update_state :=
  addList ← getAzureAssignedIDsToCreate currentAssignedIDs newAssignedIDs;
  deleteList ← getAzureAssignedIDsToDelete currentAssignedIDs newAssignedIDs;
  Ret (getAzureAssignedIdentitiesToUpdate addList deleteList).
End diff.

(** ** What the diff decides for each name *)

(** Two assigned identities with set references are the same assignment. *)
Definition same_assignment (x y : AzureAssignedIdentity) : bool :=
  bool_decide (matchAssignedID x y = Ret true).

Definition refs_wf (m : aai_map) : Prop := map_Forall (λ _ a, refs_set a = true) m.

Lemma refs_wf_lookup m k a : refs_wf m → m !! k = Some a → refs_set a = true.
Proof. intros Hm. apply Hm. Qed.

#[export] Hint Resolve refs_wf_lookup : go.

Lemma matchAssignedID_refs_set x y :
  refs_set x = true → refs_set y = true → matchAssignedID x y = Ret (same_assignment x y).
Proof.
  rewrite !refs_set_spec. intros (i & b & Hi & Hb) (i' & b' & Hi' & Hb').
  assert (∃ r, matchAssignedID x y = Ret r) as [r Hr].
  { unfold matchAssignedID. rewrite Hi, Hb, Hi', Hb'. simplify_monad.
    case_match; by eexists. }
  unfold same_assignment. rewrite Hr. f_equal. by destruct r.
Qed.

(** The decision for one name, given the object in the cluster and the desired one. *)
Inductive action :=
  | Unchanged
  | ToCreate (a : AzureAssignedIdentity)
  | ToRetry (a : AzureAssignedIdentity)
  | ToDelete (a : AzureAssignedIdentity)
  | ToUpdate (before after : AzureAssignedIdentity).

Definition classify (old new : option AzureAssignedIdentity) : action :=
  match old, new with
  | None, None => Unchanged
  | None, Some n => ToCreate n
  | Some o, None => ToDelete o
  | Some o, Some n =>
      if same_assignment o n
      then if bool_decide (aai_status o = AssignedIDCreated) then ToRetry o else Unchanged
      else ToUpdate o (update_value o n)
  end.

(** The entries of the four lists that an action stands for. *)
Record entries := mkEntries {
  e_before : option AzureAssignedIdentity; e_after : option AzureAssignedIdentity;
  e_add : option AzureAssignedIdentity; e_del : option AzureAssignedIdentity
}.

Definition action_entries (a : action) : entries :=
  match a with
  | Unchanged => mkEntries None None None None
  | ToCreate n | ToRetry n => mkEntries None None (Some n) None
  | ToDelete o => mkEntries None None None (Some o)
  | ToUpdate b a => mkEntries (Some b) (Some a) None None
  end.

Definition us_view (st : update_state) (k : string) : entries :=
  mkEntries (us_before st !! k) (us_after st !! k) (us_add st !! k) (us_del st !! k).

(** The reference definitions of the create and delete lists, name by name. *)
Definition create_entry (o n : option AzureAssignedIdentity) : option AzureAssignedIdentity :=
  match o, n with
  | _, None => None
  | None, Some n => Some n
  | Some o, Some n =>
      if same_assignment o n
      then if bool_decide (aai_status o = AssignedIDCreated) then Some o else None
      else Some n
  end.

Definition delete_entry (o n : option AzureAssignedIdentity) : option AzureAssignedIdentity :=
  match o, n with
  | None, _ => None
  | Some o, None => Some o
  | Some o, Some n => if same_assignment o n then None else Some o
  end.

Section diff_theory.
Context `{R : GoRange}.
Implicit Types old new add del : aai_map.

Definition create_step_pure old (create : aai_map) (kv : string * AzureAssignedIdentity) : aai_map :=
  let '(k, n) := kv in
  match create_entry (old !! k) (Some n) with Some a => <[k := a]> create | None => create end.

Definition delete_step_pure new (del : aai_map) (kv : string * AzureAssignedIdentity) : aai_map :=
  let '(k, o) := kv in
  match delete_entry (Some o) (new !! k) with Some a => <[k := a]> del | None => del end.

Lemma create_step_Ret old new create kv :
  refs_wf old → refs_wf new → kv ∈ go_range 770 new →
  create_step old create kv = Ret (create_step_pure old create kv).
Proof.
  destruct kv as [k n]. intros Ho Hn Hk%elem_of_go_range. unfold create_step, create_step_pure, create_entry.
  destruct (old !! k) as [o|] eqn:E; [|done].
  rewrite matchAssignedID_refs_set by eauto with go. simplify_monad.
  destruct (same_assignment o n); simpl; [|done]. by case_bool_decide.
Qed.

Lemma delete_step_Ret old new del kv :
  refs_wf old → refs_wf new → kv ∈ go_range 806 old →
  delete_step new del kv = Ret (delete_step_pure new del kv).
Proof.
  destruct kv as [k o]. intros Ho Hn Hk%elem_of_go_range. unfold delete_step, delete_step_pure, delete_entry.
  destruct (new !! k) as [n|] eqn:E; [|done].
  rewrite matchAssignedID_refs_set by eauto with go. simplify_monad.
  by destruct (same_assignment o n).
Qed.

Lemma toCreate_lookup old new :
  refs_wf old → refs_wf new →
  ∃ add, getAzureAssignedIDsToCreate old new = Ret add ∧
         ∀ k, add !! k = create_entry (old !! k) (new !! k).
Proof.
  intros Ho Hn. unfold getAzureAssignedIDsToCreate.
  case_bool_decide as Hs.
  { exists new. split; [done|]. intros k. apply map_size_empty_inv in Hs as ->.
    rewrite lookup_empty. simpl. by destruct (new !! k). }
  eexists. split; [apply (foldM_Ret _ (create_step_pure old)); eauto using create_step_Ret|].
  intros k. rewrite (foldl_pointwise (λ (m : aai_map) k, m !! k) _
    (λ k n o, match create_entry (old !! k) (Some n) with Some a => Some a | None => o end)).
  - rewrite lookup_empty. unfold create_entry. by repeat case_match.
  - intros st k1 v k2. cbn beta. unfold create_step_pure. destruct (create_entry (old !! k1) (Some v)) eqn:E.
    + rewrite lookup_insert. by case_decide.
    + by case_decide.
Qed.

Lemma toDelete_lookup old new :
  refs_wf old → refs_wf new →
  ∃ del, getAzureAssignedIDsToDelete old new = Ret del ∧
         ∀ k, del !! k = delete_entry (old !! k) (new !! k).
Proof.
  intros Ho Hn. unfold getAzureAssignedIDsToDelete.
  case_bool_decide as Hs.
  { exists ∅. split; [done|]. intros k. apply map_size_empty_inv in Hs as ->. by rewrite lookup_empty. }
  case_bool_decide as Hs'.
  { exists old. split; [done|]. intros k. apply map_size_empty_inv in Hs' as ->.
    rewrite lookup_empty. by destruct (old !! k). }
  eexists. split; [apply (foldM_Ret _ (delete_step_pure new)); eauto using delete_step_Ret|].
  intros k. rewrite (foldl_pointwise (λ (m : aai_map) k, m !! k) _
    (λ k o d, match delete_entry (Some o) (new !! k) with Some a => Some a | None => d end)).
  - rewrite lookup_empty. unfold delete_entry. by repeat case_match.
  - intros st k1 v k2. cbn beta. unfold delete_step_pure. destruct (delete_entry (Some v) (new !! k1)) eqn:E.
    + rewrite lookup_insert. by case_decide.
    + by case_decide.
Qed.

(** The update loop, name by name, for any add and delete lists. *)
Lemma toUpdate_view add del k :
  us_view (getAzureAssignedIdentitiesToUpdate add del) k =
    match add !! k, del !! k with
    | Some a, Some d => mkEntries (Some d) (Some (update_value d a)) None None
    | a, d => mkEntries None None a d
    end.
Proof.
  unfold getAzureAssignedIdentitiesToUpdate.
  destruct (bool_decide (size add = 0%nat)) eqn:Ha; simpl.
  { apply bool_decide_eq_true, map_size_empty_inv in Ha as ->.
    unfold us_view; simpl. by rewrite lookup_empty. }
  destruct (bool_decide (size del = 0%nat)) eqn:Hd; simpl.
  { apply bool_decide_eq_true, map_size_empty_inv in Hd as ->.
    unfold us_view; simpl. rewrite lookup_empty. by destruct (add !! k). }
  rewrite (foldl_pointwise us_view update_step (λ _ a e,
    match e_del e with
    | Some d => mkEntries (Some d) (Some (update_value d a)) None None
    | None => e end)).
  - unfold us_view; simpl. rewrite !lookup_empty. destruct (add !! k), (del !! k); done.
  - intros st k1 v k2. unfold update_step. destruct (decide (k1 = k2)) as [->|Hk].
    + unfold us_view; simpl. destruct (us_del st !! k2) eqn:E; [simpl|by rewrite E].
      by rewrite !lookup_insert_eq, !lookup_delete_eq.
    + unfold us_view. destruct (us_del st !! k1); [|done]. simpl.
      by rewrite !lookup_insert_ne, !lookup_delete_ne by done.
Qed.

Lemma computeLists_run (old new : aai_map)
    (Hold : refs_wf old) (Hnew : refs_wf new) :
  ∃ st, computeLists old new = Ret st ∧
        ∀ k, us_view st k = action_entries (classify (old !! k) (new !! k)).
Proof.
  destruct (toCreate_lookup old new Hold Hnew) as (add & Eadd & Hadd).
  destruct (toDelete_lookup old new Hold Hnew) as (del & Edel & Hdel).
  exists (getAzureAssignedIdentitiesToUpdate add del). split.
  - unfold computeLists. rewrite Eadd. simplify_monad. by rewrite Edel.
  - intros k. rewrite toUpdate_view, Hadd, Hdel. unfold create_entry, delete_entry, classify.
    destruct (old !! k) as [o|], (new !! k) as [n|]; try done.
    destruct (same_assignment o n); [|done]. by case_bool_decide.
Qed.

(** C11: the three-way diff. On complete objects it never panics, and for every name the four
    lists hold exactly what the reference [classify] of the current and the desired object of
    that name asks for: nothing when they agree and the assignment is done; the current
    object, to retry, when they agree but it is still [Created]; the desired object to create;
    the current one to delete; or both, as an update that keeps the current metadata. *)
Theorem computeLists_classified (old new : aai_map)
    (Hold : refs_wf old) (Hnew : refs_wf new) :
  ∃ st, computeLists old new = Ret st ∧
        ∀ k, us_view st k = action_entries (classify (old !! k) (new !! k)).
Proof. by apply computeLists_run. Qed.
End diff_theory.

(** ** The desired list: reference definition and properties *)

Section desired_theory.
Context (c : MicClient) (listBindings : list AzureIdentityBinding) (idMap : gmap string AzureIdentity).

(** The assigned identities one pod asks for, in the order of its sorted bindings. *)
Definition pod_assignments (pod : Pod) : list AzureAssignedIdentity :=
  if bool_decide (pod_NodeName pod = "") then []
  else if bool_decide (pod_label pod = "") then []
  else omap (λ b,
    match idMap !! getIDKey (Namespace (aib_ObjectMeta b)) (aibs_AzureIdentity (aib_Spec b)) with
    | Some azureID =>
        if namespace_mismatch c azureID b pod then None
        else Some (makeAssignedIDs c azureID b (pod_name pod) (pod_ns pod) (pod_NodeName pod))
    | None => None
    end) (sort_bindings (matchedBindings pod listBindings)).

Definition all_assignments (listPods : list Pod) : list AzureAssignedIdentity :=
  listPods ≫= pod_assignments.

(** The first assigned identity of each name is kept. *)
Definition keep_first (l : list AzureAssignedIdentity) : aai_map :=
  list_to_map ((λ a, (aai_name a, a)) <$> l).

(** The pod [pod] is to get the identity [azureID] through the binding [b]. *)
Definition wants (listPods : list Pod) (pod : Pod) (b : AzureIdentityBinding) (azureID : AzureIdentity) : Prop :=
  pod ∈ listPods ∧ pod_NodeName pod ≠ "" ∧ pod_label pod ≠ "" ∧
  b ∈ listBindings ∧ aibs_Selector (aib_Spec b) = pod_label pod ∧
  idMap !! getIDKey (Namespace (aib_ObjectMeta b)) (aibs_AzureIdentity (aib_Spec b)) = Some azureID ∧
  namespace_mismatch c azureID b pod = false.

Lemma elem_of_all_assignments listPods a :
  a ∈ all_assignments listPods ↔
  ∃ pod b azureID, wants listPods pod b azureID ∧
    a = makeAssignedIDs c azureID b (pod_name pod) (pod_ns pod) (pod_NodeName pod).
Proof.
  unfold all_assignments, wants. rewrite list_elem_of_bind. split.
  - intros (pod & Ha & Hpod). unfold pod_assignments in Ha.
    case_bool_decide; [set_solver|]. case_bool_decide; [set_solver|].
    apply list_elem_of_omap in Ha as (b & Hb & Ha).
    rewrite sort_bindings_perm in Hb. apply list_elem_of_filter in Hb as [Hsel Hb].
    repeat case_match; simplify_eq. eauto 12.
  - intros (pod & b & azureID & (Hpod & Hn & Hl & Hb & Hsel & Hid & Hns) & ->).
    exists pod. split; [|done]. unfold pod_assignments. rewrite !bool_decide_false by done.
    apply list_elem_of_omap. exists b. split; [|by rewrite Hid, Hns].
    rewrite sort_bindings_perm. by apply list_elem_of_filter.
Qed.

(** [insert if absent], the step of the loop on one pod. *)
Definition add_first (m : aai_map) (a : AzureAssignedIdentity) : aai_map :=
  match m !! aai_name a with Some _ => m | None => <[aai_name a := a]> m end.

Lemma foldl_add_first l m : foldl add_first m l = m ∪ keep_first l.
Proof.
  revert m. induction l as [|a l IH]; intros m; simpl.
  { change (keep_first []) with (∅ : aai_map). by rewrite (right_id_L ∅ (∪)). }
  rewrite IH. unfold keep_first at 2. simpl. fold (keep_first l). unfold add_first.
  apply map_eq. intros k. destruct (m !! aai_name a) as [x|] eqn:E.
  - rewrite !lookup_union. destruct (decide (k = aai_name a)) as [->|Hne].
    + rewrite E. by rewrite !union_Some_l.
    + by rewrite lookup_insert_ne by done.
  - rewrite !lookup_union. destruct (decide (k = aai_name a)) as [->|Hne].
    + rewrite E, !lookup_insert_eq, (left_id None _), union_Some_l. done.
    + by rewrite !lookup_insert_ne by done.
Qed.

Lemma assign_pod_fst acc pod :
  (assign_pod c listBindings idMap acc pod).1 = foldl add_first acc.1 (pod_assignments pod).
Proof.
  destruct acc as [m refs]. unfold assign_pod, pod_assignments. simpl.
  case_bool_decide; [done|]. case_bool_decide; [done|].
  assert (∀ l m, foldl (assign_binding c idMap pod) m l = foldl add_first m
    (omap (λ b, match idMap !! getIDKey (Namespace (aib_ObjectMeta b)) (aibs_AzureIdentity (aib_Spec b)) with
       | Some azureID => if namespace_mismatch c azureID b pod then None
           else Some (makeAssignedIDs c azureID b (pod_name pod) (pod_ns pod) (pod_NodeName pod))
       | None => None end) l)) as Hf.
  { clear. intros l. induction l as [|b l IH]; intros m; [done|]. simpl. rewrite IH.
    unfold assign_binding. destruct (idMap !! _) as [i|]; [|done].
    by destruct (namespace_mismatch c i b pod). }
  destruct (matchedBindings pod listBindings) as [|b l]; [done|]. simpl. apply Hf.
Qed.

(** The loop computes the reference definition. *)
Lemma createDesired_reference listPods :
  (createDesiredAssignedIdentityList c listPods listBindings idMap).1 = keep_first (all_assignments listPods).
Proof.
  unfold createDesiredAssignedIdentityList.
  assert (∀ acc, (foldl (assign_pod c listBindings idMap) acc listPods).1
    = acc.1 ∪ keep_first (all_assignments listPods)) as H.
  { induction listPods as [|pod l IH]; intros acc; simpl.
    { change (keep_first _) with (∅ : aai_map). by rewrite (right_id_L ∅ (∪)). }
    rewrite IH, assign_pod_fst, foldl_add_first. rewrite <- (assoc_L (∪)). f_equal.
    unfold keep_first, all_assignments. simpl. by rewrite fmap_app, list_to_map_app. }
  rewrite H. simpl. by rewrite (left_id_L ∅ (∪)).
Qed.

Lemma keep_first_Some l k a : keep_first l !! k = Some a → k = aai_name a ∧ a ∈ l.
Proof.
  intros H. apply elem_of_list_to_map_2 in H.
  apply list_elem_of_fmap in H as (a' & [= -> ->] & Ha). done.
Qed.

Lemma keep_first_is_Some l a : a ∈ l → is_Some (keep_first l !! aai_name a).
Proof.
  intros Ha. apply not_eq_None_Some. intros H. apply not_elem_of_list_to_map_2 in H.
  apply H. rewrite <- list_fmap_compose. apply list_elem_of_fmap. eauto.
Qed.

(** The node references: the nodes of the pods that some binding matches. *)
Lemma nodeRefs_lookup listPods n :
  (createDesiredAssignedIdentityList c listPods listBindings idMap).2 !! n = Some true ↔
  ∃ pod b, pod ∈ listPods ∧ pod_NodeName pod = n ∧ n ≠ "" ∧ pod_label pod ≠ "" ∧
           b ∈ listBindings ∧ aibs_Selector (aib_Spec b) = pod_label pod.
Proof.
  unfold createDesiredAssignedIdentityList.
  assert (∀ acc, (foldl (assign_pod c listBindings idMap) acc listPods).2 !! n = Some true ↔
    acc.2 !! n = Some true ∨ ∃ pod b, pod ∈ listPods ∧ pod_NodeName pod = n ∧ n ≠ "" ∧
      pod_label pod ≠ "" ∧ b ∈ listBindings ∧ aibs_Selector (aib_Spec b) = pod_label pod) as H.
  { induction listPods as [|pod l IH]; intros acc; simpl; [set_solver|]. rewrite IH. clear IH.
    assert ((assign_pod c listBindings idMap acc pod).2 !! n = Some true ↔ acc.2 !! n = Some true ∨
      (∃ b, pod_NodeName pod = n ∧ n ≠ "" ∧ pod_label pod ≠ "" ∧ b ∈ listBindings ∧
         aibs_Selector (aib_Spec b) = pod_label pod)) as ->; [|set_solver].
    destruct acc as [m refs]. unfold assign_pod. simpl.
    case_bool_decide as H1; [simpl; naive_solver|]. case_bool_decide as H2; [simpl; naive_solver|].
    destruct (matchedBindings pod listBindings) as [|b l'] eqn:E; simpl.
    - split; [by left|]. intros [?|(b & _ & _ & _ & Hb & Hs)]; [done|].
      assert (b ∈ matchedBindings pod listBindings) as Hin by (by apply list_elem_of_filter).
      rewrite E in Hin. set_solver.
    - assert (b ∈ matchedBindings pod listBindings) as Hin by (rewrite E; left).
      apply list_elem_of_filter in Hin as [Hs Hb].
      destruct (decide (pod_NodeName pod = n)) as [<-|Hne].
      + rewrite lookup_insert_eq. split; [|done]. intros _. right. eauto 10.
      + rewrite lookup_insert_ne by done. naive_solver. }
  rewrite H. simpl. split; [by intros [?|?]|by right].
Qed.
End desired_theory.

Lemma computeLists_classified_witness :
  let old := by_name [mk_assigned "p" "ns" "n1" "id" "b" "Assigned";
                      mk_assigned "gone" "ns" "n1" "id" "b" "Assigned"] in
  let new := by_name [mk_assigned "p" "ns" "n2" "id" "b" "";
                      mk_assigned "q" "ns" "n1" "id" "b" ""] in
  refs_wf old ∧ refs_wf new ∧
  ∃ st, @computeLists canonical_range old new = Ret st ∧
        ∀ k, us_view st k = action_entries (classify (old !! k) (new !! k)).
Proof.
  intros old new.
  assert (refs_wf old) as Hold by (apply (bool_decide_unpack _); vm_compute; exact I).
  assert (refs_wf new) as Hnew by (apply (bool_decide_unpack _); vm_compute; exact I).
  split; [exact Hold|]. split; [exact Hnew|].
  exact (@computeLists_classified canonical_range old new Hold Hnew).
Defined.

(** C14: the desired list holds exactly one assigned identity for every name that some
    pod, binding and identity ask for, and nothing else. *)
Theorem desired_sound_and_complete (c : MicClient) (listPods : list Pod)
    (listBindings : list AzureIdentityBinding) (idMap : gmap string AzureIdentity) :
  let m := (createDesiredAssignedIdentityList c listPods listBindings idMap).1 in
  (∀ k a, m !! k = Some a → k = aai_name a ∧
     ∃ pod b azureID, wants c listBindings idMap listPods pod b azureID ∧
       a = makeAssignedIDs c azureID b (pod_name pod) (pod_ns pod) (pod_NodeName pod)) ∧
  (∀ pod b azureID, wants c listBindings idMap listPods pod b azureID →
     is_Some (m !! getAssignedIDName (pod_name pod) (pod_ns pod) (Name (ai_ObjectMeta azureID)))).
Proof.
  simpl. rewrite createDesired_reference. split.
  - intros k a Hk. apply keep_first_Some in Hk as [-> Ha]. split; [done|].
    by apply elem_of_all_assignments.
  - intros pod b azureID Hw.
    apply (keep_first_is_Some _ (makeAssignedIDs c azureID b (pod_name pod) (pod_ns pod) (pod_NodeName pod))).
    apply elem_of_all_assignments. eauto.
Qed.

(** Assigned identities that a pod asks for never cross namespaces when matching is
    namespaced. *)
Lemma namespace_mismatch_false c i b pod :
  namespace_mismatch c i b pod = false →
  IsNamespaced c = true ∨ IsNamespacedIdentity i = true →
  Namespace (ai_ObjectMeta i) = pod_ns pod ∧ Namespace (aib_ObjectMeta b) = pod_ns pod.
Proof.
  unfold namespace_mismatch. intros H Hn.
  assert (IsNamespaced c || IsNamespacedIdentity i = true) as Hor by (apply orb_true_iff; done).
  rewrite Hor in H. simpl in H. apply negb_false_iff, bool_decide_eq_true in H as [H1 H2].
  split; congruence.
Qed.

(** C15: namespaced mode, or a namespaced identity, confines an identity to the pods and
    bindings of its own namespace; the assigned identity is created there too. *)
Theorem desired_namespaced_isolation (c : MicClient) (listPods : list Pod)
    (listBindings : list AzureIdentityBinding) (idMap : gmap string AzureIdentity)
    (k : string) (a : AzureAssignedIdentity) (i : AzureIdentity)
    (Ha : (createDesiredAssignedIdentityList c listPods listBindings idMap).1 !! k = Some a)
    (Hi : aas_AzureIdentityRef (aai_Spec a) = Some i)
    (Hns : IsNamespaced c = true ∨ IsNamespacedIdentity i = true) :
  Namespace (ai_ObjectMeta i) = aas_PodNamespace (aai_Spec a) ∧
  (∃ b, aas_AzureBindingRef (aai_Spec a) = Some b ∧
        Namespace (aib_ObjectMeta b) = aas_PodNamespace (aai_Spec a)) ∧
  Namespace (aai_ObjectMeta a) = aas_PodNamespace (aai_Spec a).
Proof.
  rewrite createDesired_reference in Ha. apply keep_first_Some in Ha as [_ Ha].
  apply elem_of_all_assignments in Ha as (pod & b & i' & (_ & _ & _ & _ & _ & _ & Hm) & ->).
  simpl in Hi. injection Hi as ->.
  destruct (namespace_mismatch_false _ _ _ _ Hm Hns) as [E1 E2]. simpl.
  split; [done|]. split; [by exists b|].
  by destruct Hns as [-> | ->]; rewrite ?orb_true_r.
Qed.

Lemma desired_namespaced_isolation_witness :
  let c := mkMicClient true 20 None in
  let m := (createDesiredAssignedIdentityList c [mk_pod "ns" "p" "n1" "sel"]
              [mk_binding "ns" "b" "id" "sel"] {["ns/id" := mk_identity "ns" "id"]}).1 in
  ∃ a, m !! "p-ns-id" = Some a ∧
    Namespace (aai_ObjectMeta a) = aas_PodNamespace (aai_Spec a).
Proof.
  eexists. split; [vm_compute; reflexivity|].
  refine (proj2 (proj2 (desired_namespaced_isolation (mkMicClient true 20 None)
    [mk_pod "ns" "p" "n1" "sel"] [mk_binding "ns" "b" "id" "sel"]
    {["ns/id" := mk_identity "ns" "id"]} "p-ns-id" _ (mk_identity "ns" "id") _ _ _))).
  - vm_compute. reflexivity.
  - reflexivity.
  - left. reflexivity.
Defined.

(** ** Determinism *)

Lemma pod_assignments_perm c bs1 bs2 idMap pod :
  NoDup (binding_key <$> bs1) → bs1 ≡ₚ bs2 →
  pod_assignments c bs1 idMap pod = pod_assignments c bs2 idMap pod.
Proof.
  intros Hnd Hp. unfold pod_assignments, matchedBindings.
  case_bool_decide; [done|]. case_bool_decide; [done|]. f_equal.
  apply sort_bindings_canonical.
  - eapply sublist_NoDup; [exact Hnd|]. apply fmap_sublist, sublist_filter.
  - by rewrite Hp.
Qed.

Lemma keep_first_app l1 l2 : keep_first (l1 ++ l2) = keep_first l1 ∪ keep_first l2.
Proof. unfold keep_first. by rewrite fmap_app, list_to_map_app. Qed.

(** Assigned identities of different pods have different names. *)
Definition pods_apart (c : MicClient) (bs : list AzureIdentityBinding) (idMap : gmap string AzureIdentity) (pods : list Pod) : Prop :=
  ∀ p q a b, p ∈ pods → q ∈ pods → a ∈ pod_assignments c bs idMap p → b ∈ pod_assignments c bs idMap q →
    aai_name a = aai_name b → p = q.

(** Then the list of all pods has what the lists of the pods have. *)
Lemma keep_first_pods c bs idMap pods k a : pods_apart c bs idMap pods →
  keep_first (all_assignments c bs idMap pods) !! k = Some a ↔
  ∃ pod, pod ∈ pods ∧ keep_first (pod_assignments c bs idMap pod) !! k = Some a.
Proof.
  unfold all_assignments. induction pods as [|p pods IH]; intros Hap; [set_solver|].
  rewrite bind_cons, keep_first_app. rewrite lookup_union_Some_raw, IH; [|intros p' q' a' b' ??; apply Hap; by right]. split.
  - intros [H|[_ (pod & Hp & H)]]; [exists p; split; [left|done]|exists pod; split; [by right|done]].
  - intros (pod & [->|Hp]%elem_of_cons & H); [by left|].
    destruct (keep_first (pod_assignments c bs idMap p) !! k) as [a'|] eqn:E; [left|right; eauto].
    apply keep_first_Some in E as Ea. apply keep_first_Some in H as Eb. destruct Ea as [Ek Ea], Eb as [Ek' Eb].
    assert (p = pod) as -> by (apply (Hap p pod a' a); [left|by right|done|done|congruence]). congruence.
Qed.

(** Of the bindings of a pod that give the same name, the least one is taken. *)
Lemma keep_first_sorted (g : AzureIdentityBinding → option AzureAssignedIdentity) l k a :
  bindings_sorted l → keep_first (omap g l) !! k = Some a →
  ∃ b, b ∈ l ∧ g b = Some a ∧ ∀ b' a', b' ∈ l → g b' = Some a' → aai_name a' = k → Less b' b = false.
Proof.
  intros Hl. induction Hl as [|x l Hl IH Hx]; [done|]. cbn [omap list_omap]. rewrite Forall_forall in Hx.
  assert (∀ b, b ∈ l ∧ g b = Some a ∧ (∀ b' a', b' ∈ l → g b' = Some a' → aai_name a' = k → Less b' b = false) →
    (∀ a', g x = Some a' → aai_name a' ≠ k) →
    ∃ b, b ∈ x :: l ∧ g b = Some a ∧ ∀ b' a', b' ∈ x :: l → g b' = Some a' → aai_name a' = k → Less b' b = false) as Hrest.
  { intros b (Hb & Hg & Hmin) Hn. exists b. split; [by right|]. split; [done|].
    intros b' a' [->|Hb']%elem_of_cons Hg' Hk; [by apply Hn in Hg'|eauto]. }
  destruct (g x) as [ax|] eqn:Ex.
  - intros Hk. unfold keep_first in Hk. cbn in Hk. destruct (decide (aai_name ax = k)) as [E|E].
    + rewrite E, lookup_insert_eq in Hk. injection Hk as ->. exists x. split; [left|]. split; [done|].
      intros b' a' [->|Hb']%elem_of_cons _ _; [apply Less_irrefl|by apply Hx].
    + rewrite lookup_insert_ne in Hk by done. destruct (IH Hk) as [b Hb]. apply (Hrest b Hb). by intros a' [= <-].
  - intros Hk. destruct (IH Hk) as [b Hb]. by apply (Hrest b Hb).
Qed.

Lemma nodeRefs_true c bs idMap pods n v :
  (createDesiredAssignedIdentityList c pods bs idMap).2 !! n = Some v → v = true.
Proof.
  unfold createDesiredAssignedIdentityList.
  assert (∀ acc, (∀ v, acc.2 !! n = Some v → v = true) →
    (foldl (assign_pod c bs idMap) acc pods).2 !! n = Some v → v = true) as H; [|by apply H].
  induction pods as [|pod pods IH]; intros acc Hacc; [apply Hacc|]. cbn [foldl]. apply IH.
  intros v'. destruct acc as [m refs]. unfold assign_pod. do 2 (case_bool_decide; [apply Hacc|]).
  destruct (matchedBindings pod bs); [apply Hacc|]. cbn. intros [[_ ?]|[_ ?]]%lookup_insert_Some; [done|by apply Hacc].
Qed.

(** C29: the desired list does not depend on the order in which the informer caches list pods and
    bindings: it is the same, node references included, for any order, when bindings have
    distinct keys and the assigned identities of different pods have different names. One pod
    may be matched by several bindings that give the same name; then the binding that is
    first by namespace and name is taken, whatever the order of the cache. *)
Theorem desired_order_independent (c : MicClient) (pods1 pods2 : list Pod)
    (bs1 bs2 : list AzureIdentityBinding) (idMap : gmap string AzureIdentity)
    (Hkeys : NoDup (binding_key <$> bs1)) (Hbs : bs1 ≡ₚ bs2) (Hpods : pods1 ≡ₚ pods2)
    (Hapart : pods_apart c bs1 idMap pods1) :
  let desired := createDesiredAssignedIdentityList c pods1 bs1 idMap in
  createDesiredAssignedIdentityList c pods2 bs2 idMap = desired ∧
  ∀ k a pod b azureID, desired.1 !! k = Some a → wants c bs1 idMap pods1 pod b azureID →
    getAssignedIDName (pod_name pod) (pod_ns pod) (Name (ai_ObjectMeta azureID)) = k →
    ∃ b', aas_AzureBindingRef (aai_Spec a) = Some b' ∧ Less b b' = false.
Proof.
  assert (∀ pod, pod_assignments c bs2 idMap pod = pod_assignments c bs1 idMap pod) as Hpa
    by (intros pod; symmetry; by apply pod_assignments_perm).
  assert (pods_apart c bs2 idMap pods2) as Hap2.
  { intros p q a b. rewrite !Hpa, <- Hpods. apply Hapart. }
  intros desired. split.
  - apply injective_projections.
    + unfold desired. rewrite !createDesired_reference. apply map_eq. intros k. apply option_eq. intros a.
      rewrite !keep_first_pods by done. setoid_rewrite Hpa. by setoid_rewrite Hpods.
    + assert (∀ n, (createDesiredAssignedIdentityList c pods2 bs2 idMap).2 !! n = Some true ↔ desired.2 !! n = Some true) as H
        by (intros n; unfold desired; rewrite !nodeRefs_lookup; setoid_rewrite Hbs; by setoid_rewrite Hpods).
      apply map_eq. intros n. apply option_eq. intros v.
      split; intros Hv; pose proof Hv as Ht; apply nodeRefs_true in Ht as ->; by apply H.
  - intros k a pod b azureID Ha Hw Hk. unfold desired in Ha. rewrite createDesired_reference in Ha.
    apply keep_first_pods in Ha as (pod' & Hp' & Ha); [|done]. destruct Hw as (Hp & Hn & Hl & Hb & Hsel & Hid & Hns).
    assert (makeAssignedIDs c azureID b (pod_name pod) (pod_ns pod) (pod_NodeName pod) ∈ pod_assignments c bs1 idMap pod) as Hin.
    { unfold pod_assignments. rewrite !bool_decide_false by done. apply list_elem_of_omap. exists b.
      split; [|by rewrite Hid, Hns]. rewrite sort_bindings_perm. by apply list_elem_of_filter. }
    assert (pod' = pod) as ->.
    { apply keep_first_Some in Ha as [Ek Ha]. eapply (Hapart pod' pod); [done..|]. by rewrite <- Ek, <- Hk. }
    unfold pod_assignments in Ha. rewrite !bool_decide_false in Ha by done.
    apply keep_first_sorted in Ha as (b' & Hb' & Hg & Hmin); [|apply sort_bindings_sorted].
    exists b'. split; [by repeat case_match; simplify_eq|]. eapply Hmin; [|by rewrite Hid, Hns|done].
    rewrite sort_bindings_perm. by apply list_elem_of_filter.
Qed.

(** Two bindings that give the pod [p] the same identity, listed in either order. *)
Lemma desired_order_independent_witness :
  let c := mkMicClient false 20 None in
  let b1 := mk_binding "ns" "b1" "id1" "sel" in
  let b2 := mk_binding "ns" "b2" "id1" "sel" in
  let p := mk_pod "ns" "p" "n1" "sel" in
  let q := mk_pod "ns" "q" "n1" "sel" in
  let ids := {["ns/id1" := mk_identity "ns" "id1"; "ns/id2" := mk_identity "ns" "id2"]} in
  createDesiredAssignedIdentityList c [q; p] [b2; b1] ids = createDesiredAssignedIdentityList c [p; q] [b1; b2] ids ∧
  (aas_AzureBindingRef ∘ aai_Spec) <$> (createDesiredAssignedIdentityList c [q; p] [b2; b1] ids).1 !! "p-ns-id1" = Some (Some b1).
Proof.
  intros c b1 b2 p q ids. split; [|vm_compute; reflexivity].
  refine (proj1 (desired_order_independent c [p; q] [q; p] [b1; b2] [b2; b1] ids _ _ _ _)).
  - apply (bool_decide_unpack _). vm_compute. exact I.
  - apply Permutation_swap.
  - apply Permutation_swap.
  - assert (pod_assignments c [b1; b2] ids p = [makeAssignedIDs c (mk_identity "ns" "id1") b1 "p" "ns" "n1"; makeAssignedIDs c (mk_identity "ns" "id1") b2 "p" "ns" "n1"]) as Ep
      by (vm_compute; reflexivity).
    assert (pod_assignments c [b1; b2] ids q = [makeAssignedIDs c (mk_identity "ns" "id1") b1 "q" "ns" "n1"; makeAssignedIDs c (mk_identity "ns" "id1") b2 "q" "ns" "n1"]) as Eq
      by (vm_compute; reflexivity).
    intros x y a b Hx Hy. apply elem_of_cons in Hx as [->| ->%list_elem_of_singleton];
      apply elem_of_cons in Hy as [->| ->%list_elem_of_singleton]; rewrite ?Ep, ?Eq; intros Ha Hb Hn; try reflexivity;
      (apply elem_of_cons in Ha as [->| ->%list_elem_of_singleton]; apply elem_of_cons in Hb as [->| ->%list_elem_of_singleton]; discriminate Hn).
Defined.

(** Names are unambiguous for namespaces and identity names without a dash. *)
Theorem assigned_names_injective (p ns i p' ns' i' : string)
    (Hns : free_of "-"%char ns = true) (Hi : free_of "-"%char i = true)
    (Hns' : free_of "-"%char ns' = true) (Hi' : free_of "-"%char i' = true)
    (Heq : getAssignedIDName p ns i = getAssignedIDName p' ns' i') :
  p = p' ∧ ns = ns' ∧ i = i'.
Proof.
  unfold getAssignedIDName in Heq.
  change ("-" +:+ i) with (String "-"%char i) in Heq. change ("-" +:+ i') with (String "-"%char i') in Heq.
  rewrite <- !str_app_assoc in Heq.
  apply sep_inj_r in Heq as [Heq ->]; [|done..].
  rewrite !str_app_assoc in Heq.
  change ("-" +:+ ns) with (String "-"%char ns) in Heq. change ("-" +:+ ns') with (String "-"%char ns') in Heq.
  by apply sep_inj_r in Heq as [-> ->].
Qed.

Lemma assigned_names_injective_witness :
  getAssignedIDName "web-0" "default" "id" = getAssignedIDName "web-0" "default" "id" ∧
  ("web-0" = "web-0" ∧ "default" = "default" ∧ "id" = "id").
Proof.
  split; [reflexivity|].
  apply (assigned_names_injective "web-0" "default" "id" "web-0" "default" "id"); reflexivity.
Defined.

(** With dashes they are not: two pods in different namespaces compete for one name and
    the second is left without an assigned identity. *)
Lemma assigned_name_collision :
  getAssignedIDName "a-b" "c" "id" = getAssignedIDName "a" "b-c" "id" ∧
  let ids := {["c/id" := mk_identity "c" "id"; "b-c/id" := mk_identity "b-c" "id"]} in
  let m := (createDesiredAssignedIdentityList (mkMicClient true 20 None)
              [mk_pod "c" "a-b" "n1" "sel"; mk_pod "b-c" "a" "n2" "sel"]
              [mk_binding "c" "b" "id" "sel"; mk_binding "b-c" "b" "id" "sel"] ids).1 in
  (λ a, aas_PodNamespace (aai_Spec a)) <$> m !! "a-b-c-id" = Some "c" ∧ size m = 1%nat.
Proof. split; [reflexivity|]. split; vm_compute; reflexivity. Qed.

(** A matching assigned identity in state [Unassigned] is in none of the lists: once the
    status patch of a deletion has succeeded and the deletion itself failed, a pod that
    comes back unchanged is not given the identity again. *)
Lemma unassigned_is_stuck (old new : AzureAssignedIdentity) :
  same_assignment old new = true → aai_status old = AssignedIDUnAssigned →
  classify (Some old) (Some new) = Unchanged.
Proof. intros Hs Hst. unfold classify. by rewrite Hs, Hst. Qed.

(** ** The identity map *)

Lemma getIDKey_inj ns n ns' n' :
  free_of slash n = true → free_of slash n' = true →
  getIDKey ns n = getIDKey ns' n' → ns = ns' ∧ n = n'.
Proof. intros Hn Hn' H. by eapply sep_inj_r. Qed.

Definition valid_identity (valid : string → bool) (i : AzureIdentity) : bool :=
  negb (checkIfUserAssignedMSI i) || valid (ais_ResourceID (ai_Spec i)).

Definition identity_key (i : AzureIdentity) : string :=
  getIDKey (Namespace (ai_ObjectMeta i)) (Name (ai_ObjectMeta i)).

(** [convertIDListToMap] maps each key to the last listed identity of that key that is
    valid, and malformed user-assigned identities never reach the map. *)
Theorem convertIDListToMap_lookup (valid : string → bool) (l : list AzureIdentity) (k : string) :
  convertIDListToMap valid l !! k =
    last (filter (λ i, identity_key i = k ∧ valid_identity valid i = true) l).
Proof.
  unfold convertIDListToMap. induction l as [|i l IH] using rev_ind; [done|].
  rewrite foldl_app, filter_app. simpl.
  assert (checkIfUserAssignedMSI i && negb (valid (ais_ResourceID (ai_Spec i)))
    = negb (valid_identity valid i)) as ->.
  { unfold valid_identity. by destruct (checkIfUserAssignedMSI i), (valid _). }
  rewrite filter_cons, filter_nil. fold (identity_key i).
  destruct (valid_identity valid i) eqn:E; simpl.
  - destruct (decide (identity_key i = k)) as [<-|Hne].
    + rewrite lookup_insert_eq, decide_True by done. by rewrite last_snoc.
    + rewrite lookup_insert_ne, decide_False by naive_solver. by rewrite app_nil_r.
  - rewrite decide_False by naive_solver. by rewrite app_nil_r.
Qed.
