(* ===== verification/MicVmss.v ===== *)
(** * MIC: grouping nodes by virtual machine scale set (pkg/mic/vmss.go).

    The two maps of [vmssGroupList] hold pointers to the same groups, so the groups live in
    a heap and the maps hold their addresses: a node added through one map is seen through
    the other. [groups_repr] relates the structure to the plain map from nodes to scale sets
    it stands for. *)

From S2P Require Import Prelude GoStrings Types Regex ResourceId.

(** [NodeGetter.Get]: the nodes the lister knows, or an error. *)
Abbreviation NodeGetter := (string → outcome Node).

Record vmssGroup := mkVmssGroup { nodes : gmap string bool }.

Record vmssGroupList := mkVmssGroupList {
  heap : list vmssGroup;            (* the groups, by address *)
  groups : gmap string nat;
  nodeIdx : gmap string nat
}.

Definition new_vmssGroupList : vmssGroupList := mkVmssGroupList [] ∅ ∅.

(** [g.nodes[node] = true] followed by [ls.nodeIdx[node] = g], for the group at [p]. *)
Definition add_to_group (ls : vmssGroupList) (p : nat) (node : string) : vmssGroupList :=
  {| heap := alter (λ g, mkVmssGroup (<[node := true]> (nodes g))) p (heap ls);
     groups := groups ls;
     nodeIdx := <[node := p]> (nodeIdx ls) |}.

Definition addNode (ls : vmssGroupList) (vmss node : string) : vmssGroupList :=
  match groups ls !! vmss with
  | Some p => add_to_group ls p node
  | None =>
      let p := length (heap ls) in
      add_to_group {| heap := heap ls ++ [mkVmssGroup ∅];
                      groups := <[vmss := p]> (groups ls);
                      nodeIdx := nodeIdx ls |} p node
  end.

(** [getByNode] and [get] return a pointer, nil for a missing key. *)
Definition getByNode (ls : vmssGroupList) (ref : string) : option nat := nodeIdx ls !! ref.
Definition vmss_get (ls : vmssGroupList) (id : string) : option nat := groups ls !! id.

(** [hasNode], on the group at an address. *)
Definition hasNode (ls : vmssGroupList) (p : nat) (ref : string) : bool :=
  match heap ls !! p with Some g => default false (nodes g !! ref) | None => false end.

Definition makeVMSSID (r : Resource) : string :=
  path_Join [SubscriptionID r; ResourceGroup r; ResourceName r].

Definition getVMSSName (vmssID : string) : string := path_Split_file vmssID.

(** [isVMSS]: the scale set id when the boolean result is true. *)
Definition isVMSS (n : Node) : outcome (option string) :=
  let '(r, err) := ParseResourceID (node_ProviderID n) in
  match err with
  | Some e => if bool_decide (node_ProviderID n = "")
              then Ret (if bool_decide (ResourceType r = VMSSResourceType)
                        then Some (makeVMSSID r) else None)
              else Fail e
  | None => Ret (if bool_decide (ResourceType r = VMSSResourceType)
                 then Some (makeVMSSID r) else None)
  end.

Definition vmssFromNodeRef (nc : NodeGetter) (ref : string) : outcome (option string) :=
  match nc ref with
  | Fail err => if IsNotFound err then Ret None else Fail err
  | Ret n => isVMSS n
  | Panic => Panic
  end.

Section groups.
Context `{R : GoRange}.

(** Lines 65-79, one iteration. *)
Definition group_step (nc : NodeGetter) (ls : vmssGroupList) (ref : string) : outcome vmssGroupList :=
  match vmssFromNodeRef nc ref with
  | Fail err => if IsNotFound err then Ret ls else Fail err
  | Ret None => Ret ls
  | Ret (Some id) => Ret (addNode ls id ref)
  | Panic => Panic
  end.

Definition getVMSSGroups (nc : NodeGetter) (refs : gmap string bool) : outcome vmssGroupList :=
  foldM (group_step nc) new_vmssGroupList (go_range 61 refs).*1.
End groups.

(** The found group, if any, and the list with a missing node cached. *)
Definition getVMSSGroupFromPossiblyUnreferencedNode (nc : NodeGetter) (ref : string) :
    M vmssGroupList (option nat) := λ ls,
  match getByNode ls ref with
  | Some vmss => (Ret (Some vmss), ls)
  | None =>
      match vmssFromNodeRef nc ref with
      | Fail err => if IsNotFound err then (Ret None, ls) else (Fail err, ls)
      | Ret (Some vmssID) => let ls' := addNode ls vmssID ref in (Ret (vmss_get ls' vmssID), ls')
      | Ret None => (Ret None, ls)
      | Panic => (Panic, ls)
      end
  end.

(** ** The abstract grouping and the representation of it *)

(** [m] maps each indexed node to its scale set. *)
Record groups_repr (ls : vmssGroupList) (m : gmap string string) : Prop := {
  repr_idx : ∀ n p, nodeIdx ls !! n = Some p ↔ ∃ v, m !! n = Some v ∧ groups ls !! v = Some p;
  repr_group : ∀ n v, m !! n = Some v → is_Some (groups ls !! v);
  repr_heap : ∀ v p, groups ls !! v = Some p → ∃ g, heap ls !! p = Some g ∧
    ∀ n, default false (nodes g !! n) = bool_decide (m !! n = Some v);
  repr_inj : ∀ v1 v2 p, groups ls !! v1 = Some p → groups ls !! v2 = Some p → v1 = v2
}.

Lemma new_repr : groups_repr new_vmssGroupList ∅.
Proof.
  split; simpl.
  - intros n p. rewrite lookup_empty. split; [done|]. intros (v & ? & _). by rewrite lookup_empty in *.
  - intros n v. by rewrite lookup_empty.
  - intros v p. by rewrite lookup_empty.
  - intros v1 v2 p. by rewrite lookup_empty.
Qed.

(** Adding to an existing group. *)
Lemma add_to_group_repr ls m v p node :
  groups_repr ls m → groups ls !! v = Some p → (∀ v', m !! node = Some v' → v' = v) →
  groups_repr (add_to_group ls p node) (<[node := v]> m).
Proof.
  intros [Hi Hg Hh Hj] Hp Hm. split; simpl.
  - intros n q. destruct (decide (node = n)) as [->|Hne].
    + rewrite !lookup_insert_eq. split.
      * intros [= <-]. by exists v.
      * intros (v' & [= <-] & E). congruence.
    + rewrite !lookup_insert_ne by done. apply Hi.
  - intros n w. destruct (decide (node = n)) as [->|Hne].
    + rewrite lookup_insert_eq. intros [= <-]. by exists p.
    + rewrite lookup_insert_ne by done. apply Hg.
  - intros w q Hq. destruct (Hh w q Hq) as (g & Eg & Hgn).
    destruct (decide (p = q)) as [->|Hne].
    + assert (w = v) as -> by eauto. rewrite list_lookup_alter_eq, Eg. simpl.
      eexists. split; [done|]. intros n. simpl. destruct (decide (node = n)) as [->|Hne].
      * rewrite !lookup_insert_eq. simpl. by rewrite bool_decide_true.
      * rewrite !lookup_insert_ne by done. apply Hgn.
    + rewrite list_lookup_alter_ne by done. eexists. split; [done|]. intros n.
      rewrite Hgn. destruct (decide (node = n)) as [->|Hn].
      * rewrite lookup_insert_eq. rewrite !bool_decide_false; [done| |].
        -- intros [= ->]. congruence.
        -- intros E. apply Hm in E as ->. congruence.
      * by rewrite lookup_insert_ne.
  - done.
Qed.

Lemma addNode_repr ls m v node :
  groups_repr ls m → (∀ v', m !! node = Some v' → v' = v) →
  groups_repr (addNode ls v node) (<[node := v]> m).
Proof.
  intros Hr Hm. unfold addNode. destruct (groups ls !! v) as [p|] eqn:Ev.
  { by apply add_to_group_repr. }
  apply add_to_group_repr; simpl; [|by rewrite lookup_insert_eq|done].
  assert (∀ n, m !! n ≠ Some v) as Hno.
  { intros n E. apply (repr_group _ _ Hr) in E as [q ?]. congruence. }
  assert (∀ w q, groups ls !! w = Some q → q < length (heap ls)) as Hlt.
  { intros w q Hq. destruct (repr_heap _ _ Hr _ _ Hq) as (g & Eg & _). by eapply lookup_lt_Some. }
  destruct Hr as [Hi Hg Hh Hj]. split; simpl.
  - intros n q. rewrite Hi. split; intros (w & Ew & Eq); exists w; split; try done.
    + rewrite lookup_insert_ne; [done|]. intros ->. congruence.
    + rewrite lookup_insert_ne in Eq; [done|]. intros ->. by apply Hno in Ew.
  - intros n w Ew. rewrite lookup_insert_ne; [eauto|]. intros ->. by apply Hno in Ew.
  - intros w q. destruct (decide (v = w)) as [->|Hne].
    + rewrite lookup_insert_eq. intros [= <-]. eexists.
      split; [by rewrite lookup_app_r, Nat.sub_diag by lia|]. intros n. simpl.
      rewrite lookup_empty. symmetry. apply bool_decide_false, Hno.
    + rewrite lookup_insert_ne by done. intros Hq. destruct (Hh w q Hq) as (g & Eg & Hgn).
      exists g. split; [|done]. by apply lookup_app_l_Some.
  - intros w1 w2 q. destruct (decide (w1 = v)) as [->|H1], (decide (w2 = v)) as [->|H2];
      rewrite ?lookup_insert_eq, ?lookup_insert_ne by done; try done.
    + intros [= <-] Hq. apply Hlt in Hq. lia.
    + intros Hq [= <-]. apply Hlt in Hq. lia.
    + apply Hj.
Qed.

(** ** Resolving a node *)

Lemma isVMSS_not_panic n : isVMSS n ≠ Panic.
Proof. unfold isVMSS. by repeat case_match. Qed.

Lemma isVMSS_error n e : isVMSS n = Fail e → IsNotFound e = false.
Proof.
  unfold isVMSS, ParseResourceID. destruct (or_else _ _); simpl; [done|].
  case_bool_decide; [done|]. by intros [= <-].
Qed.

(** The error of an unresolved node is never a not-found error: such a node is in no group. *)
Lemma vmssFromNodeRef_error nc ref e : vmssFromNodeRef nc ref = Fail e → IsNotFound e = false.
Proof.
  unfold vmssFromNodeRef. destruct (nc ref) as [n|e'|]; [apply isVMSS_error| |done].
  destruct (IsNotFound e') eqn:E; [done|]. by intros [= <-].
Qed.

Lemma vmssFromNodeRef_not_panic nc ref : nc ref ≠ Panic → vmssFromNodeRef nc ref ≠ Panic.
Proof.
  unfold vmssFromNodeRef. intros Hnc. destruct (nc ref); [apply isVMSS_not_panic|by case_match|done].
Qed.

(** [ls] groups the nodes of [m], each by the scale set its provider id names. *)
Definition groups_for (nc : NodeGetter) (m : gmap string string) (ls : vmssGroupList) : Prop :=
  groups_repr ls m ∧ ∀ n v, m !! n = Some v → vmssFromNodeRef nc n = Ret (Some v).

Lemma groups_for_addNode nc m ls v n :
  groups_for nc m ls → vmssFromNodeRef nc n = Ret (Some v) →
  groups_for nc (<[n := v]> m) (addNode ls v n).
Proof.
  intros [Hr Hm] Hn. split.
  - apply addNode_repr; [done|]. intros v' Hv'%Hm. congruence.
  - intros n' v'. destruct (decide (n = n')) as [->|Hne].
    + rewrite lookup_insert_eq. by intros [= <-].
    + rewrite lookup_insert_ne by done. apply Hm.
Qed.

(** Membership in the group of another node. *)
Lemma hasNode_spec nc m ls n p n' :
  groups_for nc m ls → getByNode ls n = Some p →
  hasNode ls p n' = bool_decide (m !! n' = m !! n).
Proof.
  intros [Hr _] Hp. unfold getByNode in Hp.
  apply (repr_idx _ _ Hr) in Hp as (v & Hv & Hg). unfold hasNode.
  destruct (repr_heap _ _ Hr _ _ Hg) as (g & -> & Hgn). by rewrite Hgn, Hv.
Qed.

Lemma getByNode_Some nc m ls n :
  groups_for nc m ls → is_Some (getByNode ls n) ↔ is_Some (m !! n).
Proof.
  intros [Hr _]. unfold getByNode. split.
  - intros [p (v & Hv & _)%(repr_idx _ _ Hr)]. by exists v.
  - intros [v Hv]. destruct (repr_group _ _ Hr _ _ Hv) as [p Hp]. exists p.
    apply (repr_idx _ _ Hr). by exists v.
Qed.

(** The lookup with caching returns the group of the node's scale set. *)
Lemma getPossiblyUnreferenced_spec nc m ls ref :
  groups_for nc m ls →
  match vmssFromNodeRef nc ref with
  | Ret (Some v) => ∃ p ls', getVMSSGroupFromPossiblyUnreferencedNode nc ref ls = (Ret (Some p), ls') ∧
      groups_for nc (<[ref := v]> m) ls' ∧ getByNode ls' ref = Some p
  | Ret None => getVMSSGroupFromPossiblyUnreferencedNode nc ref ls = (Ret None, ls)
  | Fail e => getVMSSGroupFromPossiblyUnreferencedNode nc ref ls = (Fail e, ls)
  | Panic => getVMSSGroupFromPossiblyUnreferencedNode nc ref ls = (Panic, ls)
  end.
Proof.
  intros Hg. unfold getVMSSGroupFromPossiblyUnreferencedNode.
  destruct (getByNode ls ref) as [p|] eqn:Ep.
  - assert (is_Some (m !! ref)) as [v Hv] by (apply (getByNode_Some _ _ _ _ Hg); by exists p).
    pose proof (proj2 Hg _ _ Hv) as ->. exists p, ls. split; [done|]. by rewrite insert_id.
  - destruct (vmssFromNodeRef nc ref) as [[v|]|e|] eqn:E; [|done| |done].
    + pose proof (groups_for_addNode _ _ _ _ _ Hg E) as Hg'.
      assert (is_Some (getByNode (addNode ls v ref) ref)) as [p Hp].
      { apply (getByNode_Some _ _ _ _ Hg'). by rewrite lookup_insert_eq. }
      exists p, (addNode ls v ref). split; [|done]. do 2 f_equal. unfold vmss_get.
      apply (repr_idx _ _ (proj1 Hg')) in Hp as (v' & Hv' & Hp). by rewrite lookup_insert_eq in Hv'; simplify_eq.
    + by rewrite (vmssFromNodeRef_error _ _ _ E).
Qed.

(** ** The grouping of a set of nodes *)

Section grouping.
Context `{R : GoRange}.

Lemma foldM_group_step nc l m ls :
  groups_for nc m ls →
  match foldM (group_step nc) ls l with
  | Ret ls' => (∀ n, n ∈ l → ∃ o, vmssFromNodeRef nc n = Ret o) ∧ ∃ m', groups_for nc m' ls' ∧
      ∀ n, m' !! n = if decide (n ∈ l) then match vmssFromNodeRef nc n with Ret o => o | _ => None end
                     else m !! n
  | Fail e => ∃ n, n ∈ l ∧ vmssFromNodeRef nc n = Fail e
  | Panic => ∃ n, n ∈ l ∧ vmssFromNodeRef nc n = Panic
  end.
Proof.
  revert m ls. induction l as [|n l IH]; intros m ls Hg; cbn [foldM].
  { split; [set_solver|]. exists m. split; [done|]. intros n. destruct (decide _); set_solver. }
  unfold mbind, outcome_bind. destruct (group_step nc ls n) eqn:Es; unfold group_step in Es;
    destruct (vmssFromNodeRef nc n) as [[v|]|e'|] eqn:E; simplify_eq;
    try rewrite (vmssFromNodeRef_error _ _ _ E) in Es; simplify_eq; [| |set_solver..].
  - specialize (IH _ _ (groups_for_addNode _ _ _ _ _ Hg E)).
    destruct (foldM _ _ l) as [ls'| |]; [|set_solver|set_solver].
    destruct IH as (Hall & m' & Hg' & Hm'). split; [set_solver|]. exists m'. split; [done|].
    intros n'. rewrite Hm'. destruct (decide (n = n')) as [<-|Hne].
    + rewrite lookup_insert_eq, E. destruct (decide (n ∈ n :: l)); [by case_decide|set_solver].
    + rewrite lookup_insert_ne by done. destruct (decide (n' ∈ l)), (decide (n' ∈ n :: l)); set_solver.
  - specialize (IH _ _ Hg). destruct (foldM _ _ l) as [ls'| |]; [|set_solver|set_solver].
    destruct IH as (Hall & m' & Hg' & Hm'). split; [set_solver|]. exists m'. split; [done|].
    intros n'. rewrite Hm'. destruct (decide (n = n')) as [<-|Hne].
    + rewrite E. destruct (decide (n ∈ n :: l)); [|set_solver]. case_decide; [done|].
      destruct (m !! n) as [v|] eqn:Em; [|done]. apply (proj2 Hg) in Em. congruence.
    + destruct (decide (n' ∈ l)), (decide (n' ∈ n :: l)); set_solver.
Qed.

(** The result of [getVMSSGroups] represents the grouping of the referenced nodes. *)
Lemma getVMSSGroups_repr nc refs ls :
  getVMSSGroups nc refs = Ret ls →
  (∀ n, is_Some (refs !! n) → ∃ o, vmssFromNodeRef nc n = Ret o) ∧
  ∃ m, groups_for nc m ls ∧
    ∀ n, m !! n = if refs !! n is Some _ then match vmssFromNodeRef nc n with Ret o => o | _ => None end else None.
Proof.
  unfold getVMSSGroups. intros E.
  assert (groups_for nc ∅ new_vmssGroupList) as H0 by (split; [apply new_repr | intros n v; by rewrite lookup_empty]).
  pose proof (foldM_group_step nc (go_range 61 refs).*1 _ _ H0) as H. rewrite E in H.
  assert (∀ n, n ∈ (go_range 61 refs).*1 ↔ is_Some (refs !! n)) as Hin.
  { intros n. rewrite list_elem_of_fmap. split.
    - intros ([k b] & -> & Hk%elem_of_go_range). by exists b.
    - intros [b Hb]. exists (n, b). by rewrite elem_of_go_range. }
  destruct H as (Hall & m & Hg & Hm). split; [intros n Hn; by apply Hall, Hin|].
  exists m. split; [done|]. intros n. rewrite Hm, (decide_ext _ _ _ _ (Hin n)).
  destruct (refs !! n) eqn:En; [by rewrite decide_True by done|].
  rewrite decide_False by (by intros []). by rewrite lookup_empty.
Qed.

Lemma getVMSSGroups_run (nc : NodeGetter) (refs : gmap string bool) :
  match getVMSSGroups nc refs with
  | Ret ls => ∀ n1 n2,
      (∃ p, getByNode ls n1 = Some p ∧ hasNode ls p n2 = true) ↔
      is_Some (refs !! n1) ∧ is_Some (refs !! n2) ∧
      ∃ v, vmssFromNodeRef nc n1 = Ret (Some v) ∧ vmssFromNodeRef nc n2 = Ret (Some v)
  | Fail e => IsNotFound e = false ∧ ∃ n, is_Some (refs !! n) ∧ vmssFromNodeRef nc n = Fail e
  | Panic => ∃ n, is_Some (refs !! n) ∧ nc n = Panic
  end.
Proof.
  assert (∀ n, n ∈ (go_range 61 refs).*1 → is_Some (refs !! n)) as Hin.
  { intros n ([k b] & -> & Hk%elem_of_go_range)%list_elem_of_fmap. by exists b. }
  assert (groups_for nc ∅ new_vmssGroupList) as H0 by (split; [apply new_repr | intros n v; by rewrite lookup_empty]).
  pose proof (foldM_group_step nc (go_range 61 refs).*1 _ _ H0) as H.
  fold (getVMSSGroups nc refs) in H.
  destruct (getVMSSGroups nc refs) as [ls|e|] eqn:E.
  - clear H. intros n1 n2. destruct (getVMSSGroups_repr _ _ _ E) as (Hall & m & Hg & Hm). split.
    + intros (p & Hp & Hn). rewrite (hasNode_spec _ _ _ _ _ _ Hg Hp) in Hn.
      apply bool_decide_eq_true in Hn. destruct (proj1 (getByNode_Some _ _ _ n1 Hg)) as [v Hv]; [by exists p|].
      rewrite Hv in Hn. pose proof (proj2 Hg _ _ Hv). pose proof (proj2 Hg _ _ Hn).
      rewrite Hm in Hv, Hn. destruct (refs !! n1), (refs !! n2); naive_solver.
    + intros ([b1 H1] & [b2 H2] & v & E1 & E2).
      assert (m !! n1 = Some v) as Hv by (by rewrite Hm, H1, E1).
      assert (m !! n2 = Some v) as Hv2 by (by rewrite Hm, H2, E2).
      destruct (proj2 (getByNode_Some _ _ _ n1 Hg)) as [p Hp]; [by exists v|].
      exists p. split; [done|]. rewrite (hasNode_spec _ _ _ _ _ _ Hg Hp), Hv, Hv2. by apply bool_decide_true.
  - destruct H as (n & Hn%Hin & Hf). split; [by eapply vmssFromNodeRef_error|]. by exists n.
  - destruct H as (n & Hn%Hin & Hf). exists n. split; [done|].
    unfold vmssFromNodeRef in Hf. destruct (nc n) as [nd|e|]; [by apply isVMSS_not_panic in Hf|by case_match|done].
Qed.

(** C25: [getVMSSGroups] groups exactly the referenced nodes that sit in a scale set: two nodes
    share a group when both are referenced and resolve to the same scale set id, whatever
    the order in which the references are visited; it fails only with the error of a
    referenced node (a node that is not found is skipped, not an error). *)
Theorem getVMSSGroups_spec (nc : NodeGetter) (refs : gmap string bool) :
  match getVMSSGroups nc refs with
  | Ret ls => ∀ n1 n2,
      (∃ p, getByNode ls n1 = Some p ∧ hasNode ls p n2 = true) ↔
      is_Some (refs !! n1) ∧ is_Some (refs !! n2) ∧
      ∃ v, vmssFromNodeRef nc n1 = Ret (Some v) ∧ vmssFromNodeRef nc n2 = Ret (Some v)
  | Fail e => IsNotFound e = false ∧ ∃ n, is_Some (refs !! n) ∧ vmssFromNodeRef nc n = Fail e
  | Panic => ∃ n, is_Some (refs !! n) ∧ nc n = Panic
  end.
Proof. apply getVMSSGroups_run. Qed.
End grouping.
