(* ===== verification/MicNode.v ===== *)
(** * MIC: the work per node (pkg/mic/mic.go: [convertAssignedIDListToMap],
    [getListOfIdsToDelete], [getListOfIdsToAssign], [shouldAssignID], [shouldRemoveID],
    [checkIfInUse], [checkIfIdentityImmutable], [consolidateVMSSNodes]).

    The node map collects, for each node, the identities to add to and to remove from the
    machine and the assigned identities to create, delete and update. The theorems say
    which resource ids reach the remove list (never one a desired assignment in the same
    machine or scale set still needs, never an immutable one) and that the consolidation
    by scale set neither loses nor invents work. *)

From S2P Require Import Prelude GoStrings Types Conversion Fixtures Regex ResourceId MicDesired MicVmss.

Record trackUserAssignedMSIIds := mkTrack {
  addUserAssignedMSIIDs : list string;
  removeUserAssignedMSIIDs : list string;
  assignedIDsToCreate : list AzureAssignedIdentity;
  assignedIDsToDelete : list AzureAssignedIdentity;
  assignedIDsToUpdate : list AzureAssignedIdentity;
  isvmss : bool
}.

Definition zeroTrack : trackUserAssignedMSIIds := mkTrack [] [] [] [] [] false.

#[export] Instance track_eq_dec : EqDecision trackUserAssignedMSIIds.
Proof. solve_decision. Defined.

Abbreviation track_map := (gmap string trackUserAssignedMSIIds).
Abbreviation aai_node a := (aas_NodeName (aai_Spec a)).
Abbreviation aai_pod a := (aas_Pod (aai_Spec a)).

(** Each function below reads the entry of a node, appends to one of its lists and writes
    it back; a missing entry starts from the zero value. *)
Definition append_create (a : AzureAssignedIdentity) (t : trackUserAssignedMSIIds) :=
  mkTrack (addUserAssignedMSIIDs t) (removeUserAssignedMSIIDs t) (assignedIDsToCreate t ++ [a])
    (assignedIDsToDelete t) (assignedIDsToUpdate t) (isvmss t).
Definition append_delete (a : AzureAssignedIdentity) (t : trackUserAssignedMSIIds) :=
  mkTrack (addUserAssignedMSIIDs t) (removeUserAssignedMSIIDs t) (assignedIDsToCreate t)
    (assignedIDsToDelete t ++ [a]) (assignedIDsToUpdate t) (isvmss t).
Definition append_update (a : AzureAssignedIdentity) (t : trackUserAssignedMSIIds) :=
  mkTrack (addUserAssignedMSIIDs t) (removeUserAssignedMSIIDs t) (assignedIDsToCreate t)
    (assignedIDsToDelete t) (assignedIDsToUpdate t ++ [a]) (isvmss t).
Definition append_add_id (r : string) (t : trackUserAssignedMSIIds) :=
  mkTrack (addUserAssignedMSIIDs t ++ [r]) (removeUserAssignedMSIIDs t) (assignedIDsToCreate t)
    (assignedIDsToDelete t) (assignedIDsToUpdate t) (isvmss t).
Definition append_remove_id (r : string) (t : trackUserAssignedMSIIds) :=
  mkTrack (addUserAssignedMSIIDs t) (removeUserAssignedMSIIDs t ++ [r]) (assignedIDsToCreate t)
    (assignedIDsToDelete t) (assignedIDsToUpdate t) (isvmss t).

(** [if trackList, ok := nodeMap[node]; ok { ... } else { nodeMap[node] = ... }] *)
Definition track_at (f : trackUserAssignedMSIIds → trackUserAssignedMSIIds) (nodeMap : track_map)
    (node : string) : track_map :=
  match nodeMap !! node with
  | Some trackList => <[node := f trackList]> nodeMap
  | None => <[node := f zeroTrack]> nodeMap
  end.

Definition appendToRemoveListForNode (resourceID nodeName : string) (nodeMap : track_map) : track_map :=
  track_at (append_remove_id resourceID) nodeMap nodeName.

Definition appendToAddListForNode (resourceID nodeName : string) (nodeMap : track_map) : track_map :=
  track_at (append_add_id resourceID) nodeMap nodeName.

Definition checkIfMSIExistsOnNode (id : AzureIdentity) (nodeMSIList : list string) : bool :=
  existsb (λ userAssignedMSI, EqualFold userAssignedMSI (ais_ResourceID (ai_Spec id))) nodeMSIList.

(** [checkIfIdentityImmutable]; the map's values are all [true]. *)
Definition checkIfIdentityImmutable (c : MicClient) (id : string) : bool :=
  match ImmutableUserMSIsMap c with
  | None => false
  | Some m => match m !! id with Some _ => true | None => false end
  end.

(** Lines 189-204 of [NewMICClient]: the immutable set from the flag and the identity the
    cloud provider runs with. *)
Definition immutableUserMSIsMap (ImmutableUserMSIsList : list string) (clusterIdentity : string) :
    gmap string bool :=
  let m := foldl (λ m item, <[ToLower item := true]> m) ∅ ImmutableUserMSIsList in
  if bool_decide (clusterIdentity = "") then m else <[clusterIdentity := true]> m.

Section node_lists.
Context `{R : GoRange}.

Definition getUniqueIDs (idList : list string) : list string :=
  (go_range 1020 (foldl (λ m id, <[id := tt]> m) ∅ idList)).*1.

Definition convertAssignedIDListToMap (addList deleteList updateList : aai_map)
    (nodeMap : track_map) : track_map :=
  let m1 := foldl (λ m (kv : string * _), track_at (append_create kv.2) m (aai_node kv.2))
              nodeMap (go_range 546 addList) in
  let m2 := foldl (λ m (kv : string * _), track_at (append_delete kv.2) m (aai_node kv.2))
              m1 (go_range 555 deleteList) in
  foldl (λ m (kv : string * _), track_at (append_update kv.2) m (aai_node kv.2))
    m2 (go_range 564 updateList).

(** Lines 973-1008: the loop with its early returns. The scale set list is a cache that
    [getVMSSGroupFromPossiblyUnreferencedNode] may extend. *)
Fixpoint checkIfInUse_loop (nc : NodeGetter) (checkAssignedID : AzureAssignedIdentity)
    (l : list AzureAssignedIdentity) : M vmssGroupList bool :=
  match l with
  | [] => mret false
  | assignedID :: l' =>
      checkID ← lift (deref (aas_AzureIdentityRef (aai_Spec checkAssignedID)));
      if negb (checkIfUserAssignedMSI checkID) then checkIfInUse_loop nc checkAssignedID l'
      else if bool_decide (aai_pod checkAssignedID = aai_pod assignedID)
      then checkIfInUse_loop nc checkAssignedID l'
      else
        id ← lift (deref (aas_AzureIdentityRef (aai_Spec assignedID)));
        if negb (bool_decide (ais_ClientID (ai_Spec checkID) = ais_ClientID (ai_Spec id)))
        then checkIfInUse_loop nc checkAssignedID l'
        else if bool_decide (aai_node checkAssignedID = aai_node assignedID) then mret true
        else
          vmss ← getVMSSGroupFromPossiblyUnreferencedNode nc (aai_node checkAssignedID);
          ls ← get;
          match vmss with
          | Some p => if hasNode ls p (aai_node assignedID) then mret true
                      else checkIfInUse_loop nc checkAssignedID l'
          | None => checkIfInUse_loop nc checkAssignedID l'
          end
  end.

Definition checkIfInUse (nc : NodeGetter) (checkAssignedID : AzureAssignedIdentity)
    (assignedIDMap : aai_map) : M vmssGroupList bool :=
  checkIfInUse_loop nc checkAssignedID (go_range 973 assignedIDMap).*2.

Definition shouldAssignID (assignedID : AzureAssignedIdentity) (nodeMap : track_map) : outcome track_map :=
  id ← deref (aas_AzureIdentityRef (aai_Spec assignedID));
  Ret (if bool_decide (aai_status assignedID = "" ∨ aai_status assignedID = AssignedIDCreated)
       then if checkIfUserAssignedMSI id
            then appendToAddListForNode (ais_ResourceID (ai_Spec id)) (aai_node assignedID) nodeMap
            else nodeMap
       else nodeMap).

(** [shouldRemoveID] works on the node map and the scale set cache. *)
Record remove_state := mkRemoveState { rs_nodeMap : track_map; rs_groups : vmssGroupList }.

Definition shouldRemoveID (c : MicClient) (nc : NodeGetter) (newAssignedIDs : aai_map)
    (assignedID : AzureAssignedIdentity) : M remove_state unit := λ st,
  let '(r, ls) := checkIfInUse nc assignedID newAssignedIDs (rs_groups st) in
  let st' := mkRemoveState (rs_nodeMap st) ls in
  match r with
  | Fail e => (Fail e, st')
  | Panic => (Panic, st')
  | Ret inUse =>
      match aas_AzureIdentityRef (aai_Spec assignedID) with
      | None => (Panic, st')
      | Some id =>
          let isUserAssignedMSI := checkIfUserAssignedMSI id in
          let isImmutableIdentity := checkIfIdentityImmutable c (ais_ClientID (ai_Spec id)) in
          if bool_decide (aai_status assignedID = AssignedIDAssigned ∨ aai_status assignedID = "")
             && (negb inUse && isUserAssignedMSI && negb isImmutableIdentity)
          then (Ret tt, mkRemoveState
                 (appendToRemoveListForNode (ais_ResourceID (ai_Spec id)) (aai_node assignedID) (rs_nodeMap st)) ls)
          else (Ret tt, st')
      end
  end.

(** Lines 666-672: the desired assignments, updated values last. *)
Definition consolidatedMapToCheck (newAssignedIDs afterUpdateList : aai_map) : aai_map :=
  foldl (λ m (kv : string * _), <[kv.1 := kv.2]> m)
    (foldl (λ m (kv : string * _), <[kv.1 := kv.2]> m) ∅ (go_range 667 newAssignedIDs))
    (go_range 670 afterUpdateList).

(** Lines 674-687, one iteration: an error is logged, that identity is not removed. *)
Definition remove_step (c : MicClient) (nc : NodeGetter) (toCheck : aai_map)
    (kv : string * AzureAssignedIdentity) : M remove_state unit :=
  catch (shouldRemoveID c nc toCheck kv.2) (λ _, mret tt).

Definition getListOfIdsToDelete (c : MicClient) (nc : NodeGetter)
    (deleteList beforeUpdateList afterUpdateList newAssignedIDs : aai_map)
    (nodeMap : track_map) (nodeRefs : gmap string bool) : outcome track_map :=
  match getVMSSGroups nc nodeRefs with
  | Fail _ => Ret nodeMap
  | Panic => Panic
  | Ret vmssGroups =>
      let toCheck := consolidatedMapToCheck newAssignedIDs afterUpdateList in
      let '(r, st) := for_each (remove_step c nc toCheck) (go_range 674 deleteList ++ go_range 682 beforeUpdateList)
                        (mkRemoveState nodeMap vmssGroups) in
      _ ← r; Ret (rs_nodeMap st)
  end.

Definition getListOfIdsToAssign (addList updateList : aai_map) (nodeMap : track_map) : outcome track_map :=
  foldM (λ m (kv : string * _), shouldAssignID kv.2 m) nodeMap
    (go_range 692 addList ++ go_range 695 updateList).
End node_lists.

(** ** Which assignments keep an identity on its machine *)

(** Nodes [n1] and [n2] are the same machine, or machines of one scale set. *)
Definition same_scope (nc : NodeGetter) (n1 n2 : string) : Prop :=
  n1 = n2 ∨ ∃ v, vmssFromNodeRef nc n1 = Ret (Some v) ∧ vmssFromNodeRef nc n2 = Ret (Some v).

(** The identity an assigned identity refers to. *)
Definition identity_of (a : AzureAssignedIdentity) : option AzureIdentity :=
  aas_AzureIdentityRef (aai_Spec a).

(** [a] needs, on the machine of [d], the user-assigned identity of [d]. *)
Definition needs_identity (nc : NodeGetter) (d a : AzureAssignedIdentity) : Prop :=
  ∃ idd ida, identity_of d = Some idd ∧ identity_of a = Some ida ∧
    checkIfUserAssignedMSI idd = true ∧ ais_ClientID (ai_Spec idd) = ais_ClientID (ai_Spec ida) ∧
    aai_pod d ≠ aai_pod a ∧ same_scope nc (aai_node d) (aai_node a).

(** The grouping [m] knows every node of the assignments [l]. *)
Definition groups_cover (nc : NodeGetter) (m : gmap string string) (l : list AzureAssignedIdentity) : Prop :=
  Forall (λ a, ∀ v, vmssFromNodeRef nc (aai_node a) = Ret (Some v) → m !! aai_node a = Some v) l.

Lemma groups_cover_insert nc m l n v :
  vmssFromNodeRef nc n = Ret (Some v) → groups_cover nc m l → groups_cover nc (<[n := v]> m) l.
Proof.
  intros Hn Hc. apply (Forall_impl _ _ _ Hc). intros a Ha v' Hv'. destruct (decide (n = aai_node a)) as [->|Hne].
  - rewrite lookup_insert_eq. congruence.
  - rewrite lookup_insert_ne by done. auto.
Qed.

(** The test answers whether some assignment of [l] needs the identity. It fails only when
    the node of the checked assignment cannot be resolved. *)
Lemma checkIfInUse_loop_spec nc d l m ls :
  groups_for nc m ls → groups_cover nc m l → refs_set d = true → Forall (λ a, refs_set a = true) l →
  let '(r, ls') := checkIfInUse_loop nc d l ls in
  (∃ m', groups_for nc m' ls' ∧ (m' = m ∨ ∃ v, vmssFromNodeRef nc (aai_node d) = Ret (Some v) ∧
     m' = <[aai_node d := v]> m)) ∧
  match r with
  | Ret b => b = true ↔ Exists (needs_identity nc d) l
  | Fail e => vmssFromNodeRef nc (aai_node d) = Fail e
  | Panic => vmssFromNodeRef nc (aai_node d) = Panic
  end.
Proof.
  intros Hg Hc Hd Hl. revert m ls Hg Hc.
  apply refs_set_spec in Hd as (idd & bd & Hidd & Hbd).
  induction Hl as [|a l Ha Hl IH]; intros m ls Hg Hc.
  { simpl. split; [eauto|]. by rewrite Exists_nil. }
  apply refs_set_spec in Ha as (ida & ba & Hida & Hba). apply Forall_cons in Hc as [Hca Hc].
  simpl. unfold lift, get. simplify_monad. rewrite Hidd. simpl.
  assert (∀ P : Prop, (¬ needs_identity nc d a) → (P ↔ Exists (needs_identity nc d) (a :: l)) ↔
    (P ↔ Exists (needs_identity nc d) l)) as Hskip by (intros P Hn; rewrite Exists_cons; tauto).
  assert (needs_identity nc d a ↔ checkIfUserAssignedMSI idd = true ∧
    ais_ClientID (ai_Spec idd) = ais_ClientID (ai_Spec ida) ∧ aai_pod d ≠ aai_pod a ∧
    same_scope nc (aai_node d) (aai_node a)) as Hneeds.
  { unfold needs_identity, identity_of. naive_solver. }
  assert (¬ needs_identity nc d a → let '(r, ls') := checkIfInUse_loop nc d l ls in
    (∃ m', groups_for nc m' ls' ∧ (m' = m ∨ ∃ v, vmssFromNodeRef nc (aai_node d) = Ret (Some v) ∧
     m' = <[aai_node d := v]> m)) ∧
    match r with
    | Ret b => b = true ↔ Exists (needs_identity nc d) (a :: l)
    | Fail e => vmssFromNodeRef nc (aai_node d) = Fail e
    | Panic => vmssFromNodeRef nc (aai_node d) = Panic
    end) as Hcont.
  { intros Hn. specialize (IH m ls Hg Hc). destruct (checkIfInUse_loop nc d l ls) as [[b|e|] ls']; [|done|done].
    by rewrite Hskip. }
  destruct (checkIfUserAssignedMSI idd) eqn:Et; simpl; [|apply Hcont; rewrite Hneeds; naive_solver].
  case_bool_decide as Hp; [apply Hcont; rewrite Hneeds; naive_solver|].
  rewrite Hida. simpl. case_bool_decide as Hcl; simpl; [|apply Hcont; rewrite Hneeds; naive_solver].
  case_bool_decide as Hn.
  { split; [eauto|]. split; [|done]. intros _. left. apply Hneeds. repeat split; auto. by left. }
  pose proof (getPossiblyUnreferenced_spec nc m ls (aai_node d) Hg) as Hget.
  destruct (vmssFromNodeRef nc (aai_node d)) as [[v|]|e|] eqn:Ev.
  - destruct Hget as (p & ls' & -> & Hg' & Hp'). cbv beta iota.
    rewrite (hasNode_spec _ _ _ _ _ _ Hg' Hp'), lookup_insert_eq, lookup_insert_ne by done.
    case_bool_decide as Hm.
    + split; [by eauto 6|]. split; [|done]. intros _. left. apply Hneeds. repeat split; auto. right.
      exists v. split; [done|]. by apply (proj2 Hg).
    + specialize (IH _ _ Hg' (groups_cover_insert _ _ _ _ _ Ev Hc)).
      destruct (checkIfInUse_loop nc d l ls') as [r ls''].
      destruct IH as [(m' & Hm' & Hor) IH]. split.
      { exists m'. split; [done|]. right. exists v. split; [done|].
        destruct Hor as [->|(v' & Hv' & ->)]; [done|]. rewrite insert_insert_eq. congruence. }
      destruct r as [b|e|]; [|done|done]. rewrite Hskip; [done|]. rewrite Hneeds.
      intros (_ & _ & _ & [?|(w & Hw' & Hw%Hca)]); [done|]. congruence.
  - rewrite Hget. apply Hcont. rewrite Hneeds. intros (_ & _ & _ & [?|(w & ? & Hw)]); congruence.
  - rewrite Hget. eauto.
  - rewrite Hget. eauto.
Qed.

(** ** The remove list *)

Definition removes (nodeMap : track_map) (node : string) : list string :=
  default [] (removeUserAssignedMSIIDs <$> nodeMap !! node).

(** The removal of [d]'s identity from [node] is called for: it is a user-assigned identity
    that was assigned, is not immutable, and that no desired assignment needs there. *)
Record removable (c : MicClient) (nc : NodeGetter) (wanted : aai_map)
    (d : AzureAssignedIdentity) (node r : string) : Prop := {
  rem_node : aai_node d = node;
  rem_id : ∃ id, identity_of d = Some id ∧ ais_ResourceID (ai_Spec id) = r ∧
             checkIfUserAssignedMSI id = true ∧
             checkIfIdentityImmutable c (ais_ClientID (ai_Spec id)) = false;
  rem_status : aai_status d = AssignedIDAssigned ∨ aai_status d = "";
  rem_unused : ∀ k a, wanted !! k = Some a → ¬ needs_identity nc d a
}.

Lemma removes_track_at f nodeMap node node' :
  removes (track_at f nodeMap node) node' =
    if decide (node = node') then removeUserAssignedMSIIDs (f (default zeroTrack (nodeMap !! node)))
    else removes nodeMap node'.
Proof.
  unfold track_at, removes. destruct (decide (node = node')) as [->|Hne].
  - destruct (nodeMap !! node'); by rewrite lookup_insert_eq.
  - destruct (nodeMap !! node); by rewrite lookup_insert_ne.
Qed.

Lemma removes_append_remove r nodeMap node node' x :
  x ∈ removes (appendToRemoveListForNode r node nodeMap) node' ↔
  x ∈ removes nodeMap node' ∨ node = node' ∧ x = r.
Proof.
  unfold appendToRemoveListForNode. rewrite removes_track_at. destruct (decide (node = node')) as [->|Hne].
  - simpl. unfold removes. rewrite elem_of_app, list_elem_of_singleton.
    destruct (nodeMap !! node'); simpl; set_solver.
  - naive_solver.
Qed.

Section remove_theory.
Context `{R : GoRange} (c : MicClient) (nc : NodeGetter) (wanted : aai_map).
Hypothesis nc_total : ∀ n, nc n ≠ Panic.
Hypothesis wanted_wf : refs_wf wanted.

Lemma wanted_values : Forall (λ a, refs_set a = true) (go_range 973 wanted).*2.
Proof.
  apply Forall_forall. intros a ([k a'] & -> & Hk%elem_of_go_range)%list_elem_of_fmap.
  simpl. eauto with go.
Qed.

Lemma Exists_wanted d :
  Exists (needs_identity nc d) (go_range 973 wanted).*2 ↔ ∃ k a, wanted !! k = Some a ∧ needs_identity nc d a.
Proof.
  rewrite Exists_exists. split.
  - intros (a & ([k a'] & -> & Hk%elem_of_go_range)%list_elem_of_fmap & Hn). eauto.
  - intros (k & a & Hk & Hn). exists a. split; [|done]. apply list_elem_of_fmap. exists (k, a).
    by rewrite elem_of_go_range.
Qed.

(** What every step of the removal loop keeps. *)
Definition remove_inv (st : remove_state) : Prop :=
  ∃ m, groups_for nc m (rs_groups st) ∧ groups_cover nc m (go_range 973 wanted).*2.

Lemma shouldRemoveID_spec d st :
  remove_inv st → refs_set d = true →
  let '(r, st') := shouldRemoveID c nc wanted d st in
  remove_inv st' ∧ r ≠ Panic ∧
  ∀ node x, (x ∈ removes (rs_nodeMap st) node → x ∈ removes (rs_nodeMap st') node) ∧
    (x ∈ removes (rs_nodeMap st') node → x ∈ removes (rs_nodeMap st) node ∨ removable c nc wanted d node x) ∧
    (removable c nc wanted d node x → (∃ o, vmssFromNodeRef nc (aai_node d) = Ret o) →
     x ∈ removes (rs_nodeMap st') node).
Proof.
  intros (m & Hg & Hc) Hd. unfold shouldRemoveID, checkIfInUse.
  pose proof (checkIfInUse_loop_spec nc d _ m _ Hg Hc Hd wanted_values) as Hspec.
  destruct (checkIfInUse_loop _ _ _ _) as [r ls']. destruct Hspec as [(m' & Hg' & Hm') Hr].
  apply refs_set_spec in Hd as (id & b & Hid & Hb).
  assert (∀ nm, remove_inv (mkRemoveState nm ls')) as Hinv.
  { intros nm. exists m'. split; [done|]. destruct Hm' as [->|(v & Hv & ->)]; [done|].
    by apply groups_cover_insert. }
  destruct r as [inUse|e|]; [|split; [done|split; [done|]]; naive_solver congruence|
    by apply vmssFromNodeRef_not_panic in Hr].
  rewrite Hid, Exists_wanted in *.
  destruct (bool_decide _ && _) eqn:E; (split; [done|split; [done|]]); intros node x; simpl.
  - apply andb_true_iff in E as [Hs%bool_decide_eq_true [[Hu Ht]%andb_true_iff Him]%andb_true_iff].
    apply negb_true_iff in Hu, Him. subst.
    assert (removable c nc wanted d (aai_node d) (ais_ResourceID (ai_Spec id))) as Hrem.
    { split; [done| |done|].
      - by exists id.
      - intros k a Hk Hn. assert (false = true) by (apply Hr; eauto). done. }
    rewrite removes_append_remove. repeat split; [tauto| |].
    + intros [?|[<- ->]]; [by left|by right].
    + intros Hx _. right. split; [apply Hx|]. destruct Hx as [_ (id' & Hid' & <- & _) _ _].
      unfold identity_of in Hid'. congruence.
  - repeat split; [tauto|tauto|]. intros [Hn (id' & Hid' & Hx & Ht & Him) Hs Hun] _. exfalso.
    unfold identity_of in Hid'. assert (id' = id) as -> by congruence.
    rewrite Ht, Him, (bool_decide_true _ Hs) in E. simpl in E. rewrite !andb_true_r in E.
    apply negb_false_iff in E as ->. destruct (proj1 Hr eq_refl) as (k & a & Hk & Ha). by eapply Hun.
Qed.

Lemma match_not_panic {A} (r : outcome A) (x : outcome unit) :
  r ≠ Panic → match r with Panic => x | _ => Ret tt end = Ret tt.
Proof. by destruct r. Qed.

Lemma remove_step_run kv st :
  remove_step c nc wanted kv st =
    let '(r, st') := shouldRemoveID c nc wanted kv.2 st in
    (match r with Panic => Panic | _ => Ret tt end, st').
Proof. unfold remove_step, catch. by destruct (shouldRemoveID _ _ _ _ _) as [[[]| |] st']. Qed.

(** The whole loop over the deleted and updated assignments. *)
Lemma remove_loop_spec (l : list (string * AzureAssignedIdentity)) st :
  remove_inv st → (∀ k d, (k, d) ∈ l → refs_set d = true) →
  let '(r, st') := for_each (remove_step c nc wanted) l st in
  r = Ret tt ∧
  ∀ node x,
    (x ∈ removes (rs_nodeMap st') node → x ∈ removes (rs_nodeMap st) node ∨
       ∃ k d, (k, d) ∈ l ∧ removable c nc wanted d node x) ∧
    (x ∈ removes (rs_nodeMap st) node → x ∈ removes (rs_nodeMap st') node) ∧
    (∀ k d, (k, d) ∈ l → removable c nc wanted d node x →
       (∃ o, vmssFromNodeRef nc (aai_node d) = Ret o) → x ∈ removes (rs_nodeMap st') node).
Proof.
  revert st. induction l as [|[k d] l IH]; intros st Hinv Hl; simpl.
  { split; [done|]. intros node x. split; [by left|]. split; [done|]. set_solver. }
  pose proof (shouldRemoveID_spec d st Hinv (Hl k d ltac:(set_solver))) as Hs.
  unfold mbind, M_bind. rewrite remove_step_run. simpl.
  destruct (shouldRemoveID c nc wanted d st) as [r st1]. destruct Hs as (Hinv1 & Hnp & Hs).
  specialize (IH st1 Hinv1 (λ k d H, Hl k d ltac:(set_solver))).
  rewrite (match_not_panic r) by done.
  destruct (for_each _ l st1) as [r2 st2]. destruct IH as [-> IH]. split; [done|].
  intros node x. destruct (Hs node x) as (H1 & H2 & H3), (IH node x) as (I1 & I2 & I3). split.
  - intros [Hx|(k' & d' & Hin & Hx)]%I1; [|right; exists k', d'; set_solver].
    destruct (H2 Hx); [by left|right; exists k, d; set_solver].
  - split; [by auto|]. intros k' d' [[= -> ->]|Hin]%elem_of_cons Hx Ho; [by auto|by eauto].
Qed.
End remove_theory.

Section remove_claims.
Context `{R : GoRange}.

Lemma consolidatedMapToCheck_lookup newA afterU k :
  consolidatedMapToCheck newA afterU !! k = match afterU !! k with Some a => Some a | None => newA !! k end.
Proof.
  unfold consolidatedMapToCheck.
  assert (∀ n (src dst : aai_map), foldl (λ m (kv : string * _), <[kv.1 := kv.2]> m) dst (go_range n src) !! k =
    match src !! k with Some a => Some a | None => dst !! k end) as H.
  { intros n src dst. apply (foldl_pointwise (λ (m : aai_map) k, m !! k) _ (λ _ v _, Some v)).
    intros st k1 v k2. simpl. rewrite lookup_insert. by case_decide. }
  rewrite !H, lookup_empty. by destruct (afterU !! k), (newA !! k).
Qed.

(** The assignments that the code considers before it removes an identity. *)
Definition wanted_assignment (newA afterU : aai_map) (a : AzureAssignedIdentity) : Prop :=
  ∃ k, match afterU !! k with Some a' => Some a' | None => newA !! k end = Some a.

(** The inputs a sync cycle passes: complete objects, and a node reference for the node of
    every desired assignment. *)
Record delete_inputs (nc : NodeGetter) (del before after newA : aai_map) (refs : gmap string bool) : Prop := {
  di_nc : ∀ n, nc n ≠ Panic;
  di_del : refs_wf del; di_before : refs_wf before; di_after : refs_wf after; di_new : refs_wf newA;
  di_refs : ∀ a, wanted_assignment newA after a → is_Some (refs !! aai_node a)
}.

Lemma getListOfIdsToDelete_run c nc del before after newA nodeMap refs :
  delete_inputs nc del before after newA refs →
  ∃ nodeMap', getListOfIdsToDelete c nc del before after newA nodeMap refs = Ret nodeMap' ∧
  ((∃ e, getVMSSGroups nc refs = Fail e) ∧ nodeMap' = nodeMap ∨
  ∀ node x,
    (x ∈ removes nodeMap' node → x ∈ removes nodeMap node ∨
       ∃ k d, (del !! k = Some d ∨ before !! k = Some d) ∧
         removable c nc (consolidatedMapToCheck newA after) d node x) ∧
    (x ∈ removes nodeMap node → x ∈ removes nodeMap' node) ∧
    (∀ k d, (del !! k = Some d ∨ before !! k = Some d) →
       removable c nc (consolidatedMapToCheck newA after) d node x →
       (∃ o, vmssFromNodeRef nc (aai_node d) = Ret o) → x ∈ removes nodeMap' node)).
Proof.
  intros [Hnc Hd Hb Ha Hn Hrefs]. unfold getListOfIdsToDelete.
  assert (refs_wf (consolidatedMapToCheck newA after)) as Hw.
  { intros k a. rewrite consolidatedMapToCheck_lookup. case_match; [intros [= <-]|]; eauto with go. }
  pose proof (getVMSSGroups_run nc refs) as Hv.
  destruct (getVMSSGroups nc refs) as [ls|e|] eqn:E; [clear Hv|(exists nodeMap; split; [done|left; split; [by exists e|done]])|by destruct Hv as (n & _ & ?%Hnc)].
  destruct (getVMSSGroups_repr _ _ _ E) as (Hres & m & Hg & Hm).
  assert (remove_inv nc (consolidatedMapToCheck newA after) (mkRemoveState nodeMap ls)) as Hinv.
  { exists m. split; [done|]. apply Forall_forall.
    intros a ([k a'] & -> & Hk%elem_of_go_range)%list_elem_of_fmap v Hvn. simpl in *.
    rewrite consolidatedMapToCheck_lookup in Hk. destruct (Hrefs a' ltac:(by exists k)) as [bb Hbb].
    by rewrite Hm, Hbb, Hvn. }
  assert (∀ k d, (k, d) ∈ go_range 674 del ++ go_range 682 before ↔ del !! k = Some d ∨ before !! k = Some d) as Hin.
  { intros k d. by rewrite elem_of_app, !elem_of_go_range. }
  pose proof (remove_loop_spec c nc _ Hnc Hw (go_range 674 del ++ go_range 682 before) _ Hinv) as Hloop.
  destruct (for_each _ _ _) as [r st]. destruct Hloop as [-> Hloop].
  { intros k d [?|?]%Hin; eauto with go. }
  eexists. split; [done|]. right. intros node x. destruct (Hloop node x) as (H1 & H2 & H3).
  repeat split; [|done|].
  - intros [?|(k & d & Hkd%Hin & Hr)]%H1; [by left|eauto 6].
  - intros k d Hkd%Hin. eauto.
Qed.

(** C12: only unused identities are removed from a machine. A resource id that the deletion
    pass puts on the remove list of a node comes from a deleted (or replaced) assignment
    on that node whose identity is user-assigned, was really assigned and is not immutable;
    and no desired assignment of another pod name with the same client id is left on that
    node or on another node of its scale set. The pass never panics. *)
Theorem removed_only_if_unused (c : MicClient) (nc : NodeGetter) (del before after newA : aai_map)
    (nodeMap : track_map) (refs : gmap string bool) :
  delete_inputs nc del before after newA refs →
  (∀ node, removes nodeMap node = []) →
  ∃ nodeMap', getListOfIdsToDelete c nc del before after newA nodeMap refs = Ret nodeMap' ∧
  ∀ node r, r ∈ removes nodeMap' node →
    ∃ k d id, (del !! k = Some d ∨ before !! k = Some d) ∧ aai_node d = node ∧
      identity_of d = Some id ∧ ais_ResourceID (ai_Spec id) = r ∧
      checkIfUserAssignedMSI id = true ∧
      checkIfIdentityImmutable c (ais_ClientID (ai_Spec id)) = false ∧
      (aai_status d = AssignedIDAssigned ∨ aai_status d = "") ∧
      ∀ a ida, wanted_assignment newA after a → identity_of a = Some ida →
        ais_ClientID (ai_Spec ida) = ais_ClientID (ai_Spec id) → aai_pod a ≠ aai_pod d →
        ¬ same_scope nc node (aai_node a).
Proof.
  intros Hin H0. destruct (getListOfIdsToDelete_run c nc del before after newA nodeMap refs Hin) as (nm' & -> & Hrun).
  exists nm'. split; [done|]. intros node r Hr.
  destruct Hrun as [[_ ->]|Hrun]; [rewrite H0 in Hr; set_solver|].
  destruct (Hrun node r) as [H1 _]. apply H1 in Hr as [Hr|(k & d & Hkd & [Hn (id & Hid & Hx & Ht & Him) Hs Hun])];
    [rewrite H0 in Hr; set_solver|].
  exists k, d, id. repeat split; try done. intros a ida [k' Hk'] Hida Hcl Hp Hsc.
  apply (Hun k' a); [by rewrite consolidatedMapToCheck_lookup|].
  exists id, ida. repeat split; try done. by rewrite Hn.
Qed.

(** C13: and every unused identity is removed. When every node resolves (to a machine or to
    a scale set), each deleted or replaced assignment whose removal is called for puts its
    resource id on the remove list of its node. *)
Theorem unused_are_removed (c : MicClient) (nc : NodeGetter) (del before after newA : aai_map)
    (nodeMap : track_map) (refs : gmap string bool) :
  delete_inputs nc del before after newA refs →
  (∀ n, ∃ o, vmssFromNodeRef nc n = Ret o) →
  ∃ nodeMap', getListOfIdsToDelete c nc del before after newA nodeMap refs = Ret nodeMap' ∧
  ∀ k d node r, (del !! k = Some d ∨ before !! k = Some d) →
    removable c nc (consolidatedMapToCheck newA after) d node r → r ∈ removes nodeMap' node.
Proof.
  intros Hin Hres. destruct (getListOfIdsToDelete_run c nc del before after newA nodeMap refs Hin) as (nm' & -> & Hrun).
  exists nm'. split; [done|]. intros k d node r Hkd Hr. destruct Hrun as [[[e He] _]|Hrun].
  - pose proof (getVMSSGroups_run nc refs) as Hv. rewrite He in Hv. destruct Hv as (_ & n & _ & Hn).
    destruct (Hres n). congruence.
  - destruct (Hrun node r) as (_ & _ & H3). eauto.
Qed.
End remove_claims.

(** ** A concrete deletion pass: two nodes of one scale set *)

Definition vmss_provider_id (i : string) : string :=
  "azure:///subscriptions/s/resourceGroups/rg/providers/Microsoft.Compute/virtualMachineScaleSets/vs/virtualMachines/" +:+ i.

(** Every node is a member of the scale set [s/rg/vs]. *)
Definition nc_vmss : NodeGetter := λ n, Ret (mkNode n (vmss_provider_id "0")).

Definition client1 : MicClient := mkMicClient false 20 (Some ∅).

(** [p1] leaves [n1] and used identities [a] and [b]; [p2] on [n2] keeps using [b]. *)
Definition del1 : aai_map := by_name
  [mk_assigned "p1" "ns" "n1" "a" "ba" AssignedIDAssigned; mk_assigned "p1" "ns" "n1" "b" "bb" AssignedIDAssigned].
Definition new1 : aai_map := by_name [mk_assigned "p2" "ns" "n2" "b" "bb" AssignedIDAssigned].
Definition refs1 : gmap string bool := {["n2" := true]}.

Lemma delete_inputs_intro nc del before after newA refs :
  (∀ n, nc n ≠ Panic) → refs_wf del → refs_wf before → refs_wf after → refs_wf newA →
  map_Forall (λ _ a, is_Some (refs !! aai_node a)) after →
  map_Forall (λ _ a, is_Some (refs !! aai_node a)) newA →
  delete_inputs nc del before after newA refs.
Proof.
  intros ????? Ha Hn. split; try done. intros a [k Hk].
  destruct (after !! k) eqn:E; simplify_eq; [by apply (Ha k)|by apply (Hn k)].
Qed.

#[export] Instance refs_wf_dec m : Decision (refs_wf m).
Proof. unfold refs_wf. apply _. Defined.

Lemma delete_inputs1 : delete_inputs nc_vmss del1 ∅ ∅ new1 refs1.
Proof. apply delete_inputs_intro; [done|by_computation..]. Qed.

Example remove_run1 :
  (getListOfIdsToDelete (R := canonical_range) client1 nc_vmss del1 ∅ ∅ new1 ∅ refs1) =
  Ret {["n1" := mkTrack [] [rid "a"] [] [] [] false]}.
Proof. vm_compute. reflexivity. Qed.

Lemma removed_only_if_unused_witness :
  ∃ nodeMap', getListOfIdsToDelete (R := canonical_range) client1 nc_vmss del1 ∅ ∅ new1 ∅ refs1 = Ret nodeMap' ∧
  ∀ node r, r ∈ removes nodeMap' node → ∃ k d, (del1 !! k = Some d ∨ (∅ : aai_map) !! k = Some d) ∧ aai_node d = node.
Proof.
  destruct (@removed_only_if_unused canonical_range client1 nc_vmss del1 ∅ ∅ new1 ∅ refs1 delete_inputs1) as (nm & E & H).
  { intros n. unfold removes. by rewrite lookup_empty. }
  exists nm. split; [exact E|]. intros node r Hr. destruct (H node r Hr) as (k & d & id & Hk & Hn & _).
  exists k, d. exact (conj Hk Hn).
Defined.

Lemma unused_are_removed_witness :
  ∃ nodeMap', getListOfIdsToDelete (R := canonical_range) client1 nc_vmss del1 ∅ ∅ new1 ∅ refs1 = Ret nodeMap' ∧
  rid "a" ∈ removes nodeMap' "n1".
Proof.
  destruct (@unused_are_removed canonical_range client1 nc_vmss del1 ∅ ∅ new1 ∅ refs1 delete_inputs1)
    as (nm & E & H).
  { intros n. exists (Some "s/rg/vs"). vm_compute. reflexivity. }
  exists nm. split; [exact E|].
  apply (H "p1-ns-a" (mk_assigned "p1" "ns" "n1" "a" "ba" AssignedIDAssigned)); [left; vm_compute; reflexivity|].
  apply Build_removable; [reflexivity| |left; reflexivity|].
  { exists (mk_identity "ns" "a"). repeat split. }
  intros k a Hk (idd & ida & Hd & Ha & _ & Hc & _).
  rewrite consolidatedMapToCheck_lookup, lookup_empty in Hk.
  apply (map_Forall_lookup_1 (λ _ a, ais_ClientID (ai_Spec (default (mk_identity "" "") (identity_of a))) = "b"))
    in Hk; [|by_computation].
  rewrite Ha in Hk. injection Hd as <-. cbn [default from_option id] in Hk. rewrite Hk in Hc. discriminate Hc.
Defined.
