(* ===== verification/MicConsolidate.v ===== *)
(** * MIC: [consolidateVMSSNodes] (pkg/mic/mic.go:1288) merges the work of the nodes of a
    scale set into one entry under the scale set's name, and hands the entries of nodes
    that no longer exist to [cleanUpAllAssignedIdentitiesOnNode]. *)

From S2P Require Import Prelude GoStrings Types Conversion Fixtures Regex ResourceId MicDesired MicVmss MicNode.

(** The node map, the nodes of each scale set, and the entries to clean up. *)
Record consolidate_state := mkConsolidateState {
  cs_nodeMap : track_map;
  cs_vmssMap : gmap string (list string);
  cs_cleanup : list (string * trackUserAssignedMSIIds)
}.

(** Lines 1291-1319, one iteration. *)
Definition consolidate_step (nc : NodeGetter) (st : consolidate_state)
    (kv : string * trackUserAssignedMSIIds) : outcome consolidate_state :=
  let '(nodeName, nodeTrackList) := kv in
  match nc nodeName with
  | Panic => Panic
  | Fail err =>
      if Contains (Error err) "not found"
      then Ret (mkConsolidateState (delete nodeName (cs_nodeMap st)) (cs_vmssMap st)
                  (cs_cleanup st ++ [(nodeName, nodeTrackList)]))
      else Ret st
  | Ret node =>
      match isVMSS node with
      | Panic => Panic
      | Fail _ | Ret None => Ret st
      | Ret (Some vmssName) =>
          match cs_vmssMap st !! vmssName with
          | Some nodes => Ret (mkConsolidateState (cs_nodeMap st)
                                 (<[vmssName := nodes ++ [nodeName]]> (cs_vmssMap st)) (cs_cleanup st))
          | None => Ret (mkConsolidateState (cs_nodeMap st)
                           (<[vmssName := [nodeName]]> (cs_vmssMap st)) (cs_cleanup st))
          end
      end
  end.

(** Lines 1329-1334: append the lists of one node. *)
Definition merge_track (vmssTrackList t : trackUserAssignedMSIIds) : trackUserAssignedMSIIds :=
  mkTrack (addUserAssignedMSIIDs vmssTrackList ++ addUserAssignedMSIIDs t)
    (removeUserAssignedMSIIDs vmssTrackList ++ removeUserAssignedMSIIDs t)
    (assignedIDsToCreate vmssTrackList ++ assignedIDsToCreate t)
    (assignedIDsToDelete vmssTrackList ++ assignedIDsToDelete t)
    (assignedIDsToUpdate vmssTrackList ++ assignedIDsToUpdate t) true.

(** Lines 1328-1338, one node of a scale set; a missing key reads as the zero value. *)
Definition aggregate_node (vmssName : string) (acc : trackUserAssignedMSIIds * track_map)
    (vmssNode : string) : trackUserAssignedMSIIds * track_map :=
  let '(vmssTrackList, nodeMap) := acc in
  let vmssTrackList' := merge_track vmssTrackList (default zeroTrack (nodeMap !! vmssNode)) in
  (vmssTrackList', <[getVMSSName vmssName := vmssTrackList']> (delete vmssNode nodeMap)).

(** Lines 1322-1339, one scale set. *)
Definition aggregate_vmss (nodeMap : track_map) (kv : string * list string) : track_map :=
  let '(vmssName, vmssNodes) := kv in
  if (length vmssNodes <? 1)%nat then nodeMap
  else (foldl (aggregate_node vmssName) (zeroTrack, nodeMap) vmssNodes).2.

(** The consolidated map and the entries whose clean-up is started. *)
Definition consolidateVMSSNodes `{R : GoRange} (nc : NodeGetter) (nodeMap : track_map) :
    outcome (track_map * list (string * trackUserAssignedMSIIds)) :=
  st ← foldM (consolidate_step nc) (mkConsolidateState nodeMap ∅ []) (go_range 1291 nodeMap);
  Ret (foldl aggregate_vmss (cs_nodeMap st) (go_range 1322 (cs_vmssMap st)), cs_cleanup st).

(** ** The class of a node *)

Inductive node_class := Gone | InVMSS (v : string) | Other.

#[export] Instance node_class_eq_dec : EqDecision node_class.
Proof. solve_decision. Defined.

Definition node_class_of (nc : NodeGetter) (n : string) : node_class :=
  match nc n with
  | Fail err => if Contains (Error err) "not found" then Gone else Other
  | Ret node => match isVMSS node with Ret (Some v) => InVMSS v | _ => Other end
  | Panic => Other
  end.

(** The entries of the nodes of class [cl], in the order of the loop. *)
Definition of_class (nc : NodeGetter) (cl : node_class) (l : list (string * trackUserAssignedMSIIds)) :
    list (string * trackUserAssignedMSIIds) :=
  filter (λ kv, node_class_of nc kv.1 = cl) l.

Definition merged (l : list trackUserAssignedMSIIds) : trackUserAssignedMSIIds :=
  foldl merge_track zeroTrack l.

(** What the entry of a scale set is to hold: in each of the five lists all that the entries of
    its nodes have there, in their order. *)
Definition all_work (l : list trackUserAssignedMSIIds) : trackUserAssignedMSIIds :=
  mkTrack (l ≫= addUserAssignedMSIIDs) (l ≫= removeUserAssignedMSIIDs)
    (l ≫= assignedIDsToCreate) (l ≫= assignedIDsToDelete) (l ≫= assignedIDsToUpdate) true.

Lemma merged_all_work l : l ≠ [] → merged l = all_work l.
Proof.
  assert (∀ t, foldl merge_track t l = mkTrack (addUserAssignedMSIIDs t ++ (l ≫= addUserAssignedMSIIDs))
    (removeUserAssignedMSIIDs t ++ (l ≫= removeUserAssignedMSIIDs)) (assignedIDsToCreate t ++ (l ≫= assignedIDsToCreate))
    (assignedIDsToDelete t ++ (l ≫= assignedIDsToDelete)) (assignedIDsToUpdate t ++ (l ≫= assignedIDsToUpdate))
    (match l with [] => isvmss t | _ => true end)) as H.
  { induction l as [|x l IH]; intros t; [cbn; rewrite !app_nil_r; by destruct t|].
    cbn [foldl]. rewrite IH. cbn. rewrite <- !(assoc_L (++)). by destruct l. }
  intros Hl. unfold merged. rewrite H. by destruct l.
Qed.

Lemma of_class_eq nc cl n t l :
  node_class_of nc n = cl → of_class nc cl ((n, t) :: l) = (n, t) :: of_class nc cl l.
Proof. intros E. unfold of_class. by rewrite filter_cons_True. Qed.

Lemma of_class_ne nc cl n t l :
  node_class_of nc n ≠ cl → of_class nc cl ((n, t) :: l) = of_class nc cl l.
Proof. intros E. unfold of_class. by rewrite filter_cons_False. Qed.

(** ** The first loop *)

Definition append_names (o : option (list string)) (l : list string) : option (list string) :=
  match o, l with
  | Some ns, _ => Some (ns ++ l)
  | None, [] => None
  | None, _ => Some l
  end.

Lemma consolidate_step_class nc st n t :
  nc n ≠ Panic →
  consolidate_step nc st (n, t) = Ret
    match node_class_of nc n with
    | Gone => mkConsolidateState (delete n (cs_nodeMap st)) (cs_vmssMap st) (cs_cleanup st ++ [(n, t)])
    | InVMSS v => mkConsolidateState (cs_nodeMap st)
                    (partial_alter (λ o, append_names o [n]) v (cs_vmssMap st)) (cs_cleanup st)
    | Other => st
    end.
Proof.
  intros Hn. unfold consolidate_step, node_class_of. destruct (nc n) as [nd|e|]; [|by case_match|done].
  destruct (isVMSS nd) as [[v|]|e|] eqn:Ev; try done; [|by apply isVMSS_not_panic in Ev].
  destruct (cs_vmssMap st !! v) eqn:Em; do 2 f_equal; apply map_eq; intros w;
    (destruct (decide (v = w)) as [->|Hne];
     [by rewrite lookup_insert_eq, lookup_partial_alter_eq, Em
     |by rewrite lookup_insert_ne, lookup_partial_alter_ne]).
Qed.

Lemma append_names_nil o : append_names o [] = o.
Proof. destruct o; simpl; [by rewrite app_nil_r|done]. Qed.

Lemma append_names_cons o n l : append_names (append_names o [n]) l = append_names o (n :: l).
Proof. destruct o; simpl; [by rewrite <- (assoc_L (++))|by destruct l]. Qed.

Lemma consolidate_loop nc l st :
  (∀ n, nc n ≠ Panic) →
  ∃ st', foldM (consolidate_step nc) st l = Ret st' ∧
    cs_cleanup st' = cs_cleanup st ++ of_class nc Gone l ∧
    (∀ k, cs_nodeMap st' !! k = if decide (k ∈ (of_class nc Gone l).*1) then None else cs_nodeMap st !! k) ∧
    (∀ v, cs_vmssMap st' !! v = append_names (cs_vmssMap st !! v) (of_class nc (InVMSS v) l).*1).
Proof.
  intros Hnc. revert st. induction l as [|[n t] l IH]; intros st.
  { exists st. split; [done|]. unfold of_class. rewrite filter_nil, app_nil_r. split; [done|].
    split; [intros k; by rewrite decide_False by set_solver|]. intros v. by rewrite filter_nil, append_names_nil. }
  cbn [foldM]. rewrite consolidate_step_class by done. unfold mbind, outcome_bind.
  destruct (node_class_of nc n) as [|v|] eqn:Ec; edestruct IH as (st' & -> & Hc & Hn & Hv); eexists; (split; [done|]);
    simpl in Hc, Hn, Hv; rewrite Hc; (split; [|split; [intros k; rewrite Hn|intros w; rewrite Hv]]);
    rewrite 1?of_class_ne by congruence; try done.
  - by rewrite of_class_eq, <- (assoc_L (++)) by done.
  - rewrite of_class_eq by done. destruct (decide (n = k)) as [->|Hne].
    + rewrite lookup_delete_eq. repeat case_decide; set_solver.
    + rewrite lookup_delete_ne by done. repeat case_decide; set_solver.
  - destruct (decide (v = w)) as [->|Hne].
    + rewrite of_class_eq, lookup_partial_alter_eq by done. apply append_names_cons.
    + by rewrite of_class_ne, lookup_partial_alter_ne by congruence.
Qed.

(** ** The second loop *)

Definition tracks_of (nodeMap : track_map) (ns : list string) : list trackUserAssignedMSIIds :=
  (λ n, default zeroTrack (nodeMap !! n)) <$> ns.

Lemma aggregate_nodes v ns tl nm :
  NoDup ns → getVMSSName v ∉ ns → ns ≠ [] →
  let '(tl', nm') := foldl (aggregate_node v) (tl, nm) ns in
  tl' = foldl merge_track tl (tracks_of nm ns) ∧
  ∀ k, nm' !! k = if decide (k = getVMSSName v) then Some tl'
                  else if decide (k ∈ ns) then None else nm !! k.
Proof.
  revert tl nm. induction ns as [|n ns IH]; intros tl nm Hnd Hv Hne; [done|].
  apply NoDup_cons in Hnd as [Hn Hnd]. cbn [foldl aggregate_node tracks_of fmap list_fmap].
  set (tl1 := merge_track tl (default zeroTrack (nm !! n))).
  set (nm1 := <[getVMSSName v := tl1]> (delete n nm)).
  assert (∀ k, nm1 !! k = if decide (k = getVMSSName v) then Some tl1 else if decide (k = n) then None else nm !! k) as Hnm1.
  { intros k. unfold nm1. destruct (decide (k = getVMSSName v)) as [->|Hk]; [by rewrite lookup_insert_eq|].
    rewrite lookup_insert_ne by done. destruct (decide (k = n)) as [->|]; [by rewrite lookup_delete_eq|].
    by rewrite lookup_delete_ne. }
  destruct (decide (ns = [])) as [->|Hns].
  { cbn. split; [done|]. intros k. rewrite Hnm1. repeat case_decide; set_solver. }
  assert (tracks_of nm1 ns = tracks_of nm ns) as Ht.
  { apply list_fmap_ext. intros i m Hm%list_elem_of_lookup_2. f_equal. rewrite Hnm1.
    rewrite !decide_False; [done| |]; set_solver. }
  specialize (IH tl1 nm1 Hnd ltac:(set_solver) Hns).
  destruct (foldl (aggregate_node v) (tl1, nm1) ns) as [tl' nm']. destruct IH as [-> Hk].
  rewrite Ht in *. split; [done|]. intros k. rewrite Hk, Hnm1. repeat case_decide; set_solver.
Qed.

(** The scale set entries: each under its own name, over nodes that are not shared. *)
Record vmss_entries (nm : track_map) (l : list (string * list string)) : Prop := {
  ve_nonempty : ∀ v ns, (v, ns) ∈ l → ns ≠ [];
  ve_nodes : ∀ v ns n, (v, ns) ∈ l → n ∈ ns → is_Some (nm !! n);
  ve_fresh : ∀ v ns, (v, ns) ∈ l → nm !! getVMSSName v = None;
  ve_names : NoDup (getVMSSName <$> l.*1);
  ve_disjoint : NoDup (mjoin (l.*2))
}.

Lemma vmss_entries_cons nm v ns l nm' tl :
  vmss_entries nm ((v, ns) :: l) →
  (∀ k, nm' !! k = if decide (k = getVMSSName v) then Some tl else if decide (k ∈ ns) then None else nm !! k) →
  vmss_entries nm' l ∧ ∀ w nsw, (w, nsw) ∈ l → tracks_of nm' nsw = tracks_of nm nsw.
Proof.
  intros [Hne Hn Hf Hnm Hd] Hk. rewrite !fmap_cons in Hnm. apply NoDup_cons in Hnm as [Hv Hnm].
  rewrite fmap_cons in Hd. simpl in Hd. apply NoDup_app in Hd as (_ & Hdis & Hd).
  assert (∀ w nsw, (w, nsw) ∈ l → ∀ n, n ∈ nsw → nm' !! n = nm !! n) as Hsame.
  { intros w nsw Hw n Hn'. rewrite Hk, !decide_False; [done| |].
    - intros Hin. apply (Hdis _ Hin), list_elem_of_join. exists nsw. split; [done|].
      apply list_elem_of_fmap. by exists (w, nsw).
    - intros ->. destruct (Hn w nsw (getVMSSName v)) as [t Ht]; [set_solver|done|].
      rewrite (Hf v ns) in Ht by set_solver. done. }
  assert (∀ w nsw, (w, nsw) ∈ l → getVMSSName w ≠ getVMSSName v) as Hnames.
  { intros w nsw Hw E. apply Hv. simpl. rewrite <- E. apply list_elem_of_fmap. exists w. split; [done|].
    apply list_elem_of_fmap. by exists (w, nsw). }
  split.
  - split; try done.
    + intros w nsw Hw. apply (Hne w). set_solver.
    + intros w nsw n Hw Hin. rewrite (Hsame w nsw Hw n Hin). apply (Hn w nsw); [set_solver|done].
    + intros w nsw Hw. rewrite Hk, decide_False by eauto. case_decide; [done|]. apply (Hf w nsw). set_solver.
  - intros w nsw Hw. apply list_fmap_ext. intros i n Hin%list_elem_of_lookup_2. f_equal. eauto.
Qed.

Lemma aggregate_loop l nm :
  vmss_entries nm l →
  (∀ v ns, (v, ns) ∈ l → foldl aggregate_vmss nm l !! getVMSSName v = Some (merged (tracks_of nm ns))) ∧
  (∀ k, (∀ v ns, (v, ns) ∈ l → k ≠ getVMSSName v) →
     foldl aggregate_vmss nm l !! k = if decide (k ∈ mjoin (l.*2)) then None else nm !! k).
Proof.
  revert nm. induction l as [|[v ns] l IH]; intros nm Hve.
  { split; [set_solver|]. intros k _. by rewrite decide_False by set_solver. }
  assert (aggregate_vmss nm (v, ns) = (foldl (aggregate_node v) (zeroTrack, nm) ns).2) as Ea.
  { pose proof (ve_nonempty _ _ Hve v ns ltac:(set_solver)). by destruct ns. }
  assert (NoDup ns ∧ ¬ (getVMSSName v ∈ ns) ∧ ns ≠ []) as (H1 & H2 & H3).
  { split; [|split; [|apply (ve_nonempty _ _ Hve v); set_solver]].
    - pose proof (ve_disjoint _ _ Hve) as Hd. rewrite fmap_cons in Hd. simpl in Hd. by apply NoDup_app in Hd as [? _].
    - intros Hin. destruct (ve_nodes _ _ Hve v ns _ ltac:(set_solver) Hin) as [t Ht].
      rewrite (ve_fresh _ _ Hve v ns) in Ht by set_solver. done. }
  pose proof (aggregate_nodes v ns zeroTrack nm H1 H2 H3) as Hagg. cbn [foldl]. rewrite Ea.
  destruct (foldl (aggregate_node v) (zeroTrack, nm) ns) as [tl nm']. destruct Hagg as [-> Hk]. simpl.
  destruct (vmss_entries_cons _ _ _ _ _ _ Hve Hk) as [Hve' Ht]. destruct (IH nm' Hve') as [IH1 IH2].
  pose proof (ve_names _ _ Hve) as Hnm. rewrite !fmap_cons in Hnm. apply NoDup_cons in Hnm as [Hv _].
  split.
  - intros w nsw [[= -> ->]|Hw]%elem_of_cons.
    + rewrite IH2.
      * assert (getVMSSName v ∉ mjoin (l.*2)) as Hnin.
        { intros (nsw & Hin & Hj)%list_elem_of_join. apply list_elem_of_fmap in Hj as ([w nsw'] & -> & Hw). simpl in *.
          destruct (ve_nodes _ _ Hve w nsw' _ ltac:(set_solver) Hin) as [t Htt].
          rewrite (ve_fresh _ _ Hve v ns) in Htt by set_solver. done. }
        rewrite decide_False, Hk, decide_True by done. done.
      * intros w nsw Hw E. apply Hv. simpl. rewrite E. apply list_elem_of_fmap. exists w. split; [done|].
        apply list_elem_of_fmap. by exists (w, nsw).
    + by rewrite (IH1 w nsw Hw), (Ht w nsw Hw).
  - intros k Hkn. rewrite IH2 by set_solver. rewrite Hk.
    assert (k ≠ getVMSSName v) by (apply (Hkn v ns); set_solver). simpl.
    repeat case_decide; set_solver.
Qed.

(** ** The consolidation as a whole *)

Section consolidate_claims.
Context `{R : GoRange} (nc : NodeGetter) (nodeMap : track_map).

(** The entries of the scale set [v], in the order of the loop. *)
Definition members (cl : node_class) : list (string * trackUserAssignedMSIIds) :=
  of_class nc cl (go_range 1291 nodeMap).

(** No scale set shares its name with another one or with a node that has work. *)
Record names_distinct : Prop := {
  nd_vmss : ∀ n1 n2 v1 v2, is_Some (nodeMap !! n1) → is_Some (nodeMap !! n2) →
    node_class_of nc n1 = InVMSS v1 → node_class_of nc n2 = InVMSS v2 →
    getVMSSName v1 = getVMSSName v2 → v1 = v2;
  nd_node : ∀ n v, is_Some (nodeMap !! n) → node_class_of nc n = InVMSS v →
    nodeMap !! getVMSSName v = None
}.

Lemma elem_of_members cl n t :
  (n, t) ∈ members cl ↔ node_class_of nc n = cl ∧ nodeMap !! n = Some t.
Proof. unfold members, of_class. by rewrite list_elem_of_filter, elem_of_go_range. Qed.

Lemma elem_of_members_fst cl n :
  n ∈ (members cl).*1 ↔ node_class_of nc n = cl ∧ is_Some (nodeMap !! n).
Proof.
  rewrite list_elem_of_fmap. split.
  - intros ([n' t] & -> & [H1 H2]%elem_of_members). simpl. eauto.
  - intros [H1 [t H2]]. exists (n, t). by rewrite elem_of_members.
Qed.

Lemma NoDup_members cl : NoDup (members cl).*1.
Proof.
  unfold members, of_class. eapply sublist_NoDup; [apply (NoDup_fst_go_range 1291 nodeMap)|].
  apply fmap_sublist, sublist_filter.
Qed.

Lemma tracks_of_members cl nm :
  (∀ n, n ∈ (members cl).*1 → nm !! n = nodeMap !! n) →
  tracks_of nm (members cl).*1 = (members cl).*2.
Proof.
  intros Hnm. unfold tracks_of. rewrite <- list_fmap_compose. apply list_fmap_ext.
  intros i [n t] Hi%list_elem_of_lookup_2. simpl. rewrite Hnm.
  - apply elem_of_members in Hi as [_ ->]. done.
  - apply list_elem_of_fmap. by exists (n, t).
Qed.

Lemma first_loop_entries st :
  (∀ k, cs_nodeMap st !! k = if decide (k ∈ (members Gone).*1) then None else nodeMap !! k) →
  (∀ v, cs_vmssMap st !! v = append_names None (members (InVMSS v)).*1) →
  names_distinct → vmss_entries (cs_nodeMap st) (go_range 1322 (cs_vmssMap st)).
Proof.
  intros Hn Hv [Hnd1 Hnd2].
  assert (∀ v ns, (v, ns) ∈ go_range 1322 (cs_vmssMap st) → ns = (members (InVMSS v)).*1 ∧ ns ≠ []) as Hin.
  { intros v ns. rewrite elem_of_go_range, Hv. unfold append_names. destruct (members (InVMSS v)).*1; [done|].
    by intros [= <-]. }
  assert (∀ v ns, (v, ns) ∈ go_range 1322 (cs_vmssMap st) → ∃ n, node_class_of nc n = InVMSS v ∧ is_Some (nodeMap !! n)) as Hex.
  { intros v ns [-> Hne]%Hin. destruct (members (InVMSS v)).*1 as [|n l] eqn:E; [done|].
    exists n. apply elem_of_members_fst. rewrite E. left. }
  split.
  - intros v ns Hvn. by apply (Hin v ns).
  - intros v ns n [-> _]%Hin [Hc Hs]%elem_of_members_fst. rewrite Hn, decide_False; [done|].
    rewrite elem_of_members_fst. intros [? _]. congruence.
  - intros v ns (n & Hc & Hs)%Hex. rewrite Hn. case_decide; [done|]. by apply (Hnd2 n).
  - apply NoDup_fmap_2_strong; [|apply NoDup_fst_go_range].
    intros v1 v2 ([w1 ns1] & -> & (n1 & H1 & S1)%Hex)%list_elem_of_fmap
      ([w2 ns2] & -> & (n2 & H2 & S2)%Hex)%list_elem_of_fmap E. eauto.
  - assert (∀ l, (∀ v ns, (v, ns) ∈ l → ns = (members (InVMSS v)).*1) → NoDup l.*1 → NoDup (mjoin (l.*2))) as Hgen.
    { intros l. induction l as [|[v ns] l IH]; intros Hl Hnd; [constructor|].
      rewrite fmap_cons in Hnd. apply NoDup_cons in Hnd as [Hv' Hnd]. simpl. apply NoDup_app. split; [|split].
      - rewrite (Hl v ns) by left. apply NoDup_members.
      - intros n Hnn (nsw & Hin2 & Hj)%list_elem_of_join. apply list_elem_of_fmap in Hj as ([w nsw'] & -> & Hw).
        simpl in *. rewrite (Hl v ns) in Hnn by left. rewrite (Hl w nsw') in Hin2 by (by right).
        apply elem_of_members_fst in Hnn as [Hc _]. apply elem_of_members_fst in Hin2 as [Hc' _].
        rewrite Hc in Hc'. injection Hc' as <-. apply Hv', list_elem_of_fmap. by exists (v, nsw').
      - apply IH; [|done]. intros w nsw Hw. apply Hl. by right. }
    apply Hgen; [|apply NoDup_fst_go_range]. intros v ns. by intros [-> _]%Hin.
Qed.

Lemma consolidate_run :
  (∀ n, nc n ≠ Panic) → names_distinct →
  ∃ nodeMap', consolidateVMSSNodes nc nodeMap = Ret (nodeMap', members Gone) ∧
  (∀ v, members (InVMSS v) ≠ [] → nodeMap' !! getVMSSName v = Some (merged (members (InVMSS v)).*2)) ∧
  (∀ k t, nodeMap !! k = Some t → node_class_of nc k = Other → nodeMap' !! k = Some t) ∧
  (∀ k t, nodeMap' !! k = Some t →
     (nodeMap !! k = Some t ∧ node_class_of nc k = Other) ∨
     (∃ v, k = getVMSSName v ∧ members (InVMSS v) ≠ [] ∧ t = merged (members (InVMSS v)).*2)).
Proof.
  intros Hnc Hnd. unfold consolidateVMSSNodes, mbind, outcome_bind.
  destruct (consolidate_loop nc (go_range 1291 nodeMap) (mkConsolidateState nodeMap ∅ []) Hnc)
    as (st & -> & Hc & Hn & Hv). simpl in Hc, Hn.
  assert (∀ v, cs_vmssMap st !! v = append_names None (members (InVMSS v)).*1) as Hv'
    by (intros v; rewrite Hv; simpl; by rewrite lookup_empty). clear Hv.
  pose proof (first_loop_entries st Hn Hv' Hnd) as Hve.
  destruct (aggregate_loop _ _ Hve) as [Hin Hout].
  assert (∀ v, members (InVMSS v) ≠ [] → (v, (members (InVMSS v)).*1) ∈ go_range 1322 (cs_vmssMap st)) as Hmem.
  { intros v Hne. rewrite elem_of_go_range, Hv'. destruct (members (InVMSS v)); [done|]. done. }
  assert (∀ v, tracks_of (cs_nodeMap st) (members (InVMSS v)).*1 = (members (InVMSS v)).*2) as Htr.
  { intros v. apply tracks_of_members. intros n [Hcl _]%elem_of_members_fst. rewrite Hn, decide_False; [done|].
    intros [? _]%elem_of_members_fst. congruence. }
  assert (∀ k, k ∈ mjoin ((go_range 1322 (cs_vmssMap st)).*2) → ∃ v, node_class_of nc k = InVMSS v) as Hjoin.
  { intros k (ns & Hk & Hj)%list_elem_of_join. apply list_elem_of_fmap in Hj as ([v ns'] & -> & Hg%elem_of_go_range).
    simpl in *. rewrite Hv' in Hg. exists v. unfold append_names in Hg. destruct (members (InVMSS v)).*1 eqn:E; simplify_eq.
    rewrite <- E in Hk. by apply elem_of_members_fst in Hk as [? _]. }
  eexists. rewrite Hc. split; [done|]. split; [|split].
  - intros v Hne. by rewrite (Hin _ _ (Hmem v Hne)), Htr.
  - intros k t Hk Hcl. rewrite Hout.
    + rewrite decide_False by (intros [v ?]%Hjoin; congruence). rewrite Hn, decide_False; [done|].
      intros [? _]%elem_of_members_fst. congruence.
    + intros v ns Hg%elem_of_go_range ->. rewrite Hv' in Hg.
      destruct (members (InVMSS v)) as [|[n tn] l] eqn:E; simplify_eq/=.
      assert ((n, tn) ∈ members (InVMSS v)) as [Hcn Hsn]%elem_of_members by (rewrite E; left).
      rewrite (nd_node Hnd n v) in Hk by eauto. done.
  - intros k t Hk.
    destruct (decide (Exists (λ kv, k = getVMSSName kv.1) (go_range 1322 (cs_vmssMap st)))) as [He|He].
    + apply Exists_exists in He as ([v ns] & Hg & ->). simpl in Hk. rewrite (Hin _ _ Hg) in Hk. right. exists v.
      apply elem_of_go_range in Hg. rewrite Hv' in Hg.
      assert (members (InVMSS v) ≠ [] ∧ ns = (members (InVMSS v)).*1) as [Hne ->].
      { destruct (members (InVMSS v)); simplify_eq/=; done. }
      simpl in Hk. rewrite Htr in Hk. by simplify_eq.
    + rewrite Hout in Hk.
      * destruct (decide (k ∈ mjoin _)); [done|]. rewrite Hn in Hk. case_decide as Hg; [done|]. left.
        split; [done|]. destruct (node_class_of nc k) as [|v|] eqn:Ec; [|exfalso|done].
        -- exfalso. apply Hg, elem_of_members_fst. eauto.
        -- assert (k ∈ (members (InVMSS v)).*1) as Hkm by (apply elem_of_members_fst; eauto).
           apply n, list_elem_of_join. exists (members (InVMSS v)).*1. split; [done|].
           apply list_elem_of_fmap. exists (v, (members (InVMSS v)).*1). split; [done|]. apply Hmem.
           intros E. rewrite E in Hkm. by apply not_elem_of_nil in Hkm.
      * intros v ns Hg ->. apply He, Exists_exists. by exists (v, ns).
Qed.

(** C16: consolidation neither loses nor invents work. If scale set names do not clash, the
    entry of every scale set is, under its name and marked as a scale set, the
    concatenation of the entries of its nodes in each of the five lists: the ids to add and to
    remove, and the objects to create, to delete and to update. The entries of all other
    existing nodes are kept unchanged; those of nodes that are gone are exactly the ones handed
    to the clean up; and nothing else is in the map. The routine never fails. *)
Theorem consolidate_conserves :
  (∀ n, nc n ≠ Panic) → names_distinct →
  ∃ nodeMap', consolidateVMSSNodes nc nodeMap = Ret (nodeMap', members Gone) ∧
  (∀ n t, (n, t) ∈ members Gone ↔ nodeMap !! n = Some t ∧ node_class_of nc n = Gone) ∧
  (∀ v, members (InVMSS v) ≠ [] → nodeMap' !! getVMSSName v = Some (all_work (members (InVMSS v)).*2)) ∧
  (∀ v n t, (n, t) ∈ members (InVMSS v) ↔ nodeMap !! n = Some t ∧ node_class_of nc n = InVMSS v) ∧
  (∀ k t, nodeMap !! k = Some t → node_class_of nc k = Other → nodeMap' !! k = Some t) ∧
  (∀ k t, nodeMap' !! k = Some t →
     (nodeMap !! k = Some t ∧ node_class_of nc k = Other) ∨
     (∃ v, k = getVMSSName v ∧ members (InVMSS v) ≠ [] ∧ t = all_work (members (InVMSS v)).*2)).
Proof.
  intros Hnc Hnd. destruct (consolidate_run Hnc Hnd) as (m & E & H1 & H2 & H3). exists m. split; [done|].
  assert (∀ cl n t, (n, t) ∈ members cl ↔ nodeMap !! n = Some t ∧ node_class_of nc n = cl) as Hm
    by (intros cl n t; rewrite elem_of_members; tauto).
  assert (∀ v, members (InVMSS v) ≠ [] → merged (members (InVMSS v)).*2 = all_work (members (InVMSS v)).*2) as Ha
    by (intros v Hv; apply merged_all_work; by intros ?%fmap_nil_inv).
  split; [apply Hm|]. split; [intros v Hv; rewrite <- Ha; auto|]. split; [intros v; apply Hm|]. split; [done|].
  intros k t [?|(v & -> & Hv & ->)]%H3; [by left|right]. exists v. rewrite Ha; auto.
Qed.
End consolidate_claims.

(** ** Two scale sets and a machine *)

(** Nodes [x...] are in scale set [vx], nodes [y...] in [vy], [m] is a plain machine and
    every other node is gone. *)
Definition nc_mixed : NodeGetter := λ n,
  let vmss v := Ret (mkNode n ("azure:///subscriptions/s/resourceGroups/rg/providers/Microsoft.Compute/virtualMachineScaleSets/" +:+ v +:+ "/virtualMachines/0")) in
  if HasPrefix n "x" then vmss "vx" else if HasPrefix n "y" then vmss "vy"
  else if bool_decide (n = "m")
  then Ret (mkNode n "azure:///subscriptions/s/resourceGroups/rg/providers/Microsoft.Compute/virtualMachines/m")
  else Fail (mk_error KNotFound "node not found").

Definition track_add (r : string) : trackUserAssignedMSIIds := mkTrack [r] [] [] [] [] false.

Definition mixed_map : track_map :=
  list_to_map [("x1", track_add "a"); ("x2", track_add "b"); ("y1", track_add "c"); ("m", track_add "d"); ("z", track_add "e")].

Example consolidate_mixed :
  consolidateVMSSNodes (R := canonical_range) nc_mixed mixed_map =
  Ret (list_to_map [("vx", mkTrack ["a"; "b"] [] [] [] [] true); ("vy", mkTrack ["c"] [] [] [] [] true); ("m", track_add "d")],
       [("z", track_add "e")]).
Proof. vm_compute. reflexivity. Qed.

Lemma nc_mixed_class n v :
  node_class_of nc_mixed n = InVMSS v → v = "s/rg/vx" ∨ v = "s/rg/vy".
Proof.
  unfold node_class_of, nc_mixed. destruct (HasPrefix n "x").
  { intros H. vm_compute in H. injection H as <-. by left. }
  destruct (HasPrefix n "y").
  { intros H. vm_compute in H. injection H as <-. by right. }
  destruct (bool_decide (n = "m")); intros H; vm_compute in H; discriminate H.
Qed.

(** An object to update on each node of a scale set: both are in its entry. *)
Definition track_update (a : AzureAssignedIdentity) : trackUserAssignedMSIIds := mkTrack [] [] [] [] [a] false.

Definition updates_map : track_map :=
  list_to_map [("x1", track_update (mk_assigned "p" "ns" "x1" "id" "b" "")); ("x2", track_update (mk_assigned "q" "ns" "x2" "id" "b" ""))].

Lemma consolidate_conserves_witness :
  ∃ nodeMap' t, consolidateVMSSNodes (R := canonical_range) nc_mixed updates_map =
    Ret (nodeMap', members (R := canonical_range) nc_mixed updates_map Gone) ∧
  nodeMap' !! "vx" = Some t ∧ isvmss t = true ∧
  assignedIDsToUpdate t = [mk_assigned "p" "ns" "x1" "id" "b" ""; mk_assigned "q" "ns" "x2" "id" "b" ""].
Proof.
  destruct (@consolidate_conserves canonical_range nc_mixed updates_map) as (nm & E & _ & H & _).
  - intros n. unfold nc_mixed. destruct (HasPrefix n "x"), (HasPrefix n "y"), (bool_decide (n = "m")); discriminate.
  - split.
    + intros n1 n2 v1 v2 _ _ [-> | ->]%nc_mixed_class [-> | ->]%nc_mixed_class H; vm_compute in H; congruence.
    + intros n v _ [-> | ->]%nc_mixed_class; vm_compute; reflexivity.
  - exists nm, (all_work (members (R := canonical_range) nc_mixed updates_map (InVMSS "s/rg/vx")).*2).
    split; [exact E|]. split; [|split; vm_compute; reflexivity].
    apply (H "s/rg/vx"). vm_compute. discriminate.
Defined.

(** ** What happens when two scale sets share a name

    The entries are keyed by the bare name: of two scale sets [vs] in different resource
    groups, only the work of the one visited last is left. *)
Definition nc_clash : NodeGetter := λ n,
  Ret (mkNode n ("azure:///subscriptions/s/resourceGroups/" +:+ n +:+
    "/providers/Microsoft.Compute/virtualMachineScaleSets/vs/virtualMachines/0")).

Lemma same_name_vmss_loses_work :
  ∃ nodeMap', consolidateVMSSNodes (R := canonical_range) nc_clash
    (list_to_map [("rg1", track_add "a"); ("rg2", track_add "b")]) = Ret (nodeMap', []) ∧
  size nodeMap' = 1 ∧ length (addUserAssignedMSIIDs (default zeroTrack (nodeMap' !! "vs"))) = 1.
Proof. eexists. split; [vm_compute; reflexivity|]. by split; vm_compute. Qed.
