(* ===== verification/Concurrency.v ===== *)
(** * Goroutines that fork, join and share a world.

    A process is a tree of atomic actions on the world; [Fork ps k] runs the processes [ps]
    concurrently and continues with [k] when all have ended (a [WaitGroup], or a weighted
    semaphore acquired in full after the goroutines were started). [Crash] is a panic:
    it never ends.

    The world is seen through cells. A process with footprint [F] runs in an environment that
    may change everything but the cells of [F]; [fork_inv] says that the children of a
    fork with disjoint footprints each run in such an environment, so that a property of
    a concurrent program is proved one goroutine at a time. *)

From S2P Require Import Prelude.

Inductive proc (W : Type) : Type :=
  | Done
  | Crash
  | Op (step : W → W * proc W)
  | Fork (children : list (proc W)) (k : proc W).
Arguments Done {W}.
Arguments Crash {W}.
Arguments Op {W}.
Arguments Fork {W}.

(** An action followed by what its outcome calls for; a panic crashes. *)
Definition act {W A} (m : M W A) (ok : A → proc W) (failed : error → proc W) : proc W :=
  Op (λ w, match m w with
           | (Ret a, w') => (w', ok a)
           | (Fail e, w') => (w', failed e)
           | (Panic, w') => (w', Crash)
           end).

(** One atomic step of some goroutine. *)
Inductive pstep {W} : proc W → W → proc W → W → Prop :=
  | step_op f w : pstep (Op f) w (f w).2 (f w).1
  | step_child ps k i p p' w w' :
      ps !! i = Some p → pstep p w p' w' → pstep (Fork ps k) w (Fork (<[i := p']> ps) k) w'
  | step_join ps k w : Forall (eq Done) ps → pstep (Fork ps k) w k w.

(** ** The sequential schedule, which runs the children one after the other *)

Fixpoint run_proc {W} (p : proc W) (w : W) : option W :=
  match p with
  | Done => Some w
  | Crash => None
  | Op f => run_proc (f w).2 (f w).1
  | Fork ps k =>
      match (fix run_all (ps : list (proc W)) (w : W) : option W :=
               match ps with
               | [] => Some w
               | p :: ps' => match run_proc p w with Some w' => run_all ps' w' | None => None end
               end) ps w with
      | Some w' => run_proc k w'
      | None => None
      end
  end.

Fixpoint run_all {W} (ps : list (proc W)) (w : W) : option W :=
  match ps with
  | [] => Some w
  | p :: ps' => match run_proc p w with Some w' => run_all ps' w' | None => None end
  end.

Lemma run_proc_Fork {W} (ps : list (proc W)) k w :
  run_proc (Fork ps k) w = match run_all ps w with Some w' => run_proc k w' | None => None end.
Proof.
  simpl. match goal with |- match ?g ps w with _ => _ end = _ => assert (∀ l v, g l v = run_all l v) as H end.
  { intros l. induction l as [|p l IH]; intros v; [done|]. simpl. destruct (run_proc p v); [apply IH|done]. }
  by rewrite H.
Qed.

(** Induction on processes, with a hypothesis for every child. *)
Section proc_induction.
Context {W : Type} (P : proc W → Prop).
Hypothesis H_done : P Done.
Hypothesis H_crash : P Crash.
Hypothesis H_op : ∀ f, (∀ w, P (f w).2) → P (Op f).
Hypothesis H_fork : ∀ ps k, Forall P ps → P k → P (Fork ps k).

Fixpoint proc_ind' (p : proc W) : P p :=
  match p with
  | Done => H_done
  | Crash => H_crash
  | Op f => H_op f (λ w, proc_ind' (f w).2)
  | Fork ps k =>
      H_fork ps k
        ((fix all (ps : list (proc W)) : Forall P ps :=
            match ps with
            | [] => Forall_nil_2 _
            | p :: ps' => Forall_cons_2 _ _ _ (proc_ind' p) (all ps')
            end) ps) (proc_ind' k)
  end.
End proc_induction.

(** ** Cells, footprints and environments *)

(** The shared world: its cells with their values, an invariant, and a log that only grows. *)
Class World (W : Type) := {
  cell : Type;
  value : Type;
  read : W → cell → value;
  w_inv : W → Prop;
  log_le : W → W → Prop;
  log_le_refl : ∀ w, log_le w w;
  log_le_trans : ∀ w1 w2 w3, log_le w1 w2 → log_le w2 w3 → log_le w1 w3
}.

Section runs.
Context {W : Type} `{wd : World W}.
Abbreviation footprint := (cell → Prop).

(** A change that leaves the cells of [F] alone. *)
Definition env (F : footprint) (w w' : W) : Prop :=
  w_inv w → w_inv w' ∧ log_le w w' ∧ ∀ c, F c → read w' c = read w c.

(** A change of the cells of [F] only. *)
Definition touch (F : footprint) (w w' : W) : Prop :=
  w_inv w → w_inv w' ∧ log_le w w' ∧ ∀ c, ¬ F c → read w' c = read w c.

Lemma env_refl F w : env F w w.
Proof. intros Hi. split; [done|]. split; [apply log_le_refl|done]. Qed.

Lemma env_trans F w1 w2 w3 : env F w1 w2 → env F w2 w3 → env F w1 w3.
Proof.
  intros H1 H2 Hi. destruct (H1 Hi) as (Hi2 & L1 & E1). destruct (H2 Hi2) as (Hi3 & L2 & E2).
  split; [done|]. split; [by eapply log_le_trans|]. intros c Hc. by rewrite E2, E1.
Qed.

Lemma env_mono (F G : footprint) w w' : (∀ c, F c → G c) → env G w w' → env F w w'.
Proof. intros Hs H Hi. destruct (H Hi) as (? & ? & E). split; [done|]. split; [done|]. auto. Qed.

Lemma touch_env (F G : footprint) w w' : (∀ c, F c → ¬ G c) → touch G w w' → env F w w'.
Proof. intros Hd H Hi. destruct (H Hi) as (? & ? & E). split; [done|]. split; [done|]. intros c Hc. apply E; auto. Qed.

Lemma touch_mono (F G : footprint) w w' : (∀ c, F c → G c) → touch F w w' → touch G w w'.
Proof. intros Hs H Hi. destruct (H Hi) as (? & ? & E). split; [done|]. split; [done|]. intros c Hc. apply E; auto. Qed.

(** Every step a process can take touches the cells of [F] only. *)
Inductive touches (F : footprint) : proc W → Prop :=
  | touches_done : touches F Done
  | touches_crash : touches F Crash
  | touches_op f : (∀ w, touch F w (f w).1) → (∀ w, touches F (f w).2) → touches F (Op f)
  | touches_fork ps k : Forall (touches F) ps → touches F k → touches F (Fork ps k).

Lemma touches_mono (F G : footprint) p : (∀ c, F c → G c) → touches F p → touches G p.
Proof.
  intros Hs. induction p as [| |f IH|ps k IHps IHk] using proc_ind'; inversion 1; subst.
  - constructor.
  - constructor.
  - constructor; [intros w; eapply touch_mono; eauto|eauto].
  - constructor; [|eauto]. rewrite Forall_forall in *. auto.
Qed.

Lemma pstep_touch F p w p' w' : touches F p → pstep p w p' w' → touch F w w' ∧ touches F p'.
Proof.
  intros Ht Hs. induction Hs as [f w|ps k i p p' w w' Hi Hs IH|ps k w Hd]; inversion Ht; subst.
  - auto.
  - rewrite Forall_forall in *. destruct IH as [H1' H2']; [eauto using list_elem_of_lookup_2|].
    split; [done|]. constructor; [|done]. by apply Forall_insert; [apply Forall_forall|].
  - split; [|done]. intros Hi. split; [done|]. split; [apply log_le_refl|done].
Qed.

(** A complete run of a process, its steps interleaved with steps of the environment. *)
Inductive runs (F : footprint) : proc W → W → W → Prop :=
  | runs_done w : runs F Done w w
  | runs_env p w w1 w2 : env F w w1 → runs F p w1 w2 → runs F p w w2
  | runs_step p p1 w w1 w2 : pstep p w p1 w1 → runs F p1 w1 w2 → runs F p w w2.

Lemma runs_done_inv F w w' : runs F Done w w' → env F w w'.
Proof.
  intros H. remember Done as p eqn:Ep. induction H as [w|p w w1 w2 He Hr IH|p p1 w w1 w2 Hs Hr IH].
  - apply env_refl.
  - eapply env_trans; eauto.
  - subst. inversion Hs.
Qed.

Lemma runs_crash_inv F w w' : ¬ runs F Crash w w'.
Proof.
  intros H. remember Crash as p eqn:Ep. induction H as [w|p w w1 w2 He Hr IH|p p1 w w1 w2 Hs Hr IH]; [done|auto|].
  subst. inversion Hs.
Qed.

Lemma runs_op_inv F f w w' :
  runs F (Op f) w w' → ∃ w1, env F w w1 ∧ runs F (f w1).2 (f w1).1 w'.
Proof.
  intros H. remember (Op f) as p eqn:Ep. induction H as [w|p w w1 w2 He Hr IH|p p1 w w1 w2 Hs Hr IH]; [done| |].
  - destruct (IH Ep) as (w3 & He3 & Hr3). exists w3. split; [by eapply env_trans|done].
  - subst. inversion Hs; subst. exists w. split; [apply env_refl|done].
Qed.

(** Children with disjoint footprints run as if each were alone in an environment, and leave
    the rest of the footprint alone. *)
Lemma runs_fork_inv (F : footprint) (Fs : list footprint) ps k w w' :
  Forall2 touches Fs ps →
  (∀ i Fi, Fs !! i = Some Fi → ∀ c, Fi c → F c) →
  (∀ i j Fi Fj, i ≠ j → Fs !! i = Some Fi → Fs !! j = Some Fj → ∀ c, Fi c → ¬ Fj c) →
  runs F (Fork ps k) w w' →
  ∃ w1, (∀ i Fi p, Fs !! i = Some Fi → ps !! i = Some p → runs Fi p w w1) ∧ runs F k w1 w' ∧
    env (λ c, F c ∧ ∀ i Fi, Fs !! i = Some Fi → ¬ Fi c) w w1.
Proof.
  intros Ht Hsub Hdis H. remember (Fork ps k) as q eqn:Eq. revert ps Eq Ht.
  induction H as [w|q w w1 w2 He Hr IH|q q1 w w1 w2 Hs Hr IH]; intros ps Eq Ht; [done| |]; subst.
  - destruct (IH ps eq_refl Ht) as (wj & Hch & Hk & Hrest). exists wj. split; [|split; [done|]].
    + intros i Fi p HFi Hp. eapply runs_env; [|by eapply Hch]. eapply env_mono; [|exact He]. by apply (Hsub i).
    + eapply env_trans; [|exact Hrest]. eapply env_mono; [|exact He]. by intros c [? _].
  - inversion Hs as [|ps' k' i p p' w0 w0' Hi Hps E1 E2|ps' k' w0 Hall E1 E2]; subst.
    + assert (∃ Fi, Fs !! i = Some Fi ∧ touches Fi p) as (Fi & HFi & Htp).
      { by destruct (Forall2_lookup_r _ _ _ _ _ Ht Hi) as (Fi & ? & ?); eauto. }
      destruct (pstep_touch _ _ _ _ _ Htp Hps) as [Htouch Htp'].
      destruct (IH (<[i := p']> ps) eq_refl) as (wj & Hch & Hk & Hrest).
      { rewrite <- (list_insert_id Fs i Fi HFi). by apply Forall2_insert. }
      exists wj. split; [|split; [done|]].
      * intros j Fj pj HFj Hpj. destruct (decide (i = j)) as [<-|Hne].
        -- simplify_eq. eapply runs_step; [exact Hps|]. apply (Hch i); [done|].
           apply list_lookup_insert_eq. by eapply lookup_lt_Some.
        -- eapply runs_env; [|apply (Hch j); [done|by rewrite list_lookup_insert_ne]].
           eapply touch_env; [|exact Htouch]. by eapply (Hdis j i).
      * eapply env_trans; [|exact Hrest]. eapply touch_env; [|exact Htouch]. intros c [_ Hc]. by eapply Hc.
    + exists w1. split; [|split; [done|apply env_refl]]. intros i Fi p HFi Hp. rewrite Forall_forall in Hall.
      assert (p = Done) as -> by (symmetry; apply Hall; by eapply list_elem_of_lookup_2). constructor.
Qed.

(** A run of a fork goes through the world in which its children have ended. *)
Lemma runs_fork_join F ps k w w' : runs F (Fork ps k) w w' → ∃ w1, runs F (Fork ps Done) w w1 ∧ runs F k w1 w'.
Proof.
  intros H. remember (Fork ps k) as q eqn:Eq. revert ps Eq.
  induction H as [w|q w w1 w2 He Hr IH|q q1 w w1 w2 Hs Hr IH]; intros ps Eq; [done| |]; subst.
  - destruct (IH ps eq_refl) as (wj & H1 & H2). exists wj. split; [by eapply runs_env|done].
  - inversion Hs as [|ps' k' i p p' w0 w0' Hi Hps E1 E2|ps' k' w0 Hall E1 E2]; subst.
    + destruct (IH _ eq_refl) as (wj & H1 & H2). exists wj. split; [|done].
      eapply runs_step; [by eapply step_child|done].
    + exists w1. split; [|done]. eapply runs_step; [by apply step_join|constructor].
Qed.

(** Every step a process can take keeps [Q], whatever its outcome. *)
Inductive keeps (Q : W → Prop) : proc W → Prop :=
  | keeps_done : keeps Q Done
  | keeps_crash : keeps Q Crash
  | keeps_op f : (∀ w, Q w → Q (f w).1) → (∀ w, keeps Q (f w).2) → keeps Q (Op f)
  | keeps_fork ps k : Forall (keeps Q) ps → keeps Q k → keeps Q (Fork ps k).

Lemma pstep_keeps Q p w p' w' : keeps Q p → pstep p w p' w' → Q w → Q w' ∧ keeps Q p'.
Proof.
  intros Hk Hs. induction Hs as [f w|ps k i p p' w w' Hi Hs IH|ps k w Hd]; intros Hq; inversion Hk; subst.
  - auto.
  - rewrite Forall_forall in *. destruct IH as [Hq' Hk']; [eauto using list_elem_of_lookup_2|done|].
    split; [done|]. constructor; [|done]. by apply Forall_insert; [apply Forall_forall|].
  - done.
Qed.

(** What all steps of a process and the environment keep holds at the end of every run. *)
Lemma runs_keeps F G Q p w w' :
  keeps Q p → touches G p → (∀ w1 w2, w_inv w1 → env F w1 w2 → Q w1 → Q w2) → runs F p w w' → w_inv w → Q w → Q w'.
Proof.
  intros Hk Ht He Hr. induction Hr as [w|p w w1 w2 Hw Hr IH|p p1 w w1 w2 Hs Hr IH]; intros Hi Hq; [done| |].
  - destruct (Hw Hi) as [Hi1 _]. apply IH; [done|done|done|by apply (He w w1)].
  - destruct (pstep_touch _ _ _ _ _ Ht Hs) as [Htw Ht1]. destruct (Htw Hi) as [Hi1 _].
    destruct (pstep_keeps _ _ _ _ _ Hk Hs Hq) as [Hq1 Hk1]. by apply IH.
Qed.
End runs.

(** ** The sequential schedule is a run *)

Definition psteps {W} (p : proc W) (w : W) (p' : proc W) (w' : W) : Prop :=
  rtc (λ a b, pstep a.1 a.2 b.1 b.2) (p, w) (p', w').

Lemma psteps_runs {W} `{wd : World W} (F : cell → Prop) p w w' : psteps p w Done w' → runs F p w w'.
Proof.
  unfold psteps. intros H. remember (p, w) as a eqn:Ea. remember (@Done W, w') as b eqn:Eb. revert p w Ea.
  induction H as [a|a c b Hs Hr IH]; intros p w ->; simplify_eq; [constructor|].
  destruct c as [p1 w1]. eapply runs_step; [exact Hs|]. by apply IH.
Qed.

Lemma psteps_child {W} (ps : list (proc W)) k i p w p' w' :
  psteps p w p' w' → ps !! i = Some p → psteps (Fork ps k) w (Fork (<[i := p']> ps) k) w'.
Proof.
  unfold psteps. intros H. remember (p, w) as a eqn:Ea. remember (p', w') as b eqn:Eb. revert ps p w Ea.
  induction H as [a|a c b Hs Hr IH]; intros ps p w -> Hi; simplify_eq.
  - rewrite list_insert_id by done. apply rtc_refl.
  - destruct c as [p1 w1]. apply (rtc_l _ _ (Fork (<[i := p1]> ps) k, w1)); [by apply (step_child _ _ _ p)|].
    assert (<[i := p']> ps = <[i := p']> (<[i := p1]> ps)) as -> by (by rewrite list_insert_insert_eq).
    apply (IH eq_refl _ p1); [done|]. apply list_lookup_insert_eq. by eapply lookup_lt_Some.
Qed.

Lemma run_all_psteps {W} (finished todo : list (proc W)) k w w' :
  Forall (λ p, ∀ w w', run_proc p w = Some w' → psteps p w Done w') todo →
  Forall (eq Done) finished → run_all todo w = Some w' →
  psteps (Fork (finished ++ todo) k) w k w'.
Proof.
  intros Ht. revert finished w. induction Ht as [|p todo Hp Ht IH]; intros finished w Hf Hr.
  - injection Hr as ->. rewrite app_nil_r. apply (rtc_l _ _ (k, w')); [by apply step_join|apply rtc_refl].
  - simpl in Hr. destruct (run_proc p w) as [w1|] eqn:E; [|done]. unfold psteps; etrans.
    + apply (psteps_child (finished ++ p :: todo) k (length finished) p w Done w1); [by apply Hp|].
      by apply list_lookup_middle.
    + rewrite insert_app_r_alt by lia. rewrite Nat.sub_diag. cbn [insert list_insert].
      replace (finished ++ Done :: todo) with ((finished ++ [Done]) ++ todo) by (by rewrite <- (assoc_L (++))).
      apply IH; [|done]. apply Forall_app. split; [done|]. by apply Forall_singleton.
Qed.

Lemma run_proc_psteps {W} (p : proc W) w w' : run_proc p w = Some w' → psteps p w Done w'.
Proof.
  revert w w'. induction p as [| |f IH|ps k IHps IHk] using proc_ind'; intros w w' Hr.
  - injection Hr as ->. apply rtc_refl.
  - done.
  - apply (rtc_l _ _ ((f w).2, (f w).1)); [apply step_op|]. by apply IH.
  - rewrite run_proc_Fork in Hr. destruct (run_all ps w) as [w1|] eqn:E; [|done]. unfold psteps; etrans.
    + by apply (run_all_psteps [] ps k w w1).
    + by apply IHk.
Qed.

(** A program that the sequential schedule completes has a complete run in any environment. *)
Lemma run_proc_runs {W} `{wd : World W} (F : cell → Prop) p w w' : run_proc p w = Some w' → runs F p w w'.
Proof. intros H. by apply psteps_runs, run_proc_psteps. Qed.
