(* ===== verification/Termination.v ===== *)
(** * Termination of goroutines that wait for tokens.

    The goroutines of a fork may be bounded by a weighted semaphore: the parent acquires a
    token before it starts the next one, each gives its token back when it ends, and at last
    the parent acquires all tokens. [bstep] are the steps that such semaphores allow: some of
    those of [Concurrency]. A process [ends] if whatever is scheduled, and whatever others do to
    the world between the steps, it reaches [Done] and is never stuck before: neither by a
    panic nor by waiting for a token. [safe_ends]: a process in which nothing panics ends if
    every semaphore has a token. *)

From S2P Require Import Prelude Concurrency.

Definition is_done {W} (p : proc W) : bool := match p with Done => true | _ => false end.

Lemma is_done_spec {W} (p : proc W) : is_done p = true ↔ p = Done.
Proof. by destruct p. Qed.

(** The goroutines that have not ended. *)
Definition unfinished {W} (ps : list (proc W)) : nat := length (filter (λ p, is_done p = false) ps).

(** Goroutine [i] has its token: those started before it and not ended have left it one.
    [None] is a fork without a semaphore. *)
Definition has_token {W} (limit : option nat) (i : nat) (ps : list (proc W)) : Prop :=
  match limit with Some n => (unfinished (take i ps) < n)%nat | None => True end.

(** The tokens of the forks, by their nesting; deeper ones have no semaphore. *)
Definition limits := list (option nat).
Definition top (L : limits) : option nat := default None (head L).

Inductive bstep {W} : limits → proc W → W → proc W → W → Prop :=
  | bstep_op L f w : bstep L (Op f) w (f w).2 (f w).1
  | bstep_child L ps k i p p' w w' :
      ps !! i = Some p → has_token (top L) i ps → bstep (tail L) p w p' w' →
      bstep L (Fork ps k) w (Fork (<[i := p']> ps) k) w'
  | bstep_join L ps k w : Forall (eq Done) ps → bstep L (Fork ps k) w k w.

(** What the semaphores allow is an interleaving. *)
Lemma bstep_pstep {W} L (p : proc W) w p' w' : bstep L p w p' w' → pstep p w p' w'.
Proof. induction 1; econstructor; eauto. Qed.

(** Every execution is finite and its end is [Done]. *)
Inductive ends {W} (L : limits) : proc W → Prop :=
  | ends_done : ends L Done
  | ends_step p : (∀ w, ∃ p' w', bstep L p w p' w') → (∀ w p' w', bstep L p w p' w' → ends L p') → ends L p.

(** Nothing panics, whatever the world is at each step. *)
Inductive safe {W} : proc W → Prop :=
  | safe_done : safe Done
  | safe_op f : (∀ w, safe (f w).2) → safe (Op f)
  | safe_fork ps k : Forall safe ps → safe k → safe (Fork ps k).

Section termination.
Context {W : Type}.
Implicit Types (p q k : proc W) (ps qs : list (proc W)) (L : limits).

Definition next (L : limits) (q p : proc W) : Prop := ∃ w w', bstep L p w q w'.

(** No execution goes on forever. *)
Lemma ends_acc L p : ends L p → Acc (next L) p.
Proof.
  induction 1 as [|p _ _ IH]; constructor; intros q (w & w' & Hs); [inversion Hs|eauto].
Qed.

Lemma ends_inv L p w : ends L p → p = Done ∨ ∃ p' w', bstep L p w p' w'.
Proof. intros [|p' Hp _]; [by left|right; apply Hp]. Qed.

Lemma ends_next L p w p' w' : ends L p → bstep L p w p' w' → ends L p'.
Proof. intros [|q _ Hq] Hs; [inversion Hs|eauto]. Qed.

(** A step of one element of a list. *)
Definition next_one (L : limits) (qs ps : list (proc W)) : Prop :=
  ∃ i p q, ps !! i = Some p ∧ next L q p ∧ qs = <[i := q]> ps.

Lemma next_one_acc L ps : Forall (Acc (next L)) ps → Acc (next_one L) ps.
Proof.
  induction 1 as [|p ps Hp _ IH]; [constructor; intros qs (i & p & q & Hi & _); by rewrite lookup_nil in Hi|].
  revert ps IH. induction Hp as [p _ IHp]. intros ps Hps. induction Hps as [ps Hps IHps].
  constructor. intros qs ([|i] & p' & q & Hi & Hn & ->).
  - injection Hi as <-. cbn. apply IHp; [done|by constructor].
  - cbn in *. apply IHps. by exists i, p', q.
Qed.

(** The first goroutine that has not ended is not kept waiting. *)
Lemma first_unfinished ps :
  Forall (eq Done) ps ∨ ∃ i p, ps !! i = Some p ∧ p ≠ Done ∧ unfinished (take i ps) = 0%nat.
Proof.
  induction ps as [|p ps IH]; [by left|]. destruct (is_done p) eqn:E.
  - apply is_done_spec in E as ->. destruct IH as [H|(i & q & Hi & Hq & Hu)]; [left; by constructor|].
    right. exists (S i), q. done.
  - right. exists 0%nat, p. split; [done|]. split; [by intros ->|done].
Qed.

Definition positive_limit (l : option nat) : Prop := match l with Some n => (0 < n)%nat | None => True end.

Lemma ends_fork L ps k :
  positive_limit (top L) → Forall (ends (tail L)) ps → ends L k → ends L (Fork ps k).
Proof.
  intros Hl Hps Hk. assert (Acc (next_one (tail L)) ps) as Ha.
  { apply next_one_acc. eapply Forall_impl; [exact Hps|]. apply ends_acc. }
  induction Ha as [ps _ IH]. apply ends_step.
  - intros w. destruct (first_unfinished ps) as [Hd|(i & p & Hi & Hp & Hu)]; [eauto using bstep_join|].
    rewrite Forall_lookup in Hps. destruct (ends_inv _ _ w (Hps _ _ Hi)) as [->|(p' & w' & Hs)]; [done|].
    eexists _, w'. eapply bstep_child; [done| |done]. unfold has_token. destruct (top L); [by rewrite Hu|done].
  - intros w p' w' Hs. inversion Hs as [|? ? ? i p q ? ? Hi _ Hst|]; subst; [|done].
    assert (ends (tail L) p) as Hp by (rewrite Forall_lookup in Hps; eauto).
    apply IH; [exists i, p, q; unfold next; eauto 6|]. apply Forall_insert; [done|]. by eapply ends_next.
Qed.

(** A process in which nothing panics ends, if its semaphores have tokens. *)
Lemma safe_ends L p : Forall positive_limit L → safe p → ends L p.
Proof.
  intros HL Hp. revert L HL. induction p as [| |f IH|ps k IHps IHk] using proc_ind'; intros L HL; inversion Hp as [|f' Hf|ps' k' Hps Hk]; subst.
  - constructor.
  - apply ends_step; [intros w; eexists _, _; constructor|]. intros w p' w' Hs. inversion Hs; subst. by apply IH.
  - apply ends_fork; [by destruct HL| |by apply IHk]. rewrite Forall_forall in *. intros p Hin.
    apply IHps; [done|by apply Hps|]. destruct HL; [constructor|done].
Qed.

(** Without a token nobody ends who has to start a goroutine. *)
Lemma no_token_hangs L p ps k : p ≠ Done → top L = Some 0%nat → ∀ w, ¬ ∃ q w', bstep L (Fork (p :: ps) k) w q w'.
Proof.
  intros Hp Ht w (q & w' & Hs). inversion Hs as [|? ? ? i r r' ? ? Hi Htok|? ? ? ? Hd]; subst.
  - unfold has_token in Htok. rewrite Ht in Htok. lia.
  - apply Forall_cons in Hd as [Hd _]. by symmetry in Hd.
Qed.

(** A fork never ends when one of its goroutines is stuck for good. *)
Lemma stuck_child_hangs L ps k i p (w : W) :
  ps !! i = Some p → p ≠ Done → (∀ w, ¬ ∃ q w', bstep (tail L) p w q w') → ¬ ends L (Fork ps k).
Proof.
  intros Hi Hp Hst He. remember (Fork ps k) as q eqn:Eq. revert ps Eq Hi.
  induction He as [|q Hq _ IH]; intros ps Eq Hi; [done|]. subst q. destruct (Hq w) as (q' & w' & Hs).
  inversion Hs as [|? ? ? j r r' ? ? Hj _ Hr|? ? ? ? Hd]; subst.
  - destruct (decide (i = j)) as [->|Hne]; [simplify_eq; by eapply Hst; eauto|].
    apply (IH w _ w' Hs (<[j := r']> ps) eq_refl). by rewrite list_lookup_insert_ne.
  - rewrite Forall_lookup in Hd. by specialize (Hd _ _ Hi).
Qed.

(** Nothing panics: the sequential schedule ends too. *)
Lemma safe_run_proc p : safe p → ∀ w, is_Some (run_proc p w).
Proof.
  induction p as [| |f IH|ps k IHps IHk] using proc_ind'; intros Hp w; inversion Hp as [|f' Hf|ps' k' Hps Hk]; subst.
  - by eexists.
  - by apply IH.
  - rewrite run_proc_Fork. assert (∀ w, is_Some (run_all ps w)) as Hall.
    { clear Hp IHk Hk. induction ps as [|p ps IH]; intros v; [by eexists|]. apply Forall_cons in Hps as [Hp Hps], IHps as [IHp IHps].
      cbn. destruct (IHp Hp v) as [v' ->]. by apply IH. }
    destruct (Hall w) as [w' ->]. by apply IHk.
Qed.

(** ** Safety of the program forms *)

Lemma safe_act {A} (m : M W A) ok failed :
  (∀ w, (m w).1 ≠ Panic) → (∀ a, safe (ok a)) → (∀ e, safe (failed e)) → safe (act m ok failed).
Proof.
  intros Hm Ho Hf. constructor. intros w. specialize (Hm w). destruct (m w) as [[a|e|] w']; cbn; auto. done.
Qed.
End termination.
