(* ===== verification/Stats.v ===== *)
(** * The statistics of a sync cycle (pkg/stats/stats.go).

    The package keeps three maps and a mutex, all nil until [Init]. A read of a nil map gives
    the zero value, a write to one panics, and so does locking the nil mutex. Times and
    durations are nanoseconds. *)

From S2P Require Import Prelude.

Module StatsPkg.

Record minMaxTime := mkMinMaxTime { min : Z; max : Z }.

(** The package's variables; [mutex] tells whether the pointer is set. *)
Record stats := mkStats {
  globalStats : option (gmap string Z);
  minMaxTimeStats : option (gmap string minMaxTime);
  countStats : option (gmap string Z);
  mutex : bool
}.

Definition noStats : stats := mkStats None None None false.

Definition Total : string := "Total".
Definition System : string := "System".
Definition CacheSync : string := "CacheSync".
Definition CurrentState : string := "Gather current state".
Definition PodList : string := "Pod listing".
Definition AzureIdentityBindingList : string := "AzureIdentityBinding listing".
Definition AzureIdentityList : string := "AzureIdentity listing".
Definition AzurePodIdentityExceptionList : string := "AzurePodIdentityException listing".
Definition AzureAssignedIdentityList : string := "AzureAssignedIdentity listing".
Definition CloudGet : string := "Cloud provider GET".
Definition CloudPatch : string := "Cloud provider PATCH".
Definition TotalPatchCalls : string := "Number of cloud provider PATCH".
Definition TotalGetCalls : string := "Number of cloud provider GET".
Definition TotalAzureAssignedIdentitiesCreated : string := "Number of AzureAssignedIdentities created in this sync cycle".
Definition TotalAzureAssignedIdentitiesUpdated : string := "Number of AzureAssignedIdentities updated in this sync cycle".
Definition TotalAzureAssignedIdentitiesDeleted : string := "Number of AzureAssignedIdentities deleted in this sync cycle".
Definition FindAzureAssignedIdentitiesToDelete : string := "Find AzureAssignedIdentities to delete".
Definition FindAzureAssignedIdentitiesToCreate : string := "Find AzureAssignedIdentities to create".
Definition DeleteAzureAssignedIdentity : string := "AzureAssignedIdentity deletion".
Definition CreateAzureAssignedIdentity : string := "AzureAssignedIdentity creation".
Definition UpdateAzureAssignedIdentity : string := "AzureAssignedIdentity update".
Definition TotalAzureAssignedIdentitiesCreateOrUpdate : string := "Total time to assign or update AzureAssignedIdentities".

Definition Init (s : stats) : stats := mkStats (Some ∅) (Some ∅) (Some ∅) true.

(** [mutex.Lock()]; the deferred unlock leaves nothing behind. *)
Definition Lock : M stats unit := λ s, (if mutex s then Ret tt else Panic, s).

Definition put_global (key : string) (val : Z) (m : gmap string Z) (s : stats) : stats :=
  mkStats (Some (<[key := val]> m)) (minMaxTimeStats s) (countStats s) (mutex s).

Definition Put (key : string) (val : Z) : M stats unit := λ s,
  match globalStats s with
  | Some m => (Lock ≫= λ _, modify (put_global key val m)) s
  | None => (Ret tt, s)
  end.

Definition Aggregate (key : string) (val : Z) : M stats unit := λ s,
  match globalStats s with
  | Some m => (Lock ≫= λ _, modify (put_global key (default 0 (m !! key) + val)%Z m)) s
  | None => (Ret tt, s)
  end.

(** The earliest begin and the latest end. *)
Definition widen (old : option minMaxTime) (begin end_ : Z) : minMaxTime :=
  let '(mn, mx) := match old with None => (begin, end_) | Some t => (min t, max t) end in
  mkMinMaxTime (if (begin <? mn)%Z then begin else mn) (if (mx <? end_)%Z then end_ else mx).

Definition AggregateConcurrent (key : string) (begin end_ : Z) : M stats unit := λ s,
  match globalStats s, minMaxTimeStats s with
  | Some m, Some mm =>
      (Lock ≫= λ _, modify (λ s,
         let t := widen (mm !! key) begin end_ in
         mkStats (Some (<[key := (max t - min t)%Z]> m)) (Some (<[key := t]> mm)) (countStats s) (mutex s))) s
  | _, _ => (Ret tt, s)
  end.

(** A line of the log: the name of the statistic and its value. *)
Inductive line := Duration (key : string) (d : Z) | Count (key : string) (n : Z) | Text (s : string).

Definition Print (key : string) : M stats line := λ s,
  (Lock ≫= λ _, mret (Duration key (default 0 (globalStats s ≫= (.!! key)))%Z)) s.

Definition PrintCount (key : string) : M stats line := λ s,
  (Lock ≫= λ _, mret (Count key (default 0 (countStats s ≫= (.!! key)))%Z)) s.

Definition add_count (key : string) (count : Z) : M stats unit := λ s,
  match countStats s with
  | Some m => (Ret tt, mkStats (globalStats s) (minMaxTimeStats s) (Some (<[key := (default 0 (m !! key) + count)%Z]> m)) (mutex s))
  | None => (Panic, s)
  end.

(** Unlike the others it does not test whether [Init] was called. *)
Definition Increment (key : string) (count : Z) : M stats unit := Lock ≫= λ _, add_count key count.

Definition sync_report : list (string + string) :=
  (inl <$> [PodList; AzureIdentityList; AzureIdentityBindingList; AzureAssignedIdentityList; System; CacheSync;
            CloudGet; CloudPatch; CreateAzureAssignedIdentity; UpdateAzureAssignedIdentity; DeleteAzureAssignedIdentity]) ++
  (inr <$> [TotalPatchCalls; TotalGetCalls; TotalAzureAssignedIdentitiesCreated; TotalAzureAssignedIdentitiesUpdated;
            TotalAzureAssignedIdentitiesDeleted]) ++
  (inl <$> [FindAzureAssignedIdentitiesToCreate; FindAzureAssignedIdentitiesToDelete;
            TotalAzureAssignedIdentitiesCreateOrUpdate; Total]).

Definition PrintSync : M stats (list line) := λ s,
  match globalStats s with
  | None => (Ret [Text "** stats collected **"; Text "*********************"], s)
  | Some _ =>
      (fold_each (λ (acc : list line) e,
         l ← match e with inl k => Print k | inr k => PrintCount k end; mret (acc ++ [l]))
         [Text "** stats collected **"] sync_report ≫= λ l, mret (l ++ [Text "*********************"])) s
  end.

(** ** Properties *)

(** The package is initialised: every pointer is set. *)
Definition initialised (s : stats) : Prop :=
  mutex s = true ∧ is_Some (globalStats s) ∧ is_Some (minMaxTimeStats s) ∧ is_Some (countStats s).

Lemma Init_initialised s : initialised (Init s).
Proof. repeat split; by eexists. Qed.

Lemma Lock_initialised s : initialised s → Lock s = (Ret tt, s).
Proof. intros (Hm & _). unfold Lock. by rewrite Hm. Qed.

(** What a goroutine can do to the statistics. *)
Inductive op :=
  | OPut (key : string) (val : Z) | OAggregate (key : string) (val : Z)
  | OConcurrent (key : string) (begin end_ : Z) | OIncrement (key : string) (n : Z).

Definition do_op (o : op) : M stats unit :=
  match o with
  | OPut k v => Put k v
  | OAggregate k v => Aggregate k v
  | OConcurrent k b e => AggregateConcurrent k b e
  | OIncrement k n => Increment k n
  end.

Lemma do_op_run o s : initialised s → ∃ s', do_op o s = (Ret tt, s') ∧ initialised s'.
Proof.
  intros (Hm & [g Hg] & [mm Hmm] & [c Hc]).
  destruct o; simpl; unfold Put, Aggregate, AggregateConcurrent, Increment, add_count, Lock, mbind, M_bind, modify;
    rewrite ?Hg, ?Hmm, Hm, ?Hc; (eexists; split; [reflexivity|]; repeat split; simpl; eauto).
Qed.

(** The span of a statistic and the number of a counter, [None] and 0 before the first. *)
Definition span (s : stats) (key : string) : option minMaxTime := minMaxTimeStats s ≫= (.!! key).
Definition counter (s : stats) (key : string) : Z := default 0%Z (countStats s ≫= (.!! key)).
Definition duration (s : stats) (key : string) : Z := default 0%Z (globalStats s ≫= (.!! key)).

Definition span_of (key : string) (old : option minMaxTime) (o : op) : option minMaxTime :=
  match o with OConcurrent k b e => if decide (k = key) then Some (widen old b e) else old | _ => old end.
Definition count_of (key : string) (o : op) : Z :=
  match o with OIncrement k n => if decide (k = key) then n else 0 | _ => 0 end.

(** The length of a span. *)
Definition width (o : option minMaxTime) : Z := match o with Some t => (max t - min t)%Z | None => 0%Z end.

(** The duration of [key] after an operation, given the one before and the span after it. *)
Definition duration_of (key : string) (old : Z) (new : option minMaxTime) (o : op) : Z :=
  match o with
  | OPut k v => if decide (k = key) then v else old
  | OAggregate k v => if decide (k = key) then (old + v)%Z else old
  | OConcurrent k _ _ => if decide (k = key) then width new else old
  | OIncrement _ _ => old
  end.

Lemma do_op_duration o s key : initialised s →
  duration (do_op o s).2 key = duration_of key (duration s key) (span (do_op o s).2 key) o.
Proof.
  intros (Hm & [g Hg] & [mm Hmm] & [c Hc]). unfold duration, span.
  destruct o as [k v|k v|k b e|k n]; simpl; unfold Put, Aggregate, AggregateConcurrent, Increment, add_count, Lock, mbind, M_bind, modify;
    rewrite ?Hg, ?Hmm, Hm, ?Hc; simpl; rewrite ?Hg; simpl; try done;
    (destruct (decide (k = key)) as [->|]; [by rewrite !lookup_insert_eq|by rewrite lookup_insert_ne]).
Qed.

Lemma do_op_view o s key : initialised s →
  span (do_op o s).2 key = span_of key (span s key) o ∧
  counter (do_op o s).2 key = (counter s key + count_of key o)%Z.
Proof.
  intros (Hm & [g Hg] & [mm Hmm] & [c Hc]). unfold span, counter.
  destruct o as [k v|k v|k b e|k n]; simpl; unfold Put, Aggregate, AggregateConcurrent, Increment, add_count, Lock, mbind, M_bind, modify;
    rewrite ?Hg, ?Hmm, Hm, ?Hc; simpl; rewrite ?Hmm, ?Hc; simpl; (split; [|try lia]); try done.
  - destruct (decide (k = key)) as [->|]; [by rewrite lookup_insert_eq|by rewrite lookup_insert_ne].
  - destruct (decide (k = key)) as [->|]; [rewrite lookup_insert_eq; simpl; lia|rewrite lookup_insert_ne by done; lia].
Qed.

(** The spans of the concurrent measurements of [key]. *)
Definition spans_of (key : string) (l : list op) : list (Z * Z) :=
  omap (λ o, match o with OConcurrent k b e => if decide (k = key) then Some (b, e) else None | _ => None end) l.

(** [t] is the smallest interval that holds all of [l]. *)
Record hull (t : minMaxTime) (l : list (Z * Z)) : Prop := {
  hull_min : ∀ b e, (b, e) ∈ l → (min t <= b)%Z;
  hull_max : ∀ b e, (b, e) ∈ l → (e <= max t)%Z;
  hull_min_in : ∃ e, (min t, e) ∈ l;
  hull_max_in : ∃ b, (b, max t) ∈ l
}.

Definition hull_opt (o : option minMaxTime) (l : list (Z * Z)) : Prop :=
  match o with None => l = [] | Some t => hull t l end.

Lemma widen_Some t b e : widen (Some t) b e = mkMinMaxTime (Z.min b (min t)) (Z.max (max t) e).
Proof. unfold widen. f_equal; case_match; lia. Qed.
Lemma widen_None b e : widen None b e = mkMinMaxTime b e.
Proof. unfold widen. by rewrite !Z.ltb_irrefl. Qed.

Lemma widen_hull o l b e : hull_opt o l → hull (widen o b e) (l ++ [(b, e)]).
Proof.
  destruct o as [t|]; cbn [hull_opt].
  - intros [H1 H2 [e0 H3] [b0 H4]]. rewrite widen_Some. split; cbn [min max].
    + intros b' e' [H%H1|H%list_elem_of_singleton]%elem_of_app; [lia|]. simplify_eq. lia.
    + intros b' e' [H%H2|H%list_elem_of_singleton]%elem_of_app; [lia|]. simplify_eq. lia.
    + destruct (Z.min_spec b (min t)) as [[_ ->]|[_ ->]]; [exists e|exists e0]; apply elem_of_app; [right; left|by left].
    + destruct (Z.max_spec (max t) e) as [[_ ->]|[_ ->]]; [exists b|exists b0]; apply elem_of_app; [right; left|by left].
  - intros ->. rewrite widen_None. split; cbn [min max].
    + intros b' e' H%list_elem_of_singleton. simplify_eq. lia.
    + intros b' e' H%list_elem_of_singleton. simplify_eq. lia.
    + exists e. left.
    + exists b. left.
Qed.

Lemma for_each_ops l s : initialised s → ∃ s', for_each do_op l s = (Ret tt, s') ∧ initialised s'.
Proof.
  revert s. induction l as [|o l IH]; intros s Hs; [by eexists|]. simpl. unfold mbind, M_bind.
  destruct (do_op_run o s Hs) as (s1 & -> & H1). by apply IH.
Qed.

Lemma ops_view l s key seen : initialised s → hull_opt (span s key) seen →
  let s' := (for_each do_op l s).2 in
  hull_opt (span s' key) (seen ++ spans_of key l) ∧
  counter s' key = (counter s key + foldr Z.add 0 (count_of key <$> l))%Z.
Proof.
  revert s seen. induction l as [|o l IH]; intros s seen Hs Hh; [simpl; rewrite app_nil_r; split; [done|lia]|].
  destruct (do_op_view o s key Hs) as [Hsp Hc]. destruct (do_op_run o s Hs) as (s1 & E & H1).
  cbn [for_each]. unfold mbind, M_bind. rewrite E in *. cbn [snd] in Hsp, Hc.
  assert (∃ seen1, hull_opt (span s1 key) seen1 ∧ seen1 ++ spans_of key l = seen ++ spans_of key (o :: l)) as (seen1 & Hh1 & Eseen).
  { rewrite Hsp. unfold span_of, spans_of. destruct o as [k v|k v|k b e|k n]; simpl; try (by exists seen).
    destruct (decide (k = key)); [|by exists seen]. exists (seen ++ [(b, e)]). split; [by apply widen_hull|]. by rewrite <- (assoc_L (++)). }
  destruct (IH s1 seen1 H1 Hh1) as [Hh2 Hc2]. cbn zeta in *. rewrite Eseen in Hh2. split; [exact Hh2|].
  rewrite Hc2, Hc, fmap_cons. simpl. lia.
Qed.

Lemma sum_perm (l1 l2 : list Z) : l1 ≡ₚ l2 → foldr Z.add 0%Z l1 = foldr Z.add 0%Z l2.
Proof. induction 1; simpl; lia. Qed.

(** Statistics that are only measured concurrently, and only added up. *)
Definition measured (key : string) (o : op) : Prop :=
  match o with OPut k _ | OAggregate k _ => k ≠ key | _ => True end.
Definition added (key : string) (o : op) : Prop :=
  match o with OPut k _ | OConcurrent k _ _ => k ≠ key | _ => True end.

Definition value_of (key : string) (o : op) : Z :=
  match o with OAggregate k v => if decide (k = key) then v else 0 | _ => 0 end.

Lemma ops_measured l s key : initialised s → Forall (measured key) l →
  duration s key = width (span s key) →
  duration (for_each do_op l s).2 key = width (span (for_each do_op l s).2 key).
Proof.
  intros Hs Hl. revert s Hs. induction Hl as [|o l Ho _ IH]; intros s Hs Hd; [done|].
  pose proof (do_op_duration o s key Hs) as H1. pose proof (proj1 (do_op_view o s key Hs)) as H2.
  destruct (do_op_run o s Hs) as (s1 & E & Hs1). cbn [for_each]. unfold mbind, M_bind. rewrite E in *. cbn [snd] in *.
  apply IH; [done|]. rewrite H1. destruct o as [k v|k v|k b e|k n]; cbn in *.
  - by rewrite decide_False, H2.
  - by rewrite decide_False, H2.
  - destruct (decide (k = key)); [done|by rewrite H2].
  - by rewrite H2.
Qed.

Lemma ops_added l s key : initialised s → Forall (added key) l →
  duration (for_each do_op l s).2 key = (duration s key + foldr Z.add 0 (value_of key <$> l))%Z.
Proof.
  intros Hs Hl. revert s Hs. induction Hl as [|o l Ho _ IH]; intros s Hs; [simpl; lia|].
  pose proof (do_op_duration o s key Hs) as H1.
  destruct (do_op_run o s Hs) as (s1 & E & Hs1). cbn [for_each]. unfold mbind, M_bind. rewrite E in *. cbn [snd] in *.
  rewrite (IH s1 Hs1), H1, fmap_cons. cbn [foldr]. destruct o as [k v|k v|k b e|k n]; cbn in *;
    rewrite ?(decide_False (P := k = key)) by done; try lia. case_decide; lia.
Qed.

Lemma initialised_prints s key : initialised s →
  (Print key s).1 = Ret (Duration key (duration s key)) ∧ (PrintCount key s).1 = Ret (Count key (counter s key)).
Proof. intros Hs. unfold Print, PrintCount, mbind, M_bind. by rewrite !Lock_initialised. Qed.

(** C27: what a cycle prints does not depend on the order in which its goroutines record
    it. From an initialised package no operation panics. Afterwards the line of a counter shows
    the sum of its increments; the line of a statistic that is only measured concurrently (the
    calls of the cloud, the writes of objects) shows the length of the smallest interval that holds all its
    measurements, and zero without any; the line of one that is only added up shows the sum.
    For a statistic that is put, the last value counts. *)
Theorem statistics_exact (l1 l2 : list op) (s : stats) (key : string) :
  l1 ≡ₚ l2 →
  let s1 := for_each do_op l1 (Init s) in
  s1.1 = Ret tt ∧
  (PrintCount key s1.2).1 = Ret (Count key (foldr Z.add 0%Z (count_of key <$> l2))) ∧
  (Forall (measured key) l2 → ∃ d, (Print key s1.2).1 = Ret (Duration key d) ∧
     ((spans_of key l2 = [] ∧ d = 0%Z) ∨ ∃ t, hull t (spans_of key l2) ∧ d = (max t - min t)%Z)) ∧
  (Forall (added key) l2 → (Print key s1.2).1 = Ret (Duration key (foldr Z.add 0%Z (value_of key <$> l2)))).
Proof.
  intros Hp s1. pose proof (Init_initialised s) as Hi. destruct (for_each_ops l1 _ Hi) as (s' & E & Hs').
  assert (hull_opt (span (Init s) key) []) as H0 by (unfold span, Init; simpl; by rewrite lookup_empty).
  destruct (ops_view l1 (Init s) key [] Hi H0) as [Hh Hc].
  assert (initialised s1.2) as H1 by (unfold s1; by rewrite E). destruct (initialised_prints _ key H1) as [Hpr Hpc].
  cbn zeta in *. fold s1 in Hh, Hc. rewrite Hpr, Hpc. split; [unfold s1; by rewrite E|]. split; [|split].
  - do 2 f_equal. rewrite Hc. unfold counter at 1, Init; simpl. rewrite lookup_empty. simpl.
    apply sum_perm. by rewrite Hp.
  - intros Hm. rewrite <- Hp in Hm. eexists. split; [done|].
    assert (spans_of key l1 ≡ₚ spans_of key l2) as Hsp by (unfold spans_of; by rewrite Hp).
    pose proof (ops_measured l1 (Init s) key Hi Hm) as Hd. fold s1 in Hd.
    rewrite Hd by (unfold duration, span, Init; simpl; by rewrite !lookup_empty).
    destruct (span s1.2 key) as [t|]; simpl in *; [right|left; rewrite Hh in Hsp; by apply Permutation_nil_l in Hsp].
    exists t. split; [|done]. destruct Hh as [Ha Hb [e Hx] [b Hy]]. split; setoid_rewrite <- Hsp; eauto.
  - intros Ha. rewrite <- Hp in Ha. do 2 f_equal. unfold s1. rewrite ops_added by done.
    unfold duration, Init; simpl. rewrite lookup_empty. simpl. apply sum_perm. by rewrite Hp.
Qed.

(** Two overlapping calls of the cloud and two increments, recorded in the other order. *)
Definition ops1 : list op := [OIncrement "n" 2; OConcurrent "s" 3 8; OIncrement "n" 1; OConcurrent "s" 1 5].

Lemma statistics_exact_witness :
  (PrintCount "n" (for_each do_op ops1 (Init noStats)).2).1 = Ret (Count "n" 3) ∧
  ∃ t, hull t [(1, 5); (3, 8)]%Z ∧ (Print "s" (for_each do_op ops1 (Init noStats)).2).1 = Ret (Duration "s" (max t - min t)).
Proof.
  pose proof (statistics_exact ops1 (rev ops1) noStats) as H. assert (ops1 ≡ₚ rev ops1) as Hp by apply Permutation_rev.
  split; [exact (proj1 (proj2 (H "n" Hp)))|].
  destruct (proj1 (proj2 (proj2 (H "s" Hp)))) as (d & Hd & [[E _]|(t & Ht & ->)]).
  - repeat constructor.
  - discriminate E.
  - exists t. split; [exact Ht|exact Hd].
Defined.

(** Before the first [Init] the guarded operations do nothing and [Increment] panics: the
    mutex it locks is nil. MIC's reconciliation of identity assignments reads machines,
    which increments a counter, and may run before the first sync cycle initialises the
    package. *)
Lemma Increment_before_Init key n v b e :
  (Increment key n noStats).1 = Panic ∧ Put key v noStats = (Ret tt, noStats) ∧
  Aggregate key v noStats = (Ret tt, noStats) ∧ AggregateConcurrent key b e noStats = (Ret tt, noStats).
Proof. done. Qed.
End StatsPkg.
