(* ===== verification/Retry.v ===== *)
(** * pkg/retry/retry.go: running a function again on retriable errors.

    The function and the decision to retry act on a state of the caller ([St]); [sleep] is
    [time.Sleep]. *)

From S2P Require Import Prelude GoStrings.

Record retry_client := mkRetryClient {
  retriableErrors : gmap string bool;
  maxRetry : Z;
  retryInterval : Z
}.

Definition NewRetryClient (maxRetry retryInterval : Z) : retry_client :=
  mkRetryClient ∅ maxRetry retryInterval.

Definition RegisterRetriableErrors (c : retry_client) (rerrs : list string) : retry_client :=
  mkRetryClient (foldl (λ m rerr, <[rerr := true]> m) (retriableErrors c) rerrs) (maxRetry c) (retryInterval c).

Definition UnregisterRetriableErrors (c : retry_client) (rerrs : list string) : retry_client :=
  mkRetryClient (foldl (λ m rerr, delete rerr m) (retriableErrors c) rerrs) (maxRetry c) (retryInterval c).

Section retry.
Context `{R : GoRange}.

(** [isRetriable] of a non-nil error. *)
Definition isRetriable (c : retry_client) (err : error) : bool :=
  existsb (λ rerr, Contains (Error err) rerr) (go_range 94 (retriableErrors c)).*1.

Context {St : Type} (sleep : Z → St → St).

(** Lines 54-67: [n] is the number of iterations left, [rerr] the last error. *)
Fixpoint retry_loop (c : retry_client) (f : M St unit) (shouldRetry : error → M St bool)
    (n : nat) (rerr : error) : M St unit :=
  match n with
  | O => mret tt
  | S n' =>
      if negb (isRetriable c rerr) then mret tt
      else
        again ← shouldRetry rerr;
        if (again : bool) then
          _ ← modify (sleep (retryInterval c));
          catch f (λ rerr', retry_loop c f shouldRetry n' rerr')
        else mret tt
  end.

(** [Do]: the error of the first run is returned, whatever the retries did. *)
Definition Do (c : retry_client) (f : M St unit) (shouldRetry : error → M St bool) : M St unit := λ s,
  match f s with
  | (Ret _, s') => (Ret tt, s')
  | (Panic, s') => (Panic, s')
  | (Fail err, s') =>
      match retry_loop c f shouldRetry (Z.to_nat (maxRetry c)) err s' with
      | (Panic, s'') => (Panic, s'')
      | (_, s'') => (Fail err, s'')
      end
  end.
End retry.

(** ** Registration *)

Lemma RegisterRetriableErrors_lookup c rerrs e :
  retriableErrors (RegisterRetriableErrors c rerrs) !! e =
    if decide (e ∈ rerrs) then Some true else retriableErrors c !! e.
Proof.
  unfold RegisterRetriableErrors. simpl. generalize (retriableErrors c). induction rerrs as [|r l IH]; intros m.
  { by rewrite decide_False by set_solver. }
  cbn [foldl]. rewrite IH. destruct (decide (e = r)) as [->|Hne].
  - rewrite lookup_insert_eq. rewrite (decide_True (P := r ∈ r :: l)) by set_solver. by case_decide.
  - rewrite lookup_insert_ne by done. destruct (decide (e ∈ l)), (decide (e ∈ r :: l)); set_solver.
Qed.

Lemma UnregisterRetriableErrors_lookup c rerrs e :
  retriableErrors (UnregisterRetriableErrors c rerrs) !! e =
    if decide (e ∈ rerrs) then None else retriableErrors c !! e.
Proof.
  unfold UnregisterRetriableErrors. simpl. generalize (retriableErrors c). induction rerrs as [|r l IH]; intros m.
  { by rewrite decide_False by set_solver. }
  cbn [foldl]. rewrite IH. destruct (decide (e = r)) as [->|Hne].
  - rewrite lookup_delete_eq. rewrite (decide_True (P := r ∈ r :: l)) by set_solver. by case_decide.
  - rewrite lookup_delete_ne by done. destruct (decide (e ∈ l)), (decide (e ∈ r :: l)); set_solver.
Qed.

Section retry_theory.
Context `{R : GoRange} {St : Type} (sleep : Z → St → St).
Implicit Types (f : M St unit) (sr : error → M St bool).

Lemma isRetriable_spec c err :
  isRetriable c err = true ↔ ∃ rerr, is_Some (retriableErrors c !! rerr) ∧ Contains (Error err) rerr = true.
Proof.
  unfold isRetriable. rewrite existsb_exists. split.
  - intros (rerr & Hin%list_elem_of_In & H). apply list_elem_of_fmap in Hin as ([k v] & -> & Hk%elem_of_go_range).
    exists k. split; [by exists v|done].
  - intros (rerr & [v Hv] & H). exists rerr. split; [|done]. apply list_elem_of_In, list_elem_of_fmap.
    exists (rerr, v). by rewrite elem_of_go_range.
Qed.

(** A retry of what does not panic does not panic. *)
Lemma Do_total c f sr s :
  (∀ s, (f s).1 ≠ Panic) → (∀ e s, (sr e s).1 ≠ Panic) → (Do sleep c f sr s).1 ≠ Panic.
Proof.
  intros Hf Hsr. unfold Do. specialize (Hf s) as Hfs. destruct (f s) as [[[]|err|] s1]; [done| |done].
  assert (∀ n e s, (retry_loop sleep c f sr n e s).1 ≠ Panic) as Hloop.
  { intros n. induction n as [|n IH]; intros e s'; simpl; [done|].
    destruct (negb _); [done|]. unfold mbind, M_bind, modify, catch. specialize (Hsr e s').
    destruct (sr e s') as [[[]|e'|] s2]; simpl in *; try done.
    specialize (Hf (sleep (retryInterval c) s2)).
    destruct (f (sleep (retryInterval c) s2)) as [[[]|e'|] s3]; simpl in *; auto. }
  specialize (Hloop (Z.to_nat (maxRetry c)) err s1). by destruct (retry_loop _ _ _ _ _ _ _) as [[[]|e'|] s2].
Qed.

(** A property of the state that the function, the retry decision and sleeping keep is kept
    by the whole retry. *)
Lemma Do_invariant (I : St → Prop) c f sr s :
  (∀ s, I s → I (f s).2) → (∀ e s, I s → I (sr e s).2) → (∀ z s, I s → I (sleep z s)) →
  I s → I (Do sleep c f sr s).2.
Proof.
  intros Hf Hsr Hsl Hs. unfold Do. specialize (Hf s Hs) as Hfs.
  destruct (f s) as [[[]|err|] s1]; simpl in *; [done| |done].
  assert (∀ n e s, I s → I (retry_loop sleep c f sr n e s).2) as Hloop.
  { intros n. induction n as [|n IH]; intros e s' Hs'; simpl; [done|].
    destruct (negb _); [done|]. unfold mbind, M_bind, modify, catch. specialize (Hsr e s' Hs').
    destruct (sr e s') as [[[]|e'|] s2]; simpl in *; try done.
    pose proof (Hf (sleep (retryInterval c) s2) (Hsl _ _ Hsr)) as Hf2.
    destruct (f (sleep (retryInterval c) s2)) as [[[]|e'|] s3]; simpl in *; auto. }
  specialize (Hloop (Z.to_nat (maxRetry c)) err s1 Hfs).
  by destruct (retry_loop _ _ _ _ _ _ _) as [[[]|e'|] s2].
Qed.
End retry_theory.

(** ** Counting the runs of the function *)

(** [f] with a counter of its runs next to the state. *)
Definition counted {St} (f : M St unit) : M (St * nat) unit := λ '(s, n),
  let '(r, s') := f s in (r, (s', S n)).
Definition uncounted {St A} (m : M St A) : M (St * nat) A := λ '(s, n),
  let '(r, s') := m s in (r, (s', n)).
Definition sleep_counted {St} (sleep : Z → St → St) : Z → St * nat → St * nat := λ d '(s, n), (sleep d s, n).

Section counting.
Context `{R : GoRange} {St : Type} (sleep : Z → St → St).
Implicit Types (f : M St unit) (sr : error → M St bool).

Lemma retry_loop_counted c f sr n e s k :
  let '(r, (_, k')) := retry_loop (sleep_counted sleep) c (counted f) (λ e, uncounted (sr e)) n e (s, k) in
  (k ≤ k' ≤ k + n)%nat.
Proof.
  revert e s k. induction n as [|n IH]; intros e s k; simpl; [lia|].
  destruct (negb _); simpl; [lia|]. unfold mbind, M_bind, modify, catch. simpl.
  destruct (sr e s) as [[[]|e'|] s2]; simpl; try lia.
  destruct (f (sleep (retryInterval c) s2)) as [[[]|e'|] s3]; simpl; try lia.
  specialize (IH e' s3 (S k)). destruct (retry_loop _ _ _ _ _ _ _) as [r [s4 k']]. lia.
Qed.

(** A retried function runs at least once and at most [1 + maxRetry] times, and the
    result is the one of its first run: the error of the first run is returned even when
    a later run succeeds. (The only other outcome is a panic of a retry.) *)
Theorem Do_bounded c f sr s :
  let '(r, (_, k)) := Do (sleep_counted sleep) c (counted f) (λ e, uncounted (sr e)) (s, 0%nat) in
  (1 ≤ k ≤ 1 + Z.to_nat (maxRetry c))%nat ∧ (r = (f s).1 ∨ r = Panic).
Proof.
  unfold Do. simpl. destruct (f s) as [[[]|err|] s1]; simpl; [split; [lia|by left]| |split; [lia|by left]].
  pose proof (retry_loop_counted c f sr (Z.to_nat (maxRetry c)) err s1 1) as H.
  destruct (retry_loop _ _ _ _ _ _ _) as [[[]|e'|] [s2 k]]; (split; [lia|by auto]).
Qed.
End counting.
