(* ===== verification/CloudIdentity.v ===== *)
(** * The user-assigned identities of a machine (pkg/cloudprovider: identity.go, truncate.go,
    and the [vmIdentityInfo]/[vmssIdentityInfo] methods of vm.go and vmss.go).

    The Azure types of a virtual machine and of a scale set differ in name only, and so do
    the two copies of the Go methods: the [vmIdentity...] definitions have them, the
    [vmss...] definitions are the same for the scale set. The methods change the object they
    are called on: they return it. *)

From S2P Require Import Prelude GoStrings.

(** The value the compute API keeps for an assigned identity. *)
Record identityValue := mkIdentityValue { PrincipalID : string; ClientID : string }.

Definition newIdentityValue : identityValue := mkIdentityValue "" "".

(** Identity ids to values; a nil value asks the service to remove the identity. *)
Abbreviation identity_map := (gmap string (option identityValue)).

(** [compute.VirtualMachineIdentity] and [compute.VirtualMachineScaleSetIdentity]; the map
    may be nil. *)
Record Identity := mkIdentity {
  Type_ : string;
  UserAssignedIdentities : option identity_map
}.

#[export] Instance identityValue_eq_dec : EqDecision identityValue.
Proof. solve_decision. Defined.
#[export] Instance Identity_eq_dec : EqDecision Identity.
Proof. solve_decision. Defined.

(** [compute.ResourceIdentityType] *)
Definition ResourceIdentityTypeNone : string := "None".
Definition ResourceIdentityTypeSystemAssigned : string := "SystemAssigned".
Definition ResourceIdentityTypeSystemAssignedUserAssigned : string := "SystemAssigned, UserAssigned".
Definition ResourceIdentityTypeUserAssigned : string := "UserAssigned".

Definition getUpdatedResourceIdentityType (identityType : string) : string :=
  if bool_decide (identityType = "" ∨ identityType = ResourceIdentityTypeNone ∨
                  identityType = ResourceIdentityTypeUserAssigned)
  then ResourceIdentityTypeUserAssigned
  else if bool_decide (identityType = ResourceIdentityTypeSystemAssigned ∨
                       identityType = ResourceIdentityTypeSystemAssignedUserAssigned)
  then ResourceIdentityTypeSystemAssignedUserAssigned
  else ResourceIdentityTypeNone.

Definition maxIdentitiesCount : nat := 150.

Definition ids_of (i : Identity) : identity_map := default ∅ (UserAssignedIdentities i).

Section vm_methods.
Context `{R : GoRange}.

(** [vmIdentityHolder.ResetIdentity] *)
Definition vmIdentityHolder_ResetIdentity : Identity := mkIdentity "" None.

(** [GetUserIdentityList], on a non-nil [info]. *)
Definition vmIdentityInfo_GetUserIdentityList (i : Identity) : list string := (go_range 165 (ids_of i)).*1.

(** Lines 184-189: the existing ids, in lower case. *)
Definition nodeList (i : Identity) : gmap string bool :=
  foldl (λ m (kv : string * option identityValue), <[ToLower kv.1 := true]> m) ∅ (go_range 183 (ids_of i)).

(** Lines 193-208, one iteration: the patch to send and the ids the machine will have. *)
Definition set_step (acc : identity_map * gmap string bool) (kv : string * bool) :
    identity_map * gmap string bool :=
  let '(userAssignedIdentities, nodeList) := acc in
  let '(id, add) := kv in
  let id := ToLower id in
  let exists_ := bool_decide (is_Some (nodeList !! id)) in
  let '(u1, n1) := if exists_ && negb add
                   then (<[id := None]> userAssignedIdentities, delete id nodeList)
                   else (userAssignedIdentities, nodeList) in
  if negb exists_ && add
  then (<[id := Some newIdentityValue]> u1, <[id := true]> n1)
  else (u1, n1).

(** [SetUserIdentities]: whether a request is needed, and the updated object. *)
Definition vmIdentityInfo_SetUserIdentities (i : Identity) (ids : gmap string bool) : bool * Identity :=
  let '(userAssignedIdentities, nodeList) := foldl set_step (∅, nodeList i) (go_range 190 ids) in
  if bool_decide (size nodeList = 0%nat)
  then (true, mkIdentity (if bool_decide (Type_ i = ResourceIdentityTypeSystemAssignedUserAssigned)
                          then ResourceIdentityTypeSystemAssigned else ResourceIdentityTypeNone) None)
  else (bool_decide (0 < size userAssignedIdentities)%nat,
        mkIdentity (getUpdatedResourceIdentityType (Type_ i)) (Some userAssignedIdentities)).

(** [RemoveUserIdentity] *)
Definition vmIdentityInfo_RemoveUserIdentity (i : Identity) (delID : string) : bool * Identity :=
  let delID := ToLower delID in
  match UserAssignedIdentities i with
  | Some m => match m !! delID with
              | Some _ => (true, mkIdentity (Type_ i) (Some (delete delID m)))
              | None => (false, i)
              end
  | None => (false, i)
  end.

(** [truncateVMIdentities]: lines 15-22, one iteration; the counter is the third component. *)
Definition truncate_step (acc : identity_map * identity_map * nat) (kv : string * option identityValue) :
    identity_map * identity_map * nat :=
  let '(ids, rest, i) := acc in
  let '(k, v) := kv in
  if (maxIdentitiesCount <=? i)%nat then (delete k ids, <[k := v]> rest, S i) else (ids, rest, S i).

Definition truncateVMIdentities (ids : option identity_map) : option identity_map * identity_map :=
  match ids with
  | None => (None, ∅)
  | Some m => let '(ids, rest, _) := foldl truncate_step (m, ∅, 0%nat) (go_range 15 m) in (Some ids, rest)
  end.
End vm_methods.

Section vmss_methods.
Context `{R : GoRange}.

(** [vmssIdentityHolder.ResetIdentity] sets the type and an empty map. *)
Definition vmssIdentityHolder_ResetIdentity : Identity := mkIdentity ResourceIdentityTypeUserAssigned (Some ∅).

(** The text of the other methods is the one of the [vmIdentityInfo] methods. *)
Definition vmssIdentityInfo_GetUserIdentityList : Identity → list string := vmIdentityInfo_GetUserIdentityList.
Definition vmssIdentityInfo_SetUserIdentities : Identity → gmap string bool → bool * Identity := vmIdentityInfo_SetUserIdentities.
Definition vmssIdentityInfo_RemoveUserIdentity : Identity → string → bool * Identity := vmIdentityInfo_RemoveUserIdentity.
Definition truncateVMSSIdentities : option identity_map → option identity_map * identity_map :=
  truncateVMIdentities.
End vmss_methods.

(** ** Truncation *)

Section truncate_theory.
Context `{R : GoRange}.
Implicit Types m ids rest : identity_map.

Lemma truncate_loop l ids rest i :
  NoDup l.*1 →
  (∀ k v, (k, v) ∈ l → ids !! k = Some v ∧ rest !! k = None) →
  let '(ids', rest', _) := foldl truncate_step (ids, rest, i) l in
  (∀ k, ids' !! k = if decide (k ∈ (drop (maxIdentitiesCount - i) l).*1) then None else ids !! k) ∧
  (∀ k, rest' !! k = if decide (k ∈ (drop (maxIdentitiesCount - i) l).*1) then ids !! k else rest !! k).
Proof.
  revert ids rest i. induction l as [|[k v] l IH]; intros ids rest i Hnd Hl.
  { rewrite drop_nil. split; intros k; by rewrite decide_False by set_solver. }
  rewrite fmap_cons in Hnd. apply NoDup_cons in Hnd as [Hk Hnd]. cbn [foldl]. unfold truncate_step at 2.
  assert (∀ k' v', (k', v') ∈ l → k' ≠ k) as Hne.
  { intros k' v' Hin ->. apply Hk, list_elem_of_fmap. by exists (k, v'). }
  destruct (Nat.leb_spec maxIdentitiesCount i) as [Hi|Hi].
  - replace (maxIdentitiesCount - i)%nat with 0%nat by lia. rewrite drop_0, fmap_cons.
    specialize (IH (delete k ids) (<[k := v]> rest) (S i) Hnd).
    replace (maxIdentitiesCount - S i)%nat with 0%nat in IH by lia. rewrite drop_0 in IH.
    destruct (foldl _ _ l) as [[ids' rest'] j]. destruct IH as [IH1 IH2].
    { intros k' v' Hin. rewrite lookup_delete_ne, lookup_insert_ne by (by apply not_eq_sym, (Hne _ _ Hin)).
      apply Hl. by right. }
    destruct (Hl k v ltac:(left)) as [Hv _].
    split; intros k'; rewrite ?IH1, ?IH2; (destruct (decide (k = k')) as [<-|Hkk];
      [rewrite ?lookup_delete_eq, ?lookup_insert_eq; repeat case_decide; set_solver|
       rewrite ?lookup_delete_ne, ?lookup_insert_ne by done; repeat case_decide; set_solver]).
  - replace (maxIdentitiesCount - i)%nat with (S (maxIdentitiesCount - S i)) by lia. cbn [drop].
    apply (IH ids rest (S i) Hnd). intros k' v' Hin. apply Hl. by right.
Qed.

(** Truncation splits the identities in two: the part kept has at most 150 entries, both parts
    are disjoint and together they are the given map; what is left over shrinks at every call. *)
Lemma truncate_run m :
  ∃ ids rest, truncateVMIdentities (Some m) = (Some ids, rest) ∧
    ids ∪ rest = m ∧ ids ##ₘ rest ∧
    size ids = Nat.min maxIdentitiesCount (size m) ∧ size rest = (size m - maxIdentitiesCount)%nat.
Proof.
  unfold truncateVMIdentities.
  assert (∀ k v, (k, v) ∈ go_range 15 m → m !! k = Some v ∧ (∅ : identity_map) !! k = None) as Hl.
  { intros k v Hkv%elem_of_go_range. by rewrite lookup_empty. }
  pose proof (truncate_loop (go_range 15 m) m ∅ 0 (NoDup_fst_go_range _ _) Hl) as H.
  destruct (foldl _ _ _) as [[ids rest] j]. rewrite Nat.sub_0_r in H. destruct H as [H1 H2].
  assert (∀ k, rest !! k = if decide (k ∈ (drop maxIdentitiesCount (go_range 15 m)).*1) then m !! k else None) as H2'.
  { intros k. rewrite H2, lookup_empty. done. }
  assert (ids ##ₘ rest) as Hdisj.
  { apply map_disjoint_spec. intros k v1 v2. rewrite H1, H2'. by case_decide. }
  assert (ids ∪ rest = m) as Hun.
  { apply map_eq. intros k. rewrite lookup_union, H1, H2'. case_decide; destruct (m !! k); done. }
  assert (rest = list_to_map (drop maxIdentitiesCount (go_range 15 m))) as Hr.
  { apply map_eq. intros k. rewrite H2'.
    assert (NoDup (drop maxIdentitiesCount (go_range 15 m)).*1) as Hnd.
    { eapply sublist_NoDup; [apply (NoDup_fst_go_range 15 m)|]. apply fmap_sublist, sublist_drop. }
    case_decide as Hk.
    - apply list_elem_of_fmap in Hk as ([k' v] & -> & Hkv). simpl.
      rewrite (elem_of_list_to_map_1 _ k' v) by done.
      apply elem_of_go_range with (n := 15%nat). eapply elem_of_sublist; [exact Hkv|]. apply sublist_drop.
    - by rewrite not_elem_of_list_to_map_1. }
  assert (size rest = (size m - maxIdentitiesCount)%nat) as Hsr.
  { rewrite Hr, map_size_list_to_map, length_drop, length_go_range; [done|].
    eapply sublist_NoDup; [apply (NoDup_fst_go_range 15 m)|]. apply fmap_sublist, sublist_drop. }
  exists ids, rest. split; [done|]. split; [done|]. split; [done|]. split; [|done].
  pose proof (map_size_disj_union ids rest Hdisj) as Hs. rewrite Hun in Hs. lia.
Qed.

End truncate_theory.

(** ** Setting identities *)

(** No two requested ids differ in case only. *)
Definition lower_inj {V} (m : gmap string V) : Prop :=
  ∀ k1 k2, is_Some (m !! k1) → is_Some (m !! k2) → ToLower k1 = ToLower k2 → k1 = k2.

(** The requests by lower-case id. *)
Definition lower_list {V} (l : list (string * V)) : list (string * V) := (λ kv, (ToLower kv.1, kv.2)) <$> l.
Definition lowered {V} (m : gmap string V) : gmap string V := list_to_map (lower_list (map_to_list m)).

(** Identity [x] (in lower case) is assigned according to [i]. *)
Definition assigned_to (i : Identity) (x : string) : bool :=
  existsb (λ kv, bool_decide (ToLower kv.1 = x)) (map_to_list (ids_of i)).

Lemma assigned_to_spec i x :
  assigned_to i x = true ↔ ∃ k, is_Some (ids_of i !! k) ∧ ToLower k = x.
Proof.
  unfold assigned_to. rewrite existsb_exists. split.
  - intros ([k v] & Hin%list_elem_of_In%elem_of_map_to_list & H%bool_decide_eq_true). exists k. split; [by exists v|done].
  - intros (k & [v Hv] & H). exists (k, v). split; [by apply list_elem_of_In, elem_of_map_to_list|].
    by apply bool_decide_eq_true.
Qed.

Lemma NoDup_lower_list {V} (m : gmap string V) l :
  l ≡ₚ map_to_list m → lower_inj m → NoDup (lower_list l).*1.
Proof.
  intros Hl Hinj. unfold lower_list. rewrite <- list_fmap_compose.
  rewrite Hl. assert (NoDup (map_to_list m)) as Hnd by apply NoDup_map_to_list.
  apply NoDup_fmap_2_strong; [|done]. intros [k1 v1] [k2 v2] H1%elem_of_map_to_list H2%elem_of_map_to_list E.
  simpl in E. assert (k1 = k2) as -> by (apply Hinj; eauto). congruence.
Qed.

Lemma lowered_lookup {V} (m : gmap string V) x v :
  lower_inj m → lowered m !! x = Some v ↔ ∃ k, m !! k = Some v ∧ ToLower k = x.
Proof.
  intros Hinj. unfold lowered. rewrite <- elem_of_list_to_map.
  - unfold lower_list. rewrite list_elem_of_fmap. split.
    + intros ([k v'] & [= -> ->] & Hk%elem_of_map_to_list). eauto.
    + intros (k & Hk & <-). exists (k, v). split; [done|]. by apply elem_of_map_to_list.
  - by apply (NoDup_lower_list m).
Qed.

(** What the machine ends up with, id by id. *)
Definition final_assigned (i : Identity) (ids : gmap string bool) (x : string) : bool :=
  match lowered ids !! x with Some add => add | None => assigned_to i x end.

(** What is sent for an id: nothing if it is as requested already. *)
Definition patch_entry (assigned : bool) (request : option bool) : option (option identityValue) :=
  match request with
  | Some true => if assigned then None else Some (Some newIdentityValue)
  | Some false => if assigned then Some None else None
  | None => None
  end.

Section set_theory.
Context `{R : GoRange}.

Lemma nodeList_lookup i x :
  nodeList i !! x = if assigned_to i x then Some true else None.
Proof.
  unfold nodeList.
  assert (∀ l (m : gmap string bool),
    foldl (λ m (kv : string * option identityValue), <[ToLower kv.1 := true]> m) m l !! x =
    if existsb (λ kv, bool_decide (ToLower kv.1 = x)) l then Some true else m !! x) as H.
  { intros l. induction l as [|[k v] l IH]; intros m; [done|]. simpl. rewrite IH. case_bool_decide as E; simpl.
    - destruct (existsb _ l); [done|]. by rewrite E, lookup_insert_eq.
    - by rewrite lookup_insert_ne. }
  rewrite H, lookup_empty.
  assert (existsb (λ kv, bool_decide (ToLower kv.1 = x)) (go_range 183 (ids_of i)) = assigned_to i x) as ->; [|done].
  apply eq_true_iff_eq. rewrite assigned_to_spec, existsb_exists. split.
  - intros ([k v] & Hin%list_elem_of_In%elem_of_go_range & E%bool_decide_eq_true). exists k. split; [by exists v|done].
  - intros (k & [v Hv] & E). exists (k, v). split; [by apply list_elem_of_In, elem_of_go_range|by apply bool_decide_eq_true].
Qed.

Definition set_view (acc : identity_map * gmap string bool) (x : string) := (acc.1 !! x, acc.2 !! x).

Definition set_upd (x : string) (add : bool) (t : option (option identityValue) * option bool) :=
  match t.2, add with
  | Some _, false => (Some None, None)
  | None, true => (Some (Some newIdentityValue), Some true)
  | _, _ => t
  end.

Definition set_step_lower (acc : identity_map * gmap string bool) (kv : string * bool) :=
  match set_upd kv.1 kv.2 (set_view acc kv.1) with
  | (p, n) => (partial_alter (λ _, p) kv.1 acc.1, partial_alter (λ _, n) kv.1 acc.2)
  end.

Lemma set_step_is_lower acc k b : set_step acc (k, b) = set_step_lower acc (ToLower k, b).
Proof.
  destruct acc as [p n]. unfold set_step, set_step_lower, set_view, set_upd. simpl.
  destruct (n !! ToLower k) eqn:E, b; simpl.
  - rewrite <- E. by rewrite !partial_alter_self.
  - done.
  - done.
  - rewrite <- E. by rewrite !partial_alter_self.
Qed.

Lemma set_loop_view ids i x :
  lower_inj ids →
  set_view (foldl set_step (∅, nodeList i) (go_range 190 ids)) x =
    (patch_entry (assigned_to i x) (lowered ids !! x),
     if final_assigned i ids x then Some true else None).
Proof.
  intros Hinj.
  assert (∀ l acc, foldl set_step acc l = foldl set_step_lower acc (lower_list l)) as ->.
  { intros l. induction l as [|[k b] l IH]; intros acc; [done|]. cbn [foldl lower_list fmap list_fmap].
    by rewrite IH, set_step_is_lower. }
  rewrite (foldl_pointwise_list set_view set_step_lower set_upd).
  - assert ((list_to_map (lower_list (go_range 190 ids)) : gmap string bool) = lowered ids) as ->.
    { apply list_to_map_proper; [eapply NoDup_lower_list; [apply go_range_perm|done]|].
      unfold lower_list. by rewrite go_range_perm. }
    unfold set_view at 1 2, final_assigned. simpl. rewrite lookup_empty, nodeList_lookup. unfold set_upd. simpl.
    destruct (lowered ids !! x) as [[]|], (assigned_to i x); done.
  - intros [p n] k v k'. unfold set_step_lower, set_view. simpl. destruct (set_upd k v _) eqn:E. simpl.
    destruct (decide (k = k')) as [->|Hne].
    + by rewrite !lookup_partial_alter_eq, E.
    + by rewrite !lookup_partial_alter_ne.
  - eapply NoDup_lower_list; [apply go_range_perm|done].
Qed.

Lemma SetUserIdentities_run (i : Identity) (ids : gmap string bool) :
  lower_inj ids →
  let '(requiresUpdate, i') := vmIdentityInfo_SetUserIdentities i ids in
  match UserAssignedIdentities i' with
  | None => (∀ x, final_assigned i ids x = false) ∧ requiresUpdate = true ∧
      Type_ i' = (if bool_decide (Type_ i = ResourceIdentityTypeSystemAssignedUserAssigned)
                  then ResourceIdentityTypeSystemAssigned else ResourceIdentityTypeNone)
  | Some patch => (∃ x, final_assigned i ids x = true) ∧
      Type_ i' = getUpdatedResourceIdentityType (Type_ i) ∧
      (∀ x, patch !! x = patch_entry (assigned_to i x) (lowered ids !! x)) ∧
      (requiresUpdate = true ↔ ∃ x, final_assigned i ids x ≠ assigned_to i x)
  end.
Proof.
  intros Hinj. pose proof (λ x, set_loop_view ids i x Hinj) as Hv. unfold vmIdentityInfo_SetUserIdentities.
  destruct (foldl set_step _ _) as [patch nl]. unfold set_view in Hv. simpl in Hv.
  assert (∀ x, patch !! x = patch_entry (assigned_to i x) (lowered ids !! x)) as Hp by (intros x; specialize (Hv x); congruence).
  assert (∀ x, nl !! x = if final_assigned i ids x then Some true else None) as Hn by (intros x; specialize (Hv x); congruence).
  clear Hv. case_bool_decide as Hs; simpl.
  - split; [|done]. intros x. apply map_size_empty_inv in Hs as ->. specialize (Hn x).
    rewrite lookup_empty in Hn. by destruct (final_assigned i ids x).
  - split; [|split; [done|split; [done|]]].
    + destruct (map_choose nl) as (x & b & Hx); [intros ->; by rewrite map_size_empty in Hs|].
      exists x. rewrite Hn in Hx. by destruct (final_assigned i ids x).
    + rewrite bool_decide_eq_true. split.
      * intros H0. destruct (map_choose patch) as (x & b & Hx); [intros ->; rewrite map_size_empty in H0; lia|].
        exists x. rewrite Hp in Hx. unfold final_assigned, patch_entry in *.
        destruct (lowered ids !! x) as [[]|], (assigned_to i x); done.
      * intros [x Hx]. assert (is_Some (patch !! x)) as [b Hb].
        { rewrite Hp. unfold final_assigned, patch_entry in *.
          destruct (lowered ids !! x) as [[]|], (assigned_to i x); try done; by eexists. }
        destruct (size patch) eqn:E; [|lia]. apply map_size_empty_inv in E as ->. by rewrite lookup_empty in Hb.
Qed.

(** C19: [SetUserIdentities] asks for exactly the difference. An id to add that the machine
    has, or an id to remove that it does not have (ids compared in lower case), is not in
    the request; every other requested id is, with a nil value for a removal. If nothing is
    left on the machine the request clears the identities and keeps a system-assigned
    identity; otherwise the type gains [UserAssigned], and a request is needed only when
    some id changes. *)
Theorem SetUserIdentities_spec (i : Identity) (ids : gmap string bool) :
  lower_inj ids →
  let '(requiresUpdate, i') := vmIdentityInfo_SetUserIdentities i ids in
  match UserAssignedIdentities i' with
  | None => (∀ x, final_assigned i ids x = false) ∧ requiresUpdate = true ∧
      Type_ i' = (if bool_decide (Type_ i = ResourceIdentityTypeSystemAssignedUserAssigned)
                  then ResourceIdentityTypeSystemAssigned else ResourceIdentityTypeNone)
  | Some patch => (∃ x, final_assigned i ids x = true) ∧
      Type_ i' = getUpdatedResourceIdentityType (Type_ i) ∧
      (∀ x, patch !! x = patch_entry (assigned_to i x) (lowered ids !! x)) ∧
      (requiresUpdate = true ↔ ∃ x, final_assigned i ids x ≠ assigned_to i x)
  end.
Proof. by apply SetUserIdentities_run. Qed.
End set_theory.

Lemma lower_inj_intro {V} (m : gmap string V) : NoDup (ToLower <$> (map_to_list m).*1) → lower_inj m.
Proof.
  intros Hnd k1 k2 [v1 H1%elem_of_map_to_list] [v2 H2%elem_of_map_to_list] E.
  apply list_elem_of_lookup in H1 as [i Hi]. apply list_elem_of_lookup in H2 as [j Hj].
  assert (i = j) as ->.
  { eapply (NoDup_lookup _ i j (ToLower k1) Hnd); rewrite !list_lookup_fmap; [by rewrite Hi|by rewrite Hj, E]. }
  congruence.
Qed.

(** The machine has [A]; [a] is to be removed and [B] added. *)
Definition identity1 : Identity :=
  mkIdentity ResourceIdentityTypeSystemAssigned (Some {["A" := Some (mkIdentityValue "p" "c")]}).
Definition request1 : gmap string bool := <["a" := false]> {["B" := true]}.

Example set1 :
  vmIdentityInfo_SetUserIdentities (R := canonical_range) identity1 request1 =
  (true, mkIdentity ResourceIdentityTypeSystemAssignedUserAssigned
           (Some (<["a" := None]> {["b" := Some newIdentityValue]}))).
Proof. vm_compute. reflexivity. Qed.

Lemma SetUserIdentities_spec_witness :
  lower_inj request1 ∧
  ∃ i' patch, vmIdentityInfo_SetUserIdentities (R := canonical_range) identity1 request1 = (true, i') ∧
    UserAssignedIdentities i' = Some patch ∧ patch !! "b" = Some (Some newIdentityValue).
Proof.
  assert (lower_inj request1) as Hinj.
  { apply lower_inj_intro. apply (bool_decide_unpack _). vm_compute. exact I. }
  split; [exact Hinj|]. pose proof (SetUserIdentities_spec (R := canonical_range) identity1 request1 Hinj) as H.
  rewrite set1 in H. destruct H as (_ & _ & Hp & _). eexists _, _.
  split; [exact set1|]. split; [reflexivity|]. rewrite Hp. vm_compute. reflexivity.
Defined.
