(* ===== verification/CloudInterface.v ===== *)
(** * The interface of the cloud provider that MIC uses ([cloudprovider.ClientInt]) and what
    it promises: MIC's theorems are proved against it, [CloudProvider] discharges it. *)

From S2P Require Import Prelude GoStrings.

Class CloudInt (C : Type) := {
  cc_UpdateUserMSI : list string → list string → string → bool → M C unit;
  cc_GetUserMSIs : string → bool → M C (list string)
}.

(** The lists name ids that differ in more than case. *)
Definition distinct_ids (l : list string) : Prop :=
  ∀ x y, x ∈ l → y ∈ l → ToLower x = ToLower y → x = y.

(** The state of an id after an update, from the two lists: an id in both is added. *)
Definition wanted_after (add remove : list string) (before : bool) (x : string) : bool :=
  if decide (x ∈ ToLower <$> add) then true
  else if decide (x ∈ ToLower <$> remove) then false else before.

(** Two machine names that the cloud does not confuse (names are compared without case). *)
Definition other_machine (k : bool) (name : string) (k' : bool) (name' : string) : Prop :=
  k ≠ k' ∨ ToLower name ≠ ToLower name'.

Class CloudIntLaws {C : Type} (cc : CloudInt C) := {
  cl_assigned : C → bool → string → string → bool;
  cl_update_ok : ∀ add remove name k c c', distinct_ids (add ++ remove) →
    cc_UpdateUserMSI add remove name k c = (Ret tt, c') →
    ∀ x, cl_assigned c' k name x = wanted_after add remove (cl_assigned c k name x) x;
  cl_update_frame : ∀ add remove name k c k' name' x, other_machine k name k' name' →
    cl_assigned (cc_UpdateUserMSI add remove name k c).2 k' name' x = cl_assigned c k' name' x;
  cl_get_ok : ∀ name k c l c', cc_GetUserMSIs name k c = (Ret l, c') →
    ∀ x, cl_assigned c k name x = true ↔ ∃ y, y ∈ l ∧ ToLower y = x;
  cl_get_frame : ∀ name k c k' name' x,
    cl_assigned (cc_GetUserMSIs name k c).2 k' name' x = cl_assigned c k' name' x
}.

(** What more a cloud promises that does not panic. *)
Class CloudTotal {C : Type} (cc : CloudInt C) := {
  update_msi_total : ∀ add remove name k c, (cc_UpdateUserMSI add remove name k c).1 ≠ Panic;
  get_msis_total : ∀ name k c, (cc_GetUserMSIs name k c).1 ≠ Panic
}.
