(* ===== verification/CloudProvider.v ===== *)
(** * The cloud provider client (pkg/cloudprovider: cloudprovider.go, vm.go, vmss.go).

    The compute API, the clock and sleeping are parameters ([SDK]); what the code relies on
    is stated by [SDKLaws]. A fetched machine is passed by value, but its identity is a
    pointer, so [UpdateIdentities] and the retry decision work on one shared [Identity],
    which is part of the [session] state. *)

From S2P Require Import Prelude GoStrings Regex ResourceId Retry CloudIdentity CloudInterface.

(** ** Machines and responses *)

(** [compute.VirtualMachine] or [compute.VirtualMachineScaleSet]: the embedded properties
    pointer, whose provisioning state is a pointer too, and the identity pointer. *)
Record Machine := mkMachine {
  m_Properties : option (option string);
  m_Identity : option Identity
}.

(** [http.Response], as far as it is read: the [Retry-After] header. *)
Record Response := mkResponse { RetryAfter : string }.

Class SDK (W : Type) := {
  sdk_now : W → Z;                                     (* time.Now(), in nanoseconds *)
  sdk_sleep : Z → W → W;                               (* time.Sleep *)
  sdk_get : bool → string → string → W → (Machine + error * option Response) * W;
  sdk_update : bool → string → string → Identity → W → (unit + error * option Response) * W;
  sdk_wait : bool → string → string → W → outcome unit * W   (* WaitForCompletionRef *)
}.

(** ** Retry-After *)

Definition clamp64 (z : Z) : Z := Z.max (- 2 ^ 63) (Z.min (2 ^ 63 - 1) z).

(** The first result of [strconv.Atoi]: 0 on a syntax error, the nearest integer of the
    range on a range error. *)
Definition Atoi_value (s : string) : Z :=
  match s with
  | String a s' =>
      if Ascii.eqb a "-"%char
      then match parse_digits s' with Some n => clamp64 (- n) | None => 0 end
      else if Ascii.eqb a "+"%char
      then match parse_digits s' with Some n => clamp64 n | None => 0 end
      else match parse_digits s with Some n => clamp64 n | None => 0 end
  | EmptyString => 0
  end.

(** [getRetryAfter]; [time_Parse] is [time.Parse(time.RFC1123, _)], in nanoseconds. *)
Definition getRetryAfter (time_Parse : string → option Z) (now : Z) (resp : option Response) : Z :=
  match resp with
  | None => 0
  | Some r =>
      if bool_decide (RetryAfter r = "") then 0
      else
        let retryAfter := Atoi_value (RetryAfter r) in
        if (0 <? retryAfter)%Z then wrap64 (wrap64 retryAfter * Second)
        else match time_Parse (RetryAfter r) with Some t => clamp64 (t - now) | None => 0 end
  end.

(** ** The client *)

Record throttle := mkThrottle { retryAfterReader : Z; retryAfterWriter : Z }.

(** The two API clients, each with its throttling state, and the world. *)
Record cloud {W : Type} := mkCloud { VMClient : throttle; VMSSClient : throttle; world : W }.
Arguments cloud W : clear implicits.
Arguments mkCloud {W}.

(** The identity object of the machine that is being updated. *)
Record session {W : Type} := mkSession { s_cloud : cloud W; s_identity : Identity }.
Arguments session W : clear implicits.
Arguments mkSession {W}.

Definition throttle_of {W} (isvmss : bool) (c : cloud W) : throttle :=
  if isvmss then VMSSClient c else VMClient c.
Definition set_throttle {W} (isvmss : bool) (t : throttle) (c : cloud W) : cloud W :=
  if isvmss then mkCloud (VMClient c) t (world c) else mkCloud t (VMSSClient c) (world c).
Definition set_world {W} (c : cloud W) (w : W) : cloud W := mkCloud (VMClient c) (VMSSClient c) w.

Definition kind_name (isvmss : bool) : string := if isvmss then "vmss" else "vm".
Definition client_name (isvmss : bool) : string := if isvmss then "VMSS" else "VM".

Definition ProvisioningStateDeleting : string := "Deleting".

Section client.
Context `{R : GoRange} {W : Type} `{sdk : SDK W}.
Variable time_Parse : string → option Z.
Variable fmt_time : Z → string.

(** [Get] of [VMClient] and of [VMSSClient]. *)
Definition client_Get (isvmss : bool) (rgName nodeName : string) : M (cloud W) Machine := λ c,
  let t := throttle_of isvmss c in
  if (sdk_now (world c) <? retryAfterReader t)%Z
  then (Fail (Errorf (client_name isvmss +:+ "Get client throttled, retry after: " +:+ fmt_time (retryAfterReader t))), c)
  else
    match sdk_get isvmss rgName nodeName (world c) with
    | (inl vm, w') => (Ret vm, set_world c w')
    | (inr (err, resp), w') =>
        let until := (sdk_now w' + getRetryAfter time_Parse (sdk_now w') resp)%Z in
        (Fail (Errorf ("failed to get " +:+ kind_name isvmss +:+ " " +:+ nodeName +:+ " in resource group " +:+ rgName +:+
           ", error: " +:+ Error err)),
         set_throttle isvmss (mkThrottle until (retryAfterWriter t)) (set_world c w'))
    end.

(** Lines 131-142 of vm.go, one PATCH request: the batch goes through the shared identity. *)
Definition update_once (isvmss : bool) (rg nodeName : string) (batch : option identity_map) : M (session W) unit := λ s,
  let ident := mkIdentity (Type_ (s_identity s)) batch in
  let c := s_cloud s in
  let t := throttle_of isvmss c in
  match sdk_update isvmss rg nodeName ident (world c) with
  | (inr (err, resp), w') =>
      let until := (sdk_now w' + getRetryAfter time_Parse (sdk_now w') resp)%Z in
      (Fail (Errorf ("failed to update identities for " +:+ nodeName +:+ " in " +:+ rg +:+ ", error: " +:+ Error err)),
       mkSession (set_throttle isvmss (mkThrottle (retryAfterReader t) until) (set_world c w')) ident)
  | (inl _, w') =>
      match sdk_wait isvmss rg nodeName w' with
      | (Ret _, w'') => (Ret tt, mkSession (set_world c w'') ident)
      | (Fail err, w'') =>
          (Fail (Errorf ("failed to wait for identity update completion for " +:+ kind_name isvmss +:+ " " +:+ nodeName +:+
             " in resource group " +:+ rg +:+ ", error: " +:+ Error err)), mkSession (set_world c w'') ident)
      | (Panic, w'') => (Panic, mkSession (set_world c w'') ident)
      end
  end.

(** Lines 127-142: the loop runs at least once, and again while ids remain. The fuel bounds
    the number of requests; [update_loop_fuel] shows that it is never used up. *)
Fixpoint update_loop (isvmss : bool) (rg nodeName : string) (fuel : nat) (remainingIDs : option identity_map) :
    M (session W) unit :=
  match fuel with
  | O => lift Panic
  | S fuel' =>
      let '(batch, rest) := truncateVMIdentities remainingIDs in
      _ ← update_once isvmss rg nodeName batch;
      if bool_decide (size rest = 0%nat) then mret tt
      else update_loop isvmss rg nodeName fuel' (Some rest)
  end.

(** [UpdateIdentities], on a machine with the given properties. *)
Definition client_UpdateIdentities (isvmss : bool) (rg nodeName : string) (props : option (option string)) :
    M (session W) unit := λ s,
  match props with
  | None => (Panic, s)
  | Some ProvisioningState =>
      if bool_decide (ProvisioningState = Some ProvisioningStateDeleting)
      then (Fail (Errorf ("failed to update identities for " +:+ nodeName +:+ " in " +:+ rg +:+ ", " +:+
              kind_name isvmss +:+ " is in " +:+ (if isvmss then ProvisioningStateDeleting
                else "'" +:+ ProvisioningStateDeleting +:+ "'") +:+ " provisioning state")), s)
      else
        let t := throttle_of isvmss (s_cloud s) in
        if (sdk_now (world (s_cloud s)) <? retryAfterWriter t)%Z
        then (Fail (Errorf (client_name isvmss +:+ "Update client throttled, retry after: " +:+ fmt_time (retryAfterWriter t))), s)
        else
          let remainingIDs := UserAssignedIdentities (s_identity s) in
          update_loop isvmss rg nodeName (S (size (default ∅ remainingIDs))) remainingIDs s
  end.

Definition VMClient_Get := client_Get false.
Definition VMSSClient_Get := client_Get true.
Definition VMClient_UpdateIdentities := client_UpdateIdentities false.
Definition VMSSClient_UpdateIdentities := client_UpdateIdentities true.

(** ** The operations MIC uses *)

Variable rg : string.              (* Config.ResourceGroupName *)
Variable RetryClient : retry_client.

(** [getIdentityResource]: the machine; the update function is [client_UpdateIdentities] on it. *)
Definition getIdentityResource (name : string) (isvmss : bool) : M (cloud W) Machine :=
  if isvmss
  then catch (VMSSClient_Get rg name) (λ err, fail (Errorf
         ("failed to get vmss " +:+ name +:+ " in resource group " +:+ rg +:+ ", error: " +:+ Error err)))
  else catch (VMClient_Get rg name) (λ err, fail (Errorf
         ("failed to get vm " +:+ name +:+ " in resource group " +:+ rg +:+ ", error: " +:+ Error err))).

Definition identity_resource (name : string) (isvmss : bool) : M (cloud W) Machine :=
  catch (getIdentityResource name isvmss) (λ err, fail (Errorf
    ("failed to get identity resource, error: " +:+ Error err))).

Definition GetUserMSIs (name : string) (isvmss : bool) : M (cloud W) (list string) :=
  m ← identity_resource name isvmss;
  match m_Identity m with
  | None => mret []
  | Some info => mret (vmIdentityInfo_GetUserIdentityList info)
  end.

(** Lines 194-204: removals first, so that an id in both lists is added. *)
Definition requested_ids (addUserAssignedMSIIDs removeUserAssignedMSIIDs : list string) : gmap string bool :=
  foldl (λ ids id, <[id := true]> ids)
    (foldl (λ ids id, <[id := false]> ids) ∅ removeUserAssignedMSIIDs) addUserAssignedMSIIDs.

(** Lines 213-240: the ids that the error names are dropped from the request; it is retried
    if that removed some and left some. *)
Definition shouldRetry (err : error) : M (session W) bool := λ s,
  let erroneousIDs := extractIdentitiesFromError (Some err) in
  let '(removedAny, info) :=
    foldl (λ '(removedAny, info) erroneousID,
      let '(removed, info') := vmIdentityInfo_RemoveUserIdentity info erroneousID in
      (removedAny || removed, info')) (false, s_identity s) erroneousIDs in
  let remainingIDs := vmIdentityInfo_GetUserIdentityList info in
  (Ret (removedAny && bool_decide (0 < length remainingIDs)%nat), mkSession (s_cloud s) info).

Definition session_sleep (d : Z) (s : session W) : session W :=
  mkSession (set_world (s_cloud s) (sdk_sleep d (world (s_cloud s)))) (s_identity s).

(** The identity object the update works on: a machine without one gets a fresh one. *)
Definition initial_identity (isvmss : bool) (m : Machine) : Identity :=
  match m_Identity m with
  | Some info => info
  | None => if isvmss then vmssIdentityHolder_ResetIdentity else vmIdentityHolder_ResetIdentity
  end.

Definition UpdateUserMSI (addUserAssignedMSIIDs removeUserAssignedMSIIDs : list string)
    (name : string) (isvmss : bool) : M (cloud W) unit :=
  if bool_decide (addUserAssignedMSIIDs = [] ∧ removeUserAssignedMSIIDs = []) then mret tt
  else
    m ← identity_resource name isvmss;
    let '(requiresUpdate, info) :=
      vmIdentityInfo_SetUserIdentities (initial_identity isvmss m) (requested_ids addUserAssignedMSIIDs removeUserAssignedMSIIDs) in
    if negb requiresUpdate then mret tt
    else λ c,
      let updateFunc := if isvmss then VMSSClient_UpdateIdentities rg name (m_Properties m)
                        else VMClient_UpdateIdentities rg name (m_Properties m) in
      let '(r, s) := Do session_sleep RetryClient updateFunc shouldRetry (mkSession c info) in
      (r, s_cloud s).
End client.

(** ** What the code relies on: the compute API *)

(** The type of an identity the API returns. *)
Definition known_type (t : string) : bool :=
  bool_decide (t ∈ [""; ResourceIdentityTypeNone; ResourceIdentityTypeSystemAssigned;
                    ResourceIdentityTypeSystemAssignedUserAssigned; ResourceIdentityTypeUserAssigned]).

Definition has_user_assigned (t : string) : bool :=
  bool_decide (t = ResourceIdentityTypeUserAssigned ∨ t = ResourceIdentityTypeSystemAssignedUserAssigned).

(** What a patch entry asks for an id that is or is not assigned. *)
Definition patched (entry : option (option identityValue)) (old : bool) : bool :=
  match entry with Some (Some _) => true | Some None => false | None => old end.

(** The documented behaviour of the API: ids are compared without case; a request of a type
    with user-assigned identities adds the ids with a value, removes those with null and
    keeps the others; one of another type clears them; reading and waiting change nothing.
    [api_assigned w isvmss rg name x]: id [x] (in lower case) is assigned to the machine. *)
Class SDKLaws {W : Type} (sdk : SDK W) := {
  api_assigned : W → bool → string → string → string → bool;
  get_law : ∀ k rg name w m w', sdk_get k rg name w = (inl m, w') →
    (∀ i, m_Identity m = Some i → known_type (Type_ i) = true) ∧
    (∀ x, api_assigned w k rg name x =
            match m_Identity m with Some i => assigned_to i x | None => false end);
  update_law : ∀ k rg name i w u w', sdk_update k rg name i w = (inl u, w') → ∀ x,
    (has_user_assigned (Type_ i) = true → ∀ m, UserAssignedIdentities i = Some m →
       (∀ y, is_Some (m !! y) → ToLower y = y) →
       api_assigned w' k rg name x = patched (m !! x) (api_assigned w k rg name x)) ∧
    (Type_ i = ResourceIdentityTypeNone ∨ Type_ i = ResourceIdentityTypeSystemAssigned →
       api_assigned w' k rg name x = false);
  update_frame : ∀ k rg name i w k' name' x, other_machine k name k' name' →
    api_assigned (sdk_update k rg name i w).2 k' rg name' x = api_assigned w k' rg name' x;
  get_frame : ∀ k rg name w k' name' x,
    api_assigned (sdk_get k rg name w).2 k' rg name' x = api_assigned w k' rg name' x;
  wait_frame : ∀ k rg name w k' name' x,
    api_assigned (sdk_wait k rg name w).2 k' rg name' x = api_assigned w k' rg name' x;
  sleep_frame : ∀ d w k rg name x, api_assigned (sdk_sleep d w) k rg name x = api_assigned w k rg name x
}.

(** An API that never panics, whose machines come with their properties. *)
Class SDKTotal {W : Type} (sdk : SDK W) := {
  sdk_no_panic : ∀ k rg name w, (sdk_wait k rg name w).1 ≠ Panic;
  sdk_has_properties : ∀ k rg name w m w', sdk_get k rg name w = (inl m, w') → is_Some (m_Properties m)
}.

(** ** The update loop *)

Section update_theory.
Context `{R : GoRange} {W : Type} `{sdk : SDK W}.
Variable time_Parse : string → option Z.
Variable fmt_time : Z → string.
Abbreviation update_loop := (update_loop time_Parse).
Abbreviation update_once := (update_once time_Parse).

(** Enough fuel is enough: more of it changes nothing, so the fuel that
    [client_UpdateIdentities] takes never runs out. *)
Lemma update_loop_fuel k rg name f1 f2 (m : identity_map) (s : session W) :
  (size m < f1)%nat → (size m < f2)%nat →
  update_loop k rg name f1 (Some m) s = update_loop k rg name f2 (Some m) s.
Proof.
  revert f2 m s. induction f1 as [|f1 IH]; intros f2 m s H1 H2; [lia|]. destruct f2 as [|f2]; [lia|].
  cbn [CloudProvider.update_loop]. destruct (truncate_run m) as (ids & rest & -> & _ & _ & _ & Hr).
  unfold mbind, M_bind. destruct (update_once _ _ _ _ _) as [[u|e|] s1]; [|done|done].
  case_bool_decide as Hz; [done|]. apply IH; unfold maxIdentitiesCount in *; lia.
Qed.

(** A machine whose API never panics is updated without a panic. *)
Definition sdk_safe : Prop := ∀ k rg name w, (sdk_wait (W := W) k rg name w).1 ≠ Panic.

Lemma update_once_safe k rg name b (s : session W) : sdk_safe → (update_once k rg name b s).1 ≠ Panic.
Proof.
  intros Hs. unfold CloudProvider.update_once. destruct (sdk_update _ _ _ _ _) as [[u|[e r]] w]; [|done].
  specialize (Hs k rg name w). by destruct (sdk_wait _ _ _ _) as [[?| |] w'].
Qed.

Lemma update_loop_safe k rg name f (m : option identity_map) (s : session W) :
  sdk_safe → (size (default ∅ m) < f)%nat → (update_loop k rg name f m s).1 ≠ Panic.
Proof.
  intros Hs. revert m s. induction f as [|f IH]; intros m s Hf; [lia|]. cbn [CloudProvider.update_loop].
  destruct (truncateVMIdentities m) as [ids rest] eqn:E. unfold mbind, M_bind.
  pose proof (update_once_safe k rg name ids s Hs) as Ho.
  destruct (update_once _ _ _ _ _) as [[u|e|] s1]; [|done|done].
  case_bool_decide as Hz; [done|]. apply IH. destruct m as [m|];
    [|injection E as <- <-; by rewrite map_size_empty in Hz].
  destruct (truncate_run m) as (ids' & rest' & E' & _ & _ & _ & Hr).
  rewrite E in E'. injection E' as -> ->. change (default ∅ (Some m)) with m in Hf.
  change (default ∅ (Some rest')) with rest'. unfold maxIdentitiesCount in *. lia.
Qed.

Context {laws : SDKLaws sdk}.

Abbreviation on_machine c k rg name x := (api_assigned (world c) k rg name x).

Lemma update_once_effect k rg name b (s s' : session W) :
  update_once k rg name b s = (Ret tt, s') →
  Type_ (s_identity s') = Type_ (s_identity s) ∧ ∀ x,
  (has_user_assigned (Type_ (s_identity s)) = true → ∀ m, b = Some m →
     (∀ y, is_Some (m !! y) → ToLower y = y) →
     on_machine (s_cloud s') k rg name x = patched (m !! x) (on_machine (s_cloud s) k rg name x)) ∧
  (Type_ (s_identity s) = ResourceIdentityTypeNone ∨ Type_ (s_identity s) = ResourceIdentityTypeSystemAssigned →
     on_machine (s_cloud s') k rg name x = false).
Proof.
  unfold CloudProvider.update_once. destruct (sdk_update _ _ _ _ _) as [[u|[e r]] w] eqn:Eu; [|done].
  destruct (sdk_wait _ _ _ _) as [[?| |] w'] eqn:Ew; intros [= <-]. simpl. split; [done|]. intros x.
  pose proof (wait_frame k rg name w k name x) as Hw. rewrite Ew in Hw. simpl in Hw. rewrite Hw. destruct (update_law _ _ _ _ _ _ _ Eu x) as [H1 H2]. simpl in *.
  by destruct k.
Qed.

(** All the batches together do what the whole patch says. *)
Lemma update_loop_effect k rg name f (m : identity_map) (s s' : session W) :
  (∀ y, is_Some (m !! y) → ToLower y = y) → has_user_assigned (Type_ (s_identity s)) = true →
  update_loop k rg name f (Some m) s = (Ret tt, s') →
  ∀ x, on_machine (s_cloud s') k rg name x = patched (m !! x) (on_machine (s_cloud s) k rg name x).
Proof.
  revert m s. induction f as [|f IH]; intros m s Hlow Hty; [done|]. cbn [CloudProvider.update_loop].
  destruct (truncate_run m) as (ids & rest & -> & Hun & Hdis & _ & _).
  assert (∀ y, is_Some (ids !! y) → is_Some (m !! y)) as Hids.
  { intros y [v Hv]. rewrite <- Hun, lookup_union, Hv. destruct (rest !! y); by eexists. }
  assert (∀ y, is_Some (rest !! y) → is_Some (m !! y)) as Hrest.
  { intros y [v Hv]. rewrite <- Hun, lookup_union, Hv. destruct (ids !! y); by eexists. }
  unfold mbind, M_bind. destruct (update_once _ _ _ _ _) as [[[]|e|] s1] eqn:E; [|done|done].
  destruct (update_once_effect _ _ _ _ _ _ E) as [Ht He].
  assert (∀ x, m !! x = match ids !! x with Some v => Some v | None => rest !! x end) as Hm.
  { intros x. rewrite <- Hun, lookup_union. by destruct (ids !! x), (rest !! x). }
  assert (∀ x, on_machine (s_cloud s1) k rg name x = patched (ids !! x) (on_machine (s_cloud s) k rg name x)) as Hx.
  { intros x. apply (proj1 (He x)); [done|done|]. eauto. }
  case_bool_decide as Hz.
  - intros [= <-] x. rewrite Hx, Hm. apply map_size_empty_inv in Hz as ->. rewrite lookup_empty. by destruct (ids !! x).
  - intros Hl x. rewrite (IH rest s1) by (done || (by rewrite Ht) || eauto).
    rewrite Hx, Hm. destruct (ids !! x) as [v|] eqn:Ei; [|done].
    by rewrite (map_disjoint_Some_l _ _ _ _ Hdis Ei).
Qed.
End update_theory.

(** ** [UpdateUserMSI] *)

Section msi_theory.
Context `{R : GoRange} {W : Type} `{sdk : SDK W} {laws : SDKLaws sdk}.
Variable time_Parse : string → option Z.
Variable fmt_time : Z → string.
Variable rg : string.
Variable rc : retry_client.

Abbreviation on_machine c k name x := (api_assigned (world c) k rg name x).
Abbreviation UpdateUserMSI := (UpdateUserMSI time_Parse fmt_time rg rc).
Abbreviation identity_resource := (identity_resource time_Parse fmt_time rg).

Lemma identity_resource_Ret name k (c c' : cloud W) m :
  identity_resource name k c = (Ret m, c') →
  ∃ w', sdk_get k rg name (world c) = (inl m, w') ∧ c' = set_world c w'.
Proof.
  unfold CloudProvider.identity_resource, getIdentityResource, catch, fail, VMClient_Get, VMSSClient_Get, client_Get.
  destruct k; (destruct (_ <? _)%Z; [done|]); destruct (sdk_get _ _ _ _) as [[m'|[e r]] w']; try done;
    intros [= <- <-]; eauto.
Qed.

(** What the holder reports is what the machine has. *)
Lemma initial_identity_spec name k (c c' : cloud W) m :
  identity_resource name k c = (Ret m, c') →
  known_type (Type_ (initial_identity k m)) = true ∧
  (∀ x, on_machine c' k name x = on_machine c k name x) ∧
  (∀ x, on_machine c k name x = assigned_to (initial_identity k m) x).
Proof.
  intros (w' & Hg & ->)%identity_resource_Ret. destruct (get_law _ _ _ _ _ _ Hg) as (H2 & H3).
  assert (∀ x, api_assigned w' k rg name x = api_assigned (world c) k rg name x) as H1.
  { intros x. pose proof (get_frame k rg name (world c) k name x) as H. by rewrite Hg in H. }
  simpl.
  split; [|split; [done|]]; unfold initial_identity; destruct (m_Identity m) as [i|] eqn:E.
  - by apply H2.
  - by destruct k; vm_compute.
  - done.
  - intros x. rewrite H3. by destruct k.
Qed.

Lemma requested_ids_lookup add remove x :
  requested_ids add remove !! x =
    if decide (x ∈ add) then Some true else if decide (x ∈ remove) then Some false else None.
Proof.
  assert (∀ b l (m : gmap string bool), foldl (λ ids id, <[id := b]> ids) m l !! x =
    if decide (x ∈ l) then Some b else m !! x) as H.
  { intros b l. induction l as [|y l IH]; intros m; [by rewrite decide_False by set_solver|]. cbn [foldl]. rewrite IH.
    destruct (decide (x = y)) as [->|Hne].
    - rewrite lookup_insert_eq. rewrite (decide_True (P := y ∈ y :: l)) by set_solver. by case_decide.
    - rewrite lookup_insert_ne by done. destruct (decide (x ∈ l)), (decide (x ∈ y :: l)); set_solver. }
  unfold requested_ids. by rewrite !H, lookup_empty.
Qed.

Lemma requested_lower_inj add remove : distinct_ids (add ++ remove) → lower_inj (requested_ids add remove).
Proof.
  intros H x y [b1 H1] [b2 H2]. rewrite requested_ids_lookup in H1, H2.
  apply H; apply elem_of_app; repeat case_decide; naive_solver.
Qed.

Lemma final_assigned_requested i add remove x :
  distinct_ids (add ++ remove) →
  final_assigned i (requested_ids add remove) x = wanted_after add remove (assigned_to i x) x.
Proof.
  intros Hd. unfold final_assigned, wanted_after.
  destruct (lowered (requested_ids add remove) !! x) as [b|] eqn:E.
  - apply lowered_lookup in E as (y & Hy & <-); [|by apply requested_lower_inj].
    rewrite requested_ids_lookup in Hy. destruct (decide (y ∈ add)) as [Hin|Hin]; simplify_eq.
    + rewrite decide_True; [done|]. by apply list_elem_of_fmap_2.
    + case_decide as Hr; simplify_eq. rewrite decide_False, decide_True; [done|by apply list_elem_of_fmap_2|].
      intros (z & Ez & Hz)%list_elem_of_fmap. apply Hin. rewrite (Hd y z); [done|set_solver|set_solver|done].
  - assert (∀ y b, requested_ids add remove !! y = Some b → ToLower y ≠ x) as Hno.
    { intros y b Hy Hx. assert (lowered (requested_ids add remove) !! x = Some b) as E'
        by (apply lowered_lookup; [by apply requested_lower_inj|eauto]). congruence. }
    setoid_rewrite requested_ids_lookup in Hno. rewrite !decide_False; [done| |];
      intros (z & -> & Hz)%list_elem_of_fmap; specialize (Hno z);
      destruct (decide (z ∈ add)), (decide (z ∈ remove)); try done; by eapply Hno.
Qed.

Lemma has_user_assigned_updated t :
  known_type t = true → has_user_assigned (getUpdatedResourceIdentityType t) = true.
Proof.
  intros H%bool_decide_eq_true. rewrite !elem_of_cons in H.
  destruct H as [->|[->|[->|[->|[->|H]]]]]; try (by vm_compute). by apply not_elem_of_nil in H.
Qed.

Lemma client_UpdateIdentities_Ret k name props (s s' : session W) :
  client_UpdateIdentities time_Parse fmt_time k rg name props s = (Ret tt, s') →
  update_loop time_Parse k rg name (S (size (ids_of (s_identity s)))) (UserAssignedIdentities (s_identity s)) s = (Ret tt, s').
Proof.
  unfold client_UpdateIdentities. destruct props as [st|]; [|done]. case_bool_decide; [done|].
  by destruct (_ <? _)%Z.
Qed.

(** Sending a request built by [SetUserIdentities] brings the machine to the final state. *)
Lemma send_effect k name props i ids i' b (c : cloud W) s' :
  lower_inj ids → known_type (Type_ i) = true →
  (∀ x, on_machine c k name x = assigned_to i x) →
  vmIdentityInfo_SetUserIdentities i ids = (b, i') →
  client_UpdateIdentities time_Parse fmt_time k rg name props (mkSession c i') = (Ret tt, s') →
  ∀ x, on_machine (s_cloud s') k name x = final_assigned i ids x.
Proof.
  intros Hinj Hty Hon Hset Hup%client_UpdateIdentities_Ret x. cbn [s_identity] in Hup.
  pose proof (SetUserIdentities_run i ids Hinj) as Hspec. rewrite Hset in Hspec.
  destruct i' as [ty [patch|]]; cbn [UserAssignedIdentities Type_] in *.
  - destruct Hspec as (_ & -> & Hp & _).
    assert (∀ y, is_Some (patch !! y) → ToLower y = y) as Hlow.
    { intros y [v Hv]. rewrite Hp in Hv. unfold patch_entry in Hv.
      destruct (lowered ids !! y) as [r|] eqn:E; [|done].
      apply lowered_lookup in E as (z & _ & <-); [|done]. apply ToLower_idemp. }
    pose proof (update_loop_effect time_Parse k rg name _ patch
      (mkSession c (mkIdentity (getUpdatedResourceIdentityType (Type_ i)) (Some patch))) s' Hlow
      (has_user_assigned_updated _ Hty) Hup x) as ->.
    cbn [s_cloud]. rewrite Hp, Hon. unfold final_assigned, patch_entry.
    by destruct (lowered ids !! x) as [[]|], (assigned_to i x).
  - destruct Hspec as (Hfin & _ & ->). rewrite Hfin. cbn [update_loop truncateVMIdentities] in Hup.
    unfold mbind, M_bind in Hup.
    destruct (update_once _ _ _ _ _ _) as [[[]|e|] s1] eqn:E; [|done|done].
    rewrite map_size_empty in Hup. injection Hup as <-.
    destruct (update_once_effect time_Parse _ _ _ _ _ _ E) as [_ He]. apply (proj2 (He x)). simpl.
    case_bool_decide; [by right|by left].
Qed.

Lemma UpdateUserMSI_run add remove name k (c c' : cloud W) :
  distinct_ids (add ++ remove) →
  UpdateUserMSI add remove name k c = (Ret tt, c') →
  ∀ x, on_machine c' k name x = wanted_after add remove (on_machine c k name x) x.
Proof.
  intros Hd Hrun x. unfold CloudProvider.UpdateUserMSI in Hrun.
  case_bool_decide as Hn; [destruct Hn as [-> ->]; injection Hrun as <-; unfold wanted_after; cbn [fmap list_fmap];
    by rewrite !decide_False by apply not_elem_of_nil|].
  unfold mbind, M_bind in Hrun. destruct (identity_resource name k c) as [[m|e|] c1] eqn:Em; [|done|done].
  destruct (initial_identity_spec _ _ _ _ _ Em) as (Hty & Hsame & Hon).
  pose proof (SetUserIdentities_run (initial_identity k m) _ (requested_lower_inj _ _ Hd)) as Hspec.
  rewrite Hon, <- (final_assigned_requested _ _ _ _ Hd).
  destruct (vmIdentityInfo_SetUserIdentities _ _) as [[] i'] eqn:Es; simpl in Hrun.
  - assert (∃ s, client_UpdateIdentities time_Parse fmt_time k rg name (m_Properties m) (mkSession c1 i') = (Ret tt, s)
      ∧ c' = s_cloud s) as (s & Hs & ->).
    { unfold Do, VMSSClient_UpdateIdentities, VMClient_UpdateIdentities in Hrun. destruct k;
        (destruct (client_UpdateIdentities _ _ _ _ _ _ _) as [[[]|e|] s]; [by simplify_eq; eauto| |done];
         by destruct (retry_loop _ _ _ _ _ _ _) as [[]]). }
    apply (send_effect k name (m_Properties m) (initial_identity k m) _ i' true c1 s); try done;
      [by apply requested_lower_inj|intros y; by rewrite Hsame, Hon].
  - injection Hrun as <-. rewrite Hsame, Hon.
    destruct (UserAssignedIdentities i') as [patch|]; [|by destruct Hspec as (_ & ? & _)].
    destruct Hspec as (_ & _ & _ & Hreq).
    destruct (decide (final_assigned (initial_identity k m) (requested_ids add remove) x = assigned_to (initial_identity k m) x)); [done|].
    assert (false = true) by (apply Hreq; eauto). done.
Qed.

(** The machine [k', name'] is as in [c0]. *)
Definition machine_as (c0 : cloud W) (k' : bool) (name' : string) (c : cloud W) : Prop :=
  ∀ x, api_assigned (world c) k' rg name' x = api_assigned (world c0) k' rg name' x.

Lemma identity_resource_frame name k (c : cloud W) k' name' :
  machine_as c k' name' (identity_resource name k c).2.
Proof.
  intros x. unfold CloudProvider.identity_resource, getIdentityResource, catch, fail, VMSSClient_Get, VMClient_Get, client_Get.
  destruct k; (destruct (_ <? _)%Z; [done|]);
    [pose proof (get_frame true rg name (world c) k' name' x) as H
    |pose proof (get_frame false rg name (world c) k' name' x) as H];
    by destruct (sdk_get _ _ _ _) as [[m|[e r]] w'].
Qed.

Lemma update_once_frame k name b (s : session W) k' name' :
  other_machine k name k' name' →
  machine_as (s_cloud s) k' name' (s_cloud (update_once time_Parse k rg name b s).2).
Proof.
  intros Ho x. unfold update_once.
  pose proof (update_frame k rg name (mkIdentity (Type_ (s_identity s)) b) (world (s_cloud s)) k' name' x Ho) as Hu.
  destruct (sdk_update _ _ _ _ _) as [[u|[e r]] w]; simpl in *; [|by destruct k].
  pose proof (wait_frame k rg name w k' name' x) as Hw. destruct (sdk_wait _ _ _ _) as [[?| |] w']; simpl in *; congruence.
Qed.

Lemma update_loop_frame k name f m (s : session W) k' name' :
  other_machine k name k' name' →
  machine_as (s_cloud s) k' name' (s_cloud (update_loop time_Parse k rg name f m s).2).
Proof.
  intros Ho. revert m s. induction f as [|f IH]; intros m s x; [done|]. cbn [update_loop].
  destruct (truncateVMIdentities m) as [ids rest]. unfold mbind, M_bind.
  pose proof (update_once_frame k name ids s k' name' Ho x) as H1.
  destruct (update_once _ _ _ _ _ _) as [[u|e|] s1]; [|done|done].
  case_bool_decide; [done|]. simpl in H1. by rewrite (IH (Some rest) s1 x).
Qed.

Lemma client_UpdateIdentities_frame k name props (s : session W) k' name' :
  other_machine k name k' name' →
  machine_as (s_cloud s) k' name' (s_cloud (client_UpdateIdentities time_Parse fmt_time k rg name props s).2).
Proof.
  intros Ho x. unfold client_UpdateIdentities. destruct props as [st|]; [|done]. case_bool_decide; [done|].
  destruct (_ <? _)%Z; [done|]. by apply update_loop_frame.
Qed.

Lemma shouldRetry_cloud e (s : session W) : s_cloud (shouldRetry e s).2 = s_cloud s.
Proof. unfold shouldRetry. by destruct (foldl _ _ _). Qed.

Lemma UpdateUserMSI_frame add remove name k (c : cloud W) k' name' :
  other_machine k name k' name' →
  machine_as c k' name' (UpdateUserMSI add remove name k c).2.
Proof.
  intros Ho. unfold CloudProvider.UpdateUserMSI. case_bool_decide; [done|]. unfold mbind, M_bind.
  pose proof (identity_resource_frame name k c k' name') as Hr.
  destruct (CloudProvider.identity_resource _ _ _ _ _ _) as [[m|e|] c1]; [|done|done]. simpl in Hr.
  destruct (vmIdentityInfo_SetUserIdentities _ _) as [[] i]; simpl; [|done].
  match goal with |- context [Do ?a ?b ?f ?g ?s] =>
    pose proof (Do_invariant a (λ v, machine_as c k' name' (s_cloud v)) b f g s) as HD end.
  destruct (Do _ _ _ _ _) as [r s]. apply HD.
  - intros s0 Hs0 x. rewrite <- (Hs0 x). by destruct k; apply client_UpdateIdentities_frame.
  - intros e s0 Hs0. by rewrite shouldRetry_cloud.
  - intros z s0 Hs0 x. rewrite <- (Hs0 x). simpl. apply sleep_frame.
  - done.
Qed.

(** C18: a successful [UpdateUserMSI] makes the user-assigned identities of the machine what was
    asked: every id of the add list is assigned, every id that is only on the remove list is
    not, and every other id keeps its state -- whatever the number of ids, so also when the
    request is split in batches; the user-assigned identities of other machines stay as they are. (Ids
    and machine names are compared in lower case, and the two lists must not name one id in
    two spellings. A system-assigned identity is not a user-assigned one: whether it survives is not
    part of this.) *)
Theorem UpdateUserMSI_effect add remove name k (c c' : cloud W) :
  distinct_ids (add ++ remove) →
  UpdateUserMSI add remove name k c = (Ret tt, c') →
  (∀ x, on_machine c' k name x = wanted_after add remove (on_machine c k name x) x) ∧
  (∀ k' name' x, other_machine k name k' name' → on_machine c' k' name' x = on_machine c k' name' x).
Proof.
  intros Hd Hr. split; [by apply UpdateUserMSI_run|]. intros k' name' x Ho.
  pose proof (UpdateUserMSI_frame add remove name k c k' name' Ho x) as H. by rewrite Hr in H.
Qed.
End msi_theory.

(** ** The requests that are sent *)

(** The API with a log of the identities sent in PATCH requests. *)
#[export] Instance recorded {W} (sdk : SDK W) : SDK (W * list Identity) | 100 := {
  sdk_now := λ w, sdk_now w.1;
  sdk_sleep := λ d w, (sdk_sleep d w.1, w.2);
  sdk_get := λ k rg name w, let '(r, w') := sdk_get k rg name w.1 in (r, (w', w.2));
  sdk_update := λ k rg name i w, let '(r, w') := sdk_update k rg name i w.1 in (r, (w', w.2 ++ [i]));
  sdk_wait := λ k rg name w, let '(r, w') := sdk_wait k rg name w.1 in (r, (w', w.2))
}.

Definition sent {W} (s : session (W * list Identity)) : list Identity := (world (s_cloud s)).2.

(** All the ids of a list of requests. *)
Definition all_ids (l : list Identity) : identity_map := foldr (λ i m, ids_of i ∪ m) ∅ l.

Section batch_theory.
Context `{R : GoRange} {W : Type} (sdk : SDK W).
Variable time_Parse : string → option Z.
Variable fmt_time : Z → string.

Abbreviation run_loop := (update_loop (sdk := recorded sdk) time_Parse).

Lemma update_once_sent k rg name b (s : session (W * list Identity)) :
  sent (update_once (sdk := recorded sdk) time_Parse k rg name b s).2 =
    sent s ++ [mkIdentity (Type_ (s_identity s)) b] ∧
  Type_ (s_identity (update_once (sdk := recorded sdk) time_Parse k rg name b s).2) = Type_ (s_identity s).
Proof.
  unfold update_once. simpl. destruct (sdk_update _ _ _ _ _) as [[u|[e r]] w]; simpl.
  - by destruct (sdk_wait _ _ _ _) as [[?| |] w'].
  - by destruct k.
Qed.

Lemma update_loop_sent k rg name f (m : identity_map) (s : session (W * list Identity)) :
  ∃ log, sent (run_loop k rg name f (Some m) s).2 = sent s ++ log ∧
    Forall (λ i, (size (ids_of i) ≤ maxIdentitiesCount)%nat ∧ Type_ i = Type_ (s_identity s)) log ∧
    (length log <= Nat.max 1 ((size m + (maxIdentitiesCount - 1)) / maxIdentitiesCount))%nat ∧
    ((run_loop k rg name f (Some m) s).1 = Ret tt → all_ids log = m).
Proof.
  revert m s. induction f as [|f IH]; intros m s.
  { exists []. rewrite app_nil_r. split; [done|]. split; [by constructor|]. split; [simpl; lia|done]. }
  cbn [CloudProvider.update_loop]. destruct (truncate_run m) as (ids & rest & -> & Hun & Hdis & Hi & Hr).
  destruct (update_once_sent k rg name (Some ids) s) as [Hs Ht]. unfold mbind, M_bind.
  destruct (update_once _ _ _ _ _ _) as [r s1]. cbn [snd] in Hs, Ht.
  set (one := mkIdentity (Type_ (s_identity s)) (Some ids)) in *.
  assert ((size (ids_of one) ≤ maxIdentitiesCount)%nat ∧ Type_ one = Type_ (s_identity s)) as Hone.
  { split; [|done]. unfold ids_of, one. cbn [UserAssignedIdentities default from_option]. unfold id. lia. }
  assert (Forall (λ i, (size (ids_of i) ≤ maxIdentitiesCount)%nat ∧ Type_ i = Type_ (s_identity s)) [one]) as E2
    by (by apply Forall_singleton).
  assert (length [one] <= Nat.max 1 ((size m + (maxIdentitiesCount - 1)) / maxIdentitiesCount))%nat as E3 by (cbn [length]; lia).
  destruct r as [[]|e|]; [|by exists [one]|by exists [one]].
  case_bool_decide as Hz.
  - exists [one]. split; [done|]. split; [done|]. split; [done|]. intros _. apply map_size_empty_inv in Hz as ->.
    unfold all_ids, ids_of, one. simpl. by rewrite map_union_empty, <- Hun, map_union_empty.
  - destruct (IH rest s1) as (log & H1 & H2 & H3 & H4). exists (one :: log).
    split; [by rewrite H1, Hs, <- (assoc_L (++))|]. rewrite Ht in H2. split; [by constructor|]. split.
    + cbn [length]. unfold maxIdentitiesCount in *.
      replace (size m + (150 - 1))%nat with ((size rest + (150 - 1)) + 1 * 150)%nat by lia.
      rewrite Nat.div_add by lia. assert (1 <= (size rest + (150 - 1)) / 150)%nat; [|lia].
      apply Nat.div_le_lower_bound; lia.
    + intros Hok. cbn [all_ids foldr]. fold (all_ids log). rewrite (H4 Hok). exact Hun.
Qed.

(** C20: [UpdateIdentities] never sends more than 150 ids in one request, and needs no more
    than one request per 150 ids (one if there are none); when it succeeds the requests
    together carry exactly the ids of the identity object. Its loop always ends: with an
    API that does not panic, neither does it (the fuel of the model is never used up). *)
Theorem UpdateIdentities_batches k rg name st (i : identity_map) ty (c : cloud (W * list Identity)) :
  let s := mkSession c (mkIdentity ty (Some i)) in
  let '(r, s') := client_UpdateIdentities (sdk := recorded sdk) time_Parse fmt_time k rg name (Some st) s in
  (∃ log, sent s' = sent s ++ log ∧
    Forall (λ i, (size (ids_of i) ≤ maxIdentitiesCount)%nat ∧ Type_ i = ty) log ∧
    (length log <= Nat.max 1 ((size i + (maxIdentitiesCount - 1)) / maxIdentitiesCount))%nat ∧
    (r = Ret tt → all_ids log = i)) ∧
  (sdk_safe (sdk := sdk) → r ≠ Panic).
Proof.
  cbv zeta. unfold client_UpdateIdentities.
  assert (∀ e : error, ∃ log, sent (mkSession c (mkIdentity ty (Some i))) = sent (mkSession c (mkIdentity ty (Some i))) ++ log ∧
    Forall (λ i, (size (ids_of i) ≤ maxIdentitiesCount)%nat ∧ Type_ i = ty) log ∧
    (length log <= Nat.max 1 ((size i + (maxIdentitiesCount - 1)) / maxIdentitiesCount))%nat ∧
    (Fail e = Ret tt → all_ids log = i)) as Hfail.
  { intros e. exists []. rewrite app_nil_r. split; [done|]. split; [by constructor|]. split; [simpl; lia|done]. }
  case_bool_decide; [by split; [apply Hfail|]|]. cbn [s_cloud s_identity UserAssignedIdentities].
  destruct (_ <? _)%Z; [by split; [apply Hfail|]|].
  destruct (update_loop_sent k rg name (S (size (default ∅ (Some i)))) i (mkSession c (mkIdentity ty (Some i))))
    as (log & H1 & H2 & H3 & H4).
  assert (sdk_safe (sdk := sdk) → sdk_safe (sdk := recorded sdk)) as Hsafe.
  { intros Hs k' rg' name' w'. simpl. specialize (Hs k' rg' name' w'.1). by destruct (sdk_wait _ _ _ _). }
  pose proof (update_loop_safe (sdk := recorded sdk) time_Parse k rg name (S (size (default ∅ (Some i)))) (Some i)
    (mkSession c (mkIdentity ty (Some i)))) as Hnp.
  destruct (run_loop _ _ _ _ _ _) as [r s']. split; [by exists log|]. intros Hs. apply Hnp; [by apply Hsafe|]. lia.
Qed.
End batch_theory.

(** ** Throttling *)

Section throttle_theory.
Context {W : Type} `{sdk : SDK W}.
Variable time_Parse : string → option Z.
Variable fmt_time : Z → string.

Lemma wrap64_id z : (- 2 ^ 63 <= z < 2 ^ 63)%Z → wrap64 z = z.
Proof. intros Hz. unfold wrap64. rewrite Z.mod_small by lia. lia. Qed.

(** A positive number of seconds that fits is taken as it is. *)
Lemma getRetryAfter_seconds now r :
  (1 <= Atoi_value (RetryAfter r) <= 9223372036)%Z → RetryAfter r ≠ "" →
  getRetryAfter time_Parse now (Some r) = (Atoi_value (RetryAfter r) * Second)%Z.
Proof.
  intros Hn Hne. unfold getRetryAfter. rewrite bool_decide_false by done.
  destruct (Z.ltb_spec 0 (Atoi_value (RetryAfter r))); [|lia].
  unfold Second. rewrite (wrap64_id (Atoi_value _)), wrap64_id by lia. done.
Qed.

(** One second more overflows the duration: the client is not throttled at all. *)
Lemma getRetryAfter_overflow now :
  getRetryAfter time_Parse now (Some (mkResponse "9223372037")) = (-9223372036709551616)%Z.
Proof. vm_compute. reflexivity. Qed.

(** C21: the client backs off. After a read that failed with [Retry-After: n] seconds, every
    further read of that client before the time has passed fails without a call to the API
    and leaves the client unchanged. *)
Theorem client_Get_backs_off k rg name (c c' : cloud W) e r w' rg2 name2 w2 :
  (sdk_now (world c) <? retryAfterReader (throttle_of k c))%Z = false →
  sdk_get k rg name (world c) = (inr (e, Some r), w') →
  (1 <= Atoi_value (RetryAfter r) <= 9223372036)%Z → RetryAfter r ≠ "" →
  (client_Get time_Parse fmt_time k rg name c).2 = c' →
  (sdk_now w2 < sdk_now w' + Atoi_value (RetryAfter r) * Second)%Z →
  ∃ e2, client_Get time_Parse fmt_time k rg2 name2 (set_world c' w2) = (Fail e2, set_world c' w2).
Proof.
  intros Hnow Hget Hn Hne Hc Hw. unfold client_Get in Hc. rewrite Hnow, Hget in Hc. simpl in Hc. subst c'.
  assert ((sdk_now w2 <? sdk_now w' + getRetryAfter time_Parse (sdk_now w') (Some r))%Z = true) as Hlt.
  { rewrite getRetryAfter_seconds by done. lia. }
  unfold client_Get. destruct k; cbn [throttle_of set_throttle set_world VMClient VMSSClient world retryAfterReader];
    simpl in *; rewrite Hlt; eauto.
Qed.
End throttle_theory.

(** ** A simulated API, on which the theorems are instantiated

    The world maps a machine (kind and lower-case name) to its identities (by lower-case id). *)

Abbreviation machines := (gmap (bool * string) identity_map).

Definition sim_of (w : machines) (k : bool) (name : string) : identity_map := default ∅ (w !! (k, ToLower name)).

Definition sim_map (m : identity_map) : identity_map := filter (λ kv, ToLower kv.1 = kv.1) m.

Definition sim_patch (p m : identity_map) : identity_map :=
  merge (λ e o, match e with Some (Some v) => Some (Some v) | Some None => None | None => o end) p m.

#[export] Instance sim_sdk : SDK machines := {
  sdk_now := λ _, 0%Z;
  sdk_sleep := λ _ w, w;
  sdk_get := λ k _ name w,
    (inl (mkMachine (Some None) (Some (mkIdentity ResourceIdentityTypeUserAssigned (Some (sim_map (sim_of w k name)))))), w);
  sdk_update := λ k _ name i w,
    (inl tt, <[(k, ToLower name) := if has_user_assigned (Type_ i) then sim_patch (ids_of i) (sim_of w k name) else ∅]> w);
  sdk_wait := λ _ _ _ w, (Ret tt, w)
}.

Definition sim_assigned (w : machines) (k : bool) (name x : string) : bool :=
  bool_decide (ToLower x = x) && bool_decide (is_Some (sim_of w k name !! x)).

Lemma sim_get_assigned w k name x :
  sim_assigned w k name x =
    assigned_to (mkIdentity ResourceIdentityTypeUserAssigned (Some (sim_map (sim_of w k name)))) x.
Proof.
  apply eq_true_iff_eq. rewrite assigned_to_spec. unfold sim_assigned, ids_of. simpl.
  rewrite andb_true_iff, !bool_decide_eq_true. unfold sim_map. split.
  - intros [Hl [v Hv]]. exists x. split; [|done]. exists v. by apply map_lookup_filter_Some.
  - intros (y & [v [Hv Hl]%map_lookup_filter_Some] & <-). simpl in Hl. rewrite !Hl. eauto.
Qed.

Lemma sim_of_insert w k name m : sim_of (<[(k, ToLower name) := m]> w) k name = m.
Proof. unfold sim_of. by rewrite lookup_insert_eq. Qed.

#[export] Instance sim_sdk_total : SDKTotal sim_sdk.
Proof. split; [done|]. intros k rg name w m w' [= <- <-]. by eexists. Qed.

#[export] Instance sim_laws : SDKLaws sim_sdk.
Proof.
  refine {| api_assigned := λ w k _ name x, sim_assigned w k name x |}.
  - intros k rg name w m w' [= <- <-]. split.
    + intros i [= <-]. done.
    + intros x. apply sim_get_assigned.
  - intros k rg name i w u w' [= _ <-] x. unfold sim_assigned. rewrite sim_of_insert. split.
    + intros -> m Hm Hlow. unfold sim_patch, ids_of. rewrite lookup_merge, Hm. simpl.
      unfold diag_None. destruct (m !! x) as [[v|]|] eqn:E; simpl.
      * rewrite (bool_decide_true (ToLower x = x)) by eauto. by destruct (sim_of w k name !! x).
      * destruct (sim_of w k name !! x); simpl; by rewrite andb_comm.
      * by destruct (sim_of w k name !! x).
    + intros Ht. assert (has_user_assigned (Type_ i) = false) as ->.
      { apply bool_decide_false. by destruct Ht as [-> | ->]; intros [?|?]. }
      rewrite lookup_empty. by rewrite andb_comm.
  - intros k rg name i w k' name' x Ho. unfold sim_assigned, sim_of. simpl.
    rewrite lookup_insert_ne; [done|]. intros [= -> Hn]. by destruct Ho.
  - done.
  - done.
  - done.
Defined.

Definition sim_cloud (w : machines) : cloud machines := mkCloud (mkThrottle 0 0) (mkThrottle 0 0) w.

Definition no_date : string → option Z := λ _, None.
Definition no_time : Z → string := λ _, "".

Definition sim_world : machines := {[(false, "vm") := {["a" := Some newIdentityValue]}]}.

Definition sim_result : outcome unit * cloud machines :=
  UpdateUserMSI (R := canonical_range) no_date no_time "rg" (NewRetryClient 2 5) ["B"] ["A"] "vm" false (sim_cloud sim_world).

Example sim_run : sim_result = (Ret tt, sim_cloud {[(false, "vm") := {["b" := Some newIdentityValue]}]}).
Proof. vm_compute. reflexivity. Qed.

Lemma UpdateUserMSI_effect_witness :
  distinct_ids (["B"] ++ ["A"]) ∧
  (∀ x, sim_assigned (world sim_result.2) false "vm" x = wanted_after ["B"] ["A"] (sim_assigned sim_world false "vm" x) x) ∧
  (∀ x, sim_assigned (world sim_result.2) true "vm" x = sim_assigned sim_world true "vm" x).
Proof.
  assert (distinct_ids (["B"] ++ ["A"])) as Hd.
  { intros x y Hx Hy. unfold app in *.
    apply elem_of_cons in Hx as [->|[->|Hx]%elem_of_cons]; [| |by apply not_elem_of_nil in Hx];
      (apply elem_of_cons in Hy as [->|[->|Hy]%elem_of_cons]; [| |by apply not_elem_of_nil in Hy]);
      intros E; try reflexivity; vm_compute in E; discriminate E. }
  split; [exact Hd|].
  destruct (UpdateUserMSI_effect (R := canonical_range) no_date no_time "rg" (NewRetryClient 2 5) ["B"] ["A"] "vm" false
    (sim_cloud sim_world) sim_result.2 Hd) as [H1 H2].
  - vm_compute. reflexivity.
  - split; [exact H1|]. intros x. apply H2. left. discriminate.
Defined.

(** An API whose every read fails, asking to wait 10 seconds; the clock is the world. *)
Definition failing_sdk : SDK Z := {|
  sdk_now := λ w, w;
  sdk_sleep := λ d w, (w + d)%Z;
  sdk_get := λ _ _ _ w, (inr (Errorf "429", Some (mkResponse "10")), (w + 1)%Z);
  sdk_update := λ _ _ _ _ w, (inr (Errorf "429", Some (mkResponse "10")), w);
  sdk_wait := λ _ _ _ w, (Ret tt, w)
|}.

Lemma client_Get_backs_off_witness :
  let c := mkCloud (mkThrottle 0 0) (mkThrottle 0 0) 100%Z in
  ∃ e2, client_Get (sdk := failing_sdk) no_date no_time false "rg" "n2"
          (set_world (client_Get (sdk := failing_sdk) no_date no_time false "rg" "n" c).2 5000000000%Z) =
        (Fail e2, set_world (client_Get (sdk := failing_sdk) no_date no_time false "rg" "n" c).2 5000000000%Z).
Proof.
  intros c. apply (client_Get_backs_off (sdk := failing_sdk) no_date no_time false "rg" "n" c _
    (Errorf "429") (mkResponse "10") 101%Z); [reflexivity|reflexivity| |discriminate|reflexivity|].
  - vm_compute. split; discriminate.
  - vm_compute. reflexivity.
Defined.

(** ** The client keeps the promises of the interface *)

Section interface.
Context `{R : GoRange} {W : Type} {sdk : SDK W} {laws : SDKLaws sdk}.
Variable time_Parse : string → option Z.
Variable fmt_time : Z → string.
Variable rg : string.
Variable rc : retry_client.

#[export] Instance cloud_client : CloudInt (cloud W) := {|
  cc_UpdateUserMSI := UpdateUserMSI time_Parse fmt_time rg rc;
  cc_GetUserMSIs := GetUserMSIs time_Parse fmt_time rg
|}.

Lemma GetUserMSIs_run name k (c : cloud W) :
  GetUserMSIs time_Parse fmt_time rg name k c =
    let '(r, c') := identity_resource time_Parse fmt_time rg name k c in
    (match r with
     | Ret m => Ret (match m_Identity m with None => [] | Some i => vmIdentityInfo_GetUserIdentityList i end)
     | Fail e => Fail e | Panic => Panic end, c').
Proof.
  unfold GetUserMSIs, mbind, M_bind. destruct (identity_resource _ _ _ _ _ _) as [[m|e|] c']; [|done|done].
  by destruct (m_Identity m).
Qed.

Lemma elem_of_GetUserIdentityList i y : y ∈ vmIdentityInfo_GetUserIdentityList i ↔ is_Some (ids_of i !! y).
Proof.
  unfold vmIdentityInfo_GetUserIdentityList. rewrite list_elem_of_fmap. split.
  - intros ([k v] & -> & Hk%elem_of_go_range). by exists v.
  - intros [v Hv]. exists (y, v). by rewrite elem_of_go_range.
Qed.

(** The client does not panic when the API does not and its machines have properties. *)
Lemma identity_resource_total name k (c : cloud W) : (identity_resource time_Parse fmt_time rg name k c).1 ≠ Panic.
Proof.
  unfold identity_resource, getIdentityResource, catch, fail, VMSSClient_Get, VMClient_Get, client_Get.
  destruct k; (destruct (_ <? _)%Z; [done|]); by destruct (sdk_get _ _ _ _) as [[m|[e r]] w'].
Qed.

Lemma shouldRetry_total e (s : session W) : (shouldRetry e s).1 ≠ Panic.
Proof. unfold shouldRetry. by destruct (foldl _ _ _). Qed.

Lemma UpdateUserMSI_total `{!SDKTotal sdk} add remove name k (c : cloud W) :
  (UpdateUserMSI time_Parse fmt_time rg rc add remove name k c).1 ≠ Panic.
Proof.
  unfold UpdateUserMSI. case_bool_decide; [done|]. unfold mbind, M_bind.
  pose proof (identity_resource_total name k c) as Ht.
  destruct (identity_resource _ _ _ _ _ _) as [[m|e|] c1] eqn:E; [|done|done].
  apply identity_resource_Ret in E as (w' & Hg & _). destruct (sdk_has_properties _ _ _ _ _ _ Hg) as [st Hst].
  destruct (vmIdentityInfo_SetUserIdentities _ _) as [[] i]; simpl; [|done].
  match goal with |- context [Do ?a ?b ?f ?g ?s] => pose proof (Do_total a b f g s) as HD; destruct (Do a b f g s) as [r s'] end.
  apply HD; [|apply shouldRetry_total]. intros s0. rewrite Hst.
  destruct k; unfold VMSSClient_UpdateIdentities, VMClient_UpdateIdentities, client_UpdateIdentities;
    (case_bool_decide; [done|]; destruct (_ <? _)%Z; [done|]; apply update_loop_safe; [exact sdk_no_panic|lia]).
Qed.

#[export] Instance cloud_client_total `{!SDKTotal sdk} : CloudTotal cloud_client.
Proof.
  split; [intros; apply UpdateUserMSI_total|]. intros name k c. simpl. rewrite GetUserMSIs_run.
  pose proof (identity_resource_total name k c) as H. by destruct (identity_resource _ _ _ _ _ _) as [[m|e|] c'].
Qed.

#[export, refine] Instance cloud_laws : CloudIntLaws cloud_client := {|
  cl_assigned := λ c k name x, api_assigned (world c) k rg name x
|}.
Proof.
  - intros add remove name k c c' Hd H x. by apply (UpdateUserMSI_run time_Parse fmt_time rg rc).
  - intros add remove name k c k' name' x Ho. by apply UpdateUserMSI_frame.
  - intros name k c l c'. simpl. rewrite GetUserMSIs_run.
    destruct (identity_resource _ _ _ _ _ _) as [[m|e|] c1] eqn:E; intros [= <- <-] x.
    apply identity_resource_Ret in E as (w' & Hg & _). destruct (get_law _ _ _ _ _ _ Hg) as [_ ->].
    destruct (m_Identity m) as [i|].
    + rewrite assigned_to_spec. by setoid_rewrite elem_of_GetUserIdentityList.
    + split; [done|]. by intros (y & Hy%not_elem_of_nil & _).
  - intros name k c k' name' x. simpl. rewrite GetUserMSIs_run.
    pose proof (identity_resource_frame time_Parse fmt_time rg name k c k' name' x) as H.
    by destruct (identity_resource _ _ _ _ _ _) as [[m|e|] c'].
Defined.
End interface.
