(* ===== verification/CrdInterface.v ===== *)
(** * The interface of the custom resource client that MIC uses ([crd.ClientInt]) and what
    it promises: MIC's theorems are proved against this interface, [Crd] discharges it. *)

From S2P Require Import Prelude GoStrings Types Conversion.

Class ClientInt (W : Type) := {
  ci_CreateAssignedIdentity : AzureAssignedIdentity → M W unit;
  ci_UpdateAssignedIdentity : AzureAssignedIdentity → M W unit;
  ci_RemoveAssignedIdentity : AzureAssignedIdentity → M W unit;
  ci_UpdateAzureAssignedIdentityStatus : AzureAssignedIdentity → string → M W unit
}.

(** The key of an assigned identity on the cluster: namespace and name. *)
Definition aai_key (a : AzureAssignedIdentity) : string * string :=
  (Namespace (aai_ObjectMeta a), Name (aai_ObjectMeta a)).

(** What is kept of an assigned identity on the cluster: its spec, its status and its labels. *)
Record content := mkContent {
  c_Spec : AzureAssignedIdentitySpec;
  c_Status : string;
  c_Labels : gmap string string
}.

#[export] Instance content_eq_dec : EqDecision content.
Proof. solve_decision. Defined.

Definition content_of (a : AzureAssignedIdentity) : content :=
  mkContent (aai_Spec (retype_assigned a)) (aast_Status (aai_Status a)) (Labels (aai_ObjectMeta a)).

(** The object carries no finalizer of another controller. *)
Definition own_finalizers (f : string) (l : list string) : Prop := Forall (eq f) l.

(** The promises. [stored w k] is the content under key [k]; [store_ok] is an invariant of
    the cluster that every operation keeps. An operation that succeeds has the effect
    its name says; whatever its outcome, it leaves the other keys alone, and its own as it was,
    as it was given, or empty. *)
Class ClientLaws {W : Type} (ci : ClientInt W) := {
  stored : W → string * string → option content;
  store_ok : W → Prop;
  finalizer : string;
  create_ok : ∀ a w w', store_ok w → ci_CreateAssignedIdentity a w = (Ret tt, w') →
    stored w' (aai_key a) = Some (content_of a);
  update_ok : ∀ a w w', store_ok w → ci_UpdateAssignedIdentity a w = (Ret tt, w') →
    stored w' (aai_key a) = Some (content_of a) ∨ stored w' (aai_key a) = None;
  remove_ok : ∀ a w w', store_ok w → ci_RemoveAssignedIdentity a w = (Ret tt, w') →
    stored w' (aai_key a) = None;
  status_ok : ∀ a st w w', store_ok w → ci_UpdateAzureAssignedIdentityStatus a st w = (Ret tt, w') →
    ∃ c, stored w (aai_key a) = Some c ∧ stored w' (aai_key a) = Some (mkContent (c_Spec c) st (c_Labels c));
  create_any : ∀ a w, stored (ci_CreateAssignedIdentity a w).2 (aai_key a) = stored w (aai_key a) ∨
    stored (ci_CreateAssignedIdentity a w).2 (aai_key a) = Some (content_of a);
  update_any : ∀ a w, stored (ci_UpdateAssignedIdentity a w).2 (aai_key a) = stored w (aai_key a) ∨
    stored (ci_UpdateAssignedIdentity a w).2 (aai_key a) = None ∨
    stored (ci_UpdateAssignedIdentity a w).2 (aai_key a) = Some (content_of a);
  remove_any : ∀ a w, stored (ci_RemoveAssignedIdentity a w).2 (aai_key a) = stored w (aai_key a) ∨
    stored (ci_RemoveAssignedIdentity a w).2 (aai_key a) = None;
  status_any : ∀ a st w, stored (ci_UpdateAzureAssignedIdentityStatus a st w).2 (aai_key a) = stored w (aai_key a) ∨
    ∃ c, stored w (aai_key a) = Some c ∧
      stored (ci_UpdateAzureAssignedIdentityStatus a st w).2 (aai_key a) = Some (mkContent (c_Spec c) st (c_Labels c));
  create_frame : ∀ a w k, k ≠ aai_key a → stored (ci_CreateAssignedIdentity a w).2 k = stored w k;
  update_frame : ∀ a w k, k ≠ aai_key a → stored (ci_UpdateAssignedIdentity a w).2 k = stored w k;
  remove_frame : ∀ a w k, k ≠ aai_key a → stored (ci_RemoveAssignedIdentity a w).2 k = stored w k;
  status_frame : ∀ a st w k, k ≠ aai_key a →
    stored (ci_UpdateAzureAssignedIdentityStatus a st w).2 k = stored w k;
  create_inv : ∀ a w, own_finalizers finalizer (Finalizers (aai_ObjectMeta a)) → store_ok w →
    store_ok (ci_CreateAssignedIdentity a w).2;
  update_inv : ∀ a w, own_finalizers finalizer (Finalizers (aai_ObjectMeta a)) → store_ok w →
    store_ok (ci_UpdateAssignedIdentity a w).2;
  remove_inv : ∀ a w, store_ok w → store_ok (ci_RemoveAssignedIdentity a w).2;
  status_inv : ∀ a st w, store_ok w → store_ok (ci_UpdateAzureAssignedIdentityStatus a st w).2
}.

(** What more a client promises that does not panic: complete objects are written or refused. *)
Class ClientTotal {W : Type} (ci : ClientInt W) := {
  create_total : ∀ a w, refs_set a = true → (ci_CreateAssignedIdentity a w).1 ≠ Panic;
  update_total : ∀ a w, refs_set a = true → (ci_UpdateAssignedIdentity a w).1 ≠ Panic;
  remove_total : ∀ a w, (ci_RemoveAssignedIdentity a w).1 ≠ Panic;
  status_total : ∀ a st w, (ci_UpdateAzureAssignedIdentityStatus a st w).1 ≠ Panic
}.
