(* ===== verification/Crd.v ===== *)
(** * The client of the custom resources (pkg/crd/crd.go).

    The API server is a parameter ([CrdAPI]) with its documented behaviour as laws
    ([CrdAPILaws]); the informer stores are lists of the objects they hold. *)

From S2P Require Import Prelude GoStrings Types Conversion Fixtures CrdInterface.

Definition finalizerName : string := "azureassignedidentity.finalizers.aadpodidentity.k8s.io".

(** ** Finalizers *)

Fixpoint containsString (s : string) (items : list string) : bool :=
  match items with
  | [] => false
  | item :: items' => if bool_decide (item = s) then true else containsString s items'
  end.

Fixpoint removeString (s : string) (items : list string) : list string :=
  match items with
  | [] => []
  | item :: items' => if bool_decide (item ≠ s) then item :: removeString s items' else removeString s items'
  end.

Definition hasFinalizer (a : V1AzureAssignedIdentity) : bool :=
  containsString finalizerName (Finalizers (v1aai_ObjectMeta a)).

(** The object with other finalizers: [SetFinalizers] on its metadata. *)
Definition with_finalizers (l : list string) (a : V1AzureAssignedIdentity) : V1AzureAssignedIdentity :=
  mkV1AzureAssignedIdentity (v1aai_TypeMeta a) (SetFinalizers (v1aai_ObjectMeta a) l) (v1aai_Spec a) (v1aai_Status a).

Definition removeFinalizer (a : V1AzureAssignedIdentity) : V1AzureAssignedIdentity :=
  with_finalizers (removeString finalizerName (Finalizers (v1aai_ObjectMeta a))) a.

Definition getMapKey (ns name : string) : string := Join [ns; name] "/".

(** One operation of a JSON patch. *)
Record patchStatusOps := mkPatchStatusOps { Op : string; Path : string; Value : string }.

(** ** The informer stores *)

(** What a store may hold: pointers to objects of any type. *)
Inductive store_item :=
  | ItemBinding (b : V1AzureIdentityBinding)
  | ItemAssignedID (a : V1AzureAssignedIdentity)
  | ItemID (i : V1AzureIdentity)
  | ItemException (e : V1AzurePodIdentityException)
  | ItemOther (type : string).

Definition item_type (i : store_item) : string :=
  match i with
  | ItemBinding _ => "*v1.AzureIdentityBinding"
  | ItemAssignedID _ => "*v1.AzureAssignedIdentity"
  | ItemID _ => "*v1.AzureIdentity"
  | ItemException _ => "*v1.AzurePodIdentityException"
  | ItemOther t => t
  end.

Definition failed_cast (i : store_item) (resource : string) : error :=
  Errorf ("failed to cast " +:+ item_type i +:+ " to " +:+ resource).

(** [ListBindings]: the items get their kind and API version before the conversion. *)
Definition ListBindings (store : list store_item) : outcome (list AzureIdentityBinding) :=
  foldM (λ resList binding,
    match binding with
    | ItemBinding o =>
        let o' := mkV1AzureIdentityBinding (SetGroupVersionKind "v1.AzureIdentityBinding")
                    (v1aib_ObjectMeta o) (v1aib_Spec o) (v1aib_Status o) in
        Ret (resList ++ [ConvertV1BindingToInternalBinding o'])
    | _ => Fail (failed_cast binding AzureIDBindingResource)
    end) [] store.

(** The object with the kind set, converted: the common part of the two listings below. *)
Definition listed_assigned (o : V1AzureAssignedIdentity) : AzureAssignedIdentity :=
  ConvertV1AssignedIdentityToInternalAssignedIdentity
    (mkV1AzureAssignedIdentity (SetGroupVersionKind "v1.AzureAssignedIdentity")
       (v1aai_ObjectMeta o) (v1aai_Spec o) (v1aai_Status o)).

Definition ListAssignedIDs (store : list store_item) : outcome (list AzureAssignedIdentity) :=
  foldM (λ resList assignedID,
    match assignedID with
    | ItemAssignedID o => Ret (resList ++ [listed_assigned o])
    | _ => Fail (failed_cast assignedID AzureAssignedIDResource)
    end) [] store.

Definition ListAssignedIDsInMap (store : list store_item) : outcome (gmap string AzureAssignedIdentity) :=
  foldM (λ result assignedID,
    match assignedID with
    | ItemAssignedID o => Ret (<[Name (v1aai_ObjectMeta o) := listed_assigned o]> result)
    | _ => Fail (failed_cast assignedID AzureAssignedIDResource)
    end) ∅ store.

Definition ListIds (store : list store_item) : outcome (list AzureIdentity) :=
  foldM (λ resList id,
    match id with
    | ItemID o =>
        let o' := mkV1AzureIdentity (SetGroupVersionKind "v1.AzureIdentity")
                    (v1ai_ObjectMeta o) (v1ai_Spec o) (v1ai_Status o) in
        Ret (resList ++ [ConvertV1IdentityToInternalIdentity o'])
    | _ => Fail (failed_cast id AzureIDResource)
    end) [] store.

Definition ListPodIdentityExceptions (store : list store_item) (ns : string) :
    outcome (list AzurePodIdentityException) :=
  foldM (λ resList binding,
    match binding with
    | ItemException o =>
        if bool_decide (Namespace (v1ape_ObjectMeta o) = ns)
        then
          let o' := mkV1AzurePodIdentityException (SetGroupVersionKind "v1.AzurePodIdentityException")
                      (v1ape_ObjectMeta o) (v1ape_Spec o) (v1ape_Status o) in
          Ret (resList ++ [ConvertV1PodIdentityExceptionToInternalPodIdentityException o'])
        else Ret resList
    | _ => Fail (failed_cast binding AzurePodIdentityExceptionResource)
    end) [] store.

(** [ListPodIds]: the identities of a pod by the state of their assignment. *)
Definition ListPodIds (store : list store_item) (podns podname : string) :
    outcome (gmap string (list AzureIdentity)) :=
  list ← ListAssignedIDs store;
  foldM (λ idStateMap v,
    if bool_decide (aas_Pod (aai_Spec v) = podname ∧ aas_PodNamespace (aai_Spec v) = podns)
    then
      id ← deref (aas_AzureIdentityRef (aai_Spec v));
      let st := aast_Status (aai_Status v) in
      Ret (<[st := default [] (idStateMap !! st) ++ [id]]> idStateMap)
    else Ret idStateMap) ∅ list.

(** [GetPodIDsWithBinding]; the lists it gets are never nil. *)
Definition GetPodIDsWithBinding (bindingStore idStore : list store_item) (namespace : string)
    (labels : gmap string string) : outcome (list AzureIdentity) :=
  bindings ← ListBindings bindingStore;
  let podLabel := map_get labels CRDLabelKey in
  let matchingIds := foldl (λ (m : gmap string bool) binding,
    if bool_decide (podLabel = aibs_Selector (aib_Spec binding) ∧ Namespace (aib_ObjectMeta binding) = namespace)
    then <[aibs_AzureIdentity (aib_Spec binding) := true]> m else m) ∅ bindings in
  azIdentities ← ListIds idStore;
  Ret (filter (λ azIdentity, is_Some (matchingIds !! Name (ai_ObjectMeta azIdentity)) ∧
                             Namespace (ai_ObjectMeta azIdentity) = namespace) azIdentities).

(** ** The informers' event handlers *)

Inductive watch_event := Added | Deleted | Updated.

(** [newBindingInformer] and [newIDInformer]: what the handlers send to the event channel. *)
Definition newBindingInformer_event (e : watch_event) : EventType :=
  match e with Added => BindingCreated | Deleted => BindingDeleted | Updated => BindingUpdated end.
Definition newIDInformer_event (e : watch_event) : EventType :=
  match e with Added => IdentityCreated | Deleted => IdentityDeleted | Updated => IdentityUpdated end.

(** [NodeNameFilter]: the label selector it leaves in the list options; a nil pointer is
    replaced in the function only. *)
Definition NodeNameFilter (nodeName : string) (LabelSelector : string) : string :=
  LabelSelector +:+ "nodename=" +:+ nodeName.

(** [SyncCache]: [synced] is the result of [WaitForCacheSync]. *)
Definition SyncCache (synced initial : bool) : outcome unit :=
  if negb synced then if negb initial then Ret tt else Panic else Ret tt.

(** ** The API server *)

Class CrdAPI (W : Type) := {
  api_post : string → V1AzureAssignedIdentity → M W V1AzureAssignedIdentity;
  api_put : string → string → V1AzureAssignedIdentity → M W V1AzureAssignedIdentity;
  api_delete : string → string → M W V1AzureAssignedIdentity;
  api_patch : string → string → list patchStatusOps → M W unit;
  api_list_assigned : M W (list V1AzureAssignedIdentity);
  api_list_ids : M W (list V1AzureIdentity);
  api_put_id : string → string → V1AzureIdentity → M W V1AzureIdentity;
  api_list_bindings : M W (list V1AzureIdentityBinding);
  api_put_binding : string → string → V1AzureIdentityBinding → M W V1AzureIdentityBinding;
  api_list_exceptions : M W (list V1AzurePodIdentityException);
  api_put_exception : string → string → V1AzurePodIdentityException → M W V1AzurePodIdentityException
}.

Section client.
Context {W : Type} `{api : CrdAPI W}.

Definition ns_of (a : AzureAssignedIdentity) : string := Namespace (aai_ObjectMeta a).
Definition name_of (a : AzureAssignedIdentity) : string := Name (aai_ObjectMeta a).

Definition RemoveAssignedIdentity (assignedIdentity : AzureAssignedIdentity) : M W unit := λ w,
  match api_delete (ns_of assignedIdentity) (name_of assignedIdentity) w with
  | (Panic, w') => (Panic, w')
  | (Fail err, w') => if IsNotFound err then (Ret tt, w') else (Fail err, w')
  | (Ret res, w') =>
      if hasFinalizer res
      then (_ ← api_put (ns_of assignedIdentity) (name_of assignedIdentity) (removeFinalizer res); mret tt) w'
      else (Ret tt, w')
  end.

Definition CreateAssignedIdentity (assignedIdentity : AzureAssignedIdentity) : M W unit :=
  v1AssignedID ← lift (ConvertInternalAssignedIdentityToV1AssignedIdentity assignedIdentity);
  let v1AssignedID' :=
    if negb (hasFinalizer v1AssignedID)
    then with_finalizers (Finalizers (v1aai_ObjectMeta v1AssignedID) ++ [finalizerName]) v1AssignedID
    else v1AssignedID in
  _ ← api_post (ns_of assignedIdentity) v1AssignedID';
  mret tt.

Definition UpdateAssignedIdentity (assignedIdentity : AzureAssignedIdentity) : M W unit :=
  v1AssignedID ← lift (ConvertInternalAssignedIdentityToV1AssignedIdentity assignedIdentity);
  catch (_ ← api_put (ns_of assignedIdentity) (name_of assignedIdentity) v1AssignedID; mret tt)
    (λ err, fail (Errorf ("failed to update AzureAssignedIdentity, error: " +:+ Error err))).

Definition UpdateAzureAssignedIdentityStatus (assignedIdentity : AzureAssignedIdentity) (status : string) : M W unit :=
  api_patch (ns_of assignedIdentity) (name_of assignedIdentity)
    [mkPatchStatusOps "replace" "/status/status" status].

(** ** The type upgrade *)

Definition failed_get {A} (resource : string) (m : M W A) : M W A :=
  catch m (λ err, fail (Errorf ("failed to get " +:+ resource +:+ ", error: " +:+ Error err))).
Definition failed_set {A} (resource : string) (m : M W A) : M W A :=
  catch m (λ err, fail (Errorf ("failed to set object for resource " +:+ resource +:+ ", error: " +:+ Error err))).

(** [Upgrade], for each of the resources it is called with: every object is written back,
    and the written objects are returned by key with the type metadata set (the kind is
    the name of the list type). *)
Definition Upgrade_ids : M W (gmap string V1AzureIdentity) :=
  list ← failed_get AzureIDResource api_list_ids;
  fold_each (λ m o,
    let '(ns, name) := (Namespace (v1ai_ObjectMeta o), Name (v1ai_ObjectMeta o)) in
    obj ← failed_set AzureIDResource (api_put_id ns name o);
    mret (<[getMapKey ns name := mkV1AzureIdentity (mkTypeMeta "AzureIdentityList" SchemeGroupVersion)
              (v1ai_ObjectMeta obj) (v1ai_Spec obj) (v1ai_Status obj)]> m)) ∅ list.

Definition Upgrade_bindings : M W (gmap string V1AzureIdentityBinding) :=
  list ← failed_get AzureIDBindingResource api_list_bindings;
  fold_each (λ m o,
    let '(ns, name) := (Namespace (v1aib_ObjectMeta o), Name (v1aib_ObjectMeta o)) in
    obj ← failed_set AzureIDBindingResource (api_put_binding ns name o);
    mret (<[getMapKey ns name := mkV1AzureIdentityBinding (mkTypeMeta "AzureIdentityBindingList" SchemeGroupVersion)
              (v1aib_ObjectMeta obj) (v1aib_Spec obj) (v1aib_Status obj)]> m)) ∅ list.

Definition Upgrade_exceptions : M W unit :=
  list ← failed_get AzurePodIdentityExceptionResource api_list_exceptions;
  for_each (λ o, _ ← failed_set AzurePodIdentityExceptionResource
    (api_put_exception (Namespace (v1ape_ObjectMeta o)) (Name (v1ape_ObjectMeta o)) o); mret tt) list.

(** Lines 408-418, one assigned identity: its references become the upgraded objects. *)
Definition upgraded_refs (ids : gmap string V1AzureIdentity) (bindings : gmap string V1AzureIdentityBinding)
    (obj : V1AzureAssignedIdentity) : outcome V1AzureAssignedIdentity :=
  let s := v1aai_Spec obj in
  idRef ← deref (v1aas_AzureIdentityRef s);
  bindingRef ← deref (v1aas_AzureBindingRef s);
  let idRef' := default idRef (ids !! getMapKey (Namespace (v1ai_ObjectMeta idRef)) (Name (v1ai_ObjectMeta idRef))) in
  let bindingRef' := default bindingRef
    (bindings !! getMapKey (Namespace (v1aib_ObjectMeta bindingRef)) (Name (v1aib_ObjectMeta bindingRef))) in
  Ret (mkV1AzureAssignedIdentity (v1aai_TypeMeta obj) (v1aai_ObjectMeta obj)
         (mkV1AzureAssignedIdentitySpec (v1aas_ObjectMeta s) (Some idRef') (Some bindingRef') (v1aas_Pod s)
            (v1aas_PodNamespace s) (v1aas_NodeName s) (v1aas_Replicas s)) (v1aai_Status obj)).

Definition UpgradeAll : M W unit :=
  updatedAzureIdentities ← Upgrade_ids;
  updatedAzureIdentityBindings ← Upgrade_bindings;
  _ ← Upgrade_exceptions;
  list ← failed_get AzureAssignedIDResource api_list_assigned;
  for_each (λ o,
    obj ← lift (upgraded_refs updatedAzureIdentities updatedAzureIdentityBindings o);
    _ ← failed_set AzureAssignedIDResource
      (api_put (Namespace (v1aai_ObjectMeta o)) (Name (v1aai_ObjectMeta o)) obj);
    mret tt) list.
End client.

(** ** The behaviour of the API server the client relies on *)

Definition same_content (a b : V1AzureAssignedIdentity) : Prop :=
  v1aai_Spec a = v1aai_Spec b ∧ v1aast_Status (v1aai_Status a) = v1aast_Status (v1aai_Status b) ∧
  Finalizers (v1aai_ObjectMeta a) = Finalizers (v1aai_ObjectMeta b) ∧
  Labels (v1aai_ObjectMeta a) = Labels (v1aai_ObjectMeta b).

(** A created or written object keeps its spec, status, finalizers and labels. A deleted object with
    finalizers stays, marked for deletion, until it is written without finalizers. Requests
    touch only the object they name, and whatever their outcome that object is as it was,
    as it was given, or gone. *)
Class CrdAPILaws {W : Type} (api : CrdAPI W) := {
  api_obj : W → string → string → option V1AzureAssignedIdentity;
  terminating : W → string → string → bool;
  post_law : ∀ ns o w r w', api_post ns o w = (Ret r, w') →
    ∃ o', api_obj w' ns (Name (v1aai_ObjectMeta o)) = Some o' ∧ same_content o' o;
  put_law : ∀ ns name o w r w', api_put ns name o w = (Ret r, w') →
    if terminating w ns name && bool_decide (Finalizers (v1aai_ObjectMeta o) = [])
    then api_obj w' ns name = None
    else ∃ o', api_obj w' ns name = Some o' ∧ same_content o' o;
  delete_law : ∀ ns name w r w', api_delete ns name w = (Ret r, w') →
    match Finalizers (v1aai_ObjectMeta r) with
    | [] => api_obj w' ns name = None
    | _ => ∃ o, api_obj w' ns name = Some o ∧
             Finalizers (v1aai_ObjectMeta o) = Finalizers (v1aai_ObjectMeta r) ∧
             terminating w' ns name = true
    end;
  delete_not_found : ∀ ns name w e w', api_delete ns name w = (Fail e, w') →
    IsNotFound e = true → api_obj w' ns name = None;
  patch_law : ∀ ns name st w w',
    api_patch ns name [mkPatchStatusOps "replace" "/status/status" st] w = (Ret tt, w') →
    ∃ o o', api_obj w ns name = Some o ∧ api_obj w' ns name = Some o' ∧
      v1aai_Spec o' = v1aai_Spec o ∧ v1aast_Status (v1aai_Status o') = st ∧
      Finalizers (v1aai_ObjectMeta o') = Finalizers (v1aai_ObjectMeta o) ∧
      Labels (v1aai_ObjectMeta o') = Labels (v1aai_ObjectMeta o);
  post_frame : ∀ ns o w ns' name', (ns', name') ≠ (ns, Name (v1aai_ObjectMeta o)) →
    api_obj (api_post ns o w).2 ns' name' = api_obj w ns' name';
  put_frame : ∀ ns name o w ns' name', (ns', name') ≠ (ns, name) →
    api_obj (api_put ns name o w).2 ns' name' = api_obj w ns' name';
  delete_frame : ∀ ns name w ns' name', (ns', name') ≠ (ns, name) →
    api_obj (api_delete ns name w).2 ns' name' = api_obj w ns' name';
  patch_frame : ∀ ns name ops w ns' name', (ns', name') ≠ (ns, name) →
    api_obj (api_patch ns name ops w).2 ns' name' = api_obj w ns' name';
  post_any : ∀ ns o w,
    api_obj (api_post ns o w).2 ns (Name (v1aai_ObjectMeta o)) = api_obj w ns (Name (v1aai_ObjectMeta o)) ∨
    ∃ o', api_obj (api_post ns o w).2 ns (Name (v1aai_ObjectMeta o)) = Some o' ∧ same_content o' o;
  put_any : ∀ ns name o w,
    api_obj (api_put ns name o w).2 ns name = api_obj w ns name ∨
    api_obj (api_put ns name o w).2 ns name = None ∨
    ∃ o', api_obj (api_put ns name o w).2 ns name = Some o' ∧ same_content o' o;
  delete_any : ∀ ns name w,
    api_obj (api_delete ns name w).2 ns name = None ∨
    ∃ o o', api_obj w ns name = Some o ∧ api_obj (api_delete ns name w).2 ns name = Some o' ∧ same_content o' o;
  patch_any : ∀ ns name st w,
    api_obj (api_patch ns name [mkPatchStatusOps "replace" "/status/status" st] w).2 ns name = api_obj w ns name ∨
    ∃ o o', api_obj w ns name = Some o ∧
      api_obj (api_patch ns name [mkPatchStatusOps "replace" "/status/status" st] w).2 ns name = Some o' ∧
      v1aai_Spec o' = v1aai_Spec o ∧ v1aast_Status (v1aai_Status o') = st ∧
      Finalizers (v1aai_ObjectMeta o') = Finalizers (v1aai_ObjectMeta o) ∧
      Labels (v1aai_ObjectMeta o') = Labels (v1aai_ObjectMeta o);
  delete_result : ∀ ns name w r w', api_delete ns name w = (Ret r, w') →
    ∃ o, api_obj w ns name = Some o ∧ same_content r o
}.

(** The requests of the client library return. *)
Class CrdAPITotal {W : Type} (api : CrdAPI W) := {
  post_total : ∀ ns o w, (api_post ns o w).1 ≠ Panic;
  put_total : ∀ ns name o w, (api_put ns name o w).1 ≠ Panic;
  delete_total : ∀ ns name w, (api_delete ns name w).1 ≠ Panic;
  patch_total : ∀ ns name ops w, (api_patch ns name ops w).1 ≠ Panic
}.

(** ** Facts on finalizers *)

Lemma delete_finalizers {W} {api : CrdAPI W} {laws : CrdAPILaws api} ns name w o' :
  api_obj (api_delete ns name w).2 ns name = Some o' →
  ∃ o, api_obj w ns name = Some o ∧ Finalizers (v1aai_ObjectMeta o') = Finalizers (v1aai_ObjectMeta o).
Proof.
  intros H. destruct (delete_any ns name w) as [E|(o & o1 & Ho & E & _ & _ & Hf & _)]; rewrite H in E; [done|].
  injection E as <-. eauto.
Qed.

Lemma patch_finalizers {W} {api : CrdAPI W} {laws : CrdAPILaws api} ns name st w o' :
  api_obj (api_patch ns name [mkPatchStatusOps "replace" "/status/status" st] w).2 ns name = Some o' →
  ∃ o, api_obj w ns name = Some o ∧ Finalizers (v1aai_ObjectMeta o') = Finalizers (v1aai_ObjectMeta o).
Proof.
  intros H. destruct (patch_any ns name st w) as [E|(o & o1 & Ho & E & _ & _ & Hf & _)]; rewrite H in E; [eauto|].
  injection E as <-. eauto.
Qed.

Lemma post_finalizers {W} {api : CrdAPI W} {laws : CrdAPILaws api} ns o w o' :
  api_obj (api_post ns o w).2 ns (Name (v1aai_ObjectMeta o)) = Some o' →
  Finalizers (v1aai_ObjectMeta o') ⊆ Finalizers (v1aai_ObjectMeta o) ∨
  api_obj w ns (Name (v1aai_ObjectMeta o)) = Some o'.
Proof.
  intros H. destruct (post_any ns o w) as [E|(o1 & E & _ & _ & Hf & _)]; rewrite H in E; [by right|].
  injection E as <-. left. by rewrite Hf.
Qed.

Lemma put_finalizers {W} {api : CrdAPI W} {laws : CrdAPILaws api} ns name o w o' :
  api_obj (api_put ns name o w).2 ns name = Some o' →
  Finalizers (v1aai_ObjectMeta o') ⊆ Finalizers (v1aai_ObjectMeta o) ∨ api_obj w ns name = Some o'.
Proof.
  intros H. destruct (put_any ns name o w) as [E|[E|(o1 & E & _ & _ & Hf & _)]]; rewrite H in E; [by right|done|].
  injection E as <-. left. by rewrite Hf.
Qed.

Lemma containsString_spec s l : containsString s l = true ↔ s ∈ l.
Proof.
  induction l as [|x l IH]; simpl; [set_solver|]. case_bool_decide as E.
  - subst. split; [intros _; left|done].
  - rewrite IH. split; [by right|]. intros [->|?]%elem_of_cons; done.
Qed.

Lemma elem_of_removeString s x l : x ∈ removeString s l ↔ x ∈ l ∧ x ≠ s.
Proof.
  induction l as [|y l IH]; simpl; [set_solver|]. case_bool_decide as E; rewrite ?elem_of_cons, IH; naive_solver.
Qed.

(** Taking the finalizer away from an object that only has our own leaves none. *)
Lemma removeFinalizer_nil a :
  own_finalizers finalizerName (Finalizers (v1aai_ObjectMeta a)) →
  Finalizers (v1aai_ObjectMeta (removeFinalizer a)) = [].
Proof.
  unfold own_finalizers. rewrite Forall_forall. intros H. simpl.
  destruct (removeString _ _) as [|x l] eqn:E; [done|].
  assert (x ∈ removeString finalizerName (Finalizers (v1aai_ObjectMeta a))) as Hx by (rewrite E; left).
  apply elem_of_removeString in Hx as [Hx Hne]. by destruct Hne, (H x Hx).
Qed.

Lemma own_finalizers_no_finalizer l :
  own_finalizers finalizerName l → containsString finalizerName l = false → l = [].
Proof.
  intros H Hc. destruct l as [|x l]; [done|]. apply Forall_cons in H as [<- _].
  cbn [containsString] in Hc. by rewrite bool_decide_true in Hc.
Qed.

Lemma own_finalizers_subseteq f l l' : l ⊆ l' → own_finalizers f l' → own_finalizers f l.
Proof. unfold own_finalizers. rewrite !Forall_forall. intros Hs H x Hx. apply H, Hs, Hx. Qed.

(** ** The client keeps the promises of the interface *)

Section client_theory.
Context {W : Type} {api : CrdAPI W} {laws : CrdAPILaws api}.

#[export] Instance crd_client : ClientInt W := {|
  ci_CreateAssignedIdentity := CreateAssignedIdentity;
  ci_UpdateAssignedIdentity := UpdateAssignedIdentity;
  ci_RemoveAssignedIdentity := RemoveAssignedIdentity;
  ci_UpdateAzureAssignedIdentityStatus := UpdateAzureAssignedIdentityStatus
|}.

Definition v1_content (o : V1AzureAssignedIdentity) : content :=
  mkContent (aai_Spec (ConvertV1AssignedIdentityToInternalAssignedIdentity o)) (v1aast_Status (v1aai_Status o))
    (Labels (v1aai_ObjectMeta o)).

Definition crd_stored (w : W) (k : string * string) : option content := v1_content <$> api_obj w k.1 k.2.

Definition crd_ok (w : W) : Prop := ∀ ns name o, api_obj w ns name = Some o →
  own_finalizers finalizerName (Finalizers (v1aai_ObjectMeta o)).

Lemma v1_content_same a b : same_content a b → v1_content a = v1_content b.
Proof.
  intros (Hs & Ht & _ & Hl). unfold v1_content, ConvertV1AssignedIdentityToInternalAssignedIdentity. simpl.
  by rewrite Hs, Ht, Hl.
Qed.

Lemma v1_content_converted a v :
  ConvertInternalAssignedIdentityToV1AssignedIdentity a = Ret v → v1_content v = content_of a.
Proof.
  intros E. pose proof (convert_assigned_cases a) as H. rewrite E in H. destruct H as [_ H].
  unfold v1_content, content_of. rewrite H.
  unfold ConvertInternalAssignedIdentityToV1AssignedIdentity in E. simplify_monad.
  destruct (aas_AzureIdentityRef _); [|done]. destruct (aas_AzureBindingRef _); [|done]. by injection E as <-.
Qed.

Lemma converted_meta a v :
  ConvertInternalAssignedIdentityToV1AssignedIdentity a = Ret v → v1aai_ObjectMeta v = aai_ObjectMeta a.
Proof.
  unfold ConvertInternalAssignedIdentityToV1AssignedIdentity. simplify_monad.
  destruct (aas_AzureIdentityRef _); [|done]. destruct (aas_AzureBindingRef _); [|done]. by intros [= <-].
Qed.

Lemma v1_content_finalizers l o : v1_content (with_finalizers l o) = v1_content o.
Proof. done. Qed.

(** The object that [CreateAssignedIdentity] posts. *)
Definition posted (v : V1AzureAssignedIdentity) : V1AzureAssignedIdentity :=
  if negb (hasFinalizer v) then with_finalizers (Finalizers (v1aai_ObjectMeta v) ++ [finalizerName]) v else v.

Lemma CreateAssignedIdentity_run a w :
  CreateAssignedIdentity a w =
    match ConvertInternalAssignedIdentityToV1AssignedIdentity a with
    | Ret v => let '(r, w') := api_post (ns_of a) (posted v) w in
               (match r with Ret _ => Ret tt | Fail e => Fail e | Panic => Panic end, w')
    | Fail e => (Fail e, w)
    | Panic => (Panic, w)
    end.
Proof.
  unfold CreateAssignedIdentity, posted, lift. simplify_monad.
  destruct (ConvertInternalAssignedIdentityToV1AssignedIdentity a); [|done|done].
  by destruct (api_post _ _ _) as [[| |] w'].
Qed.

Lemma UpdateAssignedIdentity_run a w :
  ∃ e, UpdateAssignedIdentity a w =
    match ConvertInternalAssignedIdentityToV1AssignedIdentity a with
    | Ret v => let '(r, w') := api_put (ns_of a) (name_of a) v w in
               (match r with Ret _ => Ret tt | Fail _ => Fail e | Panic => Panic end, w')
    | Fail e => (Fail e, w)
    | Panic => (Panic, w)
    end.
Proof.
  unfold UpdateAssignedIdentity, lift, catch, fail. simplify_monad.
  destruct (ConvertInternalAssignedIdentityToV1AssignedIdentity a); [|by exists (Errorf "")|by exists (Errorf "")].
  destruct (api_put _ _ _ _) as [[|e|] w']; [by exists (Errorf "")| |by exists (Errorf "")]. by eexists.
Qed.

Lemma convert_complete a : refs_set a = true → ∃ v, ConvertInternalAssignedIdentityToV1AssignedIdentity a = Ret v.
Proof.
  intros Ha. pose proof (convert_assigned_cases a) as H.
  destruct (ConvertInternalAssignedIdentityToV1AssignedIdentity a) as [v| |]; [by exists v|done|congruence].
Qed.

#[export] Instance crd_client_total `{!CrdAPITotal api} : ClientTotal crd_client.
Proof.
  split; simpl.
  - intros a w Ha. rewrite CreateAssignedIdentity_run. destruct (convert_complete a Ha) as [v ->].
    pose proof (post_total (ns_of a) (posted v) w) as H. by destruct (api_post _ _ _) as [[| |] w'].
  - intros a w Ha. destruct (UpdateAssignedIdentity_run a w) as [e ->]. destruct (convert_complete a Ha) as [v ->].
    pose proof (put_total (ns_of a) (name_of a) v w) as H. by destruct (api_put _ _ _ _) as [[| |] w'].
  - intros a w. unfold RemoveAssignedIdentity. pose proof (delete_total (ns_of a) (name_of a) w) as H.
    destruct (api_delete _ _ w) as [[res|e|] w']; [|by destruct (IsNotFound e)|done]. destruct (hasFinalizer res); [|done].
    unfold mbind, M_bind. pose proof (put_total (ns_of a) (name_of a) (removeFinalizer res) w') as H'.
    by destruct (api_put _ _ _ _) as [[| |] w''].
  - intros a st w. apply patch_total.
Qed.

Lemma posted_meta v : Name (v1aai_ObjectMeta (posted v)) = Name (v1aai_ObjectMeta v).
Proof. unfold posted. by case_match. Qed.

Lemma posted_own v :
  own_finalizers finalizerName (Finalizers (v1aai_ObjectMeta v)) →
  own_finalizers finalizerName (Finalizers (v1aai_ObjectMeta (posted v))).
Proof.
  intros H. unfold posted. case_match; [|done]. simpl. apply Forall_app. split; [done|by apply Forall_singleton].
Qed.

Lemma posted_content v : v1_content (posted v) = v1_content v.
Proof. unfold posted. by case_match. Qed.

Lemma pair_key_ne (a : AzureAssignedIdentity) ns name :
  (ns, name) ≠ aai_key a → (ns, name) ≠ (ns_of a, name_of a).
Proof. done. Qed.

Lemma RemoveAssigned_gone (a : AzureAssignedIdentity) (w w' : W) :
  crd_ok w → RemoveAssignedIdentity a w = (Ret tt, w') → api_obj w' (ns_of a) (name_of a) = None.
Proof.
  intros Hok. unfold RemoveAssignedIdentity.
  destruct (api_delete (ns_of a) (name_of a) w) as [[res|e|] w1] eqn:Ed; [| |done].
  - destruct (delete_result _ _ _ _ _ Ed) as (o & Ho & _ & _ & Hf & _). pose proof (Hok _ _ _ Ho) as Hown. rewrite <- Hf in Hown.
    pose proof (delete_law _ _ _ _ _ Ed) as Hd. destruct (hasFinalizer res) eqn:Eh.
    + simplify_monad. destruct (api_put _ _ _ _) as [[r|e|] w2] eqn:Ep; [|done|done]. intros [= <-].
      pose proof (put_law _ _ _ _ _ _ Ep) as Hp. rewrite removeFinalizer_nil in Hp by done.
      unfold hasFinalizer in Eh. destruct (Finalizers (v1aai_ObjectMeta res)); [done|].
      destruct Hd as (_ & _ & _ & Ht). by rewrite Ht in Hp.
    + intros [= <-]. apply own_finalizers_no_finalizer in Hown; [|done]. by rewrite Hown in Hd.
  - destruct (IsNotFound e) eqn:En; [|done]. intros [= <-]. by eapply delete_not_found.
Qed.

(** C22: removing an assigned identity removes it. When [RemoveAssignedIdentity] returns without
    an error, the object is gone from the cluster: it was not there, or it had no finalizer,
    or it was marked for deletion and then written back without the finalizer. *)
Theorem RemoveAssignedIdentity_removes (a : AzureAssignedIdentity) (w w' : W) :
  crd_ok w → RemoveAssignedIdentity a w = (Ret tt, w') → api_obj w' (ns_of a) (name_of a) = None.
Proof. apply RemoveAssigned_gone. Qed.

Lemma remove_ok_frame a w ns name :
  (ns, name) ≠ (ns_of a, name_of a) → api_obj (RemoveAssignedIdentity a w).2 ns name = api_obj w ns name.
Proof.
  intros Hk. unfold RemoveAssignedIdentity. pose proof (delete_frame _ _ w _ _ Hk) as Hd.
  destruct (api_delete _ _ w) as [[res|e|] w1]; simpl in Hd; [|by case_match|done].
  destruct (hasFinalizer res); [|done]. simplify_monad. pose proof (put_frame _ _ (removeFinalizer res) w1 _ _ Hk) as Hp.
  destruct (api_put _ _ _ _) as [[r|e|] w2]; simpl in *; congruence.
Qed.

Lemma crd_remove_inv a w : crd_ok w → crd_ok (RemoveAssignedIdentity a w).2.
Proof.
  intros Hok ns name o Ho. destruct (decide ((ns, name) = (ns_of a, name_of a))) as [[= -> ->]|Hne];
    [|rewrite remove_ok_frame in Ho by done; by eapply Hok].
  assert (∀ o', api_obj (api_delete (ns_of a) (name_of a) w).2 (ns_of a) (name_of a) = Some o' →
    own_finalizers finalizerName (Finalizers (v1aai_ObjectMeta o'))) as Hd.
  { intros o' (o1 & H1 & ->)%delete_finalizers. by eapply Hok. }
  unfold RemoveAssignedIdentity in Ho. destruct (api_delete _ _ w) as [[res|e|] w1] eqn:Ed; simpl in *; [|case_match; eauto|eauto].
  destruct (hasFinalizer res) eqn:Eh; [|eauto].
  destruct (delete_result _ _ _ _ _ Ed) as (o1 & Ho1 & _ & _ & Hf & _). pose proof (Hok _ _ _ Ho1) as Hown. rewrite <- Hf in Hown.
  simplify_monad. pose proof (put_finalizers (ns_of a) (name_of a) (removeFinalizer res) w1 o) as Hp.
  pose proof (removeFinalizer_nil res Hown) as Hnil. cbn [removeFinalizer with_finalizers v1aai_ObjectMeta SetFinalizers Finalizers] in *.
  destruct (api_put _ _ _ _) as [[r|e|] w2]; simpl in *;
    (destruct (Hp Ho) as [Hs|Hs]; [|eauto]; rewrite Hnil in Hs;
     eapply own_finalizers_subseteq; [exact Hs|constructor]).
Qed.

(** Whatever comes of a removal, the object is gone or has the content that it had. *)
Lemma crd_remove_any a w :
  crd_stored (RemoveAssignedIdentity a w).2 (aai_key a) = crd_stored w (aai_key a) ∨
  crd_stored (RemoveAssignedIdentity a w).2 (aai_key a) = None.
Proof.
  unfold crd_stored, aai_key. cbn [fst snd]. change (Namespace (aai_ObjectMeta a)) with (ns_of a).
  change (Name (aai_ObjectMeta a)) with (name_of a). pose proof (delete_any (ns_of a) (name_of a) w) as Hd.
  unfold RemoveAssignedIdentity. destruct (api_delete _ _ w) as [[res|e|] w1] eqn:Ed; cbn [snd] in Hd.
  2: { destruct Hd as [Hd|(o & o' & H1 & H2 & Hs)]; case_match; cbn; rewrite ?Hd, ?H1, ?H2; try (by right);
       left; cbn; f_equal; by apply v1_content_same. }
  2: { destruct Hd as [Hd|(o & o' & H1 & H2 & Hs)]; cbn; rewrite ?Hd, ?H1, ?H2; [by right|].
       left; cbn; f_equal; by apply v1_content_same. }
  assert (v1_content <$> api_obj w1 (ns_of a) (name_of a) = v1_content <$> api_obj w (ns_of a) (name_of a) ∨
    v1_content <$> api_obj w1 (ns_of a) (name_of a) = None) as H1.
  { destruct Hd as [Hd|(o & o' & H1 & H2 & Hs)]; rewrite ?Hd, ?H1, ?H2; [by right|].
    left; cbn; f_equal; by apply v1_content_same. }
  destruct (hasFinalizer res); [|done]. destruct (delete_result _ _ _ _ _ Ed) as (o & Ho & Hs).
  unfold mbind, M_bind. pose proof (put_any (ns_of a) (name_of a) (removeFinalizer res) w1) as Hp.
  assert (v1_content (removeFinalizer res) = v1_content o) as Hc by (rewrite <- (v1_content_same _ _ Hs); done).
  destruct (api_put _ _ _ _) as [[r|e|] w2]; cbn [snd mret M_ret] in *;
    (destruct Hp as [->|[->|(o' & -> & Hs')]]; [done|by right|left; rewrite Ho; cbn; f_equal;
      by rewrite (v1_content_same _ _ Hs')]).
Qed.

Lemma crd_status_any a st w :
  crd_stored (UpdateAzureAssignedIdentityStatus a st w).2 (aai_key a) = crd_stored w (aai_key a) ∨
  ∃ ct, crd_stored w (aai_key a) = Some ct ∧
    crd_stored (UpdateAzureAssignedIdentityStatus a st w).2 (aai_key a) = Some (mkContent (c_Spec ct) st (c_Labels ct)).
Proof.
  unfold crd_stored, aai_key, UpdateAzureAssignedIdentityStatus. cbn [fst snd].
  destruct (patch_any (ns_of a) (name_of a) st w) as [E|(o & o' & H1 & H2 & Hs & Ht & _ & Hl)]; unfold ns_of, name_of in *.
  - left. by rewrite E.
  - right. rewrite H1, H2. eexists. split; [done|]. cbn. f_equal.
    unfold v1_content, ConvertV1AssignedIdentityToInternalAssignedIdentity. simpl. by rewrite Hs, Ht, Hl.
Qed.

#[export, refine] Instance crd_laws : ClientLaws crd_client := {|
  stored := crd_stored; store_ok := crd_ok; finalizer := finalizerName
|}.
Proof.
  - intros a w w' _. simpl. rewrite CreateAssignedIdentity_run.
    destruct (ConvertInternalAssignedIdentityToV1AssignedIdentity a) as [v|e|] eqn:E; [|done|done].
    destruct (api_post _ _ _) as [[r|e|] w1] eqn:Ep; intros [= <-].
    destruct (post_law _ _ _ _ _ Ep) as (o' & Ho & Hs). rewrite posted_meta, (converted_meta _ _ E) in Ho.
    unfold crd_stored, aai_key. simpl. unfold ns_of in Ho. rewrite Ho. simpl.
    by rewrite (v1_content_same _ _ Hs), posted_content, (v1_content_converted _ _ E).
  - intros a w w' _. simpl. destruct (UpdateAssignedIdentity_run a w) as [e ->].
    destruct (ConvertInternalAssignedIdentityToV1AssignedIdentity a) as [v|e'|] eqn:E; [|done|done].
    destruct (api_put _ _ _ _) as [[r|e'|] w1] eqn:Ep; intros [= <-].
    pose proof (put_law _ _ _ _ _ _ Ep) as Hp. unfold crd_stored, aai_key. simpl.
    unfold ns_of, name_of in Hp. case_match; [right; by rewrite Hp|left].
    destruct Hp as (o' & -> & Hs). simpl. by rewrite (v1_content_same _ _ Hs), (v1_content_converted _ _ E).
  - intros a w w' Hok H. pose proof (RemoveAssigned_gone a w w' Hok H) as Hr.
    unfold crd_stored, aai_key. simpl. unfold ns_of, name_of in Hr. by rewrite Hr.
  - intros a st w w' _ H. destruct (patch_law _ _ _ _ _ H) as (o & o' & H1 & H2 & Hs & Ht & _ & Hlab).
    exists (v1_content o). unfold crd_stored, aai_key. simpl. unfold ns_of, name_of in *. rewrite H1, H2.
    split; [done|]. simpl. f_equal. unfold v1_content, ConvertV1AssignedIdentityToInternalAssignedIdentity. simpl.
    by rewrite Hs, Ht, Hlab.
  - intros a w. simpl. rewrite CreateAssignedIdentity_run.
    destruct (ConvertInternalAssignedIdentityToV1AssignedIdentity a) as [v|e|] eqn:E; [|by left|by left].
    pose proof (post_any (ns_of a) (posted v) w) as Hp. rewrite posted_meta, (converted_meta _ _ E) in Hp.
    unfold crd_stored, aai_key, ns_of in *. simpl. destruct (api_post _ _ _) as [[r|e|] w1]; simpl in *;
      (destruct Hp as [->|(o' & -> & Hs)]; [by left|right]; simpl;
       by rewrite (v1_content_same _ _ Hs), posted_content, (v1_content_converted _ _ E)).
  - intros a w. simpl. destruct (UpdateAssignedIdentity_run a w) as [e ->].
    destruct (ConvertInternalAssignedIdentityToV1AssignedIdentity a) as [v|e'|] eqn:E; [|by left|by left].
    pose proof (put_any (ns_of a) (name_of a) v w) as Hp.
    unfold crd_stored, aai_key, ns_of, name_of in *. simpl. destruct (api_put _ _ _ _) as [[r|e'|] w1]; simpl in *;
      (destruct Hp as [->|[->|(o' & -> & Hs)]]; [by left|by right; left|right; right]; simpl;
       by rewrite (v1_content_same _ _ Hs), (v1_content_converted _ _ E)).
  - apply crd_remove_any.
  - apply crd_status_any.
  - intros a w [ns name] Hk. simpl. rewrite CreateAssignedIdentity_run.
    destruct (ConvertInternalAssignedIdentityToV1AssignedIdentity a) as [v|e|] eqn:E; [|done|done].
    pose proof (post_frame (ns_of a) (posted v) w ns name) as Hf. rewrite posted_meta, (converted_meta _ _ E) in Hf.
    destruct (api_post _ _ _) as [[r|e|] w1]; unfold crd_stored; simpl in *; by rewrite Hf.
  - intros a w [ns name] Hk. simpl. destruct (UpdateAssignedIdentity_run a w) as [e ->].
    destruct (ConvertInternalAssignedIdentityToV1AssignedIdentity a) as [v|e'|] eqn:E; [|done|done].
    pose proof (put_frame (ns_of a) (name_of a) v w ns name Hk) as Hf.
    destruct (api_put _ _ _ _) as [[r|e'|] w1]; unfold crd_stored; simpl in *; by rewrite Hf.
  - intros a w [ns name] Hk. unfold crd_stored. simpl. by rewrite remove_ok_frame.
  - intros a st w [ns name] Hk. unfold crd_stored. simpl. unfold UpdateAzureAssignedIdentityStatus. by rewrite patch_frame.
  - intros a w Hown Hok ns name o. simpl. rewrite CreateAssignedIdentity_run.
    destruct (ConvertInternalAssignedIdentityToV1AssignedIdentity a) as [v|e|] eqn:E; [|by apply Hok|by apply Hok].
    rewrite <- (converted_meta _ _ E) in Hown. apply posted_own in Hown.
    pose proof (post_frame (ns_of a) (posted v) w ns name) as Hf.
    pose proof (post_finalizers (ns_of a) (posted v) w o) as Hp.
    destruct (decide ((ns, name) = (ns_of a, Name (v1aai_ObjectMeta (posted v))))) as [[= -> ->]|Hne];
      destruct (api_post _ _ _) as [[r|e|] w1]; simpl in *;
      try (intros [Hs|Hs]%Hp; [by eapply own_finalizers_subseteq|by eapply Hok]);
      rewrite Hf by done; by apply Hok.
  - intros a w Hown Hok ns name o. simpl. destruct (UpdateAssignedIdentity_run a w) as [e ->].
    destruct (ConvertInternalAssignedIdentityToV1AssignedIdentity a) as [v|e'|] eqn:E; [|by apply Hok|by apply Hok].
    rewrite <- (converted_meta _ _ E) in Hown.
    pose proof (put_frame (ns_of a) (name_of a) v w ns name) as Hf.
    pose proof (put_finalizers (ns_of a) (name_of a) v w o) as Hp.
    destruct (decide ((ns, name) = (ns_of a, name_of a))) as [[= -> ->]|Hne];
      destruct (api_put _ _ _ _) as [[r|e'|] w1]; simpl in *;
      try (intros [Hs|Hs]%Hp; [by eapply own_finalizers_subseteq|by eapply Hok]);
      rewrite Hf by done; by apply Hok.
  - apply crd_remove_inv.
  - intros a st w Hok ns name o. simpl. unfold UpdateAzureAssignedIdentityStatus.
    destruct (decide ((ns, name) = (ns_of a, name_of a))) as [[= -> ->]|Hne].
    + intros (o1 & H1 & ->)%patch_finalizers. by eapply Hok.
    + rewrite patch_frame by done. by apply Hok.
Defined.
End client_theory.

(** ** Listing *)

Definition all_assigned (l : list V1AzureAssignedIdentity) : list store_item := ItemAssignedID <$> l.
Definition all_bindings (l : list V1AzureIdentityBinding) : list store_item := ItemBinding <$> l.
Definition all_ids_items (l : list V1AzureIdentity) : list store_item := ItemID <$> l.

(** A listing of a store with items of one type only. *)
Lemma foldM_items {A B C} (item : A → C) (f : A → B) (body : list B → C → outcome (list B)) l acc :
  (∀ acc o, body acc (item o) = Ret (acc ++ [f o])) →
  foldM body acc (item <$> l) = Ret (acc ++ (f <$> l)).
Proof.
  intros Hb. revert acc. induction l as [|o l IH]; intros acc; [by rewrite app_nil_r|].
  cbn [fmap list_fmap foldM]. rewrite Hb. unfold mbind, outcome_bind. by rewrite IH, <- (assoc_L (++)).
Qed.

(** The objects as the listings return them. *)
Definition listed_binding (o : V1AzureIdentityBinding) : AzureIdentityBinding :=
  ConvertV1BindingToInternalBinding (mkV1AzureIdentityBinding (SetGroupVersionKind "v1.AzureIdentityBinding")
    (v1aib_ObjectMeta o) (v1aib_Spec o) (v1aib_Status o)).
Definition listed_id (o : V1AzureIdentity) : AzureIdentity :=
  ConvertV1IdentityToInternalIdentity (mkV1AzureIdentity (SetGroupVersionKind "v1.AzureIdentity")
    (v1ai_ObjectMeta o) (v1ai_Spec o) (v1ai_Status o)).

Lemma ListAssignedIDs_all l : ListAssignedIDs (all_assigned l) = Ret (listed_assigned <$> l).
Proof. by apply (foldM_items ItemAssignedID listed_assigned _ l []). Qed.
Lemma ListBindings_all l : ListBindings (all_bindings l) = Ret (listed_binding <$> l).
Proof. by apply (foldM_items ItemBinding listed_binding _ l []). Qed.
Lemma ListIds_all l : ListIds (all_ids_items l) = Ret (listed_id <$> l).
Proof. by apply (foldM_items ItemID listed_id _ l []). Qed.

Definition all_exceptions (l : list V1AzurePodIdentityException) : list store_item := ItemException <$> l.
Definition listed_exception (o : V1AzurePodIdentityException) : AzurePodIdentityException :=
  ConvertV1PodIdentityExceptionToInternalPodIdentityException
    (mkV1AzurePodIdentityException (SetGroupVersionKind "v1.AzurePodIdentityException")
      (v1ape_ObjectMeta o) (v1ape_Spec o) (v1ape_Status o)).

(** The exceptions of a namespace. *)
Lemma ListPodIdentityExceptions_all l ns :
  ListPodIdentityExceptions (all_exceptions l) ns =
  Ret (listed_exception <$> filter (λ o, Namespace (v1ape_ObjectMeta o) = ns) l).
Proof.
  unfold ListPodIdentityExceptions, all_exceptions.
  match goal with |- foldM ?f _ _ = _ => assert (∀ acc, foldM f acc (ItemException <$> l) =
    Ret (acc ++ (listed_exception <$> filter (λ o, Namespace (v1ape_ObjectMeta o) = ns) l))) as H; [|apply (H [])] end.
  induction l as [|o l IH]; intros acc; [by rewrite app_nil_r|]. rewrite filter_cons. cbn [fmap list_fmap foldM].
  case_bool_decide as Hns; unfold mbind, outcome_bind; (unfold fmap in IH; rewrite IH).
  - rewrite decide_True by done. cbn. by rewrite <- (assoc_L (++)).
  - by rewrite decide_False.
Qed.

(** The identities of a pod whose assignment is in state [st]. *)
Definition pod_ids_in_state (podns podname st : string) (l : list AzureAssignedIdentity) : list AzureIdentity :=
  omap (λ v, if bool_decide (aas_Pod (aai_Spec v) = podname ∧ aas_PodNamespace (aai_Spec v) = podns ∧
                             aast_Status (aai_Status v) = st)
             then aas_AzureIdentityRef (aai_Spec v) else None) l.

Lemma listed_ref o : is_Some (aas_AzureIdentityRef (aai_Spec (listed_assigned o))).
Proof. by eexists. Qed.

Lemma ListPodIds_run (l : list V1AzureAssignedIdentity) (podns podname : string) :
  ∃ m, ListPodIds (all_assigned l) podns podname = Ret m ∧
  ∀ st, m !! st = match pod_ids_in_state podns podname st (listed_assigned <$> l) with
                  | [] => None
                  | ids => Some ids
                  end.
Proof.
  unfold ListPodIds. rewrite ListAssignedIDs_all. unfold mbind at 1, outcome_bind at 1.
  set (body := λ idStateMap v, _).
  assert (∀ vs acc, Forall (λ v, is_Some (aas_AzureIdentityRef (aai_Spec v))) vs →
    ∃ m, foldM body acc vs = Ret m ∧ ∀ st,
      m !! st = match acc !! st, pod_ids_in_state podns podname st vs with
                | None, [] => None
                | o, ids => Some (default [] o ++ ids)
                end) as H.
  { intros vs. induction vs as [|v vs IH]; intros acc Hvs.
    - exists acc. split; [done|]. intros st. simpl. destruct (acc !! st); simpl; [by rewrite app_nil_r|done].
    - apply Forall_cons in Hvs as [[id Hid] Hvs]. cbn [foldM].
      destruct (decide (aas_Pod (aai_Spec v) = podname ∧ aas_PodNamespace (aai_Spec v) = podns)) as [Hp|Hp].
      + assert (body acc v = Ret (<[aast_Status (aai_Status v) :=
          default [] (acc !! aast_Status (aai_Status v)) ++ [id]]> acc)) as ->
          by (unfold body; by rewrite bool_decide_true, Hid by done).
        destruct (IH (<[aast_Status (aai_Status v) := default [] (acc !! aast_Status (aai_Status v)) ++ [id]]> acc) Hvs)
          as (m & E & Hm). exists m. split; [exact E|]. intros st. rewrite Hm. unfold pod_ids_in_state. cbn [omap list_omap].
        destruct (decide (aast_Status (aai_Status v) = st)) as [<-|Hst].
        * rewrite lookup_insert_eq, bool_decide_true, Hid by naive_solver. simpl.
          rewrite <- (assoc_L (++)). by destruct (acc !! _).
        * rewrite lookup_insert_ne by done. by rewrite bool_decide_false by naive_solver.
      + assert (body acc v = Ret acc) as -> by (unfold body; by rewrite bool_decide_false).
        destruct (IH acc Hvs) as (m & E & Hm). exists m. split; [exact E|]. intros st. rewrite Hm.
        unfold pod_ids_in_state. cbn [omap list_omap]. by rewrite (bool_decide_false (_ ∧ _ ∧ _)) by naive_solver. }
  destruct (H (listed_assigned <$> l) ∅) as (m & E & Hm).
  { apply Forall_forall. intros v (o & -> & _)%list_elem_of_fmap. apply listed_ref. }
  exists m. split; [exact E|]. intros st. rewrite Hm, lookup_empty. by destruct (pod_ids_in_state _ _ _ _).
Qed.

(** [ListPodIds] returns, for each state, exactly the identities of the assignments of that
    pod (name and namespace) in that state, in the order of the store; a state without
    any is not in the result. *)
Theorem ListPodIds_spec (l : list V1AzureAssignedIdentity) (podns podname : string) :
  ∃ m, ListPodIds (all_assigned l) podns podname = Ret m ∧
  ∀ st, m !! st = match pod_ids_in_state podns podname st (listed_assigned <$> l) with
                  | [] => None
                  | ids => Some ids
                  end.
Proof. apply ListPodIds_run. Qed.

(** The identity names that the bindings of a namespace and label select. *)
Lemma matching_ids_lookup podLabel namespace l (m : gmap string bool) k :
  is_Some (foldl (λ m binding,
    if bool_decide (podLabel = aibs_Selector (aib_Spec binding) ∧ Namespace (aib_ObjectMeta binding) = namespace)
    then <[aibs_AzureIdentity (aib_Spec binding) := true]> m else m) m l !! k) ↔
  is_Some (m !! k) ∨ ∃ b, b ∈ l ∧ (podLabel = aibs_Selector (aib_Spec b) ∧
      Namespace (aib_ObjectMeta b) = namespace) ∧ aibs_AzureIdentity (aib_Spec b) = k.
Proof.
  revert m. induction l as [|b l IH]; intros m; cbn [foldl]; [set_solver|]. rewrite IH.
  case_bool_decide as E; [|set_solver]. destruct (decide (aibs_AzureIdentity (aib_Spec b) = k)) as [<-|Hne].
  - rewrite lookup_insert_eq. split; [intros _; right; exists b; set_solver|by left; eexists].
  - rewrite lookup_insert_ne by done. set_solver.
Qed.

(** In managed mode a pod gets an identity exactly when a binding of the pod's namespace
    selects the pod's label value and names that identity, and the identity is in the same
    namespace: bindings and identities of other namespaces never match. *)
Lemma GetPodIDsWithBinding_spec (bs : list V1AzureIdentityBinding) (os : list V1AzureIdentity)
    (namespace : string) (labels : gmap string string) :
  ∃ ids, GetPodIDsWithBinding (all_bindings bs) (all_ids_items os) namespace labels = Ret ids ∧
  ∀ id, id ∈ ids ↔
    ∃ o, o ∈ os ∧ id = listed_id o ∧ Namespace (v1ai_ObjectMeta o) = namespace ∧
      ∃ b, b ∈ bs ∧ Namespace (v1aib_ObjectMeta b) = namespace ∧
        v1aibs_Selector (v1aib_Spec b) = map_get labels CRDLabelKey ∧
        v1aibs_AzureIdentity (v1aib_Spec b) = Name (v1ai_ObjectMeta o).
Proof.
  unfold GetPodIDsWithBinding. rewrite ListBindings_all, ListIds_all. unfold mbind, outcome_bind.
  eexists. split; [done|]. intros id.
  rewrite list_elem_of_filter, list_elem_of_fmap, matching_ids_lookup, lookup_empty. split.
  - intros ([[[? [=]]|(b & (ob & -> & Hob)%list_elem_of_fmap & [H1 H2] & H3)] Hns] & o & -> & Ho).
    exists o. repeat split; [done|done|]. exists ob. by repeat split.
  - intros (o & Ho & -> & Hns & b & Hb' & Hbn & Hs & Hid). split; [|by exists o]. split; [|done].
    right. exists (listed_binding b). split; [by apply list_elem_of_fmap_2|]. by repeat split.
Qed.

