(* ===== verification/CrdSim.v ===== *)
(** * A simulated API server, on which the theorems about the custom resource client and
    about MIC are instantiated: objects by namespace and name, each with a deletion mark. *)

From S2P Require Import Prelude GoStrings Types Conversion Fixtures CrdInterface Crd.

Abbreviation cluster := (gmap (string * string) (V1AzureAssignedIdentity * bool)).

Definition not_found : error := mk_error KNotFound "not found".

#[export] Instance sim_api : CrdAPI cluster := {|
  api_post := λ ns o w,
    match w !! (ns, Name (v1aai_ObjectMeta o)) with
    | Some _ => (Fail (Errorf "already exists"), w)
    | None => (Ret o, <[(ns, Name (v1aai_ObjectMeta o)) := (o, false)]> w)
    end;
  api_put := λ ns name o w,
    match w !! (ns, name) with
    | None => (Fail not_found, w)
    | Some (_, t) =>
        if t && bool_decide (Finalizers (v1aai_ObjectMeta o) = [])
        then (Ret o, delete (ns, name) w) else (Ret o, <[(ns, name) := (o, t)]> w)
    end;
  api_delete := λ ns name w,
    match w !! (ns, name) with
    | None => (Fail not_found, w)
    | Some (o, _) =>
        match Finalizers (v1aai_ObjectMeta o) with
        | [] => (Ret o, delete (ns, name) w)
        | _ => (Ret o, <[(ns, name) := (o, true)]> w)
        end
    end;
  api_patch := λ ns name ops w,
    match w !! (ns, name), ops with
    | Some (o, t), [op] =>
        (Ret tt, <[(ns, name) := (mkV1AzureAssignedIdentity (v1aai_TypeMeta o) (v1aai_ObjectMeta o) (v1aai_Spec o)
           (mkV1AzureAssignedIdentityStatus (v1aast_ObjectMeta (v1aai_Status o)) (Value op)
              (v1aast_AvailableReplicas (v1aai_Status o))), t)]> w)
    | _, _ => (Fail not_found, w)
    end;
  api_list_assigned := λ w, (Ret (fst <$> (map_to_list w).*2), w);
  api_list_ids := λ w, (Ret [], w);
  api_put_id := λ _ _ o w, (Ret o, w);
  api_list_bindings := λ w, (Ret [], w);
  api_put_binding := λ _ _ o w, (Ret o, w);
  api_list_exceptions := λ w, (Ret [], w);
  api_put_exception := λ _ _ o w, (Ret o, w)
|}.

#[export] Instance sim_api_total : CrdAPITotal sim_api.
Proof.
  split; intros; simpl; repeat case_match; done.
Qed.

#[export] Instance sim_api_laws : CrdAPILaws sim_api.
Proof.
  refine {| api_obj := λ w ns name, fst <$> w !! (ns, name);
            terminating := λ w ns name, default false (snd <$> w !! (ns, name)) |}.
  - intros ns o w r w' H. simpl in H. destruct (w !! _); simplify_eq. exists r. by rewrite lookup_insert_eq.
  - intros ns name o w r w' H. simpl in H. destruct (w !! _) as [[o' t]|]; [|done]. simpl.
    destruct (t && _); simplify_eq; [by rewrite lookup_delete_eq|]. exists r. by rewrite lookup_insert_eq.
  - intros ns name w r w' H. simpl in H. destruct (w !! _) as [[o' t]|]; [|done].
    destruct (Finalizers _) eqn:E; simplify_eq; rewrite E; [by rewrite lookup_delete_eq|].
    exists r. by rewrite lookup_insert_eq.
  - intros ns name w e w' H _. simpl in H. destruct (w !! _) as [[o' t]|] eqn:E; [by destruct (Finalizers _)|].
    simplify_eq. by rewrite E.
  - intros ns name st w w' H. simpl in H. destruct (w !! _) as [[o' t]|]; [|done]. simplify_eq.
    eexists _, _. by rewrite lookup_insert_eq.
  - intros ns o w ns' name' Hne. simpl. destruct (w !! _); simpl; [done|]. by rewrite lookup_insert_ne.
  - intros ns name o w ns' name' Hne. simpl. destruct (w !! (ns, name)) as [[o' t]|]; [|done].
    destruct (t && _); simpl; by rewrite ?lookup_delete_ne, ?lookup_insert_ne by done.
  - intros ns name w ns' name' Hne. simpl. destruct (w !! (ns, name)) as [[o' t]|]; [|done].
    destruct (Finalizers _); simpl; by rewrite ?lookup_delete_ne, ?lookup_insert_ne by done.
  - intros ns name ops w ns' name' Hne. simpl. destruct (w !! (ns, name)) as [[o' t]|]; [|done].
    destruct ops as [|op [|]]; simpl; by rewrite ?lookup_insert_ne by done.
  - intros ns o w. simpl. destruct (w !! (ns, _)) as [[o1 t]|] eqn:E; simpl; [left; by rewrite E|].
    rewrite lookup_insert_eq. right. by exists o.
  - intros ns name o w. simpl. destruct (w !! (ns, name)) as [[o1 t]|] eqn:E; simpl; [|left; by rewrite E].
    destruct (t && _); simpl; [rewrite lookup_delete_eq; by right; left|]. rewrite lookup_insert_eq. right; right. by exists o.
  - intros ns name w. simpl. destruct (w !! (ns, name)) as [[o1 t]|] eqn:E; simpl; [|left; by rewrite E].
    destruct (Finalizers _); simpl; [rewrite lookup_delete_eq; by left|]. rewrite lookup_insert_eq. right. by exists o1, o1.
  - intros ns name st w. simpl. destruct (w !! (ns, name)) as [[o1 t]|] eqn:E; simpl; [|left; by rewrite E].
    rewrite lookup_insert_eq. right. eexists _, _. done.
  - intros ns name w r w' H. simpl in H. destruct (w !! _) as [[o' t]|]; [|done].
    destruct (Finalizers _); simplify_eq; exists r; done.
Defined.

(** A cluster on which the client has created one assigned identity. *)
Definition assigned1 : AzureAssignedIdentity := mk_assigned "p1" "ns" "n1" "a" "ba" AssignedIDCreated.
Definition cluster1 : cluster := (CreateAssignedIdentity assigned1 ∅).2.

Lemma crd_ok_create a w :
  own_finalizers finalizerName (Finalizers (aai_ObjectMeta a)) → crd_ok w → crd_ok (CreateAssignedIdentity a w).2.
Proof. exact (@create_inv _ crd_client crd_laws a w). Qed.

Lemma RemoveAssignedIdentity_removes_witness :
  crd_ok cluster1 ∧ api_obj cluster1 "default" "p1-ns-a" ≠ None ∧
  api_obj (RemoveAssignedIdentity assigned1 cluster1).2 "default" "p1-ns-a" = None.
Proof.
  assert (crd_ok cluster1) as Hok.
  { apply crd_ok_create; [constructor|]. intros ns name o. simpl. by rewrite lookup_empty. }
  split; [exact Hok|]. split; [vm_compute; discriminate|].
  refine (RemoveAssignedIdentity_removes assigned1 cluster1 _ Hok _). vm_compute. reflexivity.
Defined.
