(* ===== verification/Metrics.v ===== *)
(** * pkg/metrics/metrics.go: the measures, the views that aggregate them, and the reporter.

    The metrics library (opencensus) is used through [tag.New], which may refuse a tag, and
    [stats.Record], which appends to the measurements taken so far. Durations are kept in
    nanoseconds and the bounds of the distributions, given in seconds, in milliseconds. *)

From S2P Require Import Prelude GoStrings.

(** ** Names *)

Definition assignedIdentityAdditionDurationName : string := "assigned_identity_addition_duration_seconds".
Definition assignedIdentityAdditionCountName : string := "assigned_identity_addition_count".
Definition assignedIdentityDeletionDurationName : string := "assigned_identity_deletion_duration_seconds".
Definition assignedIdentityDeletionCountName : string := "assigned_identity_deletion_count".
Definition assignedIdentityUpdateDurationName : string := "assigned_identity_update_duration_seconds".
Definition assignedIdentityUpdateCountName : string := "assigned_identity_update_count".
Definition nmiOperationsDurationName : string := "nmi_operations_duration_seconds".
Definition micCycleDurationName : string := "mic_cycle_duration_seconds".
Definition micCycleCountName : string := "mic_cycle_count".
Definition micNewLeaderElectionCountName : string := "mic_new_leader_election_count".
Definition cloudProviderOperationsErrorsCountName : string := "cloud_provider_operations_errors_count".
Definition cloudProviderOperationsDurationName : string := "cloud_provider_operations_duration_seconds".
Definition kubernetesAPIOperationsErrorsCountName : string := "kubernetes_api_operations_errors_count".
Definition imdsOperationsErrorsCountName : string := "imds_operations_errors_count".
Definition imdsOperationsDurationName : string := "imds_operations_duration_seconds".
Definition AdalTokenFromMSIOperationName : string := "adal_token_msi".
Definition AdalTokenFromMSIWithUserAssignedIDOperationName : string := "adal_token_msi_userassignedid".
Definition AdalTokenOperationName : string := "adal_token".
Definition GetVmssOperationName : string := "vmss_get".
Definition UpdateVMSSOperationName : string := "vmss_update".
Definition GetVMOperationName : string := "vm_get".
Definition UpdateVMOperationName : string := "vm_update".
Definition AssignedIdentityDeletionOperationName : string := "assigned_identity_deletion".
Definition AssignedIdentityAdditionOperationName : string := "assigned_identity_addition".
Definition AssignedIdentityUpdateOperationName : string := "assigned_identity_update".
Definition UpdateAzureAssignedIdentityStatusOperationName : string := "update_azure_assigned_identity_status".
Definition GetPodListOperationName : string := "get_pod_list".
Definition GetSecretOperationName : string := "get_secret".


Definition componentNamespace : string := "aadpodidentity".

(** ** Measures *)

Inductive number := Float64 | Int64.

Inductive measure_unit := UnitMilliseconds | UnitDimensionless.

Record measure := mkMeasure { m_number : number; m_name : string; m_description : string; m_unit : measure_unit }.

#[export] Instance number_eq_dec : EqDecision number.
Proof. solve_decision. Defined.
#[export] Instance measure_unit_eq_dec : EqDecision measure_unit.
Proof. solve_decision. Defined.
#[export] Instance measure_eq_dec : EqDecision measure.
Proof. solve_decision. Defined.

Definition AssignedIdentityAdditionDurationM : measure := mkMeasure Float64 assignedIdentityAdditionDurationName
  "Duration in seconds of assigned identity addition operations" UnitMilliseconds.
Definition AssignedIdentityAdditionCountM : measure := mkMeasure Int64 assignedIdentityAdditionCountName
  "Total number of assigned identity addition operations" UnitDimensionless.
Definition AssignedIdentityDeletionDurationM : measure := mkMeasure Float64 assignedIdentityDeletionDurationName
  "Duration in seconds of assigned identity deletion operations" UnitMilliseconds.
Definition AssignedIdentityDeletionCountM : measure := mkMeasure Int64 assignedIdentityDeletionCountName
  "Total number of assigned identity deletion operations" UnitDimensionless.
Definition NMIOperationsDurationM : measure := mkMeasure Float64 nmiOperationsDurationName
  "Duration in seconds for nmi operations" UnitMilliseconds.
Definition MICCycleDurationM : measure := mkMeasure Float64 micCycleDurationName
  "Duration in seconds for single mic sync cycle" UnitMilliseconds.
Definition MICCycleCountM : measure := mkMeasure Int64 micCycleCountName
  "Total number of cycles executed in mic" UnitDimensionless.
Definition MICNewLeaderElectionCountM : measure := mkMeasure Int64 micNewLeaderElectionCountName
  "Total number of new leader election in mic" UnitDimensionless.
Definition CloudProviderOperationsErrorsCountM : measure := mkMeasure Int64 cloudProviderOperationsErrorsCountName
  "Total number of errors in cloud provider operations" UnitDimensionless.
Definition CloudProviderOperationsDurationM : measure := mkMeasure Float64 cloudProviderOperationsDurationName
  "Duration in seconds of cloudprovider operations" UnitMilliseconds.
Definition KubernetesAPIOperationsErrorsCountM : measure := mkMeasure Int64 kubernetesAPIOperationsErrorsCountName
  "Total number of errors in kubernetes api operations" UnitDimensionless.
Definition ImdsOperationsErrorsCountM : measure := mkMeasure Int64 imdsOperationsErrorsCountName
  "Total number of errors in imds token operations" UnitDimensionless.
Definition ImdsOperationsDurationM : measure := mkMeasure Float64 imdsOperationsDurationName
  "Duration in seconds of imds token operations" UnitMilliseconds.
Definition AssignedIdentityUpdateDurationM : measure := mkMeasure Float64 assignedIdentityUpdateDurationName
  "Duration in seconds of assigned identity update operations" UnitMilliseconds.
Definition AssignedIdentityUpdateCountM : measure := mkMeasure Int64 assignedIdentityUpdateCountName
  "Total number of assigned identity update operations" UnitDimensionless.

(** ** Views *)

Definition operationTypeKey : string := "operation_type".
Definition statusCodeKey : string := "status_code".
Definition namespaceKey : string := "namespace".
Definition resourceKey : string := "resource".

Inductive aggregation := Count | Distribution (bounds : list Z).

(** A view without a name has the name of its measure. *)
Record view := mkView { v_Measure : measure; v_Aggregation : aggregation; v_TagKeys : list string }.

(** [registerViews]: the views it registers. *)
Definition registerViews : list view := [
  mkView AssignedIdentityAdditionDurationM (Distribution [10; 20; 50; 100; 200; 300; 400; 500; 600; 700; 800; 900; 1000; 2000; 3000; 4000; 5000; 10000]%Z) [];
  mkView AssignedIdentityAdditionCountM (Count) [];
  mkView AssignedIdentityDeletionDurationM (Distribution [10; 20; 50; 100; 200; 300; 400; 500; 600; 700; 800; 900; 1000; 2000; 3000; 4000; 5000; 10000]%Z) [];
  mkView AssignedIdentityDeletionCountM (Count) [];
  mkView NMIOperationsDurationM (Distribution [500; 1000; 2000; 3000; 4000; 5000; 10000; 15000; 20000; 25000; 30000; 40000; 50000; 60000; 70000; 80000; 90000; 100000]%Z) [operationTypeKey; statusCodeKey; namespaceKey; resourceKey];
  mkView MICCycleDurationM (Distribution [500; 1000; 5000; 10000; 30000; 60000; 120000; 300000; 600000; 900000; 1200000]%Z) [];
  mkView MICCycleCountM (Count) [];
  mkView MICNewLeaderElectionCountM (Count) [];
  mkView CloudProviderOperationsErrorsCountM (Count) [operationTypeKey];
  mkView CloudProviderOperationsDurationM (Distribution [500; 1000; 5000; 10000; 30000; 60000; 120000; 300000; 600000; 900000; 1200000]%Z) [operationTypeKey];
  mkView KubernetesAPIOperationsErrorsCountM (Count) [operationTypeKey];
  mkView ImdsOperationsErrorsCountM (Count) [operationTypeKey];
  mkView ImdsOperationsDurationM (Distribution [10; 20; 50; 100; 200; 300; 400; 500; 600; 700; 800; 900; 1000; 2000; 3000; 4000; 5000; 10000]%Z) [operationTypeKey];
  mkView AssignedIdentityUpdateDurationM (Distribution [10; 20; 50; 100; 200; 300; 400; 500; 600; 700; 800; 900; 1000; 2000; 3000; 4000; 5000; 10000]%Z) [];
  mkView AssignedIdentityUpdateCountM (Count) []].

(** ** The reporter *)

(** What [stats.Record] has been given: measurements, with the tags of the context. *)
Record entry := mkEntry { e_tags : list (string * string); e_measurements : list (measure * Z) }.

(** A world in which measurements are recorded, with a clock. *)
Class Recorder (W : Type) := {
  recorded : W → list entry;
  record : entry → W → W;
  now : W → Z;
  record_recorded e w : recorded (record e w) = recorded w ++ [e];
  record_now e w : now (record e w) = now w
}.

(** The tags of the context a reporter was created with. *)
Record Reporter := mkReporter { r_ctx : list (string * string) }.

Section reporter.
Context {W : Type} `{rec : Recorder W}.
Variable tag_New : list (string * string) → option error.

Definition NewReporter : outcome Reporter :=
  match tag_New [] with Some err => Fail err | None => Ret (mkReporter []) end.

(** The methods have a pointer receiver: on a nil pointer, taking the lock panics. The result
    of a method is the error it returns. *)
Definition on_reporter {A} (r : option Reporter) (k : Reporter → M W A) : M W A :=
  match r with Some r => k r | None => lift Panic end.

Definition Report (r : option Reporter) (ms : list (measure * Z)) : M W unit :=
  on_reporter r (λ r, modify (record (mkEntry (r_ctx r) ms))).

Definition ReportOperationAndStatus (r : option Reporter) (operationType statusCode namespace resource : string)
    (ms : list (measure * Z)) : M W (option error) :=
  on_reporter r (λ r,
    let tags := [(operationTypeKey, operationType); (statusCodeKey, statusCode); (namespaceKey, namespace);
                 (resourceKey, resource)] in
    match tag_New tags with
    | Some err => mret (Some err)
    | None => _ ← modify (record (mkEntry (r_ctx r ++ tags) ms)); mret None
    end).

Definition ReportOperation (r : option Reporter) (operationType : string) (measurement : measure * Z) :
    M W (option error) :=
  on_reporter r (λ r,
    let tags := [(operationTypeKey, operationType)] in
    match tag_New tags with
    | Some err => mret (Some err)
    | None => _ ← modify (record (mkEntry (r_ctx r ++ tags) [measurement])); mret None
    end).

Definition ReportIMDSOperationError (r : option Reporter) (operation : string) : M W (option error) :=
  ReportOperation r operation (ImdsOperationsErrorsCountM, 1%Z).
Definition ReportIMDSOperationDuration (r : option Reporter) (operation : string) (duration : Z) : M W (option error) :=
  ReportOperation r operation (ImdsOperationsDurationM, duration).
Definition ReportCloudProviderOperationError (r : option Reporter) (operation : string) : M W (option error) :=
  ReportOperation r operation (CloudProviderOperationsErrorsCountM, 1%Z).
Definition ReportCloudProviderOperationDuration (r : option Reporter) (operation : string) (duration : Z) :
    M W (option error) :=
  ReportOperation r operation (CloudProviderOperationsDurationM, duration).
Definition ReportKubernetesAPIOperationError (r : option Reporter) (operation : string) : M W (option error) :=
  ReportOperation r operation (KubernetesAPIOperationsErrorsCountM, 1%Z).

(** ** Properties *)

(** A measurement is kept with its tags: exactly one registered view is of its measure, it groups
    by exactly the tags of the entry, and it counts a counter and distributes a duration. *)
Definition viewed (e : entry) : Prop :=
  ∀ m v, (m, v) ∈ e_measurements e →
    ∃ w, filter (λ w, v_Measure w = m) registerViews = [w] ∧ v_TagKeys w = (e_tags e).*1 ∧
      (v_Aggregation w = Count ↔ m_number m = Int64).

(** An operation either panics on a nil reporter, or leaves the world as it is and returns
    the refusal of the tags, or records one entry. *)
Lemma ReportOperation_run r op m w :
  ReportOperation r op m w =
    match r with
    | None => (Panic, w)
    | Some r => match tag_New [(operationTypeKey, op)] with
                | Some err => (Ret (Some err), w)
                | None => (Ret None, record (mkEntry (r_ctx r ++ [(operationTypeKey, op)]) [m]) w)
                end
    end.
Proof. unfold ReportOperation, on_reporter. destruct r; [|done]. by destruct (tag_New _). Qed.
End reporter.

(** The names of the views (those of their measures) are distinct, so registering them
    succeeds, and every measure has one. *)
Lemma registerViews_names : NoDup ((λ v, m_name (v_Measure v)) <$> registerViews).
Proof. by_computation. Qed.

(** The bounds of the distributions increase. *)
Fixpoint increasing (l : list Z) : bool :=
  match l with
  | x :: ((y :: _) as l') => (x <? y)%Z && increasing l'
  | _ => true
  end.

Lemma registerViews_bounds : Forall (λ v, match v_Aggregation v with Count => true | Distribution b => increasing b end = true) registerViews.
Proof. by_computation. Qed.

(** ** Reporting through the operation reports *)

Section reports.
Context {W : Type} `{rec : Recorder W}.
Variable tag_New : list (string * string) → option error.

(** A call that records the measurements [ms] with [tags], if the library accepts these. *)
Definition records (m : M W (option error)) (tags : list (string * string)) (ms : list (measure * Z)) : Prop :=
  (∀ w, m w = match tag_New tags with
              | Some err => (Ret (Some err), w)
              | None => (Ret None, record (mkEntry tags ms) w)
              end) ∧
  viewed (mkEntry tags ms).

Lemma ReportOperation_records op m :
  viewed (mkEntry [(operationTypeKey, op)] [m]) →
  records (ReportOperation tag_New (Some (mkReporter [])) op m) [(operationTypeKey, op)] [m].
Proof. intros Hv. split; [|done]. intros w. by rewrite ReportOperation_run. Qed.

Lemma ReportOperationAndStatus_records op st ns res ms :
  let tags := [(operationTypeKey, op); (statusCodeKey, st); (namespaceKey, ns); (resourceKey, res)] in
  viewed (mkEntry tags ms) →
  records (ReportOperationAndStatus tag_New (Some (mkReporter [])) op st ns res ms) tags ms.
Proof.
  intros tags Hv. split; [|done]. intros w. unfold ReportOperationAndStatus, on_reporter. fold tags. by destruct (tag_New tags).
Qed.

(** The test of [viewed] for a measure and the keys of the tags. *)
Definition has_view (keys : list string) (m : measure) : bool :=
  match filter (λ w, v_Measure w = m) registerViews with
  | [w] => bool_decide (v_TagKeys w = keys) &&
           match v_Aggregation w, m_number m with Count, Int64 | Distribution _, Float64 => true | _, _ => false end
  | _ => false
  end.

Lemma viewed_all tags ms : Forall (λ mv, has_view tags.*1 mv.1 = true) ms → viewed (mkEntry tags ms).
Proof.
  rewrite Forall_forall. intros H m v Hm. specialize (H _ Hm). unfold has_view in H. cbn [fst] in H.
  destruct (filter _ registerViews) as [|w [|]]; [done| |done]. exists w. split; [reflexivity|].
  apply andb_true_iff in H as [?%bool_decide_eq_true H]. split; [done|]. by destruct (v_Aggregation w), (m_number m).
Qed.

Lemma viewed_one tags m v : has_view tags.*1 m = true → viewed (mkEntry tags [(m, v)]).
Proof. intros H. apply viewed_all. by constructor. Qed.

(** The measures that the resource client and MIC report without tags. *)
Definition untagged : list measure := [
  AssignedIdentityAdditionDurationM; AssignedIdentityAdditionCountM; AssignedIdentityDeletionDurationM;
  AssignedIdentityDeletionCountM; AssignedIdentityUpdateDurationM; AssignedIdentityUpdateCountM;
  MICCycleDurationM; MICCycleCountM; MICNewLeaderElectionCountM].

Lemma untagged_views : Forall (λ m, has_view [] m = true) untagged.
Proof. by_computation. Qed.

(** C36: no measurement is lost to its view. Each method of a reporter that [NewReporter] has
    built records one entry with the tags of the method ([Report] without any), unless the
    library refuses the tags; and every measure of the entry is aggregated by exactly one
    registered view, which groups by exactly these tags: counters are counted, durations
    distributed. This covers all fifteen measures of the package, whose views can be registered
    because their names are distinct. *)
Theorem reports_are_viewed r op st ns res d ms :
  NewReporter tag_New = Ret r → Forall (λ mv, mv.1 ∈ untagged) ms →
  let on_op := [(operationTypeKey, op)] in
  (∀ w, Report (Some r) ms w = (Ret tt, record (mkEntry [] ms) w)) ∧ viewed (mkEntry [] ms) ∧
  records (ReportIMDSOperationError tag_New (Some r) op) on_op [(ImdsOperationsErrorsCountM, 1%Z)] ∧
  records (ReportIMDSOperationDuration tag_New (Some r) op d) on_op [(ImdsOperationsDurationM, d)] ∧
  records (ReportCloudProviderOperationError tag_New (Some r) op) on_op [(CloudProviderOperationsErrorsCountM, 1%Z)] ∧
  records (ReportCloudProviderOperationDuration tag_New (Some r) op d) on_op [(CloudProviderOperationsDurationM, d)] ∧
  records (ReportKubernetesAPIOperationError tag_New (Some r) op) on_op [(KubernetesAPIOperationsErrorsCountM, 1%Z)] ∧
  records (ReportOperationAndStatus tag_New (Some r) op st ns res [(NMIOperationsDurationM, d)])
    [(operationTypeKey, op); (statusCodeKey, st); (namespaceKey, ns); (resourceKey, res)] [(NMIOperationsDurationM, d)] ∧
  NoDup ((λ v, m_name (v_Measure v)) <$> registerViews).
Proof.
  unfold NewReporter. destruct (tag_New []) as [err|]; [done|]. intros [= <-] Hms. cbv zeta.
  assert (Forall (λ mv : measure * Z, has_view [] mv.1 = true) ms) as Hv.
  { eapply Forall_impl; [exact Hms|]. intros [m v] Hm. exact (proj1 (Forall_forall _ _) untagged_views m Hm). }
  split; [done|]. split; [by apply viewed_all|].
  do 5 (split; [by apply ReportOperation_records, viewed_one|]).
  split; [by apply ReportOperationAndStatus_records, viewed_one|apply registerViews_names].
Qed.
End reports.

(** A log of entries, without a clock. *)
#[export] Instance list_recorder : Recorder (list entry) := {|
  recorded := λ w, w;
  record := λ e w, w ++ [e];
  now := λ _, 0%Z;
  record_recorded := λ _ _, eq_refl;
  record_now := λ _ _, eq_refl
|}.

Lemma reports_are_viewed_witness :
  let ms := [(MICCycleCountM, 1); (MICCycleDurationM, 7)]%Z in
  Report (Some (mkReporter [])) ms [] = (Ret tt, [mkEntry [] ms]) ∧ viewed (mkEntry [] ms).
Proof.
  destruct (reports_are_viewed (λ _, None) (mkReporter []) "" "" "" "" 0 [(MICCycleCountM, 1); (MICCycleDurationM, 7)]%Z)
    as (H & Hv & _).
  - reflexivity.
  - repeat constructor; apply (bool_decide_unpack _); vm_compute; exact I.
  - split; [exact (H [])|exact Hv].
Defined.
