(* ===== verification/PodClient.v ===== *)
(** * Pods as MIC and NMI see them: pkg/pod/pod.go and the pod part of pkg/k8s/client.go. *)

From S2P Require Import Prelude GoStrings Types Conversion Fixtures MicDesired Crd Metrics.

(** ** pkg/pod: the pod client of MIC *)

(** What the informer reports. *)
Inductive pod_change := PodAdded (p : Pod) | PodRemoved (p : Pod) | PodChanged (oldPod newPod : Pod).

(** [addPodHandler]: the events it sends to the channel. *)
Definition addPodHandler (ch : pod_change) : list EventType :=
  match ch with
  | PodAdded _ => [PodCreated]
  | PodRemoved _ => [PodDeleted]
  | PodChanged oldPod newPod =>
      if bool_decide (pod_NodeName oldPod ≠ pod_NodeName newPod ∨ pod_label oldPod ≠ pod_label newPod)
      then [PodUpdated] else []
  end.

(** [GetPods]: the cached pods that carry the label. *)
Definition GetPods (cached : list Pod) : list Pod :=
  filter (λ p, is_Some (Labels (pod_ObjectMeta p) !! CRDLabelKey)) cached.

(** [labelInExceptionList] and [IsPodExcepted]. *)
Definition labelInExceptionList `{R : GoRange} (podLabels : gmap string string)
    (exceptionList : list AzurePodIdentityException) : bool :=
  existsb (λ exception,
    existsb (λ kv : string * string,
      match podLabels !! kv.1 with Some val => EqualFold val kv.2 | None => false end)
      (go_range 105 (apes_PodLabels (ape_Spec exception)))) exceptionList.

Definition IsPodExcepted `{R : GoRange} (podLabels : gmap string string)
    (exceptionList : list AzurePodIdentityException) : bool :=
  (0 <? length exceptionList)%nat && labelInExceptionList podLabels exceptionList.

(** ** pkg/k8s: the pods of a node, by IP address *)

(** The pod informer of NMI: an object of its store, [None] when it is not a pod, and time. *)
Class PodStore (W : Type) := {
  ps_list : W → list (option Pod);
  ps_sleep : Z → W → W
}.

Definition getPodListRetries : nat := 4.
Definition getPodListSleepTimeMilliseconds : Z := 300.
Definition Millisecond : Z := 1000000.

Definition getReplicasetName (pod : Pod) : string :=
  match find (λ owner, EqualFold (or_Kind owner) "ReplicaSet") (pod_OwnerReferences pod) with
  | Some owner => or_Name owner
  | None => ""
  end.

(** [NodeNameFilter] of pkg/k8s: the field selector it leaves in the list options. *)
Definition PodNodeNameFilter (nodeName FieldSelector : string) : string :=
  FieldSelector +:+ "spec.nodeName=" +:+ nodeName.

(** [GetPod], on the indexer's answer for the key. *)
Definition GetPod (byKey : string → outcome (option (option Pod))) (namespace name : string) : outcome Pod :=
  match byKey (namespace +:+ "/" +:+ name) with
  | Panic => Panic
  | Fail err => Fail (Errorf ("failed to get pod " +:+ namespace +:+ "/" +:+ name +:+ ", error: " +:+ Error err))
  | Ret None => Fail (Errorf ("pod " +:+ namespace +:+ "/" +:+ name +:+ " doesn't exist"))
  | Ret (Some None) => Fail (Errorf "could not cast *v1.Pod to v1.Pod")
  | Ret (Some (Some pod)) => Ret pod
  end.

Definition isPhaseValid (p : string) : bool := bool_decide (p = "Pending" ∨ p = "Running").

Section kube.
Context {W : Type} `{PodStore W} `{Recorder W}.
Variable tag_New : list (string * string) → option error.
Variable reporter : option Reporter.

(** The loop of [getPodList] over the objects of the store. *)
Definition matching_pods (podip : string) (objs : list (option Pod)) : outcome (list Pod) :=
  foldM (λ podList o,
    match o with
    | None => Fail (Errorf "could not cast *v1.Pod to v1.Pod")
    | Some pod =>
        Ret (if bool_decide (pod_PodIP pod = podip) && isPhaseValid (pod_Phase pod) then podList ++ [pod] else podList)
    end) [] objs.

Definition getPodList (podip : string) : M W (list Pod) := λ w,
  (match matching_pods podip (ps_list w) with
   | Ret [] => Fail (Errorf "pod list is empty")
   | r => r
   end, w).

(** [getPodListRetry]: at least one attempt, then one per retry that is left. Every failed
    attempt is counted; a failure of the report is only logged. *)
Fixpoint getPodListRetry (podip : string) (retries : nat) (sleeptime : Z) : M W (list Pod) :=
  catch (getPodList podip) (λ err,
    _ ← ReportKubernetesAPIOperationError tag_New reporter GetPodListOperationName;
    match retries with
    | O => fail err
    | Datatypes.S retries' => modify (ps_sleep (sleeptime * Millisecond)) ≫= λ _, getPodListRetry podip retries' sleeptime
    end).

(** What [GetPodInfo] returns: namespace, name, replica set and labels. *)
Record pod_info := mkPodInfo { pi_ns : string; pi_name : string; pi_rsName : string; pi_MatchLabels : gmap string string }.

Definition info_of (p : Pod) : pod_info :=
  mkPodInfo (pod_ns p) (pod_name p) (getReplicasetName p) (Labels (pod_ObjectMeta p)).

Definition GetPodInfo (podip : string) : M W pod_info :=
  if bool_decide (podip = "") then fail (Errorf "pod IP is empty")
  else
    podList ← getPodListRetry podip getPodListRetries getPodListSleepTimeMilliseconds;
    match podList with
    | [p] => mret (info_of p)
    | _ => fail (Errorf ("failed to match pod IP " +:+ podip))
    end.
End kube.

(** ** Properties *)

(** An exception excepts a pod when one of its labels is, up to case, a label of the pod. *)
Definition excepts (podLabels : gmap string string) (e : AzurePodIdentityException) : Prop :=
  ∃ k v v', apes_PodLabels (ape_Spec e) !! k = Some v ∧ podLabels !! k = Some v' ∧ ToLower v = ToLower v'.

Lemma IsPodExcepted_run `{R : GoRange} (podLabels : gmap string string) (l : list AzurePodIdentityException) :
  IsPodExcepted podLabels l = true ↔ ∃ e, e ∈ l ∧ excepts podLabels e.
Proof.
  unfold IsPodExcepted. assert (labelInExceptionList podLabels l = true ↔ ∃ e, e ∈ l ∧ excepts podLabels e) as H.
  { unfold labelInExceptionList. rewrite existsb_exists. setoid_rewrite existsb_exists. unfold excepts. split.
    - intros (e & He & [k v] & Hkv & Hm). rewrite <- list_elem_of_In, elem_of_go_range in Hkv. simpl in Hm.
      exists e. rewrite list_elem_of_In. split; [done|]. destruct (podLabels !! k) as [v'|] eqn:E; [|done].
      exists k, v, v'. apply EqualFold_spec in Hm. done.
    - intros (e & He & k & v & v' & Hk & Hv & E). exists e. rewrite <- list_elem_of_In. split; [done|].
      exists (k, v). rewrite <- list_elem_of_In, elem_of_go_range. split; [done|]. simpl. rewrite Hv. by apply EqualFold_spec. }
  rewrite andb_true_iff, H, Nat.ltb_lt. split; [by intros [_ ?]|]. intros (e & He & Hx). split; [|eauto].
  destruct l; [by apply not_elem_of_nil in He|simpl; lia].
Qed.

(** A pod is excepted exactly when some exception of its namespace carries a label
    that the pod has too, keys compared exactly and values up to case. *)
Theorem IsPodExcepted_spec `{R : GoRange} (podLabels : gmap string string) (l : list AzurePodIdentityException) :
  IsPodExcepted podLabels l = true ↔ ∃ e, e ∈ l ∧ excepts podLabels e.
Proof. apply IsPodExcepted_run. Qed.

(** C24: an update of a pod for which MIC's handler sends no event cannot change what MIC
    wants: replacing the old object by the new one in the listed pods gives the same
    desired assigned identities and node references. *)
Theorem silent_update_harmless (c : MicClient) (l1 l2 : list Pod) (oldPod newPod : Pod)
    (bs : list AzureIdentityBinding) (idMap : gmap string AzureIdentity) :
  pod_ns oldPod = pod_ns newPod → pod_name oldPod = pod_name newPod →
  addPodHandler (PodChanged oldPod newPod) = [] →
  createDesiredAssignedIdentityList c (l1 ++ oldPod :: l2) bs idMap =
  createDesiredAssignedIdentityList c (l1 ++ newPod :: l2) bs idMap.
Proof.
  intros Hns Hname Hev. unfold addPodHandler in Hev. case_bool_decide as Hc; [done|].
  assert (pod_NodeName oldPod = pod_NodeName newPod) as Hnode by (destruct (decide (pod_NodeName oldPod = pod_NodeName newPod)); tauto).
  assert (pod_label oldPod = pod_label newPod) as Hlab by (destruct (decide (pod_label oldPod = pod_label newPod)); tauto).
  unfold createDesiredAssignedIdentityList. rewrite !foldl_app. cbn [foldl]. f_equal.
  generalize (foldl (assign_pod c bs idMap) (∅, ∅) l1). intros [m refs]. unfold assign_pod. rewrite Hnode, Hlab.
  case_bool_decide; [done|]. case_bool_decide; [done|]. unfold matchedBindings. rewrite Hlab.
  destruct (filter _ bs) as [|b l]; [done|]. f_equal. generalize (sort_bindings (b :: l)). intros sorted. revert m.
  induction sorted as [|x s IH]; intros m; [done|]. cbn [foldl].
  assert (assign_binding c idMap oldPod m x = assign_binding c idMap newPod m x) as ->; [|apply IH].
  unfold assign_binding, namespace_mismatch. by rewrite Hns, Hname, Hnode.
Qed.

Lemma silent_update_harmless_witness :
  createDesiredAssignedIdentityList (mkMicClient false 20 None) ([] ++ [mk_pod "ns" "p" "n1" "sel"])
    [mk_binding "ns" "b" "id" "sel"] {["ns/id" := mk_identity "ns" "id"]} =
  createDesiredAssignedIdentityList (mkMicClient false 20 None)
    ([] ++ [mkPod (mk_meta "ns" "p" "2" {[CRDLabelKey := "sel"; "app" := "x"]}) [] "n1" "Failed" "10.0.0.2"])
    [mk_binding "ns" "b" "id" "sel"] {["ns/id" := mk_identity "ns" "id"]}.
Proof.
  apply (silent_update_harmless (mkMicClient false 20 None) [] [] (mk_pod "ns" "p" "n1" "sel")
    (mkPod (mk_meta "ns" "p" "2" {[CRDLabelKey := "sel"; "app" := "x"]}) [] "n1" "Failed" "10.0.0.2")).
  - reflexivity.
  - reflexivity.
  - vm_compute. reflexivity.
Defined.

Section kube_theory.
Context {W : Type} `{ps : PodStore W} `{rec : Recorder W}.
Variable tag_New : list (string * string) → option error.
Variable r : Reporter.

(** The pods a store has for an IP address: those not yet, or no longer, running do not count. *)
Definition live_pods (w : W) (podip : string) : list Pod :=
  filter (λ p, pod_PodIP p = podip ∧ isPhaseValid (pod_Phase p) = true) (omap id (ps_list w)).

Definition all_pods (w : W) : Prop := Forall (λ o, is_Some o) (ps_list w).

Lemma matching_pods_spec podip objs acc :
  Forall (λ o : option Pod, is_Some o) objs →
  foldM (λ podList o,
    match o with
    | None => Fail (Errorf "could not cast *v1.Pod to v1.Pod")
    | Some pod =>
        Ret (if bool_decide (pod_PodIP pod = podip) && isPhaseValid (pod_Phase pod) then podList ++ [pod] else podList)
    end) acc objs =
  Ret (acc ++ filter (λ p, pod_PodIP p = podip ∧ isPhaseValid (pod_Phase p) = true) (omap id objs)).
Proof.
  intros Ho. revert acc. induction Ho as [|o objs [p ->] Ho IH]; intros acc; [by rewrite app_nil_r|].
  cbn [foldM omap list_omap id]. simplify_monad. rewrite IH. rewrite filter_cons. unfold id at 2.
  destruct (decide (pod_PodIP p = podip ∧ isPhaseValid (pod_Phase p) = true)) as [[Hip ->]|Hn].
  - rewrite bool_decide_true by done. cbn. by rewrite <- (assoc_L (++)).
  - case_bool_decide; [|done]. destruct (isPhaseValid (pod_Phase p)); [tauto|done].
Qed.

Lemma getPodList_spec podip w : all_pods w →
  getPodList podip w = (match live_pods w podip with [] => Fail (Errorf "pod list is empty") | l => Ret l end, w).
Proof.
  intros Ha. unfold getPodList, matching_pods. rewrite matching_pods_spec by done. rewrite app_nil_l. fold (live_pods w podip). by destruct (live_pods w podip).
Qed.

(** A failed attempt is counted, unless the metrics library refuses its tags. *)
Definition missed (w : W) : W :=
  match tag_New [(operationTypeKey, GetPodListOperationName)] with
  | Some _ => w
  | None => record (mkEntry (r_ctx r ++ [(operationTypeKey, GetPodListOperationName)]) [(KubernetesAPIOperationsErrorsCountM, 1%Z)]) w
  end.

Lemma report_missed w : ∃ e,
  ReportKubernetesAPIOperationError tag_New (Some r) GetPodListOperationName w = (Ret e, missed w).
Proof. unfold ReportKubernetesAPIOperationError, missed. rewrite ReportOperation_run. destruct (tag_New _); eauto. Qed.

(** The world after a failed attempt and the wait, and after [k] of them. *)
Definition retried (w : W) : W := ps_sleep (getPodListSleepTimeMilliseconds * Millisecond) (missed w).

Definition waited (k : nat) (w : W) : W := Nat.iter k retried w.

Lemma waited_succ k w : waited k (retried w) = waited (Datatypes.S k) w.
Proof. unfold waited. induction k as [|k IH]; [done|]. cbn [Nat.iter nat_rect] in *. by f_equal. Qed.

(** The last attempt of a call: it found pods, or it is counted as well. *)
Definition last_attempt (podip : string) (w : W) : outcome (list Pod) * W :=
  match live_pods w podip with
  | [] => (Fail (Errorf "pod list is empty"), missed w)
  | l => (Ret l, w)
  end.

Lemma getPodListRetry_spec (podip : string) (retries : nat) (w : W) :
  (∀ k : nat, (k ≤ retries)%nat → all_pods (waited k w)) →
  ∃ k : nat, (k ≤ retries)%nat ∧ (∀ j : nat, (j < k)%nat → live_pods (waited j w) podip = []) ∧
    ((k < retries)%nat → live_pods (waited k w) podip ≠ []) ∧
    getPodListRetry tag_New (Some r) podip retries getPodListSleepTimeMilliseconds w = last_attempt podip (waited k w).
Proof.
  revert w. induction retries as [|n IH]; intros w Ha; cbn [getPodListRetry]; unfold catch;
    rewrite getPodList_spec by (apply (Ha 0); lia); destruct (report_missed w) as [e Hm].
  - exists 0. split; [done|]. split; [intros; lia|]. split; [lia|]. change (waited 0 w) with w. unfold last_attempt.
    destruct (live_pods w podip); [|done]. unfold mbind, M_bind. by rewrite Hm.
  - destruct (live_pods w podip) as [|p l] eqn:E.
    + unfold mbind, M_bind, modify. rewrite Hm. fold (retried w). destruct (IH (retried w)) as (k & Hk & Hj & Hn & Hr).
      { intros k Hk. rewrite waited_succ. apply Ha. lia. }
      exists (Datatypes.S k). rewrite waited_succ in Hr. split; [lia|]. split; [|split; [|exact Hr]].
      * intros [|j] Hlt; [done|]. rewrite <- waited_succ. apply Hj. lia.
      * intros Hlt. rewrite <- waited_succ. apply Hn. lia.
    + exists 0. split; [lia|]. split; [intros; lia|]. change (waited 0 w) with w. unfold last_attempt. rewrite E. done.
Qed.

Lemma GetPodInfo_run (podip : string) (w : W) :
  podip ≠ "" → (∀ k : nat, (k ≤ getPodListRetries)%nat → all_pods (waited k w)) →
  ∃ k : nat, (k ≤ getPodListRetries)%nat ∧ (∀ j : nat, (j < k)%nat → live_pods (waited j w) podip = []) ∧
    ((k < getPodListRetries)%nat → live_pods (waited k w) podip ≠ []) ∧
    (GetPodInfo tag_New (Some r) podip w).2 = (last_attempt podip (waited k w)).2 ∧
    ∀ i, (GetPodInfo tag_New (Some r) podip w).1 = Ret i ↔ ∃ p, live_pods (waited k w) podip = [p] ∧ i = info_of p.
Proof.
  intros Hip Ha. destruct (getPodListRetry_spec podip getPodListRetries w Ha) as (k & Hk & Hj & Hn & Hr).
  exists k. split; [done|]. split; [done|]. split; [done|].
  unfold GetPodInfo. rewrite bool_decide_false by done. unfold mbind, M_bind. rewrite Hr. unfold last_attempt.
  destruct (live_pods (waited k w) podip) as [|p [|q l]]; (split; [done|]); intros i.
  - split; [done|]. by intros (p & ? & _).
  - split; [intros [= <-]; eauto|]. by intros (p' & [= ->] & ->).
  - split; [done|]. by intros (p' & ? & _).
Qed.

(** C23: [GetPodInfo] identifies a pod by its IP address only when that is unambiguous. It reads
    the cache at most five times, 300 ms apart, until it holds a pending or running pod with
    the address; it answers with that pod when it is the only one, and with an error when
    there are several or still none. Every attempt that found none is counted as an error of
    the API ([missed]), the last one too. *)
Theorem GetPodInfo_spec (podip : string) (w : W) :
  podip ≠ "" → (∀ k : nat, (k ≤ getPodListRetries)%nat → all_pods (waited k w)) →
  ∃ k : nat, (k ≤ getPodListRetries)%nat ∧ (∀ j : nat, (j < k)%nat → live_pods (waited j w) podip = []) ∧
    ((k < getPodListRetries)%nat → live_pods (waited k w) podip ≠ []) ∧
    (GetPodInfo tag_New (Some r) podip w).2 =
      (if bool_decide (live_pods (waited k w) podip = []) then missed (waited k w) else waited k w) ∧
    ∀ i, (GetPodInfo tag_New (Some r) podip w).1 = Ret i ↔ ∃ p, live_pods (waited k w) podip = [p] ∧ i = info_of p.
Proof.
  intros Hip Ha. destruct (GetPodInfo_run podip w Hip Ha) as (k & Hk & Hj & Hn & -> & Hi).
  exists k. repeat (split; [done|]). split; [|done]. unfold last_attempt. by destruct (live_pods (waited k w) podip).
Qed.
End kube_theory.

(** A store that lists a pod after 400 ms, with the measurements taken. *)
Definition late_pod : Pod := mkPod (mk_meta "ns" "web-1" "1" ∅) [mkOwnerReference "replicaset" "web"] "n1" "Running" "10.0.0.7".

#[export] Instance late_store : PodStore (Z * list entry) := {|
  ps_list := λ w, if (w.1 <? 400000000)%Z then [] else [Some late_pod];
  ps_sleep := λ d w, ((w.1 + d)%Z, w.2)
|}.

#[export] Instance late_recorder : Recorder (Z * list entry) := {|
  recorded := snd; record := λ e w, (w.1, w.2 ++ [e]); now := fst;
  record_recorded := λ _ _, eq_refl; record_now := λ _ _, eq_refl
|}.

Lemma GetPodInfo_spec_witness :
  let got := GetPodInfo (λ _, None) (Some (mkReporter [])) "10.0.0.7" (0%Z, []) in
  ∃ k : nat, (k ≤ getPodListRetries)%nat ∧ live_pods (waited (λ _, None) (mkReporter []) k (0%Z, [])) "10.0.0.7" = [late_pod] ∧
  got.1 = Ret (mkPodInfo "ns" "web-1" "web" ∅) ∧ length got.2.2 = 2%nat.
Proof.
  destruct (GetPodInfo_spec (λ _, None) (mkReporter []) "10.0.0.7" (0%Z, [])) as (k & Hk & _ & _ & _ & H).
  - discriminate.
  - intros k Hk. unfold all_pods. simpl. destruct (_ <? _)%Z; [constructor|]. constructor; [by eexists|constructor].
  - assert ((GetPodInfo (λ _, None) (Some (mkReporter [])) "10.0.0.7" (0%Z, [] : list entry)).1 = Ret (mkPodInfo "ns" "web-1" "web" ∅)) as E
      by (vm_compute; reflexivity).
    destruct (proj1 (H _) E) as (p & Hp & _). exists k. split; [exact Hk|]. split; [|split; [exact E|vm_compute; reflexivity]].
    rewrite Hp. f_equal. assert (p ∈ [p]) as Hin by constructor. rewrite <- Hp in Hin. unfold live_pods in Hin.
    apply list_elem_of_filter in Hin as [_ Hin]. revert Hin. simpl. destruct (_ <? _)%Z; simpl; [intros Hin; inversion Hin|].
    intros Hin. apply list_elem_of_singleton in Hin. exact Hin.
Defined.
