(* ===== verification/Auth.v ===== *)
(** * pkg/auth: tokens from the adal library, and version/version.go.

    The library is a parameter ([Adal]): the objects it builds are opaque, and a refresh
    gives the object with its new token. Every call of the package reports one operation to
    the metrics reporter, from a deferred function that also runs when the body panics. *)

From S2P Require Import Prelude GoStrings Metrics.

(** ** version.go *)

(** [GetUserAgent]; [customUserAgent], [GitCommit] and [BuildDate] are set at build or start. *)
Definition GetUserAgent (customUserAgent GitCommit BuildDate component version : string) : string :=
  let s := "aad-pod-identity/" +:+ component +:+ "/" +:+ version +:+ "/" +:+ GitCommit +:+ "/" +:+ BuildDate in
  if bool_decide (customUserAgent ≠ "") then s +:+ " " +:+ customUserAgent else s.

(** ** The adal library *)

(** The fields of [adal.Token]; the times are [json.Number]s, that is, strings. *)
Record Token := mkToken {
  AccessToken : string;
  RefreshToken : string;
  ExpiresIn : string;
  ExpiresOn : string;
  NotBefore : string;
  t_Resource : string;
  t_Type : string
}.

Class Adal (W : Type) := {
  OAuthConfig : Type;
  MultiTenantOAuthConfig : Type;
  ServicePrincipalToken : Type;
  MultiTenantServicePrincipalToken : Type;
  PrivateKey : Type;                                   (* what pkcs12.Decode finds *)
  RsaPrivateKey : Type;
  Certificate : Type;
  AddToUserAgent : string → outcome unit;
  NewOAuthConfig : string → string → M W OAuthConfig;
  NewMultiTenantOAuthConfig : string → string → list string → M W MultiTenantOAuthConfig;
  NewServicePrincipalTokenFromManagedIdentity : string → option string → M W ServicePrincipalToken;
  NewServicePrincipalToken : OAuthConfig → string → string → string → M W ServicePrincipalToken;
  NewMultiTenantServicePrincipalToken :
    MultiTenantOAuthConfig → string → string → string → M W MultiTenantServicePrincipalToken;
  NewServicePrincipalTokenFromCertificate :
    OAuthConfig → string → Certificate → RsaPrivateKey → string → M W ServicePrincipalToken;
  pkcs12_Decode : string → string → outcome (PrivateKey * Certificate);
  as_rsa : PrivateKey → option RsaPrivateKey;          (* the type assertion *)
  Refresh : ServicePrincipalToken → M W ServicePrincipalToken;
  RefreshWithContext : MultiTenantServicePrincipalToken → M W MultiTenantServicePrincipalToken;
  token_of : ServicePrincipalToken → Token;
  PrimaryToken : MultiTenantServicePrincipalToken → ServicePrincipalToken;
  AuxiliaryTokens : MultiTenantServicePrincipalToken → list ServicePrincipalToken
}.

(** ** errors.go *)

Definition IsTokenRefreshError (err : error) : bool := bool_decide (err_kind err = KTokenRefresh).
Definition IsHealthCheckError (err : error) : bool := negb (IsTokenRefreshError err).

(** ** auth.go *)

Definition defaultActiveDirectoryEndpoint : string := "https://login.microsoftonline.com/".

(** [init]: a refused user agent panics. *)
Definition init {W} `{Adal W} (userAgent : string) : outcome unit :=
  match AddToUserAgent userAgent with Fail _ => Panic | r => r end.

(** [InitReporter] sets the package's reporter, nil at first. *)
Definition InitReporter (reporterInstance : option Reporter) (reporter : option Reporter) : option Reporter :=
  reporterInstance.

Section auth.
Context {W : Type} `{rec : Recorder W} `{adal : Adal W}.
Variable tag_New : list (string * string) → option error.
Variable reporter : option Reporter.

(** The deferred function: an error is counted, anything else (a panic too) is timed; the
    report's own error is only logged. *)
Definition deferred {A} (m : M W Datatypes.unit) (r : outcome A) : M W A := λ w,
  match m w with (Panic, w') => (Panic, w') | (_, w') => (r, w') end.

Definition reported {A} (operation : string) (m : M W A) : M W A := λ w,
  let begin := now w in
  match m w with
  | (Fail err, w') => deferred (ReportIMDSOperationError tag_New reporter operation ≫= λ _, mret tt) (Fail err) w'
  | (r, w') =>
      deferred (ReportIMDSOperationDuration tag_New reporter operation (now w' - begin) ≫= λ _, mret tt) r w'
  end.

(** Obtain a fresh token. *)
Definition refreshed (spt : ServicePrincipalToken) : M W Token :=
  spt ← Refresh spt;
  mret (token_of spt).

Definition GetServicePrincipalTokenFromMSI (resource : string) : M W Token :=
  reported AdalTokenFromMSIOperationName
    (spt ← NewServicePrincipalTokenFromManagedIdentity resource None;
     refreshed spt).

Definition GetServicePrincipalTokenFromMSIWithUserAssignedID (clientID resource : string) : M W Token :=
  reported AdalTokenFromMSIWithUserAssignedIDOperationName
    (spt ← NewServicePrincipalTokenFromManagedIdentity resource (Some clientID);
     refreshed spt).

Definition newServicePrincipalToken (activeDirectoryEndpoint tenantID clientID secret resource : string) :
    M W (list Token) :=
  oauthConfig ← NewOAuthConfig activeDirectoryEndpoint tenantID;
  spt ← NewServicePrincipalToken oauthConfig clientID secret resource;
  token ← refreshed spt;
  mret [token].

Definition newMultiTenantServicePrincipalToken
    (activeDirectoryEndpoint primaryTenantID clientID secret resource : string) (auxiliaryTenantIDs : list string) :
    M W (list Token) :=
  oauthConfig ← NewMultiTenantOAuthConfig activeDirectoryEndpoint primaryTenantID auxiliaryTenantIDs;
  spt ← NewMultiTenantServicePrincipalToken oauthConfig clientID secret resource;
  spt ← RefreshWithContext spt;
  mret (token_of (PrimaryToken spt) :: (token_of <$> AuxiliaryTokens spt)).

Definition activeDirectoryEndpoint (adEndpointFromSpec : string) : string :=
  if bool_decide (adEndpointFromSpec ≠ "") then adEndpointFromSpec else defaultActiveDirectoryEndpoint.

Definition GetServicePrincipalToken (adEndpointFromSpec tenantID clientID secret resource : string)
    (auxiliaryTenantIDs : list string) : M W (list Token) :=
  reported AdalTokenOperationName
    (if bool_decide (length auxiliaryTenantIDs ≠ 0%nat)
     then newMultiTenantServicePrincipalToken (activeDirectoryEndpoint adEndpointFromSpec) tenantID clientID secret
            resource auxiliaryTenantIDs
     else newServicePrincipalToken (activeDirectoryEndpoint adEndpointFromSpec) tenantID clientID secret resource).

Definition GetServicePrincipalTokenWithCertificate
    (adEndpointFromSpec tenantID clientID certificate password resource : string) : M W Token :=
  reported AdalTokenOperationName
    (oauthConfig ← NewOAuthConfig (activeDirectoryEndpoint adEndpointFromSpec) tenantID;
     kc ← lift (pkcs12_Decode certificate password);
     key ← lift (deref (as_rsa kc.1));
     spt ← NewServicePrincipalTokenFromCertificate oauthConfig clientID kc.2 key resource;
     refreshed spt).
End auth.

(** ** Properties *)

(** The library does not report metrics of its own through this reporter. *)
Class AdalLaws {W : Type} `{rec : Recorder W} (adal : Adal W) := {
  silent_NewOAuthConfig e t w : recorded (NewOAuthConfig e t w).2 = recorded w;
  silent_NewMultiTenantOAuthConfig e t l w : recorded (NewMultiTenantOAuthConfig e t l w).2 = recorded w;
  silent_NewFromManagedIdentity r o w : recorded (NewServicePrincipalTokenFromManagedIdentity r o w).2 = recorded w;
  silent_New c i s r w : recorded (NewServicePrincipalToken c i s r w).2 = recorded w;
  silent_NewMulti c i s r w : recorded (NewMultiTenantServicePrincipalToken c i s r w).2 = recorded w;
  silent_NewFromCertificate c i x k r w : recorded (NewServicePrincipalTokenFromCertificate c i x k r w).2 = recorded w;
  silent_Refresh t w : recorded (Refresh t w).2 = recorded w;
  silent_RefreshWithContext t w : recorded (RefreshWithContext t w).2 = recorded w
}.

Section auth_theory.
Context {W : Type} `{rec : Recorder W} `{adal : Adal W} `{laws : !AdalLaws adal}.
Variable tag_New : list (string * string) → option error.

(** Nothing is recorded. *)
Definition silent {A} (m : M W A) : Prop := ∀ w, recorded (m w).2 = recorded w.

Lemma silent_bind {A B} (m : M W A) (k : A → M W B) : silent m → (∀ a, silent (k a)) → silent (m ≫= k).
Proof.
  intros Hm Hk w. unfold mbind, M_bind. specialize (Hm w). destruct (m w) as [[a| |] w']; simpl in *; [|done|done].
  by rewrite Hk.
Qed.
Lemma silent_ret {A} (a : A) : silent (mret a).
Proof. done. Qed.
Lemma silent_lift {A} (o : outcome A) : silent (lift o).
Proof. done. Qed.

(** What a call that is reported does to the recorded measurements. *)
Definition one_report {A} (operation : string) (call : M W A) : Prop :=
  ∀ w, (call w).1 ≠ Panic →
    ∃ e, recorded (call w).2 = recorded w ++ [e] ∧ e_tags e = [(operationTypeKey, operation)] ∧
      match (call w).1 with
      | Ret _ => ∃ d, e_measurements e = [(ImdsOperationsDurationM, d)]
      | _ => e_measurements e = [(ImdsOperationsErrorsCountM, 1%Z)]
      end.

Lemma reported_one {A} operation (m : M W A) :
  tag_New [(operationTypeKey, operation)] = None → silent m →
  one_report operation (reported tag_New (Some (mkReporter [])) operation m).
Proof.
  intros Ht Hm w Hp. unfold reported in *. specialize (Hm w). destruct (m w) as [[a|e|] w'] eqn:E; simpl in Hm.
  - unfold deferred, ReportIMDSOperationDuration, mbind, M_bind in *. rewrite ReportOperation_run, Ht in *. simpl in *.
    eexists. rewrite record_recorded, Hm. split; [done|]. split; [done|]. by eexists.
  - unfold deferred, ReportIMDSOperationError, mbind, M_bind in *. rewrite ReportOperation_run, Ht in *. simpl in *.
    eexists. by rewrite record_recorded, Hm.
  - unfold deferred, ReportIMDSOperationDuration, mbind, M_bind in *. by rewrite ReportOperation_run, Ht in Hp.
Qed.

Ltac silent_step :=
  let w := fresh "w" in
  intros w; first
    [apply silent_NewOAuthConfig | apply silent_NewMultiTenantOAuthConfig | apply silent_NewFromManagedIdentity
    |apply silent_New | apply silent_NewMulti | apply silent_NewFromCertificate | apply silent_Refresh
    |apply silent_RefreshWithContext].

Ltac silence :=
  repeat first [apply silent_ret | apply silent_lift | silent_step | apply silent_bind; [|intros ?]].

(** Every call that acquires a token reports exactly one operation, under its own name and
    whatever path it takes: a failed call adds one to the error count, a successful one
    records its duration. *)
Theorem token_calls_report_once resource clientID adEndpoint tenantID secret certificate password aux :
  (∀ op, tag_New [(operationTypeKey, op)] = None) →
  let r := Some (mkReporter []) in
  one_report AdalTokenFromMSIOperationName (GetServicePrincipalTokenFromMSI tag_New r resource) ∧
  one_report AdalTokenFromMSIWithUserAssignedIDOperationName
    (GetServicePrincipalTokenFromMSIWithUserAssignedID tag_New r clientID resource) ∧
  one_report AdalTokenOperationName
    (GetServicePrincipalToken tag_New r adEndpoint tenantID clientID secret resource aux) ∧
  one_report AdalTokenOperationName
    (GetServicePrincipalTokenWithCertificate tag_New r adEndpoint tenantID clientID certificate password resource).
Proof.
  intros Ht. repeat split; apply reported_one; try apply Ht; [silence|silence| |silence].
  case_bool_decide; silence.
Qed.

(** A reported call returns what its body returns. *)
Lemma reported_Ret {A} r operation (m : M W A) w a w' :
  reported tag_New r operation m w = (Ret a, w') → ∃ w1, m w = (Ret a, w1).
Proof.
  unfold reported, deferred. destruct (m w) as [[b|e|] v]; match goal with |- context [mbind ?k ?x ?y] => destruct (mbind k x y) as [[]] end; intros H; simplify_eq; eauto.
Qed.

(** A token request for a service principal gives the primary tenant's token first, then one
    token per auxiliary tenant that adal returns; never an empty list. *)
Lemma GetServicePrincipalToken_nonempty r adEndpoint tenantID clientID secret resource aux w l w' :
  GetServicePrincipalToken tag_New r adEndpoint tenantID clientID secret resource aux w = (Ret l, w') →
  ∃ primary rest, l = primary :: rest.
Proof.
  intros (w1 & H)%reported_Ret. case_bool_decide.
  - unfold newMultiTenantServicePrincipalToken in H. do 3 apply bind_Ret in H as (? & ? & _ & H).
    injection H as <- _. eauto.
  - unfold newServicePrincipalToken in H. do 3 apply bind_Ret in H as (? & ? & _ & H). injection H as <- _. eauto.
Qed.
End auth_theory.

(** ** A concrete library

    The service principal tokens are strings; those of [revoked] cannot be refreshed. *)

Definition sim_token (s : string) : Token := mkToken ("token of " +:+ s) "" "3600" "7200" "0" s "Bearer".

Definition sim_refresh {W} (s : string) : M W string :=
  if bool_decide (s = "revoked") then fail (mk_error KTokenRefresh "refresh failed") else mret s.

#[export] Instance sim_adal {W} : Adal W := {|
  OAuthConfig := string;
  MultiTenantOAuthConfig := list string;
  ServicePrincipalToken := string;
  MultiTenantServicePrincipalToken := string * list string;
  PrivateKey := string;
  RsaPrivateKey := string;
  Certificate := string;
  AddToUserAgent := λ _, Ret tt;
  NewOAuthConfig := λ e t, mret (e +:+ t);
  NewMultiTenantOAuthConfig := λ e t l, mret (t :: l);
  NewServicePrincipalTokenFromManagedIdentity := λ r o, mret (default "system" o);
  NewServicePrincipalToken := λ c i s r, mret i;
  NewMultiTenantServicePrincipalToken := λ c i s r, mret (i, tail c);
  NewServicePrincipalTokenFromCertificate := λ c i x k r, mret i;
  pkcs12_Decode := λ c p, if bool_decide (c = "") then Fail (Errorf "no certificate") else Ret (p, c);
  as_rsa := λ k, Some k;
  Refresh := sim_refresh;
  RefreshWithContext := λ t, (_ ← sim_refresh t.1; mret t);
  token_of := sim_token;
  PrimaryToken := fst;
  AuxiliaryTokens := snd
|}.

Lemma sim_refresh_silent {W} `{Recorder W} s (w : W) : recorded (sim_refresh s w).2 = recorded w.
Proof. unfold sim_refresh. by case_bool_decide. Qed.

#[export] Instance sim_adal_laws {W} `{Recorder W} : AdalLaws (W := W) sim_adal.
Proof.
  split; intros; try reflexivity; [apply sim_refresh_silent|].
  simpl. unfold mbind, M_bind. pose proof (sim_refresh_silent (fst t) w). by destruct (sim_refresh _ _) as [[]].
Qed.

Definition accept_tags (tags : list (string * string)) : option error := None.

Lemma token_calls_report_once_witness :
  (∀ op, accept_tags [(operationTypeKey, op)] = None) ∧
  one_report (W := list entry) AdalTokenFromMSIWithUserAssignedIDOperationName
    (GetServicePrincipalTokenFromMSIWithUserAssignedID accept_tags (Some (mkReporter [])) "revoked" "vault") ∧
  recorded (GetServicePrincipalTokenFromMSIWithUserAssignedID (W := list entry) accept_tags
    (Some (mkReporter [])) "revoked" "vault" []).2 =
    [mkEntry [(operationTypeKey, AdalTokenFromMSIWithUserAssignedIDOperationName)] [(ImdsOperationsErrorsCountM, 1%Z)]].
Proof.
  assert (∀ op, accept_tags [(operationTypeKey, op)] = None) as Ht by (intros op; reflexivity).
  split; [exact Ht|]. split; [|vm_compute; reflexivity].
  apply (token_calls_report_once (W := list entry) accept_tags "vault" "revoked" "" "" "" "" "" [] Ht).
Defined.
