(* ===== verification/CloudInit.v ===== *)
(** * The cloud provider client: configuration and construction (pkg/cloudprovider:
    [NewCloudProvider], [Init], [NewVirtualMachinesClient], [NewVMSSClient];
    pkg/config/azureconfig.go).

    Reading files and the environment, YAML, and the Azure libraries are parameters
    ([CloudLib]); files are read in the state in which they are at that moment. [Init] also runs
    when the configuration file changes, on the client that is in use: what it leaves behind
    when it fails matters. *)

From S2P Require Import Prelude GoStrings Metrics Auth Retry CloudIdentity CloudInterface CloudProvider.

Record AzureConfig := mkAzureConfig {
  Cloud : string;
  TenantID : string;
  ClientID : string;
  ClientSecret : string;
  cfg_SubscriptionID : string;
  ResourceGroupName : string;
  SecurityGroupName : string;
  VMType : string;
  UseManagedIdentityExtension : bool;
  UserAssignedIdentityID : string
}.

Definition zeroAzureConfig : AzureConfig := mkAzureConfig "" "" "" "" "" "" "" "" false "".

(** The fields of [azure.Environment] that are used. *)
Record Environment := mkEnvironment { ActiveDirectoryEndpoint : string; ResourceManagerEndpoint : string }.

(** The two kinds of clients of the compute API. *)
Inductive client_kind := VirtualMachines | VirtualMachineScaleSets.

Class CloudLib := {
  Files : Type;                                          (* the files at a moment *)
  os_ReadFile : Files → string → string + error;
  os_Getenv : string → string;
  yaml_Unmarshal : string → AzureConfig → AzureConfig * option error;
  EnvironmentFromName : string → outcome Environment;
  PublicCloud : Environment;
  cl_OAuthConfig : Type;
  SPT : Type;                                            (* *adal.ServicePrincipalToken *)
  cl_AddToUserAgent : string → outcome unit;             (* of adal *)
  cl_NewOAuthConfig : string → string → outcome cl_OAuthConfig;
  NewServicePrincipalTokenFromMSI : string → string → outcome SPT;
  NewServicePrincipalTokenFromMSIWithUserAssignedID : string → string → string → outcome SPT;
  cl_NewServicePrincipalToken : cl_OAuthConfig → string → string → string → outcome SPT;
  client_AddToUserAgent : client_kind → string → outcome unit   (* of a client of the compute API *)
}.

Section init.
Context `{lib : CloudLib}.
Variable tag_New : list (string * string) → option error.
Variable userAgent : string.                             (* version.GetUserAgent("MIC", ...) *)

(** A client of the compute API, and what is built around it; nothing is throttled yet. *)
Record sdk_client := mkSdkClient { sc_Subscription : string; BaseURI : string; Authorizer : SPT; PollingDelay : Z }.
Record machine_client := mkMachineClient { mc_client : sdk_client; mc_reporter : Reporter; mc_throttle : throttle }.

(** A client that could not be built is a nil pointer. *)
Record provider := mkProvider {
  p_VMClient : option machine_client;
  p_VMSSClient : option machine_client;
  p_Config : AzureConfig;
  p_configFile : string;
  StatusCodesForRetry : list Z                           (* of the package autorest *)
}.

(** [if err != nil { return fmt.Errorf(prefix, err) }] *)
Definition or_error {A} (prefix : string) (o : outcome A) : outcome A :=
  match o with Fail err => Fail (Errorf (prefix +:+ ", error: " +:+ Error err)) | o => o end.

(** [NewVirtualMachinesClient] and [NewVMSSClient], which differ in the kind of the client. *)
Definition new_machine_client (kind : client_kind) (config : AzureConfig) (spt : SPT) : outcome machine_client :=
  azureEnv ← or_error "failed to get cloud environment" (EnvironmentFromName (Cloud config));
  _ ← or_error "failed to add MIC to user agent" (client_AddToUserAgent kind userAgent);
  reporter ← or_error "failed to create reporter for metrics" (NewReporter tag_New);
  Ret (mkMachineClient (mkSdkClient (cfg_SubscriptionID config) (ResourceManagerEndpoint azureEnv) spt (5 * Second))
         reporter (mkThrottle 0 0)).

Definition NewVirtualMachinesClient := new_machine_client VirtualMachines.
Definition NewVMSSClient := new_machine_client VirtualMachineScaleSets.

(** Lines 69-90: the configuration, from the file if there is one, or the environment. *)
Definition env_config : AzureConfig :=
  mkAzureConfig (os_Getenv "CLOUD") (os_Getenv "TENANT_ID") (os_Getenv "CLIENT_ID") (os_Getenv "CLIENT_SECRET")
    (os_Getenv "SUBSCRIPTION_ID") (os_Getenv "RESOURCE_GROUP") "" (os_Getenv "VM_TYPE")
    (EqualFold (os_Getenv "USE_MSI") "True") (os_Getenv "USER_ASSIGNED_MSI_CLIENT_ID").

Definition load_config (files : Files) (configFile : string) : AzureConfig * option error :=
  if bool_decide (configFile ≠ "") then
    match os_ReadFile files configFile with
    | inl bytes =>
        match yaml_Unmarshal bytes zeroAzureConfig with
        | (c, Some err) => (c, Some (Errorf ("failed to unmarshal JSON, error: " +:+ Error err)))
        | r => r
        end
    | inr err => (zeroAzureConfig, Some (Errorf ("failed to config file " +:+ configFile +:+ ", error: " +:+ Error err)))
    end
  else (env_config, None).

(** Lines 107-133: the credentials MIC uses. *)
Definition credentials (c : AzureConfig) (azureEnv : Environment) (oauthConfig : cl_OAuthConfig) : outcome SPT :=
  if UseManagedIdentityExtension c then
    if bool_decide (UserAssignedIdentityID c = "")
    then or_error "failed to get token from system-assigned identity"
           (NewServicePrincipalTokenFromMSI "" (ResourceManagerEndpoint azureEnv))
    else or_error "failed to get token from user-assigned identity"
           (NewServicePrincipalTokenFromMSIWithUserAssignedID "" (ResourceManagerEndpoint azureEnv) (UserAssignedIdentityID c))
  else or_error "failed to get service principal token"
         (cl_NewServicePrincipalToken oauthConfig (ClientID c) (ClientSecret c) (ResourceManagerEndpoint azureEnv)).

(** Lines 92-133: from the configuration to a token. *)
Definition authenticate (c : AzureConfig) : outcome SPT :=
  azureEnv ← or_error "failed to get cloud environment" (EnvironmentFromName (Cloud c));
  _ ← or_error "failed to add MIC to user agent" (cl_AddToUserAgent userAgent);
  oauthConfig ← or_error "failed to create OAuth config" (cl_NewOAuthConfig (ActiveDirectoryEndpoint azureEnv) (TenantID c));
  credentials c azureEnv oauthConfig.

Definition StatusTooManyRequests : Z := 429.

Definition set_config (c : AzureConfig) (p : provider) : provider :=
  mkProvider (p_VMClient p) (p_VMSSClient p) c (p_configFile p) (StatusCodesForRetry p).
Definition set_vmss (v : option machine_client) (p : provider) : provider :=
  mkProvider (p_VMClient p) v (p_Config p) (p_configFile p) (StatusCodesForRetry p).
Definition set_vm (v : option machine_client) (p : provider) : provider :=
  mkProvider v (p_VMSSClient p) (p_Config p) (p_configFile p) (StatusCodesForRetry p).
Definition drop_throttling_code (p : provider) : provider :=
  mkProvider (p_VMClient p) (p_VMSSClient p) (p_Config p) (p_configFile p)
    (List.filter (λ code, negb (bool_decide (code = StatusTooManyRequests))) (StatusCodesForRetry p)).

(** [c.Client, err = New...; if err != nil { return fmt.Errorf(prefix, err) }]: the result is
    assigned before the error is looked at, so that a failure leaves a nil client. *)
Definition assign (set : option machine_client → provider → provider) (prefix : string) (o : outcome machine_client) :
    M provider unit :=
  match o with
  | Ret c => modify (set (Some c))
  | Fail err => _ ← modify (set None); lift (or_error prefix (Fail err))
  | Panic => lift Panic
  end.

(** [Init]; the client of the extensions API is built and not used. *)
Definition client_Init (files : Files) : M provider unit := λ p,
  let '(config, err) := load_config files (p_configFile p) in
  (_ ← modify (set_config config);
   _ ← (match err with Some err => fail err | None => mret tt end : M provider unit);
   spt ← lift (authenticate config);
   _ ← assign set_vmss "failed to create VMSS client" (NewVMSSClient config spt);
   _ ← assign set_vm "failed to create VM client" (NewVirtualMachinesClient config spt);
   modify drop_throttling_code) p.

Definition linkedAuthorizationFailed : string := "LinkedAuthorizationFailed".
Definition failedIdentityOperation : string := "FailedIdentityOperation".

(** [NewCloudProvider]: the client and its retry client. *)
Definition NewCloudProvider (files : Files) (configFile : string) (updateUserMSIMaxRetry updateUseMSIRetryInterval : Z) (codes : list Z) :
    outcome (provider * retry_client) :=
  match client_Init files (mkProvider None None zeroAzureConfig configFile codes) with
  | (Ret _, p) =>
      Ret (p, RegisterRetriableErrors (NewRetryClient updateUserMSIMaxRetry updateUseMSIRetryInterval)
                [linkedAuthorizationFailed; failedIdentityOperation])
  | (Fail err, _) => Fail (Errorf ("failed to initialize cloud provider client, error: " +:+ Error err))
  | (Panic, _) => Panic
  end.

Definition GetClusterIdentity (p : provider) : string := UserAssignedIdentityID (p_Config p).

(** ** Properties *)

(** The retry codes of the library: the throttling code is dropped, once and for all. *)
Lemma drop_throttling_code_spec p code :
  code ∈ StatusCodesForRetry (drop_throttling_code p) ↔ code ∈ StatusCodesForRetry p ∧ code ≠ StatusTooManyRequests.
Proof. simpl. rewrite !list_elem_of_In, filter_In, negb_true_iff, bool_decide_eq_false. done. Qed.

Lemma new_machine_client_Ret kind config spt c : new_machine_client kind config spt = Ret c →
  sc_Subscription (mc_client c) = cfg_SubscriptionID config ∧ Authorizer (mc_client c) = spt ∧ mc_throttle c = mkThrottle 0 0.
Proof.
  unfold new_machine_client, mbind, outcome_bind. destruct (or_error _ (EnvironmentFromName _)); [|done|done].
  destruct (or_error _ (client_AddToUserAgent _ _)); [|done|done]. destruct (or_error _ (NewReporter _)); [|done|done].
  by intros [= <-].
Qed.

(** The client [c] is new, of the subscription of [config] and with the credentials [spt]. *)
Definition new_client (config : AzureConfig) (spt : SPT) (c : machine_client) : Prop :=
  sc_Subscription (mc_client c) = cfg_SubscriptionID config ∧ Authorizer (mc_client c) = spt ∧ mc_throttle c = mkThrottle 0 0.

(** What [Init] leaves behind, by the step at which it ends. *)
Lemma client_Init_run files p :
  let '(config, err) := load_config files (p_configFile p) in
  let p1 := set_config config p in
  client_Init files p =
    match err with
    | Some err => (Fail err, p1)
    | None =>
        match authenticate config with
        | Ret spt =>
            match NewVMSSClient config spt with
            | Ret vmss =>
                match NewVirtualMachinesClient config spt with
                | Ret vm => (Ret tt, drop_throttling_code (set_vm (Some vm) (set_vmss (Some vmss) p1)))
                | Fail e => (or_error "failed to create VM client" (Fail e), set_vm None (set_vmss (Some vmss) p1))
                | Panic => (Panic, set_vmss (Some vmss) p1)
                end
            | Fail e => (or_error "failed to create VMSS client" (Fail e), set_vmss None p1)
            | Panic => (Panic, p1)
            end
        | Fail e => (Fail e, p1)
        | Panic => (Panic, p1)
        end
    end.
Proof.
  unfold client_Init. destruct (load_config files (p_configFile p)) as [config err].
  cbv [mbind M_bind modify lift fail mret M_ret assign]. destruct err as [err|]; [done|].
  destruct (authenticate config) as [spt|e|]; [|done|done].
  destruct (NewVMSSClient config spt) as [vmss|e|]; [|done|done].
  by destruct (NewVirtualMachinesClient config spt).
Qed.

Lemma client_Init_success files p u p' : client_Init files p = (Ret u, p') →
  let config := (load_config files (p_configFile p)).1 in
  (load_config files (p_configFile p)).2 = None ∧ p_Config p' = config ∧ p_configFile p' = p_configFile p ∧
  ∃ spt vm vmss, authenticate config = Ret spt ∧ p_VMClient p' = Some vm ∧ p_VMSSClient p' = Some vmss ∧
    Forall (new_client config spt) [vm; vmss].
Proof.
  intros Hi. pose proof (client_Init_run files p) as H. rewrite Hi in H. cbv zeta.
  destruct (load_config files (p_configFile p)) as [config [err|]]; [done|]. cbn [fst snd].
  destruct (authenticate config) as [spt|e|]; [|done|done].
  destruct (NewVMSSClient config spt) as [vmss|e|] eqn:E; [|done|done].
  destruct (NewVirtualMachinesClient config spt) as [vm|e|] eqn:E'; [|done|done]. injection H as _ ->.
  apply new_machine_client_Ret in E, E'. repeat (split; [done|]). exists spt, vm, vmss. repeat (split; [done|]).
  constructor; [exact E'|by constructor; [exact E|]].
Qed.

(** C40: what [Init] leaves behind. The configuration is in any case what could be loaded. On
    success both clients are new, of the subscription of that configuration and with the
    credentials it calls for, and requests that were throttled are no longer retried by the
    library. If the configuration cannot be loaded or gives no credentials, the old clients stay,
    although they do not belong to the configuration any more; if the scale set client cannot be
    built, there is none afterwards, beside the old client of single machines; if
    that one cannot be built, there is none of it, beside a new scale set client. *)
Theorem client_Init_spec files p :
  let '(r, p') := client_Init files p in
  let '(config, err) := load_config files (p_configFile p) in
  p_Config p' = config ∧ p_configFile p' = p_configFile p ∧
  match err, authenticate config with
  | None, Ret spt =>
      match NewVMSSClient config spt, NewVirtualMachinesClient config spt with
      | Ret vmss, Ret vm =>
          r = Ret tt ∧ p_VMSSClient p' = Some vmss ∧ p_VMClient p' = Some vm ∧ Forall (new_client config spt) [vm; vmss] ∧
          ∀ code, code ∈ StatusCodesForRetry p' ↔ code ∈ StatusCodesForRetry p ∧ code ≠ StatusTooManyRequests
      | Ret vmss, Fail _ =>
          (∃ e, r = Fail e) ∧ p_VMSSClient p' = Some vmss ∧ new_client config spt vmss ∧ p_VMClient p' = None ∧
          StatusCodesForRetry p' = StatusCodesForRetry p
      | Fail _, _ =>
          (∃ e, r = Fail e) ∧ p_VMSSClient p' = None ∧ p_VMClient p' = p_VMClient p ∧ StatusCodesForRetry p' = StatusCodesForRetry p
      | _, _ => r = Panic
      end
  | _, _ =>
      r ≠ Ret tt ∧ p_VMSSClient p' = p_VMSSClient p ∧ p_VMClient p' = p_VMClient p ∧ StatusCodesForRetry p' = StatusCodesForRetry p
  end.
Proof.
  pose proof (client_Init_run files p) as H. destruct (client_Init files p) as [r p'].
  destruct (load_config files (p_configFile p)) as [config [err|]]; [by injection H as -> ->|].
  destruct (authenticate config) as [spt|e|]; [|by injection H as -> ->..].
  destruct (NewVMSSClient config spt) as [vmss|e|] eqn:E; [|injection H as -> ->; eauto 10..].
  destruct (NewVirtualMachinesClient config spt) as [vm|e|] eqn:E'; injection H as -> ->;
    apply new_machine_client_Ret in E; [|eauto 10..]. apply new_machine_client_Ret in E'.
  repeat (split; [done|]). split; [constructor; [exact E'|by constructor; [exact E|]]|]. intros code. by rewrite drop_throttling_code_spec.
Qed.

(** A configuration file that cannot be read any more empties the configuration of a client
    that is in use, resource group included. *)
Lemma failed_reload_clears_config files p err :
  p_configFile p ≠ "" → os_ReadFile files (p_configFile p) = inr err → p_Config (client_Init files p).2 = zeroAzureConfig.
Proof.
  intros Hf Hr. unfold client_Init, load_config. by rewrite bool_decide_true, Hr.
Qed.

(** A failure to build a client takes away the one that was in use: the next request to the
    compute API through it is a call on a nil pointer. *)
Lemma failed_reload_loses_client files p config spt e :
  load_config files (p_configFile p) = (config, None) → authenticate config = Ret spt →
  NewVMSSClient config spt = Fail e → p_VMSSClient (client_Init files p).2 = None.
Proof. intros Hl Ha Hs. pose proof (client_Init_run files p) as H. rewrite Hl, Ha, Hs in H. by rewrite H. Qed.
End init.
