(* ===== verification/Kube.v ===== *)
(** * pkg/k8s/client.go: the client of NMI over the caches of its node.

    [KubeInt] is the interface ([k8s.Client]) that the token clients and the server are
    verified against; [kube_client] implements it by the caches of the informers and, for
    secrets, by the API server. *)

From S2P Require Import Prelude GoStrings Types Conversion Fixtures MicDesired Crd PodClient Metrics.

(** ** The interface *)

Class KubeInt (W : Type) := {
  ki_GetPod : string → string → M W Pod;
  ki_GetPodInfo : string → M W pod_info;
  ki_ListPodIds : string → string → M W (gmap string (list AzureIdentity));
  ki_ListPodIdsWithBinding : string → gmap string string → M W (list AzureIdentity);
  ki_GetSecret : SecretReference → M W Secret;
  ki_ListPodIdentityExceptions : string → M W (list AzurePodIdentityException)
}.

(** ** The implementation *)

(** The caches of the CRD informers, the pod indexer, and the secrets of the API server. *)
Class Caches (W : Type) := {
  ca_assigned : W → list store_item;
  ca_bindings : W → list store_item;
  ca_ids : W → list store_item;
  ca_exceptions : W → list store_item;
  ca_pod : W → string → outcome (option (option Pod));
  api_GetSecret : string → string → M W Secret
}.

Section client.
Context {W : Type} `{PodStore W} `{Caches W} `{Recorder W}.
Variable tag_New : list (string * string) → option error.
Variable reporter : option Reporter.

Definition KubeClient_GetPod (namespace name : string) : M W Pod := λ w, (GetPod (ca_pod w) namespace name, w).

Definition KubeClient_ListPodIds (podns podname : string) : M W (gmap string (list AzureIdentity)) := λ w,
  (ListPodIds (ca_assigned w) podns podname, w).

Definition KubeClient_ListPodIdsWithBinding (podns : string) (labels : gmap string string) : M W (list AzureIdentity) :=
  λ w, (GetPodIDsWithBinding (ca_bindings w) (ca_ids w) podns labels, w).

Definition KubeClient_ListPodIdentityExceptions (ns : string) : M W (list AzurePodIdentityException) := λ w,
  (ListPodIdentityExceptions (ca_exceptions w) ns, w).

(** [GetSecret]: a failed request is counted; a failure of the report is only logged. *)
Definition GetSecret (secretRef : SecretReference) : M W Secret :=
  catch (api_GetSecret (sr_Namespace secretRef) (sr_Name secretRef)) (λ err,
    _ ← ReportKubernetesAPIOperationError tag_New reporter GetSecretOperationName;
    fail err).

#[export] Instance kube_client : KubeInt W := {|
  ki_GetPod := KubeClient_GetPod;
  ki_GetPodInfo := GetPodInfo tag_New reporter;
  ki_ListPodIds := KubeClient_ListPodIds;
  ki_ListPodIdsWithBinding := KubeClient_ListPodIdsWithBinding;
  ki_GetSecret := GetSecret;
  ki_ListPodIdentityExceptions := KubeClient_ListPodIdentityExceptions
|}.
End client.

(** [GetLocalIP]: the first address of the interfaces that is an IP network outside the
    loopback range and has an IPv4 form. *)
Record ip_net := mkIPNet { ip_loopback : bool; ip_v4 : option string; ip_string : string }.

Definition GetLocalIP (addrs : outcome (list (option ip_net))) : outcome string :=
  addrs ← addrs;
  match find (λ address, match address with
                         | Some ipnet => negb (ip_loopback ipnet) && bool_decide (is_Some (ip_v4 ipnet))
                         | None => false
                         end) addrs with
  | Some (Some ipnet) => Ret (ip_string ipnet)
  | _ => Fail (Errorf "non loopback IP address not found")
  end.
