(* ===== verification/Nmi.v ===== *)
(** * NMI: the token clients of standard and managed mode (pkg/nmi/standard.go, managed.go,
    nmi.go).

    They are clients of the Kubernetes interface [KubeInt] and of the adal library, and
    implement [TokenClientInt], the interface the server uses. *)

From S2P Require Import Prelude GoStrings Types Conversion Fixtures Regex ResourceId MicDesired Crd PodClient Metrics Auth Kube.

(** ** The interface *)

(** [GetIdentities] returns an identity pointer and an error, [GetTokens] tokens or an error. *)
Class TokenClientInt (W : Type) := {
  tc_GetIdentities : string → string → string → string → M W (option AzureIdentity * option error);
  tc_GetTokens : string → string → AzureIdentity → M W (list Token)
}.

(** The [select] on a timer and on the end of the request's context: [None] when the timer
    fires, the context's error when it ends first. *)
Class Waiter (W : Type) := wait : Z → W → option error * W.

Record Config := mkConfig {
  Mode : string;
  RetryAttemptsForCreated : Z;
  RetryAttemptsForAssigned : Z;
  FindIdentityRetryIntervalInSeconds : Z;
  NodeName : string;
  Namespaced : bool
}.

Definition StandardMode : string := "standard".
Definition ManagedMode : string := "managed".

(** ** Standard mode *)

Record StandardClient := mkStandardClient {
  ListPodIDsRetryAttemptsForCreated : Z;
  ListPodIDsRetryAttemptsForAssigned : Z;
  ListPodIDsRetryIntervalInSeconds : Z;
  sc_IsNamespaced : bool
}.

Definition NewStandardTokenClient (config : Config) : outcome StandardClient :=
  Ret (mkStandardClient (RetryAttemptsForCreated config) (RetryAttemptsForAssigned config)
         (FindIdentityRetryIntervalInSeconds config) (Namespaced config)).

(** The error of [GetIdentities] when nothing matches. *)
Definition no_identity (clientID : string) : error :=
  Errorf ("no azure identity found for request clientID " +:+ RedactClientID clientID).

Definition identityUnspecified (rqClientID rqResourceID : string) : bool :=
  bool_decide (rqClientID = "") && bool_decide (rqResourceID = "").

Definition isRequestedIdentity (rqClientID rqResourceID : string) (podID : AzureIdentity) : bool :=
  (bool_decide (rqClientID ≠ "") && EqualFold rqClientID (ais_ClientID (ai_Spec podID))) ||
  (bool_decide (rqResourceID ≠ "") && EqualFold rqResourceID (ais_ResourceID (ai_Spec podID))).

Abbreviation id_states := (gmap string (list AzureIdentity)).
Abbreviation in_state m st := (default (@nil AzureIdentity) (m !! st)).

(** Lines 111-121 and 130-140: the identities to return, those without a state first. *)
Definition ready (rqClientID rqResourceID : string) (idStateMap : id_states) : option (list AzureIdentity) :=
  let usable l := if identityUnspecified rqClientID rqResourceID then bool_decide (length l ≠ 0%nat)
                  else existsb (isRequestedIdentity rqClientID rqResourceID) l in
  if usable (in_state idStateMap "") then Some (in_state idStateMap "")
  else if usable (in_state idStateMap AssignedIDAssigned) then Some (in_state idStateMap AssignedIDAssigned)
  else None.

(** Lines 122 and 141-147: an identity that is on its way. *)
Definition foundCreated (rqClientID rqResourceID : string) (idStateMap : id_states) : bool :=
  if identityUnspecified rqClientID rqResourceID
  then bool_decide (length (in_state idStateMap AssignedIDCreated) ≠ 0%nat)
  else existsb (isRequestedIdentity rqClientID rqResourceID) (in_state idStateMap AssignedIDCreated).

Section standard.
Context {W : Type} `{KubeInt W} `{Waiter W}.
Variable sc : StandardClient.

Definition created_failed (podns podname rqClientID rqResourceID : string) : error :=
  Errorf ((if identityUnspecified rqClientID rqResourceID then ""
           else "clientID in request: " +:+ RedactClientID rqClientID +:+ ", ") +:+
    "getting assigned identities for pod " +:+ podns +:+ "/" +:+ podname +:+ " in CREATED state failed after " +:+
    pretty (ListPodIDsRetryAttemptsForCreated sc) +:+ " attempts, retry duration [" +:+
    pretty (ListPodIDsRetryIntervalInSeconds sc) +:+
    "]s, error: <nil>. Check MIC pod logs for identity assignment errors").

Definition assigned_failed (podns podname : string) (err : option error) : error :=
  Errorf ("getting assigned identities for pod " +:+ podns +:+ "/" +:+ podname +:+ " in ASSIGNED state failed after " +:+
    pretty (ListPodIDsRetryAttemptsForCreated sc + ListPodIDsRetryAttemptsForAssigned sc)%Z +:+
    " attempts, retry duration [" +:+ pretty (ListPodIDsRetryIntervalInSeconds sc) +:+ "]s, error: " +:+
    match err with Some e => Error e | None => "<nil>" end +:+
    ". Check MIC pod logs for identity assignment errors").

(** The loop of [listPodIDsWithRetry]: [left] is the number of attempts that remain,
    [attempt] the number of those made, [err] the error of the last one. The result is the
    identities, whether one was found in state [Created], and the error. *)
Fixpoint list_loop (podns podname rqClientID rqResourceID : string) (left : nat) (attempt : Z) (err : option error) :
    M W (list AzureIdentity * bool * option error) := λ w,
  match left with
  | O => (Ret ([], true, Some (assigned_failed podns podname err)), w)
  | S left' =>
      let next err w :=
        match wait (wrap64 (ListPodIDsRetryIntervalInSeconds sc * Second)) w with
        | (None, w) => list_loop podns podname rqClientID rqResourceID left' (attempt + 1)%Z err w
        | (Some err, w) => (Ret ([], true, Some err), w)
        end in
      match ki_ListPodIds podns podname w with
      | (Panic, w) => (Panic, w)
      | (Fail err, w) => next (Some err) w
      | (Ret idStateMap, w) =>
          match ready rqClientID rqResourceID idStateMap with
          | Some ids => (Ret (ids, true, None), w)
          | None =>
              if negb (foundCreated rqClientID rqResourceID idStateMap) &&
                 (ListPodIDsRetryAttemptsForCreated sc <=? attempt)%Z
              then (Ret ([], false, Some (created_failed podns podname rqClientID rqResourceID)), w)
              else next None w
          end
      end
  end.

Definition listPodIDsWithRetry (podns podname rqClientID rqResourceID : string) :
    M W (list AzureIdentity * bool * option error) :=
  list_loop podns podname rqClientID rqResourceID
    (Z.to_nat (ListPodIDsRetryAttemptsForCreated sc + ListPodIDsRetryAttemptsForAssigned sc)) 0 None.

(** Lines 51-68: the identities that the namespace mode admits. *)
Definition admitted (isNamespaced : bool) (podns : string) (val : AzureIdentity) : bool :=
  if isNamespaced || IsNamespacedIdentity val then bool_decide (Namespace (ai_ObjectMeta val) = podns) else true.

Definition filterPodIdentities (podns : string) (podIDs : list AzureIdentity) : list AzureIdentity :=
  List.filter (admitted (sc_IsNamespaced sc) podns) podIDs.

(** The test of the request's ids against an identity. *)
Definition matches_request (clientID resourceID : string) (id : AzureIdentity) : bool :=
  (bool_decide (clientID ≠ "") && bool_decide (ais_ClientID (ai_Spec id) = clientID)) ||
  (bool_decide (resourceID ≠ "") && bool_decide (ais_ResourceID (ai_Spec id) = resourceID)).

Definition StandardClient_GetIdentities (podns podname clientID resourceID : string) :
    M W (option AzureIdentity * option error) :=
  r ← listPodIDsWithRetry podns podname clientID resourceID;
  let '(podIDs, identityInCreatedStateFound, err) := r in
  match (err : option error) with
  | Some err =>
      mret (if negb identityInCreatedStateFound then (None, Some err) else (Some zeroAzureIdentity, Some err))
  | None =>
      let filterPodIdentities := filterPodIdentities podns podIDs in
      if identityUnspecified clientID resourceID
      then id ← lift (deref (head filterPodIdentities)); mret (Some id, None)
      else
        match find (matches_request clientID resourceID) filterPodIdentities with
        | Some id => mret (Some id, None)
        | None => mret (None, Some (no_identity clientID))
        end
  end.
End standard.

(** ** Managed mode *)

Record ManagedClient := mkManagedClient { mc_IsNamespaced : bool }.

Definition NewManagedTokenClient (config : Config) : outcome ManagedClient :=
  if negb (Namespaced config) then Fail (Errorf "managed mode not intialized in force namespaced mode")
  else Ret (mkManagedClient (Namespaced config)).

Section managed.
Context {W : Type} `{KubeInt W}.

(** One identity: by client id, by resource id, or, without a request, by namespace. *)
Definition managed_match (podns clientID resourceID : string) (id : AzureIdentity) : bool :=
  matches_request clientID resourceID id ||
  (identityUnspecified clientID resourceID && EqualFold (Namespace (ai_ObjectMeta id)) podns).

(** [if err != nil { return nil, fmt.Errorf(prefix, err) }] *)
Definition or_wrap {A} (prefix : string) (m : M W A) (k : A → M W (option AzureIdentity * option error)) :
    M W (option AzureIdentity * option error) := λ w,
  match m w with
  | (Ret a, w) => k a w
  | (Fail err, w) => (Ret (None, Some (Errorf (prefix +:+ Error err))), w)
  | (Panic, w) => (Panic, w)
  end.

Definition ManagedClient_GetIdentities (podns podname clientID resourceID : string) :
    M W (option AzureIdentity * option error) :=
  or_wrap ("failed to get pod " +:+ podns +:+ "/" +:+ podname +:+ ", error: ") (ki_GetPod podns podname) (λ pod,
  or_wrap ("failed to get AzureIdentities for pod " +:+ podns +:+ "/" +:+ podname +:+ ", error: ")
    (ki_ListPodIdsWithBinding podns (Labels (pod_ObjectMeta pod))) (λ azureIdentities,
  match find (managed_match podns clientID resourceID) azureIdentities with
  | Some id => mret (Some id, None)
  | None => mret (None, Some (no_identity clientID))
  end)).
End managed.

(** ** Tokens *)

Section tokens.
Context `{R : GoRange} {W : Type} `{KubeInt W} `{Recorder W} `{Adal W}.
Variable tag_New : list (string * string) → option error.
Variable reporter : option Reporter.

(** The secret of an identity. *)
Definition identity_secret (azureID : AzureIdentity) : M W Secret :=
  let secretRef := ais_ClientPassword (ai_Spec azureID) in
  catch (ki_GetSecret secretRef) (λ err, fail (Errorf
    ("failed to get Kubernetes secret " +:+ sr_Namespace secretRef +:+ "/" +:+ sr_Name secretRef +:+ ", err: " +:+ Error err))).

(** [GetTokens], whose text is the same in both clients; [site] is the loop that takes the
    first value of the secret. A client id in the request that differs from the identity's
    is only logged. *)
Definition GetTokens (site : nat) (rqClientID rqResource : string) (azureID : AzureIdentity) : M W (list Token) :=
  let spec := ai_Spec azureID in
  let clientID := ais_ClientID spec in
  if bool_decide (ais_Type spec = UserAssignedMSI) then
    token ← GetServicePrincipalTokenFromMSIWithUserAssignedID tag_New reporter clientID rqResource;
    mret [token]
  else if bool_decide (ais_Type spec = ServicePrincipal) then
    secret ← identity_secret azureID;
    let clientSecret := match go_range site (secret_Data secret) with (_, v) :: _ => v | [] => "" end in
    GetServicePrincipalToken tag_New reporter (ais_ADEndpoint spec) (ais_TenantID spec) clientID clientSecret rqResource
      (ais_AuxiliaryTenantIDs spec)
  else if bool_decide (ais_Type spec = ServicePrincipalCertificate) then
    secret ← identity_secret azureID;
    let certificate := map_get (secret_Data secret) "certificate" in
    let password := map_get (secret_Data secret) "password" in
    token ← GetServicePrincipalTokenWithCertificate tag_New reporter (ais_ADEndpoint spec) (ais_TenantID spec) clientID
              certificate password rqResource;
    mret [token]
  else fail (Errorf ("unsupported identity type " +:+ pretty (ais_Type spec))).

Definition StandardClient_GetTokens := GetTokens 194.
Definition ManagedClient_GetTokens := GetTokens 96.
End tokens.

(** ** Choosing a client *)

Inductive token_client := Standard (sc : StandardClient) | Managed (mc : ManagedClient).

Definition getOperationMode (mode : string) : string := mode.

Definition GetTokenClient (config : Config) : outcome token_client :=
  if bool_decide (getOperationMode (Mode config) = StandardMode) then Standard <$> NewStandardTokenClient config
  else if bool_decide (getOperationMode (Mode config) = ManagedMode) then Managed <$> NewManagedTokenClient config
  else Fail (Errorf ("operation mode " +:+ Mode config +:+ " not supported")).

Section client.
Context `{R : GoRange} {W : Type} `{KubeInt W} `{Waiter W} `{Recorder W} `{Adal W}.
Variable tag_New : list (string * string) → option error.
Variable reporter : option Reporter.

(** The methods of the chosen client. *)
Definition client_of (c : token_client) : TokenClientInt W :=
  match c with
  | Standard sc => {| tc_GetIdentities := StandardClient_GetIdentities sc; tc_GetTokens := StandardClient_GetTokens tag_New reporter |}
  | Managed _ => {| tc_GetIdentities := ManagedClient_GetIdentities; tc_GetTokens := ManagedClient_GetTokens tag_New reporter |}
  end.
End client.
