(* ===== verification/NmiSpec.v ===== *)
(** * NMI: what the token clients promise.

    Waiting for an assignment is described by the sequence of the worlds in which the cache
    is read ([polls]); the identities handed out are traced back to the assigned identities
    (standard mode) or the bindings (managed mode) in the caches. *)

From S2P Require Import Prelude GoStrings Types Conversion Fixtures Regex ResourceId MicDesired Crd PodClient Metrics Auth Kube Nmi.

(** ** Polling *)

Section polling.
Context {W : Type} `{ki : KubeInt W} `{wt : Waiter W}.
Variable sc : StandardClient.
Variables podns podname clientID resourceID : string.

(** Reading the caches does not change the world. *)
Hypothesis reads_only : ∀ w, (ki_ListPodIds podns podname w).2 = w.

Definition interval : Z := wrap64 (ListPodIDsRetryIntervalInSeconds sc * Second).

(** The world after [k] waits, and what a read finds in a world. *)
Definition polls (k : nat) (w : W) : W := Nat.iter k (λ w, (wait interval w).2) w.
Definition view (w : W) : outcome id_states := (ki_ListPodIds podns podname w).1.

(** The wait is cut short by the end of the request's context. *)
Definition cancelled (w : W) (e : error) : Prop := (wait interval w).1 = Some e.

(** At attempt number [a] the loop goes on. *)
Definition pending (a : Z) (w : W) : Prop :=
  match view w with
  | Panic => False
  | Fail _ => True
  | Ret m => ready clientID resourceID m = None ∧
             (foundCreated clientID resourceID m = true ∨ (a < ListPodIDsRetryAttemptsForCreated sc)%Z)
  end.

Lemma polls_succ k w : polls k (wait interval w).2 = polls (S k) w.
Proof. unfold polls. induction k as [|k IH]; [done|]. cbn [Nat.iter nat_rect] in *. by do 2 f_equal. Qed.

Abbreviation run left a err w := (list_loop sc podns podname clientID resourceID left a err w).

(** One wait, then the rest of the loop. *)
Definition ended (left : nat) (a : Z) (w : W) (r : outcome (list AzureIdentity * bool * option error) * W) : Prop :=
  ∃ k : nat, (k ≤ left)%nat ∧ r.2 = polls k w ∧
    (∀ j : nat, (j < k)%nat → pending (a + Z.of_nat j) (polls j w)) ∧
    (((k < left)%nat ∧ ∃ m ids, view (polls k w) = Ret m ∧ ready clientID resourceID m = Some ids ∧ r.1 = Ret (ids, true, None)) ∨
     ((k < left)%nat ∧ ∃ m e, view (polls k w) = Ret m ∧ ready clientID resourceID m = None ∧
        foundCreated clientID resourceID m = false ∧ (ListPodIDsRetryAttemptsForCreated sc <= a + Z.of_nat k)%Z ∧
        r.1 = Ret ([], false, Some e)) ∨
     (∃ e, r.1 = Ret ([], true, Some e) ∧ (k = left ∨ ∃ j, k = S j ∧ cancelled (polls j w) e))).

Lemma ended_wait left a err w :
  (∀ err w, (∀ k : nat, (k ≤ left)%nat → view (polls k w) ≠ Panic) → ended left (a + 1) w (run left (a + 1) err w)) →
  (∀ k : nat, (k ≤ S left)%nat → view (polls k w) ≠ Panic) → pending a w →
  ended (S left) a w
    (match wait interval w with
     | (None, w) => run left (a + 1) err w
     | (Some err, w) => (Ret ([], true, Some err), w)
     end).
Proof.
  intros IH Hp Hpend. destruct (wait interval w) as [[e|] w1] eqn:Ew.
  - exists 1%nat. assert (w1 = polls 1 w) as -> by (unfold polls; simpl; by rewrite Ew).
    split; [lia|]. split; [done|]. split.
    + intros [|j] Hj; [|lia]. by rewrite Z.add_0_r.
    + right; right. exists e. split; [done|]. right. exists 0%nat. split; [done|]. unfold cancelled. simpl. by rewrite Ew.
  - assert (w1 = (wait interval w).2) as -> by (by rewrite Ew).
    destruct (IH err (wait interval w).2) as (k & Hk & Hw & Hj & Hr).
    { intros k Hk. rewrite polls_succ. apply Hp. lia. }
    exists (S k). rewrite !polls_succ in *. split; [lia|]. split; [done|]. split.
    + intros [|j] Hlt; [by rewrite Z.add_0_r|]. specialize (Hj j). rewrite polls_succ in Hj.
      replace (a + Z.of_nat (S j))%Z with (a + 1 + Z.of_nat j)%Z by lia. apply Hj. lia.
    + destruct Hr as [[Hl Hr]|[[Hl (m & e & H1 & H2 & H3 & H4 & H5)]|(e & H1 & H2)]].
      * left. split; [lia|done].
      * right; left. split; [lia|]. exists m, e. repeat split; [done..|lia|done].
      * right; right. exists e. split; [done|]. destruct H2 as [->|(j & -> & Hc)]; [by left|]. right. exists (S j).
        split; [done|]. by rewrite polls_succ in Hc.
Qed.

Lemma list_loop_spec left a err w :
  (∀ k : nat, (k ≤ left)%nat → view (polls k w) ≠ Panic) → ended left a w (run left a err w).
Proof.
  revert a err w. induction left as [|left IH]; intros a err w Hp.
  - exists 0%nat. split; [done|]. split; [done|]. split; [intros j Hj; lia|]. right; right. eexists. split; [done|]. by left.
  - cbn [list_loop]. pose proof (Hp 0%nat ltac:(lia)) as H0. change (polls 0 w) with w in H0. unfold view in H0.
    pose proof (reads_only w) as Hro. destruct (ki_ListPodIds podns podname w) as [[m|e|] w1] eqn:El; simpl in *; [|..|done]; subst w1.
    + destruct (ready clientID resourceID m) as [ids|] eqn:Er.
      * exists 0%nat. split; [lia|]. split; [done|]. split; [intros j Hj; lia|]. left. split; [lia|]. exists m, ids.
        change (polls 0 w) with w. unfold view. by rewrite El.
      * destruct (foundCreated clientID resourceID m) eqn:Ef; simpl.
        { apply (ended_wait left a _ w); [by intros; apply IH|done|]. unfold pending, view. rewrite El. simpl. by split; [|left]. }
        destruct (Z.leb_spec (ListPodIDsRetryAttemptsForCreated sc) a) as [Hle|Hlt].
        { exists 0%nat. split; [lia|]. split; [done|]. split; [intros j Hj; lia|]. right; left. split; [lia|]. exists m.
          eexists. change (polls 0 w) with w. unfold view. rewrite El. simpl. repeat split; [done..|lia]. }
        apply (ended_wait left a _ w); [by intros; apply IH|done|]. unfold pending, view. rewrite El. simpl. by split; [|right].
    + apply (ended_wait left a _ w); [by intros; apply IH|done|]. unfold pending, view. by rewrite El.
Qed.

(** An identity that is ready in time is found: nothing ends the loop before poll [k]. *)
Lemma list_loop_found k left a err w m ids :
  (k < left)%nat →
  (∀ j : nat, (j < k)%nat → pending (a + Z.of_nat j) (polls j w) ∧ (wait interval (polls j w)).1 = None) →
  view (polls k w) = Ret m → ready clientID resourceID m = Some ids →
  run left a err w = (Ret (ids, true, None), polls k w).
Proof.
  revert left a err w. induction k as [|k IH]; intros [|left] a err w Hl Hj Hv Hr; try lia; cbn [list_loop].
  - change (polls 0 w) with w in *. unfold view in Hv. pose proof (reads_only w) as Hro.
    destruct (ki_ListPodIds podns podname w) as [o w1]. simpl in *. subst. by rewrite Hr.
  - destruct (Hj 0%nat ltac:(lia)) as [Hp Hc]. change (polls 0 w) with w in *. rewrite Z.add_0_r in Hp.
    assert (∀ err, match wait interval w with
      | (None, w) => run left (a + 1) err w
      | (Some err, w) => (Ret ([], true, Some err), w)
      end = (Ret (ids, true, None), polls (S k) w)) as Hnext.
    { intros err'. destruct (wait interval w) as [o w1] eqn:Ew. simpl in Hc. subst o.
      assert (w1 = (wait interval w).2) as -> by (by rewrite Ew). rewrite <- polls_succ. apply IH; [lia| | |done].
      - intros j Hlt. rewrite polls_succ. specialize (Hj (S j) ltac:(lia)).
        by replace (a + Z.of_nat (S j))%Z with (a + 1 + Z.of_nat j)%Z in Hj by lia.
      - by rewrite polls_succ. }
    unfold pending, view in Hp. pose proof (reads_only w) as Hro.
    destruct (ki_ListPodIds podns podname w) as [[m'|e|] w1]; simpl in *; subst w1; [|apply Hnext|done].
    destruct Hp as [-> Hp]. destruct (foundCreated clientID resourceID m') eqn:Ef; simpl; [apply Hnext|].
    destruct (Z.leb_spec (ListPodIDsRetryAttemptsForCreated sc) a); [destruct Hp as [Hp|Hp]; [done|lia]|apply Hnext].
Qed.

(** ** What [GetIdentities] makes of the list *)

Lemma List_filter_elem (f : AzureIdentity → bool) l x : x ∈ List.filter f l ↔ x ∈ l ∧ f x = true.
Proof. rewrite !list_elem_of_In. apply filter_In. Qed.

Lemma find_elem (f : AzureIdentity → bool) l x : find f l = Some x → x ∈ l ∧ f x = true.
Proof. intros [H1 H2]%find_some. by rewrite list_elem_of_In. Qed.

Lemma find_exists (f : AzureIdentity → bool) l x : x ∈ l → f x = true → ∃ y, find f l = Some y.
Proof.
  intros Hx Hf. destruct (find f l) as [y|] eqn:E; [eauto|]. rewrite (find_none _ _ E) in Hf; [done|by apply list_elem_of_In].
Qed.

(** The request is for this identity, or for any. *)
Definition answers (id : AzureIdentity) : Prop :=
  identityUnspecified clientID resourceID = true ∨ matches_request clientID resourceID id = true.

Lemma ready_elem m ids id : ready clientID resourceID m = Some ids → id ∈ ids →
  ∃ st, (st = "" ∨ st = AssignedIDAssigned) ∧ id ∈ default [] (m !! st).
Proof.
  unfold ready. cbv zeta. intros H Hin. destruct (if identityUnspecified _ _ then _ else _); simplify_eq; [exists ""; auto|].
  destruct (if identityUnspecified _ _ then _ else _); simplify_eq. exists AssignedIDAssigned. auto.
Qed.

(** An identity that is returned without an error was ready at the last poll. *)
Lemma GetIdentities_sound w id w' :
  StandardClient_GetIdentities sc podns podname clientID resourceID w = (Ret (Some id, None), w') →
  (∀ k, view (polls k w) ≠ Panic) →
  ∃ k m ids, (Z.of_nat k < ListPodIDsRetryAttemptsForCreated sc + ListPodIDsRetryAttemptsForAssigned sc)%Z ∧
    w' = polls k w ∧ view w' = Ret m ∧ ready clientID resourceID m = Some ids ∧ id ∈ ids ∧
    admitted (sc_IsNamespaced sc) podns id = true ∧ answers id.
Proof.
  intros (r & w1 & Hl & Hk)%bind_Ret Hp. unfold listPodIDsWithRetry in Hl.
  destruct (list_loop_spec (Z.to_nat (ListPodIDsRetryAttemptsForCreated sc + ListPodIDsRetryAttemptsForAssigned sc)) 0 None w)
    as (k & Hle & Hw & _ & Hr); [by intros|]. rewrite Hl in Hw, Hr. simpl in Hw, Hr. subst w1.
  destruct Hr as [[Hlt (m & ids & Hv & Hrd & [= ->])]|[[_ (m & e & _ & _ & _ & _ & [= ->])]|(e & [= ->] & _)]];
    simpl in Hk; [|by injection Hk|by injection Hk].
  exists k, m, ids. split; [lia|]. unfold filterPodIdentities in Hk. destruct (identityUnspecified clientID resourceID) eqn:Eu.
  - destruct (List.filter _ ids) as [|id' l] eqn:Ef; [done|]. simpl in Hk. injection Hk as -> <-.
    assert (id ∈ List.filter (admitted (sc_IsNamespaced sc) podns) ids) as [Hin Ha]%List_filter_elem by (rewrite Ef; left).
    repeat split; try done. by left.
  - destruct (find _ _) as [id'|] eqn:Ef; [|done]. injection Hk as -> <-. apply find_elem in Ef as [[Hin Ha]%List_filter_elem Hm].
    repeat split; try done. by right.
Qed.

(** An identity in [ids] that the request is for is returned at the poll at which [ids] is ready. *)
Lemma in_time_run (k : nat) w m ids id :
  (Z.of_nat k < ListPodIDsRetryAttemptsForCreated sc + ListPodIDsRetryAttemptsForAssigned sc)%Z →
  (∀ j : nat, (j < k)%nat → pending (Z.of_nat j) (polls j w) ∧ (wait interval (polls j w)).1 = None) →
  view (polls k w) = Ret m → ready clientID resourceID m = Some ids →
  id ∈ ids → admitted (sc_IsNamespaced sc) podns id = true → answers id →
  ∃ id', StandardClient_GetIdentities sc podns podname clientID resourceID w = (Ret (Some id', None), polls k w) ∧
    id' ∈ ids ∧ admitted (sc_IsNamespaced sc) podns id' = true ∧ answers id'.
Proof.
  intros Hk Hj Hv Hr Hin Had Hans. unfold StandardClient_GetIdentities, listPodIDsWithRetry, mbind, M_bind.
  rewrite (list_loop_found k _ 0 None w m ids) by (try done; lia).
  assert (id ∈ filterPodIdentities sc podns ids) as Hf by (by apply List_filter_elem).
  unfold answers in *. destruct (identityUnspecified clientID resourceID) eqn:Eu.
  - destruct (filterPodIdentities sc podns ids) as [|id' l] eqn:Ef; [by apply not_elem_of_nil in Hf|]. exists id'.
    assert (id' ∈ filterPodIdentities sc podns ids) as [? ?]%List_filter_elem by (rewrite Ef; left). auto.
  - destruct Hans as [|Hm]; [done|]. destruct (find_exists (matches_request clientID resourceID) _ id Hf Hm) as [id' Hfind].
    rewrite Hfind. apply find_elem in Hfind as [[? ?]%List_filter_elem ?]. exists id'. auto.
Qed.


(** The request is for this identity up to case, or for any: this is what the loop waits for. *)
Definition asked_for (id : AzureIdentity) : Prop :=
  (clientID = "" ∧ resourceID = "") ∨
  (clientID ≠ "" ∧ ToLower clientID = ToLower (ais_ClientID (ai_Spec id))) ∨
  (resourceID ≠ "" ∧ ToLower resourceID = ToLower (ais_ResourceID (ai_Spec id))).

Lemma identityUnspecified_spec : identityUnspecified clientID resourceID = true ↔ clientID = "" ∧ resourceID = "".
Proof. unfold identityUnspecified. by rewrite andb_true_iff, !bool_decide_eq_true. Qed.

Lemma isRequestedIdentity_spec id : isRequestedIdentity clientID resourceID id = true ↔
  (clientID ≠ "" ∧ ToLower clientID = ToLower (ais_ClientID (ai_Spec id))) ∨
  (resourceID ≠ "" ∧ ToLower resourceID = ToLower (ais_ResourceID (ai_Spec id))).
Proof. unfold isRequestedIdentity. by rewrite orb_true_iff, !andb_true_iff, !bool_decide_eq_true, !EqualFold_spec. Qed.

(** The test of the loop on the identities of one state. *)
Lemma usable_spec l :
  (if identityUnspecified clientID resourceID then bool_decide (length l ≠ 0%nat)
   else existsb (isRequestedIdentity clientID resourceID) l) = true ↔ ∃ id, id ∈ l ∧ asked_for id.
Proof.
  unfold asked_for. destruct (identityUnspecified clientID resourceID) eqn:Eu.
  - apply identityUnspecified_spec in Eu. rewrite bool_decide_eq_true. split.
    + destruct l as [|id l]; [done|]. intros _. exists id. split; [left|by left].
    + intros (id & Hid & _). by destruct l; [apply not_elem_of_nil in Hid|].
  - rewrite existsb_exists. setoid_rewrite <- list_elem_of_In. setoid_rewrite isRequestedIdentity_spec.
    assert (¬ (clientID = "" ∧ resourceID = "")) as Hu by (rewrite <- identityUnspecified_spec; by rewrite Eu).
    split; intros (id & Hid & Ha); exists id; tauto.
Qed.

Lemma matches_usable id :
  matches_request clientID resourceID id = true → isRequestedIdentity clientID resourceID id = true.
Proof.
  unfold matches_request, isRequestedIdentity. intros [[Hc He]%andb_true_iff|[Hc He]%andb_true_iff]%orb_true_iff;
    apply bool_decide_eq_true in He as <-; rewrite Hc, (proj2 (EqualFold_spec _ _) eq_refl); by rewrite ?orb_true_r.
Qed.

Lemma answers_asked id : answers id → asked_for id.
Proof. intros [Hu%identityUnspecified_spec|Hm%matches_usable%isRequestedIdentity_spec]; [by left|by right]. Qed.

Lemma ready_Some m ids : ready clientID resourceID m = Some ids →
  ∃ st, (st = "" ∨ st = AssignedIDAssigned) ∧ ids = in_state m st ∧ ∃ id, id ∈ ids ∧ asked_for id.
Proof.
  unfold ready. cbv zeta. intros H. destruct (if identityUnspecified _ _ then _ else _) eqn:E0.
  { injection H as <-. exists "". split; [by left|]. split; [done|]. by apply usable_spec. }
  destruct (if identityUnspecified _ _ then _ else _) eqn:E1 in H; [|done]. injection H as <-.
  exists AssignedIDAssigned. split; [by right|]. split; [done|]. by apply usable_spec.
Qed.

Lemma ready_None m st id : ready clientID resourceID m = None → st = "" ∨ st = AssignedIDAssigned →
  id ∈ in_state m st → asked_for id → False.
Proof.
  unfold ready. cbv zeta. intros H Hst Hin Ha.
  assert ((if identityUnspecified clientID resourceID then bool_decide (length (in_state m st) ≠ 0%nat)
           else existsb (isRequestedIdentity clientID resourceID) (in_state m st)) = true) as E by (apply usable_spec; eauto).
  destruct Hst as [->| ->]; rewrite E in H; [done|]. by destruct (if identityUnspecified _ _ then _ else _).
Qed.
End polling.

(** ** Where the identities come from *)

(** The informers deliver objects of the resource they watch. *)
Class CacheLaws {W : Type} (ca : Caches W) := {
  assigned_typed w : ∃ l, ca_assigned w = all_assigned l;
  bindings_typed w : ∃ l, ca_bindings w = all_bindings l;
  ids_typed w : ∃ l, ca_ids w = all_ids_items l;
  exceptions_typed w : ∃ l, ca_exceptions w = all_exceptions l
}.

Section entitlement.
Context {W : Type} `{PodStore W} `{ca : Caches W} `{laws : !CacheLaws ca} `{Recorder W} `{wt : Waiter W}.
Variable tag_New : list (string * string) → option error.
Variable reporter : option Reporter.

(** The client of the node's caches. *)
#[local] Instance kube : KubeInt W := kube_client tag_New reporter.

(** In the cache, [id] is the identity of an assigned identity of the pod that the machine has
    (or that was made by a version of MIC without states). *)
Definition assigned_to_pod (w : W) (podns podname : string) (id : AzureIdentity) : Prop :=
  ∃ l o, ca_assigned w = all_assigned l ∧ o ∈ l ∧
    v1aas_Pod (v1aai_Spec o) = podname ∧ v1aas_PodNamespace (v1aai_Spec o) = podns ∧
    (v1aast_Status (v1aai_Status o) = "" ∨ v1aast_Status (v1aai_Status o) = AssignedIDAssigned) ∧
    aas_AzureIdentityRef (aai_Spec (listed_assigned o)) = Some id.

(** In the caches, a binding of the pod's namespace selects the pod's label value and names
    [id], which is in that namespace. *)
Definition bound_to_pod (w : W) (podns podname : string) (id : AzureIdentity) : Prop :=
  ∃ pod bs os o b, ca_pod w (podns +:+ "/" +:+ podname) = Ret (Some (Some pod)) ∧
    ca_bindings w = all_bindings bs ∧ ca_ids w = all_ids_items os ∧ o ∈ os ∧ id = listed_id o ∧
    Namespace (v1ai_ObjectMeta o) = podns ∧ b ∈ bs ∧ Namespace (v1aib_ObjectMeta b) = podns ∧
    v1aibs_Selector (v1aib_Spec b) = map_get (Labels (pod_ObjectMeta pod)) CRDLabelKey ∧
    v1aibs_AzureIdentity (v1aib_Spec b) = Name (v1ai_ObjectMeta o).

Lemma view_not_panic podns podname w : view podns podname w ≠ Panic.
Proof.
  unfold view. simpl. destruct (assigned_typed w) as [l ->]. by destruct (ListPodIds_run l podns podname) as (m & -> & _).
Qed.

Lemma ready_assigned podns podname clientID resourceID w m ids id :
  view podns podname w = Ret m → ready clientID resourceID m = Some ids → id ∈ ids → assigned_to_pod w podns podname id.
Proof.
  intros Hv Hr (st & Hst & Hin)%(ready_elem _ _ _ _ _ Hr). unfold view in Hv. simpl in Hv.
  destruct (assigned_typed w) as [l Hl]. rewrite Hl in Hv. destruct (ListPodIds_run l podns podname) as (m' & Hm' & Hlook).
  rewrite Hm' in Hv. injection Hv as <-. rewrite Hlook in Hin.
  assert (id ∈ pod_ids_in_state podns podname st (listed_assigned <$> l)) as Hp by (by destruct (pod_ids_in_state _ _ _ _)).
  apply list_elem_of_omap in Hp as (v & (o & -> & Ho)%list_elem_of_fmap & Hif). case_bool_decide as Hc; [|done].
  destruct Hc as (H1 & H2 & H3). exists l, o. split; [done|]. split; [done|]. split; [exact H1|]. split; [exact H2|].
  split; [|done]. destruct Hst as [->| ->]; auto.
Qed.

(** In standard mode a pod is only given an identity that is assigned to it. *)
Lemma standard_sound sc podns podname clientID resourceID w id w' :
  StandardClient_GetIdentities sc podns podname clientID resourceID w = (Ret (Some id, None), w') →
  (∃ k : nat, (Z.of_nat k < ListPodIDsRetryAttemptsForCreated sc + ListPodIDsRetryAttemptsForAssigned sc)%Z ∧
     w' = polls sc k w) ∧
  assigned_to_pod w' podns podname id ∧ admitted (sc_IsNamespaced sc) podns id = true ∧ answers clientID resourceID id.
Proof.
  intros Hg. apply GetIdentities_sound in Hg as (k & m & ids & Hk & Hw & Hv & Hr & Hin & Ha & Hans); [|done|].
  - split; [eauto|]. split; [|done]. by eapply ready_assigned.
  - intros j. apply view_not_panic.
Qed.

(** In the cache, [id] is the identity of an assigned identity of the pod with this state. *)
Definition shown (w : W) (podns podname st : string) (id : AzureIdentity) : Prop :=
  ∃ l o, ca_assigned w = all_assigned l ∧ o ∈ l ∧
    v1aas_Pod (v1aai_Spec o) = podname ∧ v1aas_PodNamespace (v1aai_Spec o) = podns ∧
    v1aast_Status (v1aai_Status o) = st ∧ aas_AzureIdentityRef (aai_Spec (listed_assigned o)) = Some id.

Lemma view_shown podns podname w : ∃ m, view podns podname w = Ret m ∧
  ∀ st id, id ∈ in_state m st ↔ shown w podns podname st id.
Proof.
  unfold view. simpl. destruct (assigned_typed w) as [l Hl]. rewrite Hl.
  destruct (ListPodIds_run l podns podname) as (m & -> & Hm). exists m. split; [done|]. intros st id. rewrite Hm.
  trans (id ∈ pod_ids_in_state podns podname st (listed_assigned <$> l)); [by destruct (pod_ids_in_state _ _ _ _)|].
  unfold pod_ids_in_state, shown. rewrite list_elem_of_omap. split.
  - intros (v & (o & -> & Ho)%list_elem_of_fmap & Hif). case_bool_decide as Hc; [|done]. destruct Hc as (H1 & H2 & H3).
    by exists l, o.
  - intros (l' & o & Hl' & Ho & H1 & H2 & H3 & H4). rewrite Hl in Hl'.
    apply list_fmap_eq_inj in Hl' as <-; [|by intros x y [= ->]].
    exists (listed_assigned o). split; [by apply list_elem_of_fmap_2|]. by rewrite bool_decide_true.
Qed.

Section in_time.
Variable sc : StandardClient.
Variables podns podname clientID resourceID : string.
Abbreviation attempts := (ListPodIDsRetryAttemptsForCreated sc + ListPodIDsRetryAttemptsForAssigned sc)%Z.

(** An identity that the loop waits for is there: assigned, or without a state. *)
Definition available (w : W) : Prop :=
  ∃ st id, (st = "" ∨ st = AssignedIDAssigned) ∧ shown w podns podname st id ∧ asked_for clientID resourceID id.

(** The loop has reason to go on after poll [j]: an identity it waits for was created, or the
    attempts for that are not used up; and the wait runs to its end. *)
Definition waits_on (j : nat) (w : W) : Prop :=
  ((Z.of_nat j < ListPodIDsRetryAttemptsForCreated sc)%Z ∨
   ∃ id, shown w podns podname AssignedIDCreated id ∧ asked_for clientID resourceID id) ∧
  (wait (interval sc) w).1 = None.

(** [available] decided by the view. *)
Lemma available_ready w : ∃ m, view podns podname w = Ret m ∧
  match ready clientID resourceID m with
  | Some ids => available w ∧ ∃ st, (st = "" ∨ st = AssignedIDAssigned) ∧ ∀ id, id ∈ ids ↔ shown w podns podname st id
  | None => ¬ available w
  end.
Proof.
  destruct (view_shown podns podname w) as (m & Hv & Hm). exists m. split; [done|].
  destruct (ready clientID resourceID m) as [ids|] eqn:Er.
  - apply ready_Some in Er as (st & Hst & -> & id & Hin & Ha). split; [|eauto]. exists st, id. by rewrite <- Hm.
  - intros (st & id & Hst & Hsh & Ha). rewrite <- Hm in Hsh. by eapply ready_None.
Qed.

Lemma waits_pending j w : waits_on j w → ¬ available w →
  pending sc podns podname clientID resourceID (Z.of_nat j) w ∧ (wait (interval sc) w).1 = None.
Proof.
  intros [Hw Hc] Hna. split; [|done]. destruct (available_ready w) as (m & Hv & Hr). unfold pending. rewrite Hv.
  destruct (ready _ _ m); [tauto|]. split; [done|]. destruct Hw as [Hw|(id & Hsh & Ha)]; [by right|]. left.
  destruct (view_shown podns podname w) as (m' & Hv' & Hm'). rewrite Hv in Hv'. injection Hv' as <-.
  unfold foundCreated. apply usable_spec. exists id. by rewrite Hm'.
Qed.

(** The first poll at which an identity is available. *)
Lemma first_available k w : available (polls sc k w) →
  ∃ j : nat, (j ≤ k)%nat ∧ available (polls sc j w) ∧ ∀ i : nat, (i < j)%nat → ¬ available (polls sc i w).
Proof.
  induction k as [k IH] using lt_wf_ind. intros Hk.
  assert ((∃ i : nat, (i < k)%nat ∧ available (polls sc i w)) ∨ ∀ i : nat, (i < k)%nat → ¬ available (polls sc i w)) as [(i & Hi & Ha)|Hn].
  { clear IH Hk. induction k as [|k IH]; [right; lia|]. destruct IH as [(i & Hi & Ha)|Hn]; [left; exists i; split; [lia|done]|].
    destruct (available_ready (polls sc k w)) as (m & _ & Hm).
    destruct (ready _ _ m); [left; exists k; split; [lia|by destruct Hm]|].
    right. intros i Hi. destruct (decide (i = k)) as [->|]; [done|]. apply Hn. lia. }
  - destruct (IH i Hi Ha) as (j & Hj & H1 & H2). exists j. split; [lia|done].
  - exists k. eauto.
Qed.

(** C31: NMI waits for MIC. Let the cache show, at poll [k] of the retry window, an identity
    that the request asks for (client and resource id compared exactly; any, if it gives none)
    as assigned to the pod. Until then let no wait be cut short and an identity that is asked for be
    shown as created, at the latest when the attempts for that are used up. Then the request is
    answered with an identity: at the first poll [j], which is not after [k], at which one that is asked
    for up to case is shown as assigned (or without a state). This supposes that these,
    shown up to [k], are asked for exactly and admitted by the namespace mode: the loop also
    ends for one that is then refused. *)
Theorem assigned_in_time (k : nat) w id :
  (Z.of_nat k < attempts)%Z →
  (∀ j : nat, (j < k)%nat → waits_on j (polls sc j w)) →
  shown (polls sc k w) podns podname AssignedIDAssigned id → answers clientID resourceID id →
  (∀ (j : nat) st id', (j ≤ k)%nat → st = "" ∨ st = AssignedIDAssigned → shown (polls sc j w) podns podname st id' →
    asked_for clientID resourceID id' → answers clientID resourceID id' ∧ admitted (sc_IsNamespaced sc) podns id' = true) →
  ∃ (j : nat) id', (j ≤ k)%nat ∧ (∀ i : nat, (i < j)%nat → ¬ available (polls sc i w)) ∧
    StandardClient_GetIdentities sc podns podname clientID resourceID w = (Ret (Some id', None), polls sc j w) ∧
    assigned_to_pod (polls sc j w) podns podname id' ∧
    admitted (sc_IsNamespaced sc) podns id' = true ∧ answers clientID resourceID id'.
Proof.
  intros Hk Hj Hsh Hans Hexact.
  destruct (first_available k w) as (j & Hle & Hav & Hfirst).
  { exists AssignedIDAssigned, id. split; [by right|]. split; [done|]. by apply answers_asked. }
  destruct (available_ready (polls sc j w)) as (m & Hv & Hm). destruct (ready clientID resourceID m) as [ids|] eqn:Er; [|done].
  destruct Hm as [_ (st & Hst & Hids)]. destruct (ready_Some _ _ _ _ Er) as (_ & _ & _ & x & Hx & Hax).
  destruct (Hexact j st x Hle Hst (proj1 (Hids x) Hx) Hax) as [Hansx Hadx].
  destruct (in_time_run (ki := kube) sc podns podname clientID resourceID (λ _, eq_refl) j w m ids x) as (id' & Hg & Hin & Had & Ha); try done.
  - lia.
  - intros i Hi. apply waits_pending; [apply Hj; lia|by apply Hfirst].
  - exists j, id'. split; [done|]. split; [done|]. split; [done|]. split; [|done].
    by eapply ready_assigned.
Qed.
End in_time.

(** Errors of [GetIdentities] are part of its result. *)
Lemma list_loop_total sc podns podname clientID resourceID left a err w e w' :
  list_loop sc podns podname clientID resourceID left a err w ≠ (Fail e, w').
Proof.
  revert a err w. induction left as [|left IH]; intros a err w; cbn [list_loop]; [done|].
  destruct (ki_ListPodIds podns podname w) as [[m|e'|] w1]; [|by destruct (wait _ w1) as [[]]|done].
  destruct (ready _ _ m); [done|]. destruct (_ && _); [done|]. by destruct (wait _ w1) as [[]].
Qed.

Lemma standard_total sc podns podname clientID resourceID w e w' :
  StandardClient_GetIdentities sc podns podname clientID resourceID w ≠ (Fail e, w').
Proof.
  unfold StandardClient_GetIdentities, listPodIDsWithRetry, mbind, M_bind.
  destruct (list_loop _ _ _ _ _ _ _ _ w) as [[[[l b] [e'|]]|e'|] w1] eqn:E; [by destruct b| |by apply list_loop_total in E|done].
  destruct (identityUnspecified _ _); [by destruct (filterPodIdentities _ _ l)|by destruct (find _ _)].
Qed.

Lemma or_wrap_total {A} prefix (m : M W A) k w e w' : (∀ a w, k a w ≠ (Fail e, w')) → or_wrap prefix m k w ≠ (Fail e, w').
Proof. intros Hk. unfold or_wrap. by destruct (m w) as [[a|e'|] w1]. Qed.

Lemma managed_total podns podname clientID resourceID w e w' :
  ManagedClient_GetIdentities podns podname clientID resourceID w ≠ (Fail e, w').
Proof. apply or_wrap_total. intros pod v. apply or_wrap_total. intros l u. by destruct (find _ _). Qed.

Lemma or_wrap_Some {A} prefix (m : M W A) k w id w' :
  or_wrap prefix m k w = (Ret (Some id, None), w') → ∃ a w1, m w = (Ret a, w1) ∧ k a w1 = (Ret (Some id, None), w').
Proof. unfold or_wrap. destruct (m w) as [[a|e|] w1]; intros Hk; simplify_eq. eauto. Qed.

(** In managed mode it is only given one of its namespace that a binding selecting it names. *)
Lemma managed_sound podns podname clientID resourceID w id w' :
  ManagedClient_GetIdentities podns podname clientID resourceID w = (Ret (Some id, None), w') →
  w' = w ∧ bound_to_pod w podns podname id ∧ answers clientID resourceID id.
Proof.
  intros (pod & w1 & Hpod & (l & w2 & Hl & Hf)%or_wrap_Some)%or_wrap_Some. simpl in Hpod, Hl.
  injection Hpod as Hpod <-. injection Hl as Hl <-. destruct (find _ l) as [id'|] eqn:Efind; [|done].
  injection Hf as -> <-. split; [done|]. apply find_elem in Efind as [Hin Hm]. split.
  - destruct (bindings_typed w) as [bs Hbs]. destruct (ids_typed w) as [os Hos]. rewrite Hbs, Hos in Hl.
    destruct (GetPodIDsWithBinding_spec bs os podns (Labels (pod_ObjectMeta pod))) as (ids & Hids & Hspec).
    rewrite Hids in Hl. injection Hl as <-. apply Hspec in Hin as (o & Ho & -> & Hns & b & Hb & Hbn & Hsel & Hname).
    exists pod, bs, os, o, b. split; [|done]. unfold GetPod in Hpod. destruct (ca_pod w _) as [[[p|]|]| |]; by simplify_eq.
  - unfold managed_match in Hm. apply orb_true_iff in Hm as [?|[? _]%andb_true_iff]; [by right|by left].
Qed.
End entitlement.
