(* ===== verification/Http.v ===== *)
(** * The parts of Go's net/http, net, net/url and encoding/json that the NMI server uses.

    A response is what the handlers write through [http.ResponseWriter]: the header map, what
    was sent of it (the first status code wins, with the headers of that moment), the body,
    and the status code that the server's own [responseWriter] remembers. *)

From S2P Require Import Prelude GoStrings.

(** ** Requests *)

Abbreviation header := (gmap string (list string)).

Record request := mkRequest {
  r_Method : string;
  r_Path : string;                    (* URL.Path *)
  r_URL : string;                     (* URL.String() *)
  r_Query : gmap string (list string);
  r_RemoteAddr : string;
  r_Header : header;
  r_Body : string
}.

Definition upper_ascii (c : ascii) : ascii :=
  let n := nat_of_ascii c in
  if (97 <=? n)%nat && (n <=? 122)%nat then ascii_of_nat (n - 32) else c.

(** [textproto.CanonicalMIMEHeaderKey], for keys of letters, digits and dashes. *)
Fixpoint canonical_key (first : bool) (s : string) : string :=
  match s with
  | EmptyString => ""
  | String c s' => String (if first then upper_ascii c else lower_ascii c) (canonical_key (Ascii.eqb c "-") s')
  end.

(** The first value of a key, the empty string without one. *)
Definition first_value (m : gmap string (list string)) (k : string) : string :=
  match m !! k with Some (v :: _) => v | _ => "" end.

Definition Header_Get (h : header) (k : string) : string := first_value h (canonical_key true k).
Definition Header_Set (k v : string) (h : header) : header := <[canonical_key true k := [v]]> h.
Definition Header_Add (k v : string) (h : header) : header :=
  <[canonical_key true k := default [] (h !! canonical_key true k) ++ [v]]> h.
Definition Values_Get : gmap string (list string) → string → string := first_value.

(** ** Responses *)

Record response := mkResponse {
  rs_Header : header;
  rs_sent : option (Z * header);
  rs_statusCode : Z;                  (* of [responseWriter] *)
  rs_body : string
}.

Definition StatusOK : Z := 200.
Definition StatusBadRequest : Z := 400.
Definition StatusForbidden : Z := 403.
Definition StatusNotFound : Z := 404.
Definition StatusInternalServerError : Z := 500.
Definition StatusServiceUnavailable : Z := 503.

(** [newResponseWriter] on a fresh response. *)
Definition newResponseWriter (h : header) : response := mkResponse h None StatusOK "".

(** [ResponseWriter.WriteHeader]: a second call has no effect. *)
Definition send (code : Z) (r : response) : response :=
  match rs_sent r with
  | Some _ => r
  | None => mkResponse (rs_Header r) (Some (code, rs_Header r)) (rs_statusCode r) (rs_body r)
  end.

(** The server's [responseWriter.WriteHeader] remembers the code first. *)
Definition WriteHeader (code : Z) (r : response) : response :=
  send code (mkResponse (rs_Header r) (rs_sent r) code (rs_body r)).

(** [Write] sends status 200 if none was sent. *)
Definition Write (s : string) (r : response) : response :=
  let r := send StatusOK r in mkResponse (rs_Header r) (rs_sent r) (rs_statusCode r) (rs_body r +:+ s).

Definition set_header (k v : string) (r : response) : response :=
  mkResponse (Header_Set k v (rs_Header r)) (rs_sent r) (rs_statusCode r) (rs_body r).

Definition newline : string := String (ascii_of_nat 10) "".

(** [http.Error] through a given [WriteHeader]. *)
Definition http_Error_with (write_header : Z → response → response) (error : string) (code : Z) (r : response) : response :=
  Write (error +:+ newline)
    (write_header code
      (set_header "X-Content-Type-Options" "nosniff" (set_header "Content-Type" "text/plain; charset=utf-8" r))).

Definition http_Error : string → Z → response → response := http_Error_with WriteHeader.

(** ** IP addresses *)

(** A decimal field of an IPv4 address: no sign, no leading zero, at most 255. *)
Definition ipv4_field (s : string) : bool :=
  match parse_digits s with
  | Some n => (n <=? 255)%Z && (bool_decide (String.length s = 1%nat) || negb (HasPrefix s "0"))
  | None => false
  end.

(** [net.ParseIP(s) != nil] for a text without a colon. *)
Definition is_ipv4 (s : string) : bool :=
  let fields := Split s "." in
  bool_decide (length fields = 4%nat) && forallb ipv4_field fields.

(** ** JSON *)

Definition hex_digit (n : nat) : ascii :=
  ascii_of_nat (if (n <? 10)%nat then 48 + n else 87 + n).

Definition quote : ascii := ascii_of_nat 34.
Definition backslash : ascii := ascii_of_nat 92.

(** The encoding of one byte in a string, for ASCII texts. *)
Definition json_char (c : ascii) : string :=
  let n := nat_of_ascii c in
  if Ascii.eqb c quote || Ascii.eqb c backslash then String backslash (String c "")
  else if (n =? 10)%nat then String backslash "n"
  else if (n =? 13)%nat then String backslash "r"
  else if (n =? 9)%nat then String backslash "t"
  else if (n <? 32)%nat || (n =? 60)%nat || (n =? 62)%nat || (n =? 38)%nat
  then String backslash (String "u" (String "0" (String "0" (String (hex_digit (n / 16)) (String (hex_digit (n mod 16)) "")))))
  else String c "".

Fixpoint json_chars (s : string) : string :=
  match s with EmptyString => "" | String c s' => json_char c +:+ json_chars s' end.

Definition json_string (s : string) : string := String quote (json_chars s +:+ String quote "").

(** An object with the given members, whose values are encoded already. *)
Definition json_object (l : list (string * string)) : string :=
  "{" +:+ Join ((λ kv : string * string, json_string kv.1 +:+ ":" +:+ kv.2) <$> l) "," +:+ "}".

Definition json_array (l : list string) : string := "[" +:+ Join l "," +:+ "]".

Definition json_null : string := "null".
