(* ===== verification/Router.v ===== *)
(** * The request router (gorilla/mux) as the server sees it.

    The router is a library: how it cleans paths, matches path templates, redirects and
    chooses a route is a parameter ([Mux]), of which the server relies on what its
    documentation states ([MuxLaws]). A concrete router satisfies them. *)

From S2P Require Import Prelude GoStrings Regex Http.

(** ** The interface *)

(** How a route is registered: [Router.PathPrefix], with a template, or [Router.MatcherFunc]. *)
Inductive matcher := PathPrefix (tpl : string) | MatcherFunc (f : request → bool).

(** What the router does with a request: redirect it to another path, call the handler of a
    route, or call the handler for requests without one. *)
Inductive mux_result (A : Type) := MuxRedirect (to : string) | MuxRoute (a : A) | MuxNotFound.
Arguments MuxRedirect {A} _.
Arguments MuxRoute {A} _.
Arguments MuxNotFound {A}.

Class Mux := {
  mux_clean : string → string;
  mux_prefix : string → string → bool;                  (* template, path *)
  mux_route : ∀ {A : Type}, list (matcher * A) → request → mux_result A;
  mux_redirect : request → string → response → response
}.

(** Does a route match a request? *)
Definition mux_matches `{Mux} (m : matcher) (r : request) : bool :=
  match m with PathPrefix tpl => mux_prefix tpl (r_Path r) | MatcherFunc f => f r end.

(** Lower-case letters that fold only to their upper case ([k] and [s] have further forms
    outside ASCII). *)
Definition plain_letter (c : ascii) : bool :=
  let n := nat_of_ascii c in
  (97 <=? n)%nat && (n <=? 122)%nat && negb (Ascii.eqb c "k") && negb (Ascii.eqb c "s").

Definition not_brace (c : ascii) : bool := negb (Ascii.eqb c "{") && negb (Ascii.eqb c "}").

Definition StatusMovedPermanently : Z := 301.

(** The documented behaviour of the router. Unless told otherwise ([SkipClean]), it answers a
    request for a path that is not clean with a redirect to the clean path; otherwise the first
    route that matches is taken, in the order of registration. A prefix template, which starts
    with a slash, matches without variables the paths that start with it; a variable, which has a
    name, matches what its pattern matches. *)
Class MuxLaws (m : Mux) : Prop := {
  mux_clean_idemp p : mux_clean (mux_clean p) = mux_clean p;
  mux_unclean {A} (rs : list (matcher * A)) r :
    mux_clean (r_Path r) ≠ r_Path r → mux_route rs r = MuxRedirect (mux_clean (r_Path r));
  mux_first {A} (rs : list (matcher * A)) r :
    mux_clean (r_Path r) = r_Path r →
    mux_route rs r = match find (λ rt, mux_matches rt.1 r) rs with Some rt => MuxRoute rt.2 | None => MuxNotFound end;
  mux_redirect_sends r to resp :
    rs_sent resp = None → fst <$> rs_sent (mux_redirect r to resp) = Some StatusMovedPermanently;
  mux_prefix_plain tpl path : HasPrefix tpl "/" = true → all_in not_brace tpl = true → mux_prefix tpl path = HasPrefix path tpl;
  mux_prefix_folded name word rest path :
    name ≠ "" → all_in plain_letter name = true → all_in plain_letter word = true → all_in not_brace rest = true →
    mux_prefix ("/{" +:+ name +:+ ":(?i:" +:+ word +:+ ")}" +:+ rest) path = true ↔
      ∃ m t, path = "/" +:+ m +:+ rest +:+ t ∧ ToLower m = ToLower word
}.

(** ** A concrete router *)

(** The letters at the start of a text, and what follows them. *)
Fixpoint span_letters (s : string) : string * string :=
  match s with
  | String c s' => if plain_letter c then let '(a, b) := span_letters s' in (String c a, b) else ("", s)
  | EmptyString => ("", "")
  end.

Lemma span_letters_app a b :
  all_in plain_letter a = true → match b with String c _ => plain_letter c = false | EmptyString => True end →
  span_letters (a +:+ b) = (a, b).
Proof.
  intros Ha Hb. induction a as [|c a IH]; simpl in *.
  - destruct b as [|c b]; simpl; [done|by rewrite Hb].
  - apply andb_true_iff in Ha as [-> Ha]. by rewrite (IH Ha).
Qed.

(** The word and the rest of a template [/{name:(?i:word)}rest]. *)
Definition parse_template (tpl : string) : option (string * string) :=
  s ← strip_lit false "/{" tpl;
  s ← strip_lit false ":(?i:" (span_letters s).2;
  rest ← strip_lit false ")}" (span_letters s).2;
  Some ((span_letters s).1, rest).

Definition sim_prefix (tpl path : string) : bool :=
  match parse_template tpl with
  | Some (word, rest) => bool_decide (is_Some (re_match_here (seq_re [Lit false "/"; Lit true word; Lit false rest]) path))
  | None => HasPrefix path tpl
  end.

Lemma parse_template_folded name word rest :
  all_in plain_letter name = true → all_in plain_letter word = true →
  parse_template ("/{" +:+ name +:+ ":(?i:" +:+ word +:+ ")}" +:+ rest) = Some (word, rest).
Proof.
  intros Hn Hw. unfold parse_template. rewrite strip_lit_app. cbn [mbind option_bind].
  rewrite span_letters_app by done. cbn [snd]. rewrite strip_lit_app. cbn [mbind option_bind].
  rewrite span_letters_app by done. cbn [snd fst]. by rewrite strip_lit_app.
Qed.

Lemma parse_template_plain tpl : all_in not_brace tpl = true → parse_template tpl = None.
Proof.
  intros Ha. unfold parse_template. destruct (strip_lit false "/{" tpl) as [s|] eqn:E; [|done].
  apply strip_lit_Some in E as (t & -> & Hl). inversion Hl; subst. discriminate Ha.
Qed.

(** Takes a text apart along a concatenation of patterns. *)
Ltac inv_lang :=
  repeat match goal with
  | H : lang ?r _ |- _ => inversion H; clear H; subst
  end.

Lemma folded_prefix_match word rest path :
  is_Some (re_match_here (seq_re [Lit false "/"; Lit true word; Lit false rest]) path) ↔
  ∃ m t, path = "/" +:+ m +:+ rest +:+ t ∧ ToLower m = ToLower word.
Proof.
  rewrite re_match_here_spec. split.
  - intros (t & v & -> & Hl). simpl in Hl. inv_lang. rewrite !str_app_assoc. eexists _, v. by split.
  - intros (m & t & -> & Hm). exists ("/" +:+ m +:+ rest), t. rewrite !str_app_assoc. split; [done|].
    simpl seq_re. by repeat constructor.
Qed.

(** A rooted, clean path; a slash at its end is kept. *)
Definition sim_clean (p : string) : string :=
  let p := if HasPrefix p "/" then p else "/" +:+ p in
  let np := path_Clean p in
  if bool_decide (last (Split p slash) = Some "" ∧ np ≠ "/") then np +:+ "/" else np.

Lemma clean_elems_plain l acc : Forall (λ s, plain_elem s = true) l → clean_elems true l acc = rev acc ++ l.
Proof.
  intros Hl. revert acc. induction Hl as [|s l Hs Hl IH]; intros acc; simpl; [by rewrite app_nil_r|].
  apply plain_elem_spec in Hs as (_ & H1 & H2 & H3). rewrite bool_decide_false by tauto. rewrite bool_decide_false by done.
  rewrite IH. simpl. by rewrite <- (assoc_L (++)).
Qed.

Lemma clean_elems_trailing l acc : Forall (λ s, plain_elem s = true) l → clean_elems true (l ++ [""]) acc = rev acc ++ l.
Proof.
  intros Hl. revert acc. induction Hl as [|s l Hs Hl IH]; intros acc; simpl; [by rewrite app_nil_r|].
  apply plain_elem_spec in Hs as (_ & H1 & H2 & H3). rewrite bool_decide_false by tauto. rewrite bool_decide_false by done.
  rewrite IH. simpl. by rewrite <- (assoc_L (++)).
Qed.

Lemma clean_elems_result l acc :
  Forall (λ s, free_of slash s = true) l → Forall (λ s, plain_elem s = true) acc →
  Forall (λ s, plain_elem s = true) (clean_elems true l acc).
Proof.
  intros Hl. revert acc. induction Hl as [|s l Hs Hl IH]; intros acc Hacc; simpl.
  - by apply Forall_rev.
  - case_bool_decide as H1; [by apply IH|]. case_bool_decide as H2.
    + destruct Hacc as [|x acc Hx Hacc]; [by apply IH|]. rewrite bool_decide_false; [by apply IH|].
      by apply plain_elem_spec in Hx as (_ & _ & _ & ?).
    + apply IH. constructor; [|done]. apply plain_elem_spec. tauto.
Qed.

(** The fields of a cleaned path: the empty one before the root, plain ones, and an empty one
    after a slash at the end. *)
Definition clean_path (l tl : list string) : Prop :=
  Forall (λ s, plain_elem s = true) l ∧ (tl = [] ∨ tl = [""] ∧ l ≠ []).

Lemma clean_path_Split l tl : clean_path l tl →
  Split ("/" +:+ Join (l ++ tl) "/") slash = "" :: match l with [] => [""] | _ => l ++ tl end.
Proof.
  intros [Hl Htl]. change (Split ("" +:+ String slash (Join (l ++ tl) "/")) slash = "" :: match l with [] => [""] | _ => l ++ tl end).
  rewrite Split_app by done. f_equal. destruct l as [|x l]; [by destruct Htl as [->|[_ Hn]]|].
  apply Split_Join; [done|]. apply Forall_app. split.
  - eapply Forall_impl; [exact Hl|]. intros s Hs. by apply plain_elem_spec in Hs as [].
  - destruct Htl as [->|[-> _]]; by repeat constructor.
Qed.

Lemma Join_snoc_empty l : l ≠ [] → Join (l ++ [""]) "/" = Join l "/" +:+ "/".
Proof.
  intros Hl. induction l as [|s [|s' l] IH]; [done|done|].
  change (s +:+ "/" +:+ Join ((s' :: l) ++ [""]) "/" = (s +:+ "/" +:+ Join (s' :: l) "/") +:+ "/").
  by rewrite IH, !str_app_assoc.
Qed.

Lemma Join_plain_nonempty l : l ≠ [] → Forall (λ s, plain_elem s = true) l → Join l "/" ≠ "".
Proof.
  intros Hne Hl. destruct Hl as [|s [|s' l] Hs Hl]; [done| |]; apply plain_elem_spec in Hs as (_ & H & _); [done|].
  cbn [Join]. by destruct s.
Qed.

(** What the last steps of the cleaning make of the fields that are kept. *)
Lemma sim_clean_step (l : list string) (trailing : Prop) `{!Decision trailing} :
  Forall (λ s, plain_elem s = true) l →
  ∃ tl, clean_path l tl ∧ (tl = [""] ↔ trailing ∧ l ≠ []) ∧
    (if bool_decide (trailing ∧ "/" +:+ Join l "/" ≠ "/") then ("/" +:+ Join l "/") +:+ "/" else "/" +:+ Join l "/") =
      "/" +:+ Join (l ++ tl) "/".
Proof.
  intros Hl. destruct (decide (l = [])) as [->|Hne].
  - exists []. rewrite bool_decide_false by naive_solver. unfold clean_path. naive_solver.
  - destruct (decide trailing) as [Ht|Ht].
    + exists [""]. split; [unfold clean_path; naive_solver|]. split; [done|]. rewrite bool_decide_true.
      * by rewrite Join_snoc_empty, str_app_assoc.
      * split; [done|]. intros [=E]. by apply (Join_plain_nonempty l).
    + exists []. split; [unfold clean_path; naive_solver|]. rewrite bool_decide_false by tauto. rewrite app_nil_r. naive_solver.
Qed.

Lemma sim_clean_rooted p l :
  HasPrefix p "/" = true → clean_elems true (Split p slash) [] = l → Forall (λ s, plain_elem s = true) l →
  ∃ tl, clean_path l tl ∧ (tl = [""] ↔ last (Split p slash) = Some "" ∧ l ≠ []) ∧ sim_clean p = "/" +:+ Join (l ++ tl) "/".
Proof.
  intros Hp Hc Hl. destruct (sim_clean_step l (last (Split p slash) = Some "") Hl) as (tl & Ht & Htr & E).
  exists tl. split; [done|]. split; [done|]. unfold sim_clean. rewrite Hp. unfold path_Clean.
  rewrite (bool_decide_false (p = "")) by (by intros ->). rewrite Hp, Hc. exact E.
Qed.

Lemma sim_clean_idemp p : sim_clean (sim_clean p) = sim_clean p.
Proof.
  assert (∃ l tl, clean_path l tl ∧ sim_clean p = "/" +:+ Join (l ++ tl) "/") as (l & tl & [Hl Htl] & ->).
  { set (p' := if HasPrefix p "/" then p else "/" +:+ p).
    assert (HasPrefix p' "/" = true) as Hp by (unfold p'; destruct (HasPrefix p "/") eqn:E; [done|apply HasPrefix_app]).
    assert (sim_clean p = sim_clean p') as -> by (unfold sim_clean; fold p'; by rewrite Hp).
    destruct (sim_clean_rooted p' _ Hp eq_refl) as (tl & H1 & _ & H2); [|eauto].
    apply clean_elems_result; [apply Split_all_free|constructor]. }
  pose proof (clean_path_Split l tl (conj Hl Htl)) as Hs.
  destruct (sim_clean_rooted ("/" +:+ Join (l ++ tl) "/") l) as (tl' & [_ Htl'] & Ht & ->); [apply HasPrefix_app| |done|].
  - rewrite Hs. cbn [clean_elems]. destruct l as [|x l]; [done|]. destruct Htl as [->|[-> _]].
    + rewrite app_nil_r. change (clean_elems true ("" :: x :: l) []) with (clean_elems true (x :: l) []). by rewrite clean_elems_plain.
    + change (clean_elems true ("" :: (x :: l) ++ [""]) []) with (clean_elems true ((x :: l) ++ [""]) []). by rewrite clean_elems_trailing.
  - do 2 f_equal. rewrite Hs in Ht. assert (tl' = [""] ↔ tl = [""]) as E; [|naive_solver].
    rewrite Ht. destruct l as [|x l]; [naive_solver|]. destruct Htl as [->|[-> _]]; [|by rewrite app_comm_cons, last_snoc].
    rewrite app_nil_r. split; [|done]. intros [Hlast _]. exfalso. apply last_Some in Hlast as [l' Hl'].
    destruct l' as [|y l']; [done|]. injection Hl' as _ Hl'. rewrite Hl' in Hl. apply Forall_app in Hl as [_ Hl].
    apply Forall_inv, plain_elem_spec in Hl as (_ & ? & _). done.
Qed.

#[export] Instance sim_mux : Mux := {|
  mux_clean := sim_clean;
  mux_prefix := sim_prefix;
  mux_route := λ A rs r,
    if bool_decide (sim_clean (r_Path r) = r_Path r)
    then match find (λ rt : matcher * A, match rt.1 with PathPrefix tpl => sim_prefix tpl (r_Path r) | MatcherFunc f => f r end) rs with
         | Some rt => MuxRoute rt.2
         | None => MuxNotFound
         end
    else MuxRedirect (sim_clean (r_Path r));
  mux_redirect := λ r to resp, send StatusMovedPermanently (set_header "Location" to resp)
|}.

#[export] Instance sim_mux_laws : MuxLaws sim_mux.
Proof.
  split.
  - apply sim_clean_idemp.
  - intros A rs r H. cbn. by rewrite bool_decide_false.
  - intros A rs r H. cbn. by rewrite bool_decide_true.
  - intros r to resp H. cbn. unfold send, set_header. cbn. by rewrite H.
  - intros tpl path _ H. cbn. unfold sim_prefix. by rewrite parse_template_plain.
  - intros name word rest path _ Hn Hw _. cbn [mux_prefix sim_mux]. unfold sim_prefix. rewrite parse_template_folded by done.
    rewrite bool_decide_eq_true. apply folded_prefix_match.
Qed.
