(* ===== verification/NmiServer.v ===== *)
(** * NMI: the server (pkg/nmi/server/server.go).

    A handler is a computation on the world and the response; a panic in it is recovered by
    [ServeHTTP]. The token client and the Kubernetes client are the interfaces
    [TokenClientInt] and [KubeInt]; the router ([Mux]) and forwarding a request to the
    metadata service ([Proxy]) are parameters. *)

From S2P Require Import Prelude GoStrings Types Conversion Fixtures Regex ResourceId MicDesired Crd PodClient Metrics Auth Kube Nmi Http Router.

Definition localhost : string := "127.0.0.1".
Definition headerRetryAfter : string := "Retry-After".

(** The fields of [Server] that the handlers read. *)
Record Server := mkServer {
  s_MetadataIP : string;
  s_MetadataPort : string;
  s_MICNamespace : string;
  BlockInstanceMetadata : bool;
  MetadataHeaderRequired : bool;
  SetRetryAfterHeader : bool
}.

(** ** Reading requests *)

Definition parseMetadata (r : request) : string := Header_Get (r_Header r) "metadata".

Definition parsePodInfo (r : request) : string * string :=
  (Header_Get (r_Header r) "podns", Header_Get (r_Header r) "podname").

Definition parseRemoteAddr (addr : string) : string :=
  match IndexByte addr ":" with
  | None => ""
  | Some n =>
      if (n <=? 1)%nat then ""
      else
        let hostname := String.substring 0 n addr in
        if negb (is_ipv4 hostname) then "" else hostname
  end.

Record TokenRequest := mkTokenRequest { tr_ClientID : string; tr_ResourceID : string; tr_Resource : string }.

Definition ValidateResourceParamExists (r : TokenRequest) : bool := bool_decide (tr_Resource r ≠ "").

Definition parseTokenRequest (r : request) : TokenRequest :=
  let vals := r_Query r in
  let ResourceID := Values_Get vals "msi_res_id" in
  mkTokenRequest (Values_Get vals "client_id")
    (if bool_decide (ResourceID = "") then Values_Get vals "mi_res_id" else ResourceID)
    (Values_Get vals "resource").

(** ** Responses in the format of the metadata service *)

Record msiResponse := mkMsiResponse {
  mr_AccessToken : string;
  mr_RefreshToken : string;
  mr_ExpiresIn : string;
  mr_ExpiresOn : string;
  mr_NotBefore : string;
  mr_Resource : string;
  mr_Type : string
}.

Definition newMSIResponse (token : Token) : msiResponse :=
  mkMsiResponse (AccessToken token) (RefreshToken token) (ExpiresIn token) (ExpiresOn token) (NotBefore token)
    (t_Resource token) (t_Type token).

(** [json.Marshal] by the struct tags; it cannot fail on these types. *)
Definition marshal_msiResponse (m : msiResponse) : string :=
  json_object
    [("access_token", json_string (mr_AccessToken m)); ("refresh_token", json_string (mr_RefreshToken m));
     ("expires_in", json_string (mr_ExpiresIn m)); ("expires_on", json_string (mr_ExpiresOn m));
     ("not_before", json_string (mr_NotBefore m)); ("resource", json_string (mr_Resource m));
     ("token_type", json_string (mr_Type m))].

Record NMIResponse := mkNMIResponse { nr_Token : msiResponse; nr_ClientID : string }.

Definition marshal_NMIResponse (n : NMIResponse) : string :=
  json_object [("token", marshal_msiResponse (nr_Token n)); ("clientid", json_string (nr_ClientID n))].

Record MetadataResponse := mkMetadataResponse { md_Error : string; md_ErrorDescription : string }.

Definition marshal_MetadataResponse (m : MetadataResponse) : string :=
  json_object [("error", json_string (md_Error m)); ("error_description", json_string (md_ErrorDescription m))].

(** One token is an object, several (or none) are a list. *)
Definition marshal_tokens (tokens : list Token) : string :=
  match tokens with
  | [token] => marshal_msiResponse (newMSIResponse token)
  | [] => json_null
  | _ => json_array ((λ token, marshal_msiResponse (newMSIResponse token)) <$> tokens)
  end.

(** ** The handlers *)

Class Proxy (W : Type) := {
  new_request : string → string → option error;                      (* http.NewRequest *)
  proxy_do : string → string → header → string → M W (Z * header * (string * option error))
}.

Section server.
Context `{R : GoRange} {W : Type} `{ki : KubeInt W} `{tc : TokenClientInt W} `{rec : Recorder W} `{adal : Adal W} `{px : Proxy W} `{mux : Mux}.
Variable tag_New : list (string * string) → option error.
Variable reporter : option Reporter.
Variable s : Server.

(** Handlers return the namespace for the metrics. *)
Abbreviation H A := (M (W * response) A).

Definition on_world {A} (m : M W A) : H A := λ '(w, resp), let '(r, w) := m w in (r, (w, resp)).
Definition respond (f : response → response) : H unit := modify (λ '(w, resp), (w, f resp)).

(** [if err != nil { h; return }] *)
Definition try {A B} (m : H A) (h : error → H B) (k : A → H B) : H B := λ st,
  match m st with (Ret a, st) => k a st | (Fail e, st) => h e st | (Panic, st) => (Panic, st) end.

Definition reply_error (message : string) (code : Z) (ns : string) : H string :=
  _ ← respond (http_Error message code); mret ns.

Definition write_response (body ns : string) : H string :=
  _ ← respond (set_header "Content-Length" (pretty (String.length body)));
  _ ← respond (Write body);
  mret ns.

Definition metadataNotSpecifiedError : H unit :=
  let response := marshal_MetadataResponse
    (mkMetadataResponse "invalid_request" "Required metadata header not specified") in
  _ ← respond (set_header "Content-Type" "application/json; charset=utf-8");
  _ ← respond (WriteHeader StatusBadRequest);
  respond (Write (response +:+ newline)).

Definition micRegEx : re := Seq (Lit false "mic") (Rep0 true (Ascii.eqb "-")).

(** The pattern is anchored at the start. *)
Definition isMIC (podNS rsName : string) : bool :=
  EqualFold podNS (s_MICNamespace s) && bool_decide (is_Some (re_match_here micRegEx rsName)).

(** The response body, or an error with its status code. *)
Definition getTokenForExceptedPod (rqClientID rqResource : string) : M W (string * Z + error * Z) := λ w,
  match (if bool_decide (rqClientID = "")
         then GetServicePrincipalTokenFromMSI tag_New reporter rqResource
         else GetServicePrincipalTokenFromMSIWithUserAssignedID tag_New reporter rqClientID rqResource) w with
  | (Ret token, w) => (Ret (inl (marshal_msiResponse (newMSIResponse token), StatusOK)), w)
  | (Fail err, w) =>
      (Ret (inr (Errorf ("failed to get service principal token, error: " +:+ Error err), StatusForbidden)), w)
  | (Panic, w) => (Panic, w)
  end.

(** The status for an error of the token library: its health check failed, or the refresh. *)
Definition token_error_code (err : error) : Z :=
  if IsHealthCheckError err then StatusServiceUnavailable else StatusForbidden.

Definition excepted_reply (tokenRequest : TokenRequest) (ns : string) : H string :=
  r ← on_world (getTokenForExceptedPod (tr_ClientID tokenRequest) (tr_Resource tokenRequest));
  match r with
  | inl (response, _) => write_response response ns
  | inr (err, errorCode) => reply_error (Error err) errorCode ns
  end.

(** Lines 425-472: the reply to a pod that is not excepted. *)
Definition identity_reply (tokenRequest : TokenRequest) (podns podname : string) : H string :=
  r ← on_world (tc_GetIdentities podns podname (tr_ClientID tokenRequest) (tr_ResourceID tokenRequest));
  match r with
  | (_, Some err) =>
      if SetRetryAfterHeader s
      then _ ← respond (set_header headerRetryAfter "20"); reply_error (Error err) StatusServiceUnavailable podns
      else reply_error (Error err) StatusNotFound podns
  | (podID, None) =>
      podID ← lift (deref podID);
      try (on_world (tc_GetTokens (tr_ClientID tokenRequest) (tr_Resource tokenRequest) podID))
        (λ err, reply_error (Error err) (token_error_code err) podns)
        (λ tokens, write_response (marshal_tokens tokens) podns)
  end.

Definition msiHandler (r : request) : H string :=
  if MetadataHeaderRequired s && bool_decide (parseMetadata r ≠ "true")
  then _ ← metadataNotSpecifiedError; mret ""
  else
    let podIP := parseRemoteAddr (r_RemoteAddr r) in
    let tokenRequest := parseTokenRequest r in
    if bool_decide (podIP = "") then reply_error "request remote address is empty" StatusInternalServerError ""
    else if negb (ValidateResourceParamExists tokenRequest)
    then reply_error "parameter resource cannot be empty" StatusBadRequest ""
    else
      try (on_world (ki_GetPodInfo podIP)) (λ err, reply_error (Error err) StatusInternalServerError "") (λ info,
      let podns := pi_ns info in
      try (on_world (ki_ListPodIdentityExceptions podns))
        (λ err, reply_error (Error err) StatusInternalServerError podns) (λ exceptionList,
      if IsPodExcepted (pi_MatchLabels info) exceptionList || isMIC podns (pi_rsName info)
      then excepted_reply tokenRequest podns
      else identity_reply tokenRequest podns (pi_name info))).

Definition hostHandler (r : request) : H string :=
  let hostIP := parseRemoteAddr (r_RemoteAddr r) in
  let tokenRequest := parseTokenRequest r in
  let '(podns, podname) := parsePodInfo r in
  if bool_decide (podns = "") || bool_decide (podname = "")
  then reply_error "missing 'podname' and 'podns' from request header" StatusBadRequest ""
  else if bool_decide (hostIP ≠ localhost)
  then reply_error "request remote address is not from a host" StatusInternalServerError podns
  else if negb (ValidateResourceParamExists tokenRequest)
  then reply_error "parameter resource cannot be empty" StatusBadRequest podns
  else
    r ← on_world (tc_GetIdentities podns podname (tr_ClientID tokenRequest) (tr_ResourceID tokenRequest));
    match r with
    | (_, Some err) => reply_error (Error err) StatusNotFound podns
    | (podID, None) =>
        podID ← lift (deref podID);
        try (on_world (tc_GetTokens (tr_ClientID tokenRequest) (tr_Resource tokenRequest) podID))
          (λ err, reply_error (Error err) (token_error_code err) podns)
          (λ tokens,
            token ← lift (deref (head tokens));
            write_response (marshal_NMIResponse (mkNMIResponse (newMSIResponse token) (ais_ClientID (ai_Spec podID)))) podns)
    end.

(** [copyHeader]: every value of every key is added. *)
Definition copyHeader (dst src : header) : header :=
  foldl (λ dst kv, foldl (λ dst v, Header_Add kv.1 v dst) dst kv.2) dst (go_range 612 src).

Definition add_headers (src : header) (r : response) : response :=
  mkResponse (copyHeader (rs_Header r) src) (rs_sent r) (rs_statusCode r) (rs_body r).

(** [defaultPathHandler]: a response whose body cannot be read is answered with an error, and
    then with its header and body all the same. This handler is not wrapped by the server's
    [responseWriter]. *)
Definition defaultPathHandler (r : request) : H unit :=
  let http_Error := http_Error_with send in
  if MetadataHeaderRequired s && bool_decide (parseMetadata r ≠ "true") then metadataNotSpecifiedError
  else
    match new_request (r_Method r) (r_URL r) with
    | Some err => respond (http_Error (Error err) StatusInternalServerError)
    | None =>
        let host := s_MetadataIP s +:+ ":" +:+ s_MetadataPort s in
        try (on_world (proxy_do (r_Method r) ("http://" +:+ host +:+ r_URL r) (copyHeader ∅ (r_Header r)) (r_Body r)))
          (λ err, respond (http_Error (Error err) StatusInternalServerError))
          (λ '(code, hdr, (body, read_err)),
            _ ← match read_err with
                | Some err => respond (http_Error (Error err) StatusInternalServerError)
                | None => mret tt
                end;
            _ ← respond (add_headers hdr);
            _ ← respond (send code);
            respond (Write body))
    end.

Definition forbiddenHandler : response → response :=
  http_Error_with send "Request blocked by AAD Pod Identity NMI" StatusForbidden.

Definition invalidTokenPathHandler : response → response := http_Error_with send "Invalid request" StatusBadRequest.

(** [ServeHTTP] of an [appHandler]: a panic of the handler becomes a 500; otherwise the
    operation is reported. [panic_text] is the message of the recovered value. *)
Variable panic_text : string.

(** The report after a handler that returned; its error is only logged. *)
Definition report_operation (r : request) (start : Z) (ns : string) : H unit := λ '(w, resp),
  match reporter with
  | None => (Ret tt, (w, resp))
  | Some _ =>
      on_world (_ ← ReportOperationAndStatus tag_New reporter (r_Path r) (pretty (rs_statusCode resp)) ns
        (tr_Resource (parseTokenRequest r)) [(NMIOperationsDurationM, (now w - start)%Z)]; mret tt) (w, resp)
  end.

Definition ServeHTTP (fn : request → H string) (r : request) : H unit := λ '(w, resp),
  let resp := set_header "Content-Type" "application/json" resp in
  match mbind (M := M (W * response)) (report_operation r (now w)) (fn r) (w, resp) with
  | (Panic, (w, resp)) => (Ret tt, (w, http_Error_with send panic_text StatusInternalServerError resp))
  | r => r
  end.

(** ** Routing *)

Definition tokenPathPrefix : string := "/{type:(?i:metadata)}/identity/oauth2/token".
Definition hostTokenPathPrefix : string := "/host/token".
Definition instancePathPrefix : string := "/{type:(?i:metadata)}/instance".

Definition invalidTokenPath : re :=
  seq_re [Lit false "/"; Lit true "metadata"; Lit false "/identity"; Group 1 (Rep0 false dot); Lit false "oauth2";
          Group 2 (Rep0 false dot); Lit false "token"].

Definition invalidTokenPathMatcher (req : request) : bool := MatchString invalidTokenPath (r_Path req).

(** The handlers that [Run] registers. *)
Inductive route := TokenRoute | InvalidTokenRoute | HostRoute | BlockedRoute | DefaultRoute.

(** The routes in the order in which [Run] adds them. *)
Definition routes : list (matcher * route) :=
  [(PathPrefix tokenPathPrefix, TokenRoute);
   (MatcherFunc invalidTokenPathMatcher, InvalidTokenRoute);
   (PathPrefix hostTokenPathPrefix, HostRoute)] ++
  (if BlockInstanceMetadata s then [(PathPrefix instancePathPrefix, BlockedRoute)] else []) ++
  [(PathPrefix "/", DefaultRoute)].

(** What the router does with a request to these routes. *)
Definition route_of (r : request) : mux_result route := mux_route routes r.

(** A request without a route is answered by [http.NotFoundHandler]. *)
Definition handle (r : request) : H unit :=
  match route_of r with
  | MuxRedirect to => respond (mux_redirect r to)
  | MuxRoute TokenRoute => ServeHTTP msiHandler r
  | MuxRoute InvalidTokenRoute => respond invalidTokenPathHandler
  | MuxRoute HostRoute => ServeHTTP hostHandler r
  | MuxRoute BlockedRoute => respond forbiddenHandler
  | MuxRoute DefaultRoute => defaultPathHandler r
  | MuxNotFound => respond (http_Error_with send "404 page not found" StatusNotFound)
  end.
End server.
