(* ===== verification/NmiServerSpec.v ===== *)
(** * NMI: what the server promises.

    A request for a token is answered with a token only for a pod that is entitled to it,
    every request is answered, and token requests with a malformed path never reach the
    metadata service. *)

From S2P Require Import Prelude GoStrings Types Conversion Fixtures Regex ResourceId MicDesired Crd PodClient Metrics Auth Kube Nmi NmiSpec Http Router NmiServer.

(** ** Responses *)

(** Nothing has been sent. *)
Definition fresh (r : response) : Prop := rs_sent r = None ∧ rs_statusCode r = StatusOK.

(** The status that was sent, if any. *)
Definition status (r : response) : option Z := fst <$> rs_sent r.

Lemma send_fresh code r : rs_sent r = None → status (send code r) = Some code.
Proof. intros Hr. unfold status, send. by rewrite Hr. Qed.

Lemma status_Write s r : is_Some (status r) → status (Write s r) = status r.
Proof. unfold status, Write, send. intros [c Hc]. destruct (rs_sent r) as [[]|] eqn:E; simpl; [by rewrite E|done]. Qed.

Lemma Write_fresh s r : rs_sent r = None → status (Write s r) = Some StatusOK.
Proof. intros Hr. unfold status, Write, send. by rewrite Hr. Qed.

Lemma http_Error_with_status (wh : Z → response → response) msg code r :
  (∀ r, rs_sent r = None → status (wh code r) = Some code) → rs_sent r = None →
  status (http_Error_with wh msg code r) = Some code.
Proof. intros Hwh Hr. unfold http_Error_with. rewrite status_Write; [|rewrite Hwh by done; eauto]. by rewrite Hwh. Qed.

Lemma WriteHeader_status code r : rs_sent r = None → status (WriteHeader code r) = Some code.
Proof. intros Hr. unfold WriteHeader. by apply send_fresh. Qed.

Lemma http_Error_status msg code r : rs_sent r = None → status (http_Error msg code r) = Some code.
Proof. apply http_Error_with_status. apply WriteHeader_status. Qed.

Lemma http_Error_statusCode msg code r : rs_statusCode (http_Error msg code r) = code.
Proof. unfold http_Error, http_Error_with, WriteHeader, Write, send. by repeat case_match. Qed.

(** ** Routing *)

(** A path that starts with the token path; "metadata" is matched up to case. *)
Definition token_path (path : string) : Prop :=
  ∃ m t, path = "/" +:+ m +:+ "/identity/oauth2/token" +:+ t ∧ ToLower m = "metadata".

(** A path that contains the parts of the token path, with anything on one line between them. *)
Definition like_token_path (path : string) : Prop :=
  ∃ u m a b t, path = u +:+ "/" +:+ m +:+ "/identity" +:+ a +:+ "oauth2" +:+ b +:+ "token" +:+ t ∧
    ToLower m = "metadata" ∧ all_in dot a = true ∧ all_in dot b = true.

Definition instance_path (path : string) : Prop :=
  ∃ m t, path = "/" +:+ m +:+ "/instance" +:+ t ∧ ToLower m = "metadata".

Lemma metadata_prefix_match `{mux : Mux} `{mlaws : !MuxLaws mux} l path :
  all_in not_brace l = true →
  mux_prefix ("/{type:(?i:metadata)}" +:+ l) path = true ↔ ∃ m t, path = "/" +:+ m +:+ l +:+ t ∧ ToLower m = "metadata".
Proof. apply (mux_prefix_folded "type" "metadata"); done. Qed.

Lemma invalidTokenPathMatcher_spec req : invalidTokenPathMatcher req = true ↔ like_token_path (r_Path req).
Proof.
  unfold invalidTokenPathMatcher. rewrite MatchString_spec. split.
  - intros (u & t & v & E & Hl). rewrite E. clear E. unfold invalidTokenPath in Hl. simpl in Hl. inv_lang.
    rewrite !str_app_assoc. eexists u, _, _, _, v. split; [reflexivity|]. split; [|split]; eassumption.
  - intros (u & m & a & b & t & E & Hm & Ha & Hb).
    rewrite E. exists u, ("/" +:+ m +:+ "/identity" +:+ a +:+ "oauth2" +:+ b +:+ "token"), t. rewrite !str_app_assoc. split; [done|].
    unfold invalidTokenPath. simpl seq_re. by repeat constructor.
Qed.

Section server_spec.
Context `{R : GoRange} {W : Type} `{ki : KubeInt W} `{tc : TokenClientInt W} `{rec : Recorder W} `{adal : Adal W} `{px : Proxy W} `{mux : Mux} `{mlaws : !MuxLaws mux}.
Variable tag_New : list (string * string) → option error.
Variable reporter : option Reporter.
Variable s : Server.

Abbreviation H A := (M (W * response) A).

(** ** The steps of a handler *)

Lemma reply_error_run msg code ns w resp :
  reply_error msg code ns (w, resp) = (Ret ns, (w, http_Error msg code resp)) :> outcome string * (W * response).
Proof. done. Qed.

Lemma write_response_run body ns w resp :
  write_response body ns (w, resp) =
    (Ret ns, (w, Write body (set_header "Content-Length" (pretty (String.length body)) resp))) :> outcome string * (W * response).
Proof. done. Qed.

(** The statuses a handler may answer with; [P] describes when it answers 200. *)
Definition answers_with (codes : list Z) (m : H string) (w : W) (resp : response) (P : W → string → Prop) : Prop :=
  match m (w, resp) with
  | (Ret _, (w', resp')) =>
      ∃ code, status resp' = Some code ∧ rs_statusCode resp' = code ∧
        (code ∈ codes ∨ code = StatusOK ∧ ∃ body, P w' body ∧ rs_body resp' = rs_body resp +:+ body)
  | (Fail _, _) => False
  | (Panic, (_, resp')) => rs_sent resp' = None
  end.

Lemma answers_with_error codes msg code ns w resp P :
  fresh resp → code ∈ codes → answers_with codes (reply_error msg code ns) w resp P.
Proof.
  intros [Hs _] Hc. unfold answers_with. rewrite reply_error_run. exists code.
  rewrite http_Error_statusCode, http_Error_status by done. auto.
Qed.

Lemma answers_with_body codes body ns w resp (P : W → string → Prop) :
  fresh resp → P w body → answers_with codes (write_response body ns) w resp P.
Proof.
  intros [Hs Hc] HP. unfold answers_with. rewrite write_response_run. exists StatusOK.
  split; [by apply Write_fresh|]. unfold Write, send, set_header. simpl. rewrite Hs. simpl. split; [done|]. right. eauto.
Qed.

(** A call of the world, then one of two continuations. *)
Lemma answers_with_try {A} codes (m : M W A) h k w resp P :
  (∀ a w', m w = (Ret a, w') → answers_with codes (k a) w' resp P) →
  (∀ e w', m w = (Fail e, w') → answers_with codes (h e) w' resp P) →
  rs_sent resp = None → answers_with codes (try (on_world m) h k) w resp P.
Proof.
  intros Hk Hh Hs. unfold answers_with, try, on_world in *. destruct (m w) as [[a|e|] w'] eqn:E; simpl.
  - by apply Hk.
  - by apply Hh.
  - done.
Qed.

Lemma answers_with_world {A} codes (m : M W A) (k : A → H string) w resp P :
  (∀ a w', m w = (Ret a, w') → answers_with codes (k a) w' resp P) → (∀ e w', m w ≠ (Fail e, w')) →
  rs_sent resp = None → answers_with codes (on_world m ≫= k) w resp P.
Proof.
  intros Hk Hh Hs. unfold answers_with, mbind, M_bind, on_world in *. destruct (m w) as [[a|e|] w'] eqn:E; simpl.
  - by apply Hk.
  - by eapply Hh.
  - done.
Qed.

Lemma answers_with_deref {A} codes (p : option A) (k : A → H string) w resp P :
  (∀ a, p = Some a → answers_with codes (k a) w resp P) → rs_sent resp = None →
  answers_with codes (lift (deref p) ≫= k) w resp P.
Proof. intros Hk Hs. destruct p as [a|]; [|done]. by apply Hk. Qed.

(** An interface promise: [GetIdentities] reports its errors in its second result. *)
Definition tc_total : Prop := ∀ ns n c i w e w', tc_GetIdentities ns n c i w ≠ (Fail e, w').

Lemma token_error_code_cases err : token_error_code err = StatusServiceUnavailable ∨ token_error_code err = StatusForbidden.
Proof. unfold token_error_code. destruct (IsHealthCheckError err); auto. Qed.

Lemma answers_with_token_error codes err ns w resp P :
  fresh resp → StatusServiceUnavailable ∈ codes → StatusForbidden ∈ codes →
  answers_with codes (reply_error (Error err) (token_error_code err) ns) w resp P.
Proof. intros Hf H1 H2. apply answers_with_error; [done|]. by destruct (token_error_code_cases err) as [->| ->]. Qed.

Definition error_codes : list Z :=
  [StatusBadRequest; StatusForbidden; StatusNotFound; StatusInternalServerError; StatusServiceUnavailable].

(** When a token request may be answered with a token: the pod behind the address is known,
    and it is excepted (or MIC itself), or the token client found it an identity and tokens
    for that identity, which are the answer. *)
Definition may_answer (r : request) (w : W) (w' : W) (body : string) : Prop :=
  ∃ info exs w1 w2, (MetadataHeaderRequired s = true → parseMetadata r = "true") ∧ parseRemoteAddr (r_RemoteAddr r) ≠ "" ∧ tr_Resource (parseTokenRequest r) ≠ "" ∧
    ki_GetPodInfo (parseRemoteAddr (r_RemoteAddr r)) w = (Ret info, w1) ∧
    ki_ListPodIdentityExceptions (pi_ns info) w1 = (Ret exs, w2) ∧
    (((∃ e, e ∈ exs ∧ excepts (pi_MatchLabels info) e) ∨ isMIC s (pi_ns info) (pi_rsName info) = true) ∧
     (∃ code, getTokenForExceptedPod tag_New reporter (tr_ClientID (parseTokenRequest r))
        (tr_Resource (parseTokenRequest r)) w2 = (Ret (inl (body, code)), w')) ∨
     ∃ id w3 tokens, tc_GetIdentities (pi_ns info) (pi_name info) (tr_ClientID (parseTokenRequest r))
         (tr_ResourceID (parseTokenRequest r)) w2 = (Ret (Some id, None), w3) ∧
       tc_GetTokens (tr_ClientID (parseTokenRequest r)) (tr_Resource (parseTokenRequest r)) id w3 = (Ret tokens, w') ∧
       body = marshal_tokens tokens).

Lemma identity_reply_answers tokenRequest podns podname w resp :
  tc_total → fresh resp →
  answers_with error_codes (identity_reply s tokenRequest podns podname) w resp (λ w' body,
    ∃ id w3 tokens, tc_GetIdentities podns podname (tr_ClientID tokenRequest) (tr_ResourceID tokenRequest) w = (Ret (Some id, None), w3) ∧
      tc_GetTokens (tr_ClientID tokenRequest) (tr_Resource tokenRequest) id w3 = (Ret tokens, w') ∧ body = marshal_tokens tokens).
Proof.
  intros Ht Hf. apply answers_with_world; [|by intros|apply Hf]. intros [podID [err|]] w1 Hg.
  - destruct (SetRetryAfterHeader s); [|apply answers_with_error; [done|set_solver]].
    apply (answers_with_error error_codes (Error err) StatusServiceUnavailable podns w1 (set_header headerRetryAfter "20" resp));
      [done|set_solver].
  - apply answers_with_deref; [|apply Hf]. intros id ->. apply answers_with_try; [|intros; apply answers_with_token_error; [done|set_solver..]|apply Hf].
    intros tokens w2 Hk. apply answers_with_body; [done|]. eauto 10.
Qed.

Lemma getTokenForExceptedPod_total c res w e w' : getTokenForExceptedPod tag_New reporter c res w ≠ (Fail e, w').
Proof. unfold getTokenForExceptedPod. by repeat case_match. Qed.

Lemma getTokenForExceptedPod_code c res w err code w' :
  getTokenForExceptedPod tag_New reporter c res w = (Ret (inr (err, code)), w') → code = StatusForbidden.
Proof. unfold getTokenForExceptedPod. intros H. repeat case_match; by simplify_eq. Qed.

Lemma excepted_reply_answers tokenRequest ns w resp :
  fresh resp →
  answers_with error_codes (excepted_reply tag_New reporter tokenRequest ns) w resp (λ w' body,
    ∃ code, getTokenForExceptedPod tag_New reporter (tr_ClientID tokenRequest) (tr_Resource tokenRequest) w =
      (Ret (inl (body, code)), w')).
Proof.
  intros Hf. apply answers_with_world; [|intros; apply getTokenForExceptedPod_total|apply Hf].
  intros [[body code]|[err code]] w1 Hg.
  - apply answers_with_body; [done|]. eauto.
  - apply getTokenForExceptedPod_code in Hg as ->. apply answers_with_error; [done|set_solver].
Qed.

Lemma metadata_answers ns w resp P :
  fresh resp → answers_with error_codes (_ ← metadataNotSpecifiedError; mret ns) w resp P.
Proof.
  intros [Hs Hc]. unfold answers_with. cbv [metadataNotSpecifiedError respond modify mret M_ret mbind M_bind].
  exists StatusBadRequest. split; [|split; [|left; set_solver]].
  - rewrite status_Write; rewrite WriteHeader_status by done; eauto.
  - unfold Write, WriteHeader, send, set_header. simpl. by rewrite Hs.
Qed.

Lemma answers_with_mono codes m w resp (P Q : W → string → Prop) :
  answers_with codes m w resp P → (∀ w' b, P w' b → Q w' b) → answers_with codes m w resp Q.
Proof.
  unfold answers_with. destruct (m (w, resp)) as [[a|e|] [w' resp']]; try done.
  intros (code & H1 & H2 & H3) HPQ. exists code. split; [done|]. split; [done|].
  destruct H3 as [H3|(H3 & b & Hb & Hr)]; [by left|right]. eauto 6.
Qed.

(** A request that the check of the header lets pass. *)
Lemma metadata_given r :
  MetadataHeaderRequired s && bool_decide (parseMetadata r ≠ "true") = false →
  MetadataHeaderRequired s = true → parseMetadata r = "true".
Proof. intros Hm E. rewrite E in Hm. simpl in Hm. by apply bool_decide_eq_false, dec_stable in Hm. Qed.

(** The three ways into [msiHandler] that lead to a token are the cases of [may_answer]. *)
Lemma msiHandler_answers r w resp :
  tc_total → fresh resp →
  answers_with error_codes (msiHandler tag_New reporter s r) w resp (λ w' body, may_answer r w w' body).
Proof.
  intros Ht Hf. unfold msiHandler. destruct (_ && _) eqn:Hm; [by apply metadata_answers|]. cbv zeta.
  assert (MetadataHeaderRequired s = true → parseMetadata r = "true") as Hmd by (by apply metadata_given). clear Hm.
  case_bool_decide as Hip; [apply answers_with_error; [done|set_solver]|].
  destruct (ValidateResourceParamExists _) eqn:Hv; [|apply answers_with_error; [done|set_solver]].
  apply bool_decide_eq_true in Hv. cbn [negb].
  apply answers_with_try; [|intros; apply answers_with_error; [done|set_solver]|apply Hf]. intros info w1 Hi.
  apply answers_with_try; [|intros; apply answers_with_error; [done|set_solver]|apply Hf]. intros exs w2 He.
  destruct (_ || _) eqn:Hx.
  - eapply answers_with_mono; [by apply excepted_reply_answers|]. intros w' body Hg.
    exists info, exs, w1, w2. do 5 (split; [done|]). left. split; [|done].
    apply orb_true_iff in Hx as [Hx|Hx]; [left; by apply IsPodExcepted_run|by right].
  - eapply answers_with_mono; [by apply identity_reply_answers|]. intros w' body Hg.
    exists info, exs, w1, w2. do 5 (split; [done|]). by right.
Qed.

(** A request of the host is answered with a token of an identity that the token client found
    for the pod it names. *)
Definition may_answer_host (r : request) (w w' : W) (body : string) : Prop :=
  parseRemoteAddr (r_RemoteAddr r) = localhost ∧ (parsePodInfo r).1 ≠ "" ∧ (parsePodInfo r).2 ≠ "" ∧
  ∃ id w1 token rest,
    tc_GetIdentities (parsePodInfo r).1 (parsePodInfo r).2 (tr_ClientID (parseTokenRequest r))
      (tr_ResourceID (parseTokenRequest r)) w = (Ret (Some id, None), w1) ∧
    tc_GetTokens (tr_ClientID (parseTokenRequest r)) (tr_Resource (parseTokenRequest r)) id w1 = (Ret (token :: rest), w') ∧
    body = marshal_NMIResponse (mkNMIResponse (newMSIResponse token) (ais_ClientID (ai_Spec id))).

Lemma hostHandler_answers r w resp :
  tc_total → fresh resp → answers_with error_codes (hostHandler r) w resp (λ w' body, may_answer_host r w w' body).
Proof.
  intros Ht Hf. unfold hostHandler, may_answer_host. destruct (parsePodInfo r) as [podns podname]. cbn [fst snd]. cbv zeta.
  destruct (_ || _) eqn:Hn; [apply answers_with_error; [done|set_solver]|].
  apply orb_false_iff in Hn as [H1%bool_decide_eq_false H2%bool_decide_eq_false].
  case_bool_decide as Hip; [apply answers_with_error; [done|set_solver]|].
  destruct (negb _); [apply answers_with_error; [done|set_solver]|].
  apply answers_with_world; [|by intros|apply Hf]. intros [podID [err|]] w1 Hg; [apply answers_with_error; [done|set_solver]|].
  apply answers_with_deref; [|apply Hf]. intros id ->.
  apply answers_with_try; [|intros; apply answers_with_token_error; [done|set_solver..]|apply Hf].
  intros tokens w2 Hk. apply answers_with_deref; [|apply Hf]. intros token Hh.
  destruct tokens as [|token' rest]; [done|]. injection Hh as ->. apply answers_with_body; [done|].
  split; [done|]. split; [done|]. split; [done|]. eauto 10.
Qed.

(** ** A request from the first byte to the last *)

(** [resp] has been given an answer: a status of [codes], or 200 with a body [P] describes. *)
Definition answered (codes : list Z) (m : H unit) (w : W) (resp : response) (P : W → string → Prop) : Prop :=
  ∃ w' resp' code, m (w, resp) = (Ret tt, (w', resp')) ∧ status resp' = Some code ∧
    (code ∈ codes ∨ code = StatusOK ∧ ∃ w1, P w1 (rs_body resp')).

Variable panic_text : string.

Lemma report_operation_run r start ns w resp :
  ∃ w', report_operation tag_New reporter r start ns (w, resp) = (Ret tt, (w', resp)).
Proof.
  unfold report_operation, ReportOperationAndStatus, on_reporter. destruct reporter as [rep|]; [|eauto].
  cbv [on_world mbind M_bind]. destruct (tag_New _); cbn; eauto.
Qed.

Lemma ServeHTTP_answered fn r w resp P :
  fresh resp → rs_body resp = "" →
  (∀ resp, fresh resp → answers_with error_codes (fn r) w resp P) →
  answered error_codes (ServeHTTP tag_New reporter panic_text fn r) w resp P.
Proof.
  intros [Hs Hc] Hb Ha. set (resp1 := set_header "Content-Type" "application/json" resp).
  assert (fresh resp1) as H1 by done. specialize (Ha resp1 H1). unfold answers_with in Ha.
  unfold answered, ServeHTTP. fold resp1. cbv [mbind M_bind].
  destruct (fn r (w, resp1)) as [[ns|e|] [w1 resp2]]; [|done|].
  - destruct Ha as (code & Hst & Hcd & Hok). destruct (report_operation_run r (now w) ns w1 resp2) as [w2 ->].
    exists w2, resp2, code. split; [done|]. split; [done|].
    destruct Hok as [Hok|(-> & body & HP & Hbody)]; [by left|]. right. split; [done|].
    assert (rs_body resp1 = "") as E by done. rewrite E in Hbody. simpl in Hbody. subst body. eauto.
  - exists w1. eexists _, StatusInternalServerError. split; [done|]. split; [|left; set_solver].
    apply http_Error_with_status; [apply send_fresh|done].
Qed.

(** The answer of the metadata service, passed on as it is. *)
Definition forwarded (r : request) (w w' : W) (code : Z) (resp : response) : Prop :=
  ∃ hdr body, proxy_do (r_Method r) ("http://" +:+ s_MetadataIP s +:+ ":" +:+ s_MetadataPort s +:+ r_URL r)
      (copyHeader ∅ (r_Header r)) (r_Body r) w = (Ret (code, hdr, (body, None)), w') ∧
    rs_body resp = body ∧ rs_Header resp = copyHeader ∅ hdr.

(** What a status means for a request on a route; a request for a path that is not clean is
    only sent to the clean path. *)
Definition meaning (r : request) (w w' : W) (code : Z) (resp : response) : Prop :=
  match route_of s r with
  | MuxRedirect to => code = StatusMovedPermanently ∧ to = mux_clean (r_Path r) ∧ to ≠ r_Path r ∧ w' = w
  | MuxRoute TokenRoute => code ∈ error_codes ∨ code = StatusOK ∧ ∃ w1, may_answer r w w1 (rs_body resp)
  | MuxRoute InvalidTokenRoute => code = StatusBadRequest
  | MuxRoute HostRoute => code ∈ error_codes ∨ code = StatusOK ∧ ∃ w1, may_answer_host r w w1 (rs_body resp)
  | MuxRoute BlockedRoute => code = StatusForbidden
  | MuxRoute DefaultRoute =>
      (MetadataHeaderRequired s = true ∧ parseMetadata r ≠ "true" ∧ code = StatusBadRequest) ∨
      ((MetadataHeaderRequired s = true → parseMetadata r = "true") ∧
       (code = StatusInternalServerError ∨ forwarded r w w' code resp))
  | MuxNotFound => code = StatusNotFound
  end.

(** The router takes the first route that matches a clean path; all else is redirected. *)
Definition first_route (r : request) : mux_result route :=
  let path := r_Path r in
  if mux_prefix tokenPathPrefix path then MuxRoute TokenRoute
  else if invalidTokenPathMatcher r then MuxRoute InvalidTokenRoute
  else if HasPrefix path hostTokenPathPrefix then MuxRoute HostRoute
  else if BlockInstanceMetadata s && mux_prefix instancePathPrefix path then MuxRoute BlockedRoute
  else if HasPrefix path "/" then MuxRoute DefaultRoute else MuxNotFound.

Lemma route_of_clean r : mux_clean (r_Path r) = r_Path r → route_of s r = first_route r.
Proof.
  intros Hc. unfold route_of, first_route. rewrite (mux_first _ r Hc). unfold routes.
  rewrite <- (mux_prefix_plain hostTokenPathPrefix (r_Path r)), <- (mux_prefix_plain "/" (r_Path r)) by done.
  destruct (BlockInstanceMetadata s); cbn [app find fst mux_matches andb]; by repeat (destruct (mux_prefix _ _) || destruct (invalidTokenPathMatcher _)).
Qed.

Lemma route_of_unclean r : mux_clean (r_Path r) ≠ r_Path r → route_of s r = MuxRedirect (mux_clean (r_Path r)).
Proof. apply mux_unclean. Qed.

Lemma route_of_redirect r to : route_of s r = MuxRedirect to → to = mux_clean (r_Path r) ∧ to ≠ r_Path r.
Proof.
  destruct (decide (mux_clean (r_Path r) = r_Path r)) as [Hc|Hc].
  - rewrite (route_of_clean r Hc). unfold first_route. by repeat case_match.
  - rewrite (route_of_unclean r Hc). by intros [= <-].
Qed.

Lemma status_send code r c : status r = Some c → status (send code r) = Some c.
Proof. unfold status, send. destruct (rs_sent r) as [[]|] eqn:E; [by rewrite E|done]. Qed.

Lemma status_add_headers hdr r : status (add_headers hdr r) = status r.
Proof. done. Qed.

Lemma defaultPathHandler_answered r w :
  (∀ m u h b w w', proxy_do m u h b w ≠ (Panic, w')) →
  ∃ w' resp' code, defaultPathHandler s r (w, newResponseWriter ∅) = (Ret tt, (w', resp')) ∧ status resp' = Some code ∧
    ((MetadataHeaderRequired s = true ∧ parseMetadata r ≠ "true" ∧ code = StatusBadRequest) ∨
     ((MetadataHeaderRequired s = true → parseMetadata r = "true") ∧
      (code = StatusInternalServerError ∨ forwarded r w w' code resp'))).
Proof.
  intros Hp. unfold defaultPathHandler. destruct (_ && _) eqn:Hm.
  { apply andb_true_iff in Hm as [Hm1 Hm2%bool_decide_eq_true]. eexists w, _, StatusBadRequest. split; [done|].
    split; [done|]. by left. }
  assert (MetadataHeaderRequired s = true → parseMetadata r = "true") as Hmd by (by apply metadata_given). clear Hm.
  destruct (new_request _ _) as [e|].
  { eexists w, _, StatusInternalServerError. split; [done|]. split; [done|]. right. auto. }
  unfold try, on_world. specialize (Hp (r_Method r) ("http://" +:+ (s_MetadataIP s +:+ ":" +:+ s_MetadataPort s) +:+ r_URL r)
    (copyHeader ∅ (r_Header r)) (r_Body r) w).
  destruct (proxy_do _ _ _ _ w) as [[[[code hdr] [body [e|]]]|e|] w1] eqn:E; [| | |by destruct (Hp w1)].
  - eexists w1, _, StatusInternalServerError. split; [done|]. split; [|right; auto].
    rewrite status_Write, (status_send _ _ StatusInternalServerError); try done. 
  - eexists w1, _, code. split; [done|]. split; [done|]. right. split; [done|]. right. exists hdr, body.
    rewrite !str_app_assoc in E. by rewrite E.
  - eexists w1, _, StatusInternalServerError. split; [done|]. split; [done|]. right. auto.
Qed.

Lemma handle_answered r w :
  tc_total → (∀ m u h b w w', proxy_do m u h b w ≠ (Panic, w')) →
  ∃ w' resp' code, handle tag_New reporter s panic_text r (w, newResponseWriter ∅) = (Ret tt, (w', resp')) ∧
    status resp' = Some code ∧ meaning r w w' code resp'.
Proof.
  intros Ht Hp. unfold handle, meaning. assert (fresh (newResponseWriter ∅)) as Hf by done.
  destruct (route_of s r) as [to|[]|] eqn:Hr; [| | | | | |by eauto 10].
  { apply route_of_redirect in Hr as [??]. eexists w, _, StatusMovedPermanently. split; [done|]. split; [by apply mux_redirect_sends|done]. }
  - destruct (ServeHTTP_answered (msiHandler tag_New reporter s) r w (newResponseWriter ∅) (λ w' body, may_answer r w w' body))
      as (w' & resp' & code & H); [done|done|by intros; apply msiHandler_answers|eauto].
  - eauto 10.
  - destruct (ServeHTTP_answered hostHandler r w (newResponseWriter ∅) (λ w' body, may_answer_host r w w' body))
      as (w' & resp' & code & H); [done|done|by intros; apply hostHandler_answers|eauto].
  - eauto 10.
  - by apply defaultPathHandler_answered.
Qed.

(** C10: NMI answers every request, and a 200 is always a justified one. Whatever the request,
    the caches and the libraries do (a panic of a handler included), one status is sent:
    301 to the clean path if the path is not clean, 400, 403 and 404 for the paths that are refused, on the token paths one of five error
    codes or a 200 whose body is the token of an identity that the token client found for the
    pod behind the address (or of the node, for excepted pods), and on the other paths
    the unchanged answer of the metadata service or a 500. *)
Theorem every_request_answered r w :
  tc_total → (∀ m u h b w w', proxy_do m u h b w ≠ (Panic, w')) →
  ∃ w' resp' code, handle tag_New reporter s panic_text r (w, newResponseWriter ∅) = (Ret tt, (w', resp')) ∧
    status resp' = Some code ∧ meaning r w w' code resp'.
Proof. apply handle_answered. Qed.

(** C35: which requests reach which handler. A request for a path that is not clean reaches
    none: it is redirected to the clean path, which is not redirected again. A clean path
    reaches the metadata service only if it does not contain the parts of the token path,
    however "metadata" is spelled and whatever stands between the parts; and a path of instance
    metadata does not reach it when that is blocked. *)
Theorem routes_spec r :
  let path := r_Path r in
  let to_host := HasPrefix path hostTokenPathPrefix = true in
  let blocked := BlockInstanceMetadata s = true ∧ instance_path path in
  (mux_clean path ≠ path → route_of s r = MuxRedirect (mux_clean path) ∧
    ∀ r', r_Path r' = mux_clean path → ∀ to, route_of s r' ≠ MuxRedirect to) ∧
  (mux_clean path = path →
    (route_of s r = MuxRoute TokenRoute ↔ token_path path) ∧
    (route_of s r = MuxRoute InvalidTokenRoute ↔ like_token_path path ∧ ¬ token_path path) ∧
    (route_of s r = MuxRoute HostRoute ↔ to_host ∧ ¬ like_token_path path) ∧
    (route_of s r = MuxRoute BlockedRoute ↔ blocked ∧ ¬ to_host ∧ ¬ like_token_path path) ∧
    (route_of s r = MuxRoute DefaultRoute ↔ HasPrefix path "/" = true ∧ ¬ blocked ∧ ¬ to_host ∧ ¬ like_token_path path) ∧
    (route_of s r = MuxNotFound ↔ HasPrefix path "/" = false ∧ ¬ like_token_path path)).
Proof.
  cbv zeta. split; intros Hc.
  { split; [by apply route_of_unclean|]. intros r' Hr' to Hto. apply route_of_redirect in Hto as [-> Hne].
    by rewrite Hr', mux_clean_idemp in Hne. }
  rewrite (route_of_clean r Hc). unfold first_route.
  assert (token_path (r_Path r) → like_token_path (r_Path r)) as Htl.
  { intros (m & t & -> & Hm). by exists "", m, "/", "/", t. }
  assert (BlockInstanceMetadata s && mux_prefix instancePathPrefix (r_Path r) = true ↔ BlockInstanceMetadata s = true ∧ instance_path (r_Path r)) as H3.
  { rewrite andb_true_iff. by rewrite (metadata_prefix_match "/instance"). }
  pose proof (metadata_prefix_match "/identity/oauth2/token" (r_Path r) eq_refl) as H1.
  fold (token_path (r_Path r)) in H1. change ("/{type:(?i:metadata)}" +:+ "/identity/oauth2/token") with tokenPathPrefix in H1.
  pose proof (invalidTokenPathMatcher_spec r) as H2.
  assert (HasPrefix (r_Path r) hostTokenPathPrefix = true → HasPrefix (r_Path r) "/" = true) as Hh.
  { rewrite !HasPrefix_spec. intros [t ->]. by exists ("host/token" +:+ t). }
  assert (BlockInstanceMetadata s = true ∧ instance_path (r_Path r) → HasPrefix (r_Path r) "/" = true) as Hi.
  { intros (_ & m & t & -> & _). by rewrite HasPrefix_app. }
  destruct (mux_prefix tokenPathPrefix _); [naive_solver|]. destruct (invalidTokenPathMatcher r); [naive_solver|].
  destruct (HasPrefix _ hostTokenPathPrefix); [naive_solver|].
  destruct (_ && _); [naive_solver|]. destruct (HasPrefix (r_Path r) "/"); naive_solver.
Qed.
End server_spec.

(** ** From the address of a request to the identity of its token *)

Lemma isMIC_spec s podNS rsName :
  isMIC s podNS rsName = true ↔ ToLower podNS = ToLower (s_MICNamespace s) ∧ HasPrefix rsName "mic" = true.
Proof.
  unfold isMIC. rewrite andb_true_iff, EqualFold_spec, bool_decide_eq_true, re_match_here_spec, HasPrefix_spec.
  split; intros [Hns H]; (split; [done|]).
  - destruct H as (t & v & -> & Hl). unfold micRegEx in Hl. inv_lang. rewrite str_app_assoc. eauto.
  - destruct H as [t ->]. exists ("mic" +:+ ""), t. split; [done|]. unfold micRegEx. by repeat constructor.
Qed.

Section entitled.
Context `{R : GoRange} {W : Type} `{ps : PodStore W} `{ca : Caches W} `{laws : !CacheLaws ca} `{wt : Waiter W} `{rec : Recorder W}.
Context `{adal : Adal W} `{px : Proxy W} `{mux : Mux} `{mlaws : !MuxLaws mux}.
Variable tag_New : list (string * string) → option error.
Variable reporter : option Reporter.
Variable panic_text : string.
(** The reporter of the Kubernetes client; [NewKubeClient] does not return without one. *)
Variable kube_reporter : Reporter.

#[local] Instance node_kube : KubeInt W := kube_client tag_New (Some kube_reporter).
#[local] Abbreviation waited := (waited tag_New kube_reporter).

(** What entitles a pod to an identity, by the mode of the token client. *)
Definition entitled (c : token_client) (w : W) (podns podname : string) (id : AzureIdentity) : Prop :=
  match c with
  | Standard sc => assigned_to_pod w podns podname id ∧ admitted (sc_IsNamespaced sc) podns id = true
  | Managed _ => bound_to_pod w podns podname id
  end.

(** The world in which the token client read its caches last: after some of its polls. *)
Definition read_last (c : token_client) (w w' : W) : Prop :=
  match c with
  | Standard sc => ∃ j : nat,
      (Z.of_nat j < ListPodIDsRetryAttemptsForCreated sc + ListPodIDsRetryAttemptsForAssigned sc)%Z ∧ w' = polls sc j w
  | Managed _ => w' = w
  end.

(** An exception of the pod's namespace in the cache has one of the pod's labels. *)
Definition excepted (w : W) (p : Pod) : Prop :=
  ∃ es e, ca_exceptions w = all_exceptions es ∧ e ∈ es ∧ Namespace (v1ape_ObjectMeta e) = pod_ns p ∧
    ∃ k v v', v1apes_PodLabels (v1ape_Spec e) !! k = Some v ∧ Labels (pod_ObjectMeta p) !! k = Some v' ∧ ToLower v = ToLower v'.

Lemma client_total c : tc_total (tc := client_of tag_New reporter c).
Proof. intros podns podname clientID resourceID w e w'. destruct c; [apply standard_total|apply managed_total]. Qed.

Lemma client_sound c podns podname clientID resourceID w id w' :
  tc_GetIdentities (TokenClientInt := client_of tag_New reporter c) podns podname clientID resourceID w = (Ret (Some id, None), w') →
  read_last c w w' ∧ entitled c w' podns podname id ∧ answers clientID resourceID id.
Proof.
  destruct c as [sc|mc]; intros Hg.
  - apply standard_sound in Hg as (? & ? & ? & ?). done.
  - apply managed_sound in Hg as (-> & ? & ?). done.
Qed.

Lemma listed_excepted w ns l w' p :
  ki_ListPodIdentityExceptions ns w = (Ret l, w') → ns = pod_ns p →
  (∃ e, e ∈ l ∧ excepts (Labels (pod_ObjectMeta p)) e) → excepted w p.
Proof.
  simpl. intros [= Hl <-] -> (e & He & Hx). destruct (exceptions_typed w) as [es Hes]. rewrite Hes in Hl.
  rewrite ListPodIdentityExceptions_all in Hl. injection Hl as <-.
  apply list_elem_of_fmap in He as (o & -> & [Hns Ho]%list_elem_of_filter). by exists es, o.
Qed.

(** C9: a pod only gets a token it is entitled to, in both modes. If a request on the token
    path is answered with 200, then exactly one pending or running pod has the address the
    request came from, the request had the metadata header (when it is required), and
    either that pod is excepted, or it is MIC by namespace and replica set, or the token is of an
    identity that it is entitled to and that it asked for: in standard mode one that is
    assigned to it, in managed mode one that a binding of its own namespace gives it. *)
Theorem token_only_if_entitled c s r w w' resp :
  (∀ k : nat, (k ≤ getPodListRetries)%nat → all_pods (waited k w)) →
  token_path (r_Path r) →
  handle (tc := client_of tag_New reporter c) tag_New reporter s panic_text r (w, newResponseWriter ∅) = (Ret tt, (w', resp)) →
  status resp = Some StatusOK →
  ∃ (k : nat) p, (k ≤ getPodListRetries)%nat ∧
    live_pods (waited k w) (parseRemoteAddr (r_RemoteAddr r)) = [p] ∧
    (MetadataHeaderRequired s = true → parseMetadata r = "true") ∧
    (excepted (waited k w) p ∨
     (ToLower (pod_ns p) = ToLower (s_MICNamespace s) ∧ HasPrefix (getReplicasetName p) "mic" = true) ∨
     ∃ id w1 w2 tokens, read_last c (waited k w) w1 ∧ entitled c w1 (pod_ns p) (pod_name p) id ∧
       answers (tr_ClientID (parseTokenRequest r)) (tr_ResourceID (parseTokenRequest r)) id ∧
       tc_GetTokens (TokenClientInt := client_of tag_New reporter c) (tr_ClientID (parseTokenRequest r))
         (tr_Resource (parseTokenRequest r)) id w1 = (Ret tokens, w2) ∧
       rs_body resp = marshal_tokens tokens).
Proof.
  intros Hpods Hpath Hh Hst. assert (route_of s r = MuxRoute TokenRoute) as Hroute.
  { destruct (decide (mux_clean (r_Path r) = r_Path r)) as [Hc|Hc].
    - rewrite (route_of_clean s r Hc). unfold first_route. by rewrite (proj2 (metadata_prefix_match "/identity/oauth2/token" _ eq_refl) Hpath).
    - unfold handle in Hh. rewrite (route_of_unclean s r Hc) in Hh. injection Hh as _ <-. unfold status in Hst.
      by rewrite mux_redirect_sends in Hst. }
  unfold handle in Hh. rewrite Hroute in Hh.
  destruct (ServeHTTP_answered tag_New reporter panic_text
    (msiHandler tag_New reporter s (tc := client_of tag_New reporter c)) r w (newResponseWriter ∅)
    (λ w' body, may_answer (tc := client_of tag_New reporter c) tag_New reporter s r w w' body))
    as (w0 & resp' & code & He & Hs & Hok); [done|done|intros; apply msiHandler_answers; [apply client_total|done]|].
  rewrite Hh in He. injection He as <- <-. rewrite Hst in Hs. injection Hs as <-.
  destruct Hok as [Hok|(_ & w1 & info & exs & w2 & w3 & Hmd & Hip & _ & Hinfo & Hexs & Hwhy)]; [by unfold error_codes in Hok; set_solver|].
  destruct (GetPodInfo_run tag_New kube_reporter (parseRemoteAddr (r_RemoteAddr r)) w Hip Hpods) as (k & Hk & _ & _ & Hw & Hret).
  simpl in Hinfo. rewrite Hinfo in Hw, Hret. destruct (proj1 (Hret info) eq_refl) as (p & Hlive & ->).
  unfold last_attempt in Hw. rewrite Hlive in Hw. simpl in Hw. subst w2.
  exists k, p. split; [done|]. split; [done|]. split; [done|].
  destruct Hwhy as [[[Hex|Hmic] _]|(id & w4 & tokens & Hid & Htok & Hbody)].
  - left. by eapply listed_excepted.
  - right; left. by apply isMIC_spec.
  - right; right. apply client_sound in Hid as (Hread & Hent & Hans).
    exists id, w4, w1, tokens. simpl in Hexs. injection Hexs as _ <-. split; [exact Hread|]. split; [exact Hent|]. split; [exact Hans|]. split; [exact Htok|exact Hbody].
Qed.
End entitled.
