(* ===== verification/NmiSim.v ===== *)
(** * A simulated node, on which the theorems about NMI are instantiated.

    Its caches are lists of objects, those of the assigned identities by the time from which
    they are there; a wait always runs to its end; the metadata service answers every request. *)

From S2P Require Import Prelude GoStrings Types Conversion Fixtures Regex ResourceId MicDesired Crd PodClient Metrics Auth Kube Nmi NmiSpec Http Router NmiServer NmiServerSpec.

Record node := mkNode {
  n_now : Z;
  n_pods : list Pod;
  n_assigned : list (Z * list V1AzureAssignedIdentity);
  n_bindings : list V1AzureIdentityBinding;
  n_ids : list V1AzureIdentity;
  n_exceptions : list V1AzurePodIdentityException;
  n_recorded : list entry
}.

(** The assigned identities of the moment: those of the last list that has begun. *)
Definition assigned_now (w : node) : list V1AzureAssignedIdentity :=
  foldl (λ l '(from, l'), if (from <=? n_now w)%Z then l' else l) [] (n_assigned w).

Definition advance (d : Z) (w : node) : node :=
  mkNode (n_now w + d) (n_pods w) (n_assigned w) (n_bindings w) (n_ids w) (n_exceptions w) (n_recorded w).

#[export] Instance node_pods : PodStore node := {| ps_list := λ w, Some <$> n_pods w; ps_sleep := advance |}.

#[export] Instance node_caches : Caches node := {|
  ca_assigned := λ w, all_assigned (assigned_now w);
  ca_bindings := λ w, all_bindings (n_bindings w);
  ca_ids := λ w, all_ids_items (n_ids w);
  ca_exceptions := λ w, all_exceptions (n_exceptions w);
  ca_pod := λ w key,
    Ret (Some <$> find (λ p, bool_decide (pod_ns p +:+ "/" +:+ pod_name p = key)) (n_pods w));
  api_GetSecret := λ _ _, fail (Errorf "no secrets")
|}.

#[export] Instance node_cache_laws : CacheLaws node_caches.
Proof. split; intros w; eauto. Defined.

#[export] Instance node_waiter : Waiter node := λ d w, (None, advance d w).

#[export] Instance node_recorder : Recorder node := {|
  recorded := n_recorded;
  record := λ e w, mkNode (n_now w) (n_pods w) (n_assigned w) (n_bindings w) (n_ids w) (n_exceptions w) (n_recorded w ++ [e]);
  now := n_now;
  record_recorded := λ _ _, eq_refl;
  record_now := λ _ _, eq_refl
|}.

#[export] Instance node_proxy : Proxy node := {|
  new_request := λ _ _, None;
  proxy_do := λ _ url _ _, mret (StatusOK, ∅, (url, None))
|}.

(** A node with one pod, whose identity [ns/a] is created at once and assigned after eight
    seconds, and a binding that selects the pod. *)
Definition v1_identity : V1AzureIdentity := ConvertInternalIdentityToV1Identity (mk_identity "ns" "a").
Definition v1_binding : V1AzureIdentityBinding := ConvertInternalBindingToV1Binding (mk_binding "ns" "ba" "a" "sel").

Definition v1_assigned (st : string) : list V1AzureAssignedIdentity :=
  match ConvertInternalAssignedIdentityToV1AssignedIdentity (mk_assigned "p" "ns" "n1" "a" "ba" st) with
  | Ret a => [a]
  | _ => []
  end.

Definition node1 : node :=
  mkNode 0 [mk_pod "ns" "p" "n1" "sel"]
    [(0, v1_assigned AssignedIDCreated); (8 * Second, v1_assigned AssignedIDAssigned)]%Z
    [v1_binding] [v1_identity] [] [].

(** Four attempts for an identity to be created, four more for it to be assigned, five seconds
    apart. *)
Definition standard1 : StandardClient := mkStandardClient 4 4 5 true.

Definition reporter1 : option Reporter := Some (mkReporter []).
#[local] Instance kube1 : KubeInt node := kube accept_tags reporter1.
#[local] Instance range1 : GoRange := canonical_range.

(** What the standard client reads at a poll. *)
Definition read_at (k : nat) : id_states :=
  match view "ns" "p" (polls standard1 k node1) with Ret m => m | _ => ∅ end.
Definition found_at (k : nat) : list AzureIdentity := in_state (read_at k) AssignedIDAssigned.
Definition found1 : AzureIdentity := default zeroAzureIdentity (head (found_at 2)).

Lemma shown_at (k : nat) st id m :
  view "ns" "p" (polls standard1 k node1) = Ret m →
  shown (polls standard1 k node1) "ns" "p" st id ↔ id ∈ in_state m st.
Proof.
  intros Hm. destruct (view_shown accept_tags reporter1 "ns" "p" (polls standard1 k node1)) as (m' & Hv & H).
  unfold kube1 in Hm. rewrite Hm in Hv. injection Hv as <-. symmetry. apply H.
Qed.

Lemma assigned_in_time_witness :
  found_at 1 = [] ∧ length (found_at 2) = 1%nat ∧
  ∃ (j : nat) id', StandardClient_GetIdentities standard1 "ns" "p" "a" "" node1 = (Ret (Some id', None), polls standard1 j node1) ∧
    (j ≤ 2)%nat ∧ assigned_to_pod (polls standard1 j node1) "ns" "p" id'.
Proof.
  split; [vm_compute; reflexivity|]. split; [vm_compute; reflexivity|].
  destruct (assigned_in_time accept_tags reporter1 standard1 "ns" "p" "a" "" 2 node1 found1) as (j & id' & Hj & _ & Hg & Hs & _).
  - vm_compute. reflexivity.
  - intros [|[|j]] Hj; [| |lia]; (split; [left; vm_compute; reflexivity|vm_compute; reflexivity]).
  - apply (shown_at 2 _ _ (read_at 2)); [vm_compute; reflexivity|]. apply list_elem_of_In. vm_compute. left. reflexivity.
  - right. vm_compute. reflexivity.
  - intros [|[|[|j]]] st id' Hj Hst Hsh _; [..|lia]; 
      (eapply shown_at in Hsh; [|vm_compute; reflexivity]); apply list_elem_of_In in Hsh;
      destruct Hst as [->| ->]; vm_compute in Hsh; try destruct Hsh as [<-|[]]; try destruct Hsh.
    split; [right; vm_compute; reflexivity|vm_compute; reflexivity].
  - exists j, id'. split; [exact Hg|]. split; [exact Hj|exact Hs].
Defined.

(** A request of the pod for a token. *)
Definition server1 : Server := mkServer "169.254.169.254" "80" "default" true true true.

Definition request1 (path : string) : request :=
  mkRequest "GET" path path {["resource" := ["https://vault"]; "client_id" := ["a"]]} "10.0.0.1:5123"
    {["Metadata" := ["true"]]} "".

Definition standard_client : TokenClientInt node := client_of accept_tags reporter1 (Standard standard1).

Definition token_run : outcome unit * (node * response) :=
  handle (tc := standard_client) accept_tags reporter1 server1 "panic" (request1 "/Metadata/identity/oauth2/token")
    (node1, newResponseWriter ∅).

Lemma every_request_answered_witness :
  tc_total (tc := standard_client) ∧
  ∃ w' resp' code, handle (tc := standard_client) accept_tags reporter1 server1 "panic"
      (request1 "/metadata/versions") (node1, newResponseWriter ∅) = (Ret tt, (w', resp')) ∧
    status resp' = Some code ∧ meaning (tc := standard_client) accept_tags reporter1 server1
      (request1 "/metadata/versions") node1 w' code resp'.
Proof.
  assert (tc_total (tc := standard_client)) as Ht by (apply client_total).
  split; [exact Ht|].
  apply (every_request_answered (tc := standard_client) accept_tags reporter1 server1 "panic" (request1 "/metadata/versions") node1 Ht).
  intros m u h b w w' E. discriminate E.
Defined.

Lemma token_only_if_entitled_witness :
  status token_run.2.2 = Some StatusOK ∧
  ∃ (k : nat) p, (k ≤ getPodListRetries)%nat ∧ live_pods (waited accept_tags (mkReporter []) k node1) "10.0.0.1" = [p].
Proof.
  assert (status token_run.2.2 = Some StatusOK) as Hst by (vm_compute; reflexivity).
  split; [exact Hst|].
  destruct (token_only_if_entitled (W := node) accept_tags reporter1 "panic" (mkReporter []) (Standard standard1) server1
    (request1 "/Metadata/identity/oauth2/token") node1 token_run.2.1 token_run.2.2) as (k & p & Hk & Hl & _).
  - intros k _. unfold all_pods. apply Forall_fmap, Forall_forall. intros q _. simpl. eauto.
  - exists "Metadata", "". split; [vm_compute; reflexivity|vm_compute; reflexivity].
  - vm_compute. reflexivity.
  - exact Hst.
  - exists k, p. split; [exact Hk|exact Hl].
Defined.

Lemma routes_spec_witness :
  route_of server1 (request1 "/x//../metadata/identity/oauth2/token") = MuxRedirect "/metadata/identity/oauth2/token" ∧
  (∀ to, route_of server1 (request1 "/metadata/identity/oauth2/token") ≠ MuxRedirect to) ∧
  route_of server1 (request1 "/METADATA/identity//oauth2/token") = MuxRedirect "/METADATA/identity/oauth2/token" ∧
  route_of server1 (request1 "/metadata/identity/x/oauth2/token") = MuxRoute InvalidTokenRoute ∧
  token_path "/METADATA/identity/oauth2/token".
Proof.
  destruct (routes_spec server1 (request1 "/x//../metadata/identity/oauth2/token")) as [H _].
  assert (sim_clean "/x//../metadata/identity/oauth2/token" = "/metadata/identity/oauth2/token") as E by (vm_compute; reflexivity).
  destruct H as [H1 H2]; [vm_compute; intros Hn; discriminate Hn|].
  split; [exact H1|]. split; [apply H2; symmetry; exact E|]. split; [vm_compute; reflexivity|]. split; [vm_compute; reflexivity|].
  destruct (routes_spec server1 (request1 "/METADATA/identity/oauth2/token")) as [_ H3].
  destruct H3 as [[H3 _] _]; [vm_compute; reflexivity|]. apply H3. vm_compute. reflexivity.
Defined.
