(* ===== verification/Informers.v ===== *)
(** * Construction and start of the informers (pkg/crd/crd.go: [NewCRDClient],
    [NewCRDClientLite], [Start], [StartLite]; pkg/k8s/client.go: [NewKubeClient], [Start];
    pkg/pod/pod.go: [NewPodClient], [Start]; pkg/mic/node.go; the scheme of
    apis/aadpodidentity/v1/register.go).

    client-go is a parameter: [ClientGo] for what it builds, [InformerRuntime] for what runs.
    An informer that a client was built without is a nil interface: using it panics. *)

From S2P Require Import Prelude GoStrings Types Conversion Fixtures MicDesired Crd PodClient Metrics Auth CloudInit Kube Nmi.

(** ** What client-go builds *)

(** [metav1.ListOptions], as far as the code sets it. *)
Record ListOptions := mkListOptions { LabelSelector : string; FieldSelector : string }.
Definition zeroListOptions : ListOptions := mkListOptions "" "".

(** [rest.Config]: the fields the code sets, and the others. *)
Record rest_config {other Serializer : Type} := mkRestConfig {
  GroupVersion : option string;
  APIPath : string;
  ContentType : string;
  NegotiatedSerializer : option Serializer;
  UserAgent : string;
  rc_other : other
}.
Arguments mkRestConfig {other Serializer}.
Arguments rest_config : clear implicits.

Class ClientGo := {
  config_other : Type;
  Scheme : Type;
  NewScheme : Scheme;
  AddKnownTypes : string → list string → Scheme → Scheme;
  AddToGroupVersion : string → Scheme → Scheme;
  clientgoscheme_AddToScheme : Scheme → outcome Scheme;
  (* serializer.WithoutConversionCodecFactory over a codec factory is built from a scheme *)
  Serializer : Type;
  WithoutConversionCodecFactory : Scheme → Serializer;
  RESTClient : Type;
  RESTClientFor : rest_config config_other Serializer → outcome RESTClient;
  Clientset : Type;
  NewForConfig : rest_config config_other Serializer → outcome Clientset;
  BuildConfigFromFlags : string → string → outcome (rest_config config_other Serializer);
  InClusterConfig : outcome (rest_config config_other Serializer);
  ListWatch : Type;
  (* client, resource, namespace and options modifier; field selector *)
  NewFilteredListWatchFromClient : RESTClient → string → string → (ListOptions → ListOptions) → ListWatch;
  NewListWatchFromClient : RESTClient → string → string → string → ListWatch;
  SharedInformer : Type;
  NewSharedInformer : ListWatch → string → Z → option SharedInformer;
  AddEventHandler : (watch_event → EventType) → SharedInformer → SharedInformer;
  PodInformer : Type;
  NewFilteredPodInformer : Clientset → string → Z → (ListOptions → ListOptions) → PodInformer;
  SharedInformerFactory : Type;
  factory_Pods : SharedInformerFactory → PodInformer;
  AddPodEventHandler : (pod_change → list EventType) → PodInformer → PodInformer
}.

Definition NamespaceAll : string := "".
(** [fields.Everything()], as the string of the selector. *)
Definition Everything : string := "".
Definition Minute : Z := 60 * Second.

Section construction.
Context `{cg : ClientGo}.
Abbreviation config := (rest_config config_other Serializer).

(** ** register.go *)

Definition addKnownTypes (scheme : Scheme) : outcome Scheme :=
  let scheme := AddKnownTypes SchemeGroupVersion
    ["AzureIdentity"; "AzureIdentityList"; "AzureIdentityBinding"; "AzureIdentityBindingList";
     "AzureAssignedIdentity"; "AzureAssignedIdentityList"; "AzurePodIdentityException";
     "AzurePodIdentityExceptionList"] scheme in
  Ret (AddToGroupVersion SchemeGroupVersion scheme).

(** The scheme builder runs the one function that it was made with. *)
Definition AddToScheme : Scheme → outcome Scheme := addKnownTypes.

(** ** crd.go: list watches and informers *)

Definition newRestClient (cfg : config) : outcome RESTClient :=
  scheme ← AddToScheme NewScheme;
  scheme ← clientgoscheme_AddToScheme scheme;
  RESTClientFor (mkRestConfig (Some SchemeGroupVersion) "/apis" "application/json"
    (Some (WithoutConversionCodecFactory scheme)) (UserAgent cfg) (rc_other cfg)).

(** The tweak of [NodeNameFilter] on list options. *)
Definition label_tweak (nodeName : string) (l : ListOptions) : ListOptions :=
  mkListOptions (NodeNameFilter nodeName (LabelSelector l)) (FieldSelector l).

Definition newBindingListWatch (r : RESTClient) : ListWatch :=
  NewListWatchFromClient r AzureIDBindingResource NamespaceAll Everything.
Definition newIDListWatch (r : RESTClient) : ListWatch :=
  NewListWatchFromClient r AzureIDResource NamespaceAll Everything.
Definition newAssignedIDNodeListWatch (r : RESTClient) (nodeName : string) : ListWatch :=
  NewFilteredListWatchFromClient r AzureAssignedIDResource NamespaceAll (label_tweak nodeName).
Definition newAssignedIDListWatch (r : RESTClient) : ListWatch :=
  NewListWatchFromClient r AzureAssignedIDResource NamespaceAll Everything.
Definition newPodIdentityExceptionListWatch (r : RESTClient) : ListWatch :=
  NewFilteredListWatchFromClient r AzurePodIdentityExceptionResource NamespaceAll (λ options, options).

(** [cache.NewSharedInformer] with the check for nil that follows each of its calls. *)
Definition new_informer (lw : ListWatch) (object msg : string) : outcome SharedInformer :=
  match NewSharedInformer lw object (10 * Minute) with
  | None => Fail (Errorf msg)
  | Some i => Ret i
  end.

Definition newBindingInformer (lw : ListWatch) : outcome SharedInformer :=
  i ← new_informer lw "AzureIdentityBinding" ("failed to create watcher for " +:+ AzureIDBindingResource);
  Ret (AddEventHandler newBindingInformer_event i).
Definition newIDInformer (lw : ListWatch) : outcome SharedInformer :=
  i ← new_informer lw "AzureIdentity" ("failed to create watcher for " +:+ AzureIDResource);
  Ret (AddEventHandler newIDInformer_event i).
Definition newAssignedIDInformer (lw : ListWatch) : outcome SharedInformer :=
  new_informer lw "AzureAssignedIdentity" ("failed to create " +:+ AzureAssignedIDResource +:+ " informer").
Definition newBindingInformerLite (lw : ListWatch) : outcome SharedInformer :=
  new_informer lw "AzureIdentityBinding" ("failed to create " +:+ AzureIDBindingResource +:+ " informer").
Definition newIDInformerLite (lw : ListWatch) : outcome SharedInformer :=
  new_informer lw "AzureIdentity" ("failed to create " +:+ AzureIDResource +:+ " informer").
Definition newPodIdentityExceptionInformer (lw : ListWatch) : outcome SharedInformer :=
  new_informer lw "AzurePodIdentityException" ("failed to create " +:+ AzurePodIdentityExceptionResource +:+ " informer").

(** ** crd.go: the client *)

Record CrdClient := mkCrdClient {
  crd_rest : RESTClient;
  BindingInformer : option SharedInformer;
  IDInformer : option SharedInformer;
  AssignedIDInformer : option SharedInformer;
  PodIdentityExceptionInformer : option SharedInformer;
  crd_reporter : Reporter
}.

Variable tag_New : list (string * string) → option error.

Definition new_reporter : outcome Reporter := or_error "failed to create reporter for metrics" (NewReporter tag_New).

Definition NewCRDClientLite (cfg : config) (nodeName : string) (scale isStandardMode : bool) : outcome CrdClient :=
  restClient ← newRestClient cfg;
  informers ←
    (if isStandardMode then
       let assignedIDListWatch :=
         if scale then newAssignedIDNodeListWatch restClient nodeName else newAssignedIDListWatch restClient in
       assignedIDListInformer ← newAssignedIDInformer assignedIDListWatch;
       Ret (None, None, Some assignedIDListInformer)
     else
       bindingListInformer ← newBindingInformerLite (newBindingListWatch restClient);
       idListInformer ← newIDInformerLite (newIDListWatch restClient);
       Ret (Some bindingListInformer, Some idListInformer, None));
  let '(bindingListInformer, idListInformer, assignedIDListInformer) := informers in
  podIdentityExceptionInformer ← newPodIdentityExceptionInformer (newPodIdentityExceptionListWatch restClient);
  reporter ← new_reporter;
  Ret (mkCrdClient restClient bindingListInformer idListInformer assignedIDListInformer
         (Some podIdentityExceptionInformer) reporter).

Definition NewCRDClient (cfg : config) : outcome CrdClient :=
  restClient ← newRestClient cfg;
  bindingInformer ← newBindingInformer (newBindingListWatch restClient);
  idInformer ← newIDInformer (newIDListWatch restClient);
  assignedIDListInformer ← newAssignedIDInformer (newAssignedIDListWatch restClient);
  reporter ← new_reporter;
  Ret (mkCrdClient restClient (Some bindingInformer) (Some idInformer) (Some assignedIDListInformer) None reporter).

(** ** client.go: the client of NMI *)

Record KubeClient := mkKubeClient {
  ClientSet : Clientset;
  kc_CrdClient : CrdClient;
  kc_PodInformer : PodInformer;
  kc_reporter : Reporter
}.

(** [buildConfig], on the value of the environment variable KUBECONFIG. *)
Definition buildConfig (KUBECONFIG : string) : outcome config :=
  if bool_decide (KUBECONFIG ≠ "") then BuildConfigFromFlags "" KUBECONFIG else InClusterConfig.

Definition getkubeclient (cfg : config) : outcome Clientset := NewForConfig cfg.

(** The tweak of the pods' [NodeNameFilter] on list options. *)
Definition field_tweak (nodeName : string) (l : ListOptions) : ListOptions :=
  mkListOptions (LabelSelector l) (PodNodeNameFilter nodeName (FieldSelector l)).

Definition with_user_agent (ua : string) (cfg : config) : config :=
  mkRestConfig (GroupVersion cfg) (APIPath cfg) (ContentType cfg) (NegotiatedSerializer cfg) ua (rc_other cfg).

(** [ua] is [version.GetUserAgent("NMI", version.NMIVersion)]. *)
Definition NewKubeClient (KUBECONFIG ua nodeName : string) (scale isStandardMode : bool) : outcome KubeClient :=
  cfg ← buildConfig KUBECONFIG;
  let cfg := with_user_agent ua cfg in
  clientset ← getkubeclient cfg;
  crdclient ← NewCRDClientLite cfg nodeName scale isStandardMode;
  reporter ← new_reporter;
  let podInformer := NewFilteredPodInformer clientset NamespaceAll (10 * Minute) (field_tweak nodeName) in
  Ret (mkKubeClient clientset crdclient podInformer reporter).

(** nmi.go: [GetKubeClient]. *)
Definition GetKubeClient (KUBECONFIG ua nodeName mode : string) (enableScaleFeatures : bool) : outcome KubeClient :=
  NewKubeClient KUBECONFIG ua nodeName enableScaleFeatures (bool_decide (mode = StandardMode)).

(** pod.go: the pod client of MIC. *)
Definition NewPodClient (i : SharedInformerFactory) : PodInformer := AddPodEventHandler addPodHandler (factory_Pods i).
End construction.

(** ** Starting *)

(** [go i.Run(exit)], and [cache.WaitForCacheSync]: whether all the caches were synchronised
    before the end of the process. *)
Class InformerRuntime (W : Type) `{cg : ClientGo} := {
  go_Run : SharedInformer → W → W;
  go_Run_pods : PodInformer → W → W;
  WaitForCacheSync : list SharedInformer → W → bool * W;
  WaitForPodSync : PodInformer → W → bool * W;
  NodeInformer : Type;
  node_Lister_Get : NodeInformer → string → W → outcome Node;
  go_Run_nodes : NodeInformer → W → W;
  WaitForNodeSync : NodeInformer → W → bool * W;
  (* GetStore().List() *)
  store_items : SharedInformer → W → list store_item;
  pod_items : PodInformer → W → list (option Pod);
  pod_by_key : PodInformer → W → string → outcome (option (option Pod))
}.

Section start.
Context {W : Type} `{rt : InformerRuntime W}.

(** A call through an interface value that may be nil. *)
Definition on_informer {A} (i : option SharedInformer) (k : SharedInformer → M W A) : M W A :=
  i ← lift (deref i); k i.

Definition run_informer (i : option SharedInformer) : M W unit := on_informer i (λ i, modify (go_Run i)).

Definition Client_SyncCache (initial : bool) (cacheSyncs : list SharedInformer) : M W unit := λ w,
  let '(synced, w) := WaitForCacheSync cacheSyncs w in (SyncCache synced initial, w).

Definition SyncCacheAll (c : CrdClient) (initial : bool) : M W unit :=
  on_informer (BindingInformer c) (λ b, on_informer (IDInformer c) (λ i, on_informer (AssignedIDInformer c) (λ a,
    Client_SyncCache initial [b; i; a]))).

Definition Client_Start (c : CrdClient) : M W unit :=
  _ ← run_informer (BindingInformer c);
  _ ← run_informer (IDInformer c);
  _ ← run_informer (AssignedIDInformer c);
  SyncCacheAll c true.

(** One step of [StartLite]: [if i != nil { go i.Run(exit); append(cacheHasSynced, i.HasSynced) }] *)
Definition start_if (i : option SharedInformer) (cacheHasSynced : list SharedInformer) : M W (list SharedInformer) :=
  match i with
  | Some i => _ ← modify (go_Run i); mret (cacheHasSynced ++ [i])
  | None => mret cacheHasSynced
  end.

Definition StartLite (c : CrdClient) : M W unit :=
  cacheHasSynced ← start_if (AssignedIDInformer c) [];
  cacheHasSynced ← start_if (BindingInformer c) cacheHasSynced;
  cacheHasSynced ← start_if (IDInformer c) cacheHasSynced;
  cacheHasSynced ← start_if (PodIdentityExceptionInformer c) cacheHasSynced;
  Client_SyncCache true cacheHasSynced.

(** client.go: a failed synchronisation of the pods is only logged. *)
Definition KubeClient_Sync (c : KubeClient) : M W unit := λ w, (Ret tt, (WaitForPodSync (kc_PodInformer c) w).2).

Definition KubeClient_Start (c : KubeClient) : M W unit :=
  _ ← modify (go_Run_pods (kc_PodInformer c));
  _ ← StartLite (kc_CrdClient c);
  KubeClient_Sync c.

(** pod.go: here, too, it is only logged. *)
Definition pod_syncCache (podWatcher : PodInformer) : M W unit := λ w, (Ret tt, (WaitForPodSync podWatcher w).2).

Definition pod_Start (podWatcher : PodInformer) : M W unit :=
  _ ← modify (go_Run_pods podWatcher);
  pod_syncCache podWatcher.

(** node.go *)
Definition NodeClient_Get (informer : NodeInformer) (name : string) : M W Node := λ w,
  (node_Lister_Get informer name w, w).

Definition NodeClient_Start (informer : NodeInformer) : M W unit := λ w,
  (Ret tt, (WaitForNodeSync informer (go_Run_nodes informer w)).2).

(** ** The reads of NMI through the informers of its client

    The methods of [Kube] read the caches; here they read the stores of the informers that
    the client was built with. *)

Definition kube_ListPodIds (c : KubeClient) (podns podname : string) : M W id_states :=
  on_informer (AssignedIDInformer (kc_CrdClient c)) (λ i w, (ListPodIds (store_items i w) podns podname, w)).

(** The bindings are listed before the identities. *)
Definition kube_ListPodIdsWithBinding (c : KubeClient) (podns : string) (labels : gmap string string) :
    M W (list AzureIdentity) :=
  on_informer (BindingInformer (kc_CrdClient c)) (λ b w,
    (match IDInformer (kc_CrdClient c) with
     | Some i => GetPodIDsWithBinding (store_items b w) (store_items i w) podns labels
     | None => _ ← ListBindings (store_items b w); Panic
     end, w)).

Definition kube_ListPodIdentityExceptions (c : KubeClient) (ns : string) : M W (list AzurePodIdentityException) :=
  on_informer (PodIdentityExceptionInformer (kc_CrdClient c)) (λ e w,
    (ListPodIdentityExceptions (store_items e w) ns, w)).

Definition kube_GetPod (c : KubeClient) (namespace name : string) : M W Pod := λ w,
  (GetPod (pod_by_key (kc_PodInformer c) w) namespace name, w).

(** [k8s.Client] over these reads. The pods by address are looked up in the pods of the
    node, secrets are read from the API server; [sleep] lets time pass. *)
Variable sleep : Z → W → W.
Variable secrets : string → string → M W Secret.

Definition client_pods (c : KubeClient) : PodStore W := {| ps_list := pod_items (kc_PodInformer c); ps_sleep := sleep |}.

(** The stores of a client as the caches of [Kube]; an informer that is not there has none. *)
Definition items_of (i : option SharedInformer) (w : W) : list store_item :=
  match i with Some i => store_items i w | None => [] end.

Definition client_caches (c : KubeClient) : Caches W := {|
  ca_assigned := items_of (AssignedIDInformer (kc_CrdClient c));
  ca_bindings := items_of (BindingInformer (kc_CrdClient c));
  ca_ids := items_of (IDInformer (kc_CrdClient c));
  ca_exceptions := items_of (PodIdentityExceptionInformer (kc_CrdClient c));
  ca_pod := pod_by_key (kc_PodInformer c);
  api_GetSecret := secrets
|}.

Context `{Recorder W}.
Variable tag_New : list (string * string) → option error.
Variable reporter : option Reporter.

Definition informer_kube (c : KubeClient) : KubeInt W := {|
  ki_GetPod := kube_GetPod c;
  ki_GetPodInfo := GetPodInfo (H := client_pods c) tag_New reporter;
  ki_ListPodIds := kube_ListPodIds c;
  ki_ListPodIdsWithBinding := kube_ListPodIdsWithBinding c;
  ki_GetSecret := GetSecret (H0 := client_caches c) tag_New reporter;
  ki_ListPodIdentityExceptions := kube_ListPodIdentityExceptions c
|}.
End start.
