(* ===== verification/Iptables.v ===== *)
(** * NMI: the packet filter rules (pkg/nmi/iptables/iptables.go), the connection entries
    (pkg/nmi/conntrack/conntrack.go) and the loop of the server that keeps them up to date
    (pkg/nmi/server/server.go: [updateIPTableRules]).

    The go-iptables library is a parameter ([IPTables]) with its documented behaviour on the
    chains of a table as laws ([IPTablesLaws]); a chain is the list of its rules as
    [iptables -S] prints them, without the leading "-A chain". *)

From S2P Require Import Prelude GoStrings Http.

(** ** The library *)

Class IPTables (W : Type) := {
  ipt_New : M W unit;
  ipt_List : string → string → M W (list string);
  ipt_NewChain : string → string → M W unit;
  ipt_ClearChain : string → string → M W unit;
  ipt_DeleteChain : string → string → M W unit;
  ipt_AppendUnique : string → string → list string → M W unit;
  ipt_Exists : string → string → list string → M W bool;
  ipt_Insert : string → string → Z → list string → M W unit;
  ipt_Delete : string → string → list string → M W unit
}.

(** ** pkg/nmi/iptables *)

Definition tablename : string := "nat".
Definition customchainname : string := "aad-metadata".
Definition localhost_range : string := "127.0.0.1/32".

Section iptables.
Context {W : Type} `{ipt : IPTables W}.

(** [iptables -t nat -I "chain" 1 -j "customchainname"]; a failed look-up counts as absence. *)
Definition placeCustomChainInChain (table chain : string) : M W unit := λ w,
  match ipt_Exists table chain ["-j"; customchainname] w with
  | (Ret true, w) => (Ret tt, w)
  | (Panic, w) => (Panic, w)
  | (Ret false, w) | (Fail _, w) => ipt_Insert table chain 1 ["-j"; customchainname] w
  end.

Definition redirect_args (destIP destPort targetip targetport : string) : list string :=
  ["-p"; "tcp"; "!"; "-s"; localhost_range; "-d"; destIP; "--dport"; destPort;
   "-j"; "DNAT"; "--to-destination"; targetip +:+ ":" +:+ targetport].

Definition flushCreateCustomChainrules (destIP destPort targetip targetport : string) : M W unit :=
  _ ← ipt_ClearChain tablename customchainname;
  _ ← ipt_AppendUnique tablename customchainname (redirect_args destIP destPort targetip targetport);
  ipt_AppendUnique tablename customchainname ["-j"; "RETURN"].

(** The rules as the listing should show them. *)
Definition redirect_rule (destIP destPort targetip targetport : string) : string :=
  "! -s 127.0.0.1/32 -d " +:+ destIP +:+ "/32 -p tcp -m tcp --dport " +:+ destPort +:+
  " -j DNAT --to-destination " +:+ targetip +:+ ":" +:+ targetport.
Definition return_rule : string := "-j RETURN".

Definition expectedRules (destIP destPort targetip targetport : string) : gset string :=
  {[ "-N aad-metadata"; "-A aad-metadata " +:+ redirect_rule destIP destPort targetip targetport;
     "-A aad-metadata " +:+ return_rule ]}.

(** The number of rules before the first unexpected one. *)
Fixpoint matchingRules (expected : gset string) (rules : list string) : nat :=
  match rules with
  | [] => 0
  | rule :: rules => if bool_decide (rule ∈ expected) then S (matchingRules expected rules) else 0
  end.

Definition ensureCustomChain (destIP destPort targetip targetport : string) : M W unit := λ w,
  let check rules w :=
    let expected := expectedRules destIP destPort targetip targetport in
    if bool_decide (matchingRules expected rules = size expected) then (Ret tt, w)
    else flushCreateCustomChainrules destIP destPort targetip targetport w in
  match ipt_List tablename customchainname w with
  | (Ret rules, w) => check rules w
  | (Fail _, w) =>
      match ipt_NewChain tablename customchainname w with
      | (Ret _, w) => check [] w
      | r => r
      end
  | (Panic, w) => (Panic, w)
  end.

Definition AddCustomChain (destIP destPort targetip targetport : string) : M W unit :=
  if bool_decide (destIP = "") then fail (Errorf "destIP must be set")
  else if bool_decide (destPort = "") then fail (Errorf "destPort must be set")
  else if bool_decide (targetip = "") then fail (Errorf "targetip must be set")
  else if bool_decide (targetport = "") then fail (Errorf "targetport must be set")
  else
    _ ← ipt_New;
    _ ← ensureCustomChain destIP destPort targetip targetport;
    placeCustomChainInChain tablename "PREROUTING".

(** The rules are only logged. *)
Definition LogCustomChain : M W unit :=
  _ ← ipt_New;
  _ ← ipt_List tablename customchainname;
  mret tt.

Definition removeCustomChainReference (table chain : string) : M W unit := λ w,
  match ipt_Exists table chain ["-j"; customchainname] w with
  | (Ret true, w) => ipt_Delete table chain ["-j"; customchainname] w
  | (Panic, w) => (Panic, w)
  | (Ret false, w) | (Fail _, w) => (Ret tt, w)
  end.

Definition removeCustomChain (table : string) : M W unit :=
  _ ← ipt_ClearChain table customchainname;
  ipt_DeleteChain table customchainname.

Definition DeleteCustomChain : M W unit :=
  _ ← ipt_New;
  _ ← removeCustomChainReference tablename "PREROUTING";
  removeCustomChain tablename.
End iptables.

(** ** pkg/nmi/conntrack *)

(** The netlink library, and the address functions of Go's net and k8s.io/utils/net. *)
Class Conntrack (W : Type) := {
  IPAddr : Type;
  ConntrackFilter : Type;
  ParseIP : string → option IPAddr;
  IsIPv4 : IPAddr → bool;
  ParsePort : string → bool → outcome Z;
  new_filter : ConntrackFilter;
  AddDstIP : IPAddr → ConntrackFilter → outcome ConntrackFilter;
  AddProtocol : Z → ConntrackFilter → outcome ConntrackFilter;
  AddDstPort : Z → ConntrackFilter → outcome ConntrackFilter;
  ConntrackDeleteFilter : Z → ConntrackFilter → M W Z
}.

Definition protoTCP : Z := 6.
Definition AF_INET : Z := 2.
Definition AF_INET6 : Z := 10.

Section conntrack.
Context {W : Type} `{ct : Conntrack W}.

Definition getNetlinkFamily (ip : IPAddr) : Z := if IsIPv4 ip then AF_INET else AF_INET6.

(** [if err != nil { return fmt.Errorf(prefix, err) }] *)
Definition wrap_error {A} (prefix : string) (m : M W A) : M W A :=
  catch m (λ err, fail (Errorf (prefix +:+ Error err))).

Definition DeleteConntrackEntries (metadataIP metadataPort : string) : M W unit :=
  match ParseIP metadataIP with
  | None => fail (Errorf ("metadata ip " +:+ metadataIP +:+ " is incorrect"))
  | Some dstIP =>
      let failed := "failed to delete conntrack entries, error: " in
      dstPort ← wrap_error ("failed to parse metadata port: " +:+ metadataPort +:+ ", error: ")
                  (lift (ParsePort metadataPort false));
      f ← wrap_error failed (lift (AddDstIP dstIP new_filter));
      f ← wrap_error failed (lift (AddProtocol protoTCP f));
      f ← wrap_error failed (lift (AddDstPort (dstPort mod 65536) f));
      _ ← wrap_error failed (ConntrackDeleteFilter (getNetlinkFamily dstIP) f);
      mret tt
  end.
End conntrack.

(** ** The loop of the server *)

(** The fields of [Server] that it reads. *)
Record rules_config := mkRulesConfig {
  rc_NMIHost : string;
  rc_NMIPort : string;
  rc_MetadataIP : string;
  rc_MetadataPort : string;
  EnableConntrackDeletion : bool
}.

Section loop.
Context {W : Type} `{ipt : IPTables W} `{ct : Conntrack W}.
Variable sleep : Z → W → W.
Variable s : rules_config.

Definition rules_target : string := if bool_decide (rc_NMIHost s = "0.0.0.0") then "127.0.0.1" else rc_NMIHost s.

(** An error here and in the next is fatal: the process exits. *)
Definition updateIPTableRulesInternal : M W unit :=
  _ ← AddCustomChain (rc_MetadataIP s) (rc_MetadataPort s) rules_target (rc_NMIPort s);
  LogCustomChain.

Definition deleteConntrackEntries : M W unit := DeleteConntrackEntries (rc_MetadataIP s) (rc_MetadataPort s).

(** The exit code after the clean-up. *)
Definition handleTermination : M W Z := λ w,
  match DeleteCustomChain w with
  | (Ret _, w) => (Ret 0%Z, sleep (10 * Second) w)
  | (Fail _, w) => (Ret 1%Z, sleep (10 * Second) w)
  | (Panic, w) => (Panic, w)
  end.

(** What the loop waits for: the ticker, with what others did to the world since, or a signal. *)
Inductive wakeup := Tick (others : W → W) | Terminated (others : W → W).

(** The loop, up to the end of the given wake-ups: the exit code, if it came to an exit. *)
Fixpoint rules_loop (l : list wakeup) : M W (option Z) :=
  match l with
  | [] => mret None
  | Tick others :: l =>
      _ ← modify others;
      _ ← updateIPTableRulesInternal;
      rules_loop l
  | Terminated others :: _ =>
      _ ← modify others;
      code ← handleTermination;
      mret (Some code)
  end.

Definition updateIPTableRules (l : list wakeup) : M W (option Z) :=
  _ ← updateIPTableRulesInternal;
  _ ← (if EnableConntrackDeletion s then deleteConntrackEntries else mret tt);
  rules_loop l.
End loop.
