(* ===== verification/IptablesSpec.v ===== *)
(** * NMI: the packet filter rules are kept in place.

    As long as the chain of NMI is written by NMI alone (of whatever address and port), the
    redirection to NMI and nothing else is in it after every round of the loop. *)

From S2P Require Import Prelude GoStrings Http Iptables.

(** ** What the code relies on *)

Section behaviour.
Context {W : Type}.
Variable chains : W → string → string → option (list string).

(** A command changes one chain or fails; a failed command changes nothing. *)
Definition changes {A} (m : M W A) (t c : string) (f : option (list string) → option (list string)) : Prop :=
  ∀ w, let '(r, w') := m w in
    r ≠ Panic ∧ (∀ t' c', (t', c') ≠ (t, c) → chains w' t' c' = chains w t' c') ∧
    chains w' t c = match r with Ret _ => f (chains w t c) | _ => chains w t c end.

Definition silent {A} (m : M W A) : Prop := ∀ w, (m w).1 ≠ Panic ∧ ∀ t c, chains (m w).2 t c = chains w t c.

Lemma changes_Ret {A} (m : M W A) t c f w a w' : changes m t c f → m w = (Ret a, w') →
  chains w' t c = f (chains w t c) ∧ ∀ t' c', (t', c') ≠ (t, c) → chains w' t' c' = chains w t' c'.
Proof. intros H E. specialize (H w). rewrite E in H. by destruct H as (_ & ? & ?). Qed.

Lemma changes_Fail {A} (m : M W A) t c f w e w' : changes m t c f → m w = (Fail e, w') → ∀ t' c', chains w' t' c' = chains w t' c'.
Proof.
  intros H E t' c'. specialize (H w). rewrite E in H. destruct H as (_ & H1 & H2).
  destruct (decide ((t', c') = (t, c))) as [[= -> ->]|Hne]; [done|by apply H1].
Qed.
End behaviour.

Class IPTablesLaws {W : Type} (ipt : IPTables W) := {
  chain_rules : W → string → string → option (list string);
  rule_text : list string → string;
  text_jump target : rule_text ["-j"; target] = "-j " +:+ target;
  text_redirect d dp t tp : is_ipv4 d = true →
    rule_text (redirect_args d dp t tp) = redirect_rule d dp t tp;
  law_New : silent chain_rules ipt_New;
  law_List t c : silent chain_rules (ipt_List t c);
  law_List_Ret t c w l w' : ipt_List t c w = (Ret l, w') →
    ∃ rules, chain_rules w t c = Some rules ∧ l = ("-N " +:+ c) :: ((λ r, "-A " +:+ c +:+ " " +:+ r) <$> rules);
  law_Exists t c args : silent chain_rules (ipt_Exists t c args);
  law_Exists_Ret t c args w b w' : ipt_Exists t c args w = (Ret b, w') →
    b = bool_decide (rule_text args ∈ default [] (chain_rules w t c));
  law_NewChain t c : changes chain_rules (ipt_NewChain t c) t c (λ _, Some []);
  law_ClearChain t c : changes chain_rules (ipt_ClearChain t c) t c (λ _, Some []);
  law_DeleteChain t c : changes chain_rules (ipt_DeleteChain t c) t c (λ _, None);
  law_AppendUnique t c args : changes chain_rules (ipt_AppendUnique t c args) t c
    (fmap (λ l, if bool_decide (rule_text args ∈ l) then l else l ++ [rule_text args]));
  law_Insert t c args : changes chain_rules (ipt_Insert t c 1 args) t c (λ o, Some (rule_text args :: default [] o));
  law_Delete t c args : changes chain_rules (ipt_Delete t c args) t c (fmap (λ l, filter (λ x, x ≠ rule_text args) l))
}.

Section spec.
Context {W : Type} `{ipt : IPTables W} `{laws : !IPTablesLaws ipt}.

Abbreviation custom w := (chain_rules w tablename customchainname).
Abbreviation prerouting w := (default [] (chain_rules w tablename "PREROUTING")).

Definition nmi_rules (d dp t tp : string) : list string := [redirect_rule d dp t tp; return_rule].

(** NMI's chain as NMI leaves it, also when it failed half-way, for some address. *)
Definition managed (w : W) : Prop :=
  ∀ l, custom w = Some l → ∃ d dp t tp, l `prefix_of` nmi_rules d dp t tp.

Definition installed (d dp t tp : string) (w : W) : Prop :=
  custom w = Some (nmi_rules d dp t tp) ∧ "-j aad-metadata" ∈ prerouting w.

(** ** The check of the existing rules *)

Lemma redirect_not_return d dp t tp : redirect_rule d dp t tp ≠ return_rule.
Proof. done. Qed.

Lemma listed_inj r1 r2 : "-A aad-metadata " +:+ r1 = "-A aad-metadata " +:+ r2 → r1 = r2.
Proof. intros H. simpl in H. by simplify_eq. Qed.

Lemma expectedRules_size d dp t tp : size (expectedRules d dp t tp) = 3%nat.
Proof.
  unfold expectedRules. rewrite !size_union, !size_singleton; [done| |].
  - apply disjoint_singleton_r, not_elem_of_singleton. done.
  - apply disjoint_singleton_r. rewrite elem_of_union, !elem_of_singleton.
    intros [H|H]; [done|]. by apply listed_inj in H.
Qed.

Lemma expected_listed d dp t tp r :
  "-A " +:+ customchainname +:+ " " +:+ r ∈ expectedRules d dp t tp ↔ r = redirect_rule d dp t tp ∨ r = return_rule.
Proof.
  unfold expectedRules. rewrite !elem_of_union, !elem_of_singleton. split.
  - intros [[H|H]|H]; [done| |]; apply listed_inj in H; auto.
  - intros [-> | ->]; auto.
Qed.

(** The chain passes the check when its first two rules, and not the third, are expected
    ones, in any order. *)
Lemma matching_three d dp t tp rules :
  let ok r := r = redirect_rule d dp t tp ∨ r = return_rule in
  matchingRules (expectedRules d dp t tp)
    (("-N " +:+ customchainname) :: ((λ r, "-A " +:+ customchainname +:+ " " +:+ r) <$> rules)) = 3%nat ↔
  ∃ r1 r2 rest, rules = r1 :: r2 :: rest ∧ ok r1 ∧ ok r2 ∧ ∀ r, head rest = Some r → ¬ ok r.
Proof.
  cbv zeta. cbn [matchingRules]. rewrite bool_decide_true by (unfold expectedRules; set_solver).
  set (f := λ r, "-A " +:+ customchainname +:+ " " +:+ r).
  assert (∀ r rules, matchingRules (expectedRules d dp t tp) (f <$> r :: rules) =
    if bool_decide (r = redirect_rule d dp t tp ∨ r = return_rule)
    then S (matchingRules (expectedRules d dp t tp) (f <$> rules)) else 0%nat) as Hstep.
  { intros r l. cbn [fmap list_fmap matchingRules]. unfold f at 1.
    by rewrite (bool_decide_ext _ _ (expected_listed d dp t tp r)). }
  destruct rules as [|r1 [|r2 [|r3 rest]]].
  - split; [done|]. by intros (? & ? & ? & ? & _).
  - rewrite Hstep. split; [by case_bool_decide|]. by intros (? & ? & ? & ? & _).
  - rewrite !Hstep. split.
    + intros H. repeat case_bool_decide; try done. by exists r1, r2, [].
    + intros (? & ? & ? & [= -> -> <-] & H1 & H2 & _). by rewrite !bool_decide_true.
  - rewrite !Hstep. split.
    + intros H. repeat case_bool_decide; try done. exists r1, r2, (r3 :: rest). repeat split; [done..|]. by intros r [= <-].
    + intros (? & ? & ? & [= -> -> <-] & H1 & H2 & H3). rewrite !(bool_decide_true (_ ∨ _)) by done.
      by rewrite bool_decide_false by (by apply H3).
Qed.
(** ** Adding the chain *)

(** Chains other than the given one. *)
Abbreviation same_but w w' t c := (∀ t' c', (t', c') ≠ (t, c) → chain_rules w' t' c' = chain_rules w t' c').

(** What one call does to NMI's chain: a command that is known to change it as [f] says. *)
Lemma flush_spec d dp t tp w : is_ipv4 d = true →
  let '(r, w') := flushCreateCustomChainrules d dp t tp w in
  r ≠ Panic ∧ same_but w w' tablename customchainname ∧
  (custom w' = custom w ∨ ∃ l, custom w' = Some l ∧ l `prefix_of` nmi_rules d dp t tp) ∧
  (r = Ret tt → custom w' = Some (nmi_rules d dp t tp)).
Proof.
  intros Hd. unfold flushCreateCustomChainrules, mbind, M_bind.
  pose proof (law_ClearChain tablename customchainname w) as H1. destruct (ipt_ClearChain _ _ w) as [[[]|e|] w1];
    destruct H1 as (Hp1 & Hf1 & Hc1); [|split; [done|split; [done|split; [by left|done]]]|done].
  pose proof (law_AppendUnique tablename customchainname (redirect_args d dp t tp) w1) as H2.
  destruct (ipt_AppendUnique _ _ (redirect_args d dp t tp) w1) as [[[]|e|] w2]; destruct H2 as (Hp2 & Hf2 & Hc2); [| |done].
  2: { split; [done|]. split; [by intros; rewrite Hf2, Hf1|]. split; [|done]. right. exists []. rewrite Hc2, Hc1. split; [done|apply prefix_nil]. }
  rewrite Hc1, text_redirect in Hc2 by done. cbn [fmap option_fmap option_map] in Hc2. rewrite bool_decide_false in Hc2 by set_solver.
  pose proof (law_AppendUnique tablename customchainname ["-j"; "RETURN"] w2) as H3.
  destruct (ipt_AppendUnique _ _ ["-j"; "RETURN"] w2) as [[[]|e|] w3]; destruct H3 as (Hp3 & Hf3 & Hc3); [| |done].
  - rewrite Hc2, text_jump in Hc3. cbn [fmap option_fmap option_map] in Hc3. rewrite bool_decide_false in Hc3.
    + split; [done|]. split; [by intros; rewrite Hf3, Hf2, Hf1|]. split; [|done]. right. by exists (nmi_rules d dp t tp).
    + intros [H|H]%elem_of_app; [by apply elem_of_nil in H|]. apply list_elem_of_singleton in H. by apply (redirect_not_return d dp t tp).
  - split; [done|]. split; [by intros; rewrite Hf3, Hf2, Hf1|]. split; [|done]. right. exists [redirect_rule d dp t tp].
    rewrite Hc3, Hc2. split; [done|]. by exists [return_rule].
Qed.

(** The chain is flushed and written anew unless it passes the check. *)
Lemma ensure_spec d dp t tp w : is_ipv4 d = true →
  let '(r, w') := ensureCustomChain d dp t tp w in
  r ≠ Panic ∧ same_but w w' tablename customchainname ∧
  (custom w' = custom w ∨ ∃ l, custom w' = Some l ∧ l `prefix_of` nmi_rules d dp t tp) ∧
  (r = Ret tt → custom w' = Some (nmi_rules d dp t tp) ∨
     custom w' = custom w ∧ ∃ r1 r2 rest, custom w = Some (r1 :: r2 :: rest) ∧
       (r1 = redirect_rule d dp t tp ∨ r1 = return_rule) ∧ (r2 = redirect_rule d dp t tp ∨ r2 = return_rule) ∧
       ∀ r, head rest = Some r → ¬ (r = redirect_rule d dp t tp ∨ r = return_rule)).
Proof.
  intros Hd. unfold ensureCustomChain. cbv zeta. rewrite expectedRules_size.
  pose proof (law_List tablename customchainname w) as [Hpl Hsl].
  destruct (ipt_List tablename customchainname w) as [[rules|e|] w1] eqn:El; simpl in Hpl, Hsl; [| |done].
  - apply law_List_Ret in El as (l & Hl & ->). case_bool_decide as Hm.
    + apply matching_three in Hm as (r1 & r2 & rest & -> & Hr). split; [done|]. split; [by intros|].
      split; [by left|]. intros _. right. split; [done|]. by exists r1, r2, rest.
    + pose proof (flush_spec d dp t tp w1 Hd) as Hf. destruct (flushCreateCustomChainrules d dp t tp w1) as [r w2].
      destruct Hf as (H1 & H2 & H3 & H4). rewrite Hsl in H3. split; [done|]. split; [by intros; rewrite H2, Hsl|].
      split; [done|]. intros Hr. left. by apply H4.
  - pose proof (law_NewChain tablename customchainname w1) as Hn.
    destruct (ipt_NewChain tablename customchainname w1) as [[[]|e'|] w2]; destruct Hn as (Hn1 & Hn2 & Hn3); [| |done].
    2: { split; [done|]. split; [by intros; rewrite Hn2, Hsl|]. split; [left; by rewrite Hn3, Hsl|done]. }
    cbn [matchingRules]. rewrite bool_decide_false by done.
    pose proof (flush_spec d dp t tp w2 Hd) as Hf. destruct (flushCreateCustomChainrules d dp t tp w2) as [r w3].
    destruct Hf as (H1 & H2 & H3 & H4). split; [done|]. split; [by intros; rewrite H2, Hn2, Hsl|]. split; [|by auto].
    destruct H3 as [H3|H3]; [|by right]. right. exists []. rewrite H3, Hn3. split; [done|apply prefix_nil].
Qed.

Lemma prerouting_custom : (tablename, "PREROUTING") ≠ (tablename, customchainname).
Proof. done. Qed.

Lemma place_spec w :
  let '(r, w') := placeCustomChainInChain tablename "PREROUTING" w in
  r ≠ Panic ∧ custom w' = custom w ∧ (r = Ret tt → "-j aad-metadata" ∈ prerouting w').
Proof.
  unfold placeCustomChainInChain.
  pose proof (law_Exists tablename "PREROUTING" ["-j"; customchainname] w) as [Hpe Hse].
  destruct (ipt_Exists tablename "PREROUTING" ["-j"; customchainname] w) as [b w1] eqn:Ee. simpl in Hpe, Hse.
  assert (let '(r, w') := ipt_Insert tablename "PREROUTING" 1 ["-j"; customchainname] w1 in
    r ≠ Panic ∧ custom w' = custom w ∧ (r = Ret tt → "-j aad-metadata" ∈ prerouting w')) as Hins.
  { pose proof (law_Insert tablename "PREROUTING" ["-j"; customchainname] w1) as H.
    destruct (ipt_Insert _ _ _ _ w1) as [r w2]. destruct H as (H1 & H2 & H3). split; [done|].
    rewrite H2 by done. split; [done|]. intros ->. rewrite H3, text_jump. simpl. left. }
  destruct b as [[]|e|]; [|exact Hins|exact Hins|done].
  apply law_Exists_Ret in Ee. rewrite text_jump in Ee. split; [done|]. rewrite !Hse. split; [done|]. intros _.
  by symmetry in Ee; apply bool_decide_eq_true in Ee.
Qed.

(** If NMI's chain holds nothing but what NMI itself put there (for whatever address and
    port, and if only half of it), then after [AddCustomChain] it still does, and when no
    error is returned the rules are in place. *)
Lemma AddCustomChain_run d dp t tp w : is_ipv4 d = true → managed w →
  let '(r, w') := AddCustomChain d dp t tp w in
  r ≠ Panic ∧ managed w' ∧ (r = Ret tt → installed d dp t tp w').
Proof.
  intros Hd Hm. unfold AddCustomChain. repeat (case_bool_decide; [done|]). unfold mbind, M_bind.
  pose proof (law_New w) as [Hpn Hsn]. destruct (ipt_New w) as [[[]|e|] w1]; simpl in Hpn, Hsn; [| |done].
  2: { split; [done|]. split; [|done]. intros l. rewrite Hsn. apply Hm. }
  pose proof (ensure_spec d dp t tp w1 Hd) as He. destruct (ensureCustomChain d dp t tp w1) as [r w2].
  destruct He as (He1 & He2 & He3 & He4). rewrite Hsn in He3, He4.
  assert (managed w2) as Hm2.
  { intros l Hl. destruct He3 as [He3|(l' & Hl' & Hp)]; [apply Hm; congruence|]. simplify_eq. eauto. }
  destruct r as [[]|e|]; [|done|done].
  pose proof (place_spec w2) as Hp. destruct (placeCustomChainInChain _ _ w2) as [r w3]. destruct Hp as (Hp1 & Hp2 & Hp3).
  split; [done|]. split; [intros l; rewrite Hp2; apply Hm2|]. intros Hr. split; [|by apply Hp3]. rewrite Hp2.
  destruct (He4 eq_refl) as [He|(He & r1 & r2 & rest & Hc & Hr1 & Hr2 & Hr3)]; [done|].
  rewrite He, Hc. destruct (Hm _ Hc) as (d' & dp' & t' & tp' & [k Hk]). unfold nmi_rules in Hk. simpl in Hk. simplify_eq.
  destruct rest; [|done]. unfold nmi_rules. f_equal. f_equal.
  destruct Hr1 as [Hr1|Hr1]; [done|]. by apply redirect_not_return in Hr1.
Qed.

(** ** Removing the chain *)

Lemma DeleteCustomChain_run w w' : DeleteCustomChain w = (Ret tt, w') → custom w' = None.
Proof. intros (? & w1 & _ & (? & w2 & _ & (? & w3 & _ & H)%bind_Ret)%bind_Ret)%bind_Ret. by apply (changes_Ret _ _ _ _ _ _ _ _ (law_DeleteChain _ _)) in H as [-> _]. Qed.

End spec.

(** ** The loop *)

Section loop_spec.
Context {W : Type} `{ipt : IPTables W} `{laws : !IPTablesLaws ipt} `{ct : Conntrack W}.
Variable sleep : Z → W → W.

(** Sleeping and deleting connection entries do not touch the rules. *)
Hypothesis sleep_rules : ∀ d w t c, chain_rules (sleep d w) t c = chain_rules w t c.
Hypothesis conntrack_rules : ∀ fam f w t c, chain_rules (ConntrackDeleteFilter fam f w).2 t c = chain_rules w t c.

Variable s : rules_config.
Hypothesis metadata_ipv4 : is_ipv4 (rc_MetadataIP s) = true.

Definition in_place (w : W) : Prop :=
  installed (rc_MetadataIP s) (rc_MetadataPort s) (rules_target s) (rc_NMIPort s) w.

Lemma same_rules w w' : (∀ t c, chain_rules w' t c = chain_rules w t c) →
  (managed w → managed w') ∧ (in_place w → in_place w').
Proof. intros H. unfold in_place, installed, managed. split; by rewrite ?H. Qed.

Lemma update_run w w' : managed w → updateIPTableRulesInternal s w = (Ret tt, w') → managed w' ∧ in_place w'.
Proof.
  intros Hm ([] & w1 & Ha & Hl)%bind_Ret. pose proof (AddCustomChain_run _ (rc_MetadataPort s) (rules_target s) (rc_NMIPort s) w metadata_ipv4 Hm) as H.
  rewrite Ha in H. destruct H as (_ & Hm1 & Hi). unfold LogCustomChain in Hl.
  apply bind_Ret in Hl as (? & w2 & Hn & (? & w3 & Hl & [= <-])%bind_Ret).
  destruct (same_rules w1 w3) as [H1 H2]; [|split; [by apply H1|by apply H2, Hi]].
  intros t c. pose proof (law_New w1) as [_ <-]. rewrite Hn. pose proof (law_List tablename customchainname w2) as [_ <-]. by rewrite Hl.
Qed.

(** Computations that leave the rules alone. *)
Definition keeps {A} (m : M W A) : Prop := ∀ w t c, chain_rules (m w).2 t c = chain_rules w t c.

Lemma keeps_lift {A} (o : outcome A) : keeps (lift o).
Proof. done. Qed.
Lemma keeps_fail {A} e : keeps (fail (A := A) e).
Proof. done. Qed.
Lemma keeps_ret {A} (a : A) : keeps (mret a).
Proof. done. Qed.

Lemma keeps_bind {A B} (m : M W A) (k : A → M W B) : keeps m → (∀ a, keeps (k a)) → keeps (m ≫= k).
Proof.
  intros Hm Hk w t c. unfold mbind, M_bind. rewrite <- (Hm w). destruct (m w) as [[a|e|] w1]; simpl; [apply Hk|done..].
Qed.

Lemma keeps_wrap_error {A} prefix (m : M W A) : keeps m → keeps (wrap_error prefix m).
Proof. intros Hm w t c. unfold wrap_error, catch. rewrite <- (Hm w). by destruct (m w) as [[a|e|] w1]. Qed.

Lemma keeps_conntrack : keeps (deleteConntrackEntries s).
Proof.
  unfold deleteConntrackEntries, DeleteConntrackEntries. destruct (ParseIP _); [|apply keeps_fail]. cbv zeta.
  repeat (apply keeps_bind; [apply keeps_wrap_error; first [apply keeps_lift|exact (conntrack_rules _ _)]|intros ?]).
  apply keeps_ret.
Qed.

(** What others do to the rules between two rounds: they do not write to NMI's chain. *)
Definition respects (e : wakeup) : Prop :=
  match e with Tick others | Terminated others => ∀ w, managed w → managed (others w) end.

(** What holds when the loop has come to an exit, and while it runs. *)
Definition after_loop (r : option Z) (w : W) : Prop :=
  match r with
  | None => in_place w
  | Some code => (code = 0%Z ∧ chain_rules w tablename customchainname = None) ∨ code = 1%Z
  end.

Lemma handleTermination_run w code w' : handleTermination sleep w = (Ret code, w') → after_loop (Some code) w'.
Proof.
  unfold handleTermination. destruct (DeleteCustomChain w) as [[[]|e|] w1] eqn:E; intros [= <- <-]; [left|by right].
  split; [done|]. rewrite sleep_rules. by eapply DeleteCustomChain_run.
Qed.

Lemma rules_loop_run l w r w' :
  managed w → in_place w → Forall respects l → rules_loop sleep s l w = (Ret r, w') → after_loop r w'.
Proof.
  intros Hm Hi Hl. revert w Hm Hi. induction Hl as [|[others|others] l Ho Hl IH]; intros w Hm Hi; simpl.
  - by intros [= <- <-].
  - intros ([] & w1 & [= <-] & ([] & w2 & Hu & Hr)%bind_Ret)%bind_Ret.
    apply update_run in Hu as [Hm2 Hi2]; [|by apply Ho]. by apply (IH w2).
  - intros ([] & w1 & [= <-] & (code & w2 & Ht & [= <- <-])%bind_Ret)%bind_Ret. by eapply handleTermination_run.
Qed.

(** C37: NMI keeps its rules in place until it is told to stop. Whatever others do between two
    rounds (as long as they do not write to NMI's own chain), after each completed round the
    chain consists of the redirection of metadata requests to NMI's address and the return
    rule, and PREROUTING jumps to it; and when the process has ended with exit code 0,
    NMI's chain is gone. *)
Theorem rules_kept l w r w' :
  managed w → Forall respects l → updateIPTableRules sleep s l w = (Ret r, w') → after_loop r w'.
Proof.
  intros Hm Hl ([] & w1 & [Hm1 Hi1]%update_run & (u & w2 & Hc & Hr)%bind_Ret)%bind_Ret; [|done].
  destruct (same_rules w1 w2) as [H1 H2].
  { intros t c. destruct (EnableConntrackDeletion s); [|by injection Hc as _ <-]. by rewrite <- (keeps_conntrack w1), Hc. }
  eapply rules_loop_run; [by apply H1|by apply H2|done..].
Qed.
End loop_spec.

(** ** A concrete table

    The chains of the tables as lists of rules; every command succeeds where the laws let it. *)

Abbreviation tables := (gmap (string * string) (list string)).

Definition sim_text (args : list string) : string :=
  match args with
  | [_; _; _; _; _; _; d; _; dp; _; _; _; target] =>
      "! -s 127.0.0.1/32 -d " +:+ d +:+ "/32 -p tcp -m tcp --dport " +:+ dp +:+ " -j DNAT --to-destination " +:+ target
  | _ => Join args " "
  end.

Definition sim_change (t c : string) (f : option (list string) → option (list string)) : M tables unit := λ w,
  match f (w !! (t, c)) with
  | Some l => (Ret tt, <[(t, c) := l]> w)
  | None => (Ret tt, delete (t, c) w)
  end.

#[export] Instance sim_iptables : IPTables tables := {|
  ipt_New := mret tt;
  ipt_List := λ t c w,
    match w !! (t, c) with
    | Some l => (Ret (("-N " +:+ c) :: ((λ r, "-A " +:+ c +:+ " " +:+ r) <$> l)), w)
    | None => (Fail (Errorf "no such chain"), w)
    end;
  ipt_NewChain := λ t c, sim_change t c (λ _, Some []);
  ipt_ClearChain := λ t c, sim_change t c (λ _, Some []);
  ipt_DeleteChain := λ t c, sim_change t c (λ _, None);
  ipt_AppendUnique := λ t c args, sim_change t c
    (fmap (λ l, if bool_decide (sim_text args ∈ l) then l else l ++ [sim_text args]));
  ipt_Exists := λ t c args w, (Ret (bool_decide (sim_text args ∈ default [] (w !! (t, c)))), w);
  ipt_Insert := λ t c _ args, sim_change t c (λ o, Some (sim_text args :: default [] o));
  ipt_Delete := λ t c args, sim_change t c (fmap (λ l, filter (λ x, x ≠ sim_text args) l))
|}.

Lemma sim_changes t c f : changes (λ w t c, w !! (t, c)) (sim_change t c f) t c f.
Proof.
  intros w. unfold sim_change. destruct (f (w !! (t, c))) eqn:E.
  - split; [done|]. split; [intros t' c' Hne; by rewrite lookup_insert_ne|by rewrite lookup_insert_eq].
  - split; [done|]. split; [intros t' c' Hne; by rewrite lookup_delete_ne|by rewrite lookup_delete_eq].
Qed.

#[export] Instance sim_iptables_laws : IPTablesLaws sim_iptables.
Proof.
  refine {| chain_rules := λ w t c, w !! (t, c); rule_text := sim_text |}; try (intros; apply sim_changes); try done.
  - intros t c w. simpl. by destruct (w !! (t, c)).
  - intros t c w l w'. simpl. destruct (w !! (t, c)); intros [= <- <-]; eauto.
  - intros t c args w b w'. by intros [= <- <-].
Defined.

#[export] Instance sim_conntrack : Conntrack tables := {|
  IPAddr := string; ConntrackFilter := unit; ParseIP := Some; IsIPv4 := λ _, true; ParsePort := λ _ _, Ret 80%Z; new_filter := tt;
  AddDstIP := λ _ _, Ret tt; AddProtocol := λ _ _, Ret tt; AddDstPort := λ _ _, Ret tt;
  ConntrackDeleteFilter := λ _ _, mret 0%Z
|}.

Definition rules1 : rules_config := mkRulesConfig "0.0.0.0" "2579" "169.254.169.254" "80" true.

(** A table in which an earlier NMI, on another port, left its chain, but not the jump. *)
Definition old_tables : tables :=
  {[ (tablename, customchainname) := nmi_rules "169.254.169.254" "80" "127.0.0.1" "2578"; (tablename, "PREROUTING") := [] ]}.

(** Between two rounds someone removes the jump. *)
Definition wakeups1 : list (wakeup (W := tables)) := [Tick (insert (tablename, "PREROUTING") [])].

Lemma rules_kept_witness :
  installed "169.254.169.254" "80" "127.0.0.1" "2579" (updateIPTableRules (λ _ w, w) rules1 wakeups1 old_tables).2.
Proof.
  refine (rules_kept (λ _ w, w) (λ _ _ _ _, eq_refl) (λ _ _ _ _ _, eq_refl) rules1 _ wakeups1 old_tables None _ _ _ _).
  - vm_compute. reflexivity.
  - intros l Hl. vm_compute in Hl. injection Hl as <-. exists "169.254.169.254", "80", "127.0.0.1", "2578". reflexivity.
  - constructor; [|constructor]. intros w Hm l Hl. apply (Hm l). simpl in *. rewrite lookup_insert_ne in Hl; [exact Hl|discriminate].
  - apply surjective_pairing_ret. vm_compute. reflexivity.
Defined.

(** The check counts expected rules without looking at their order or number: a chain of two
    return rules, which redirects nothing, passes it. *)
Definition two_returns : tables := {[ (tablename, customchainname) := [return_rule; return_rule] ]}.

Lemma two_returns_pass :
  let r := AddCustomChain "169.254.169.254" "80" "127.0.0.1" "2579" two_returns in
  r.1 = Ret tt ∧ r.2 !! (tablename, customchainname) = Some [return_rule; return_rule].
Proof. split; vm_compute; reflexivity. Qed.
