(* ===== verification/Process.v ===== *)
(** * What both processes share: the logging options (pkg/log/options.go), the health probe
    (pkg/probes/probes.go), the export of the metrics (pkg/metrics: [RegisterAndExport],
    [newPrometheusExporter]) and the file watcher (pkg/filewatcher/filewatcher.go).

    klog, net/http, opencensus, its Prometheus exporter and fsnotify are parameters. *)

From S2P Require Import Prelude GoStrings Metrics Http.

Class ProcessLib (W : Type) := {
  SetLogger_json : W → W;                         (* klog.SetLogger with the JSON logger *)
  view_Register : list view → M W unit;
  Exporter : Type;
  prometheus_NewExporter : string → outcome Exporter;
  view_RegisterExporter : Exporter → W → W;
  go_serve_metrics : string → Exporter → W → W;   (* go http.ListenAndServe of /metrics *)
  go_serve_health : string → W → W                (* go http.ListenAndServe of /healthz *)
}.

Section process.
Context {W : Type} `{lib : ProcessLib W}.

(** ** Logging options *)

Definition textLogFormat : string := "text".
Definition jsonLogFormat : string := "json".

Definition dquote : string := String (ascii_of_nat 34) "".

Definition Options_Validate (LogFormat : string) : outcome unit :=
  if bool_decide (LogFormat ≠ textLogFormat ∧ LogFormat ≠ jsonLogFormat)
  then Fail (Errorf ("unknown logging format " +:+ LogFormat +:+ ". Only " +:+ dquote +:+ textLogFormat +:+ dquote +:+
                     " and " +:+ dquote +:+ jsonLogFormat +:+ dquote +:+ " are supported"))
  else Ret tt.

Definition Options_Apply (LogFormat : string) : M W unit :=
  _ ← lift (Options_Validate LogFormat);
  if bool_decide (LogFormat = jsonLogFormat) then modify SetLogger_json else mret tt.

(** ** Health probe *)

(** The handler that [InitHealthProbe] installs; [condition] is read at each request. *)
Definition healthz (condition : bool) (w : response) : response :=
  let w := send StatusOK w in
  if condition then Write "Active" w else Write "Not Active" w.

Definition InitAndStart (port : string) : M W unit := modify (go_serve_health (":" +:+ port)).

(** ** Metrics *)

Definition newPrometheusExporter (namespace portNumber : string) : M W Exporter :=
  prometheusExporter ← catch (lift (prometheus_NewExporter namespace))
    (λ err, fail (Errorf ("failed to create the Prometheus exporter, error: " +:+ Error err)));
  _ ← modify (go_serve_metrics (":" +:+ portNumber) prometheusExporter);
  mret prometheusExporter.

Definition RegisterAndExport (port : string) : M W unit :=
  _ ← catch (view_Register registerViews) (λ err, fail (Errorf ("failed to register views for metrics, error:" +:+ Error err)));
  exporter ← catch (newPrometheusExporter componentNamespace port)
    (λ err, fail (Errorf ("failed to create Prometheus exporter, error: " +:+ Error err)));
  modify (view_RegisterExporter exporter).
End process.

(** ** The file watcher *)

Class FsNotify := {
  Watcher : Type;
  fsnotify_NewWatcher : outcome Watcher;
  Watcher_Add : string → Watcher → outcome Watcher;
  fsnotify_Write : Z                              (* the bit of a write in the operations of an event *)
}.

Section filewatcher.
Context {W : Type} `{fs : FsNotify}.

(** Handlers may be nil. *)
Record file_watcher := mkFileWatcher {
  fw_watcher : Watcher;
  fw_eventHandler : option (Z → M W unit);
  fw_errorHandler : option (error → M W unit)
}.

Definition NewFileWatcher (eventHandler : option (Z → M W unit)) (errorHandler : option (error → M W unit)) : outcome file_watcher :=
  watcher ← fsnotify_NewWatcher;
  Ret (mkFileWatcher watcher eventHandler errorHandler).

Definition file_watcher_Add (c : file_watcher) (path : string) : outcome file_watcher :=
  watcher ← Watcher_Add path (fw_watcher c);
  Ret (mkFileWatcher watcher (fw_eventHandler c) (fw_errorHandler c)).

(** What the goroutine of [Start] receives: the end of the process, an event with its
    operations, or an error. *)
Inductive fw_signal := FwExit | FwEvent (Op : Z) | FwError (err : error).

#[export] Instance fw_signal_eq_dec : EqDecision fw_signal.
Proof. solve_decision. Defined.

Definition call_handler {A} (handler : option (A → M W unit)) (a : A) : M W unit :=
  match handler with Some f => f a | None => mret tt end.

(** The loop over what is received, each signal with what happens to the world before it is;
    [true] when the loop has returned, its watcher closed. *)
Fixpoint file_watcher_loop (c : file_watcher) (signals : list ((W → W) * fw_signal)) : M W bool :=
  match signals with
  | [] => mret false
  | (meanwhile, signal) :: signals =>
      _ ← modify meanwhile;
      match signal with
      | FwExit => mret true
      | FwEvent event => _ ← call_handler (fw_eventHandler c) event; file_watcher_loop c signals
      | FwError err => _ ← call_handler (fw_errorHandler c) err; file_watcher_loop c signals
      end
  end.

End filewatcher.
Arguments file_watcher W {fs}.
