(* ===== verification/NmiMain.v ===== *)
(** * The process of NMI (cmd/nmi/main.go; [NewServer] and [Run] of pkg/nmi/server): from its
    flags to the client of the cluster, the token client and the server, and what makes the
    parts fit: the client that is built for a mode has the informers that the token client of
    the mode reads. *)

From S2P Require Import Prelude GoStrings Types Conversion Fixtures Regex ResourceId MicDesired Crd PodClient Metrics Auth Kube Nmi Http NmiServer Informers Iptables Process.

(** The flags that the process reads, and its environment. *)
Record nmi_flags := mkNmiFlags {
  nmiHost : string; nmiPort : string;
  metadataIP : string; metadataPort : string;
  nodename : string;
  forceNamespaced : bool;
  micNamespace : string;
  retryAttemptsForCreated : Z; retryAttemptsForAssigned : Z;
  findIdentityRetryIntervalInSeconds : Z;
  enableScaleFeatures : bool;
  blockInstanceMetadata : bool;
  metadataHeaderRequired : bool;
  operationMode : string;
  allowNetworkPluginKubenet : bool;
  kubeletConfig : string;
  setRetryAfterHeader : bool;
  enableConntrackDeletion : bool
}.

Record nmi_environment := mkNmiEnvironment {
  KUBECONFIG : string;
  FORCENAMESPACED : string;
  nmi_userAgent : string;                       (* version.GetUserAgent("NMI", version.NMIVersion) *)
  ReadFile : string → outcome string
}.

(** The server, in the two parts that its handlers and its loop read. *)
Record nmi `{cg : ClientGo} := mkNmi {
  nmi_Server : Server;
  nmi_Rules : rules_config;
  nmi_Reporter : option Reporter;
  nmi_KubeClient : KubeClient;
  nmi_TokenClient : token_client
}.
Arguments mkNmi {cg}.

Section main.
Context {W : Type} `{rt : InformerRuntime W}.
Variable tag_New : list (string * string) → option error.

(** [NewServer]: without a reporter the server has a nil one. *)
Definition NewServer_reporter : option Reporter :=
  match NewReporter tag_New with Ret reporter => Some reporter | _ => None end.

(** [klog.Fatalf] ends the process: a failure of [main]. *)
Definition fatal {A} (prefix : string) (m : M W A) : M W A :=
  catch m (λ err, fail (Errorf (prefix +:+ ", error: " +:+ Error err))).

Definition check_kubenet (env : nmi_environment) (f : nmi_flags) : M W unit :=
  if negb (allowNetworkPluginKubenet f) then
    isKubenet ← fatal "failed to check if CNI plugin is kubenet" (lift (IsKubenetCNI (ReadFile env) (kubeletConfig f)));
    if (isKubenet : bool) then fail (Errorf ("AAD Pod Identity is not supported for Kubenet. " +:+
      "Review https://azure.github.io/aad-pod-identity/docs/configure/aad_pod_identity_on_kubenet/ for more details.")) else mret tt
  else mret tt.

Definition nmi_namespaced (env : nmi_environment) (f : nmi_flags) : bool :=
  forceNamespaced f || bool_decide ("true" = FORCENAMESPACED env).

Definition nmi_config (env : nmi_environment) (f : nmi_flags) : Config :=
  mkConfig (ToLower (ToLower (operationMode f))) (retryAttemptsForCreated f) (retryAttemptsForAssigned f)
    (findIdentityRetryIntervalInSeconds f) "" (nmi_namespaced env f).

(** [main], up to the start of the probes, of the metrics and of the server. *)
Definition nmi_main (env : nmi_environment) (f : nmi_flags) : M W nmi :=
  _ ← check_kubenet env f;
  let mode := ToLower (operationMode f) in
  client ← fatal "failed to get kube client"
    (lift (GetKubeClient tag_New (KUBECONFIG env) (nmi_userAgent env) (nodename f) mode (enableScaleFeatures f)));
  _ ← KubeClient_Start client;
  let s := mkServer (metadataIP f) (metadataPort f) (micNamespace f) (blockInstanceMetadata f)
             (metadataHeaderRequired f) (setRetryAfterHeader f) in
  let rules := mkRulesConfig (nmiHost f) (nmiPort f) (metadataIP f) (metadataPort f) (enableConntrackDeletion f) in
  tokenClient ← fatal "failed to initialize token client" (lift (GetTokenClient (nmi_config env f)));
  mret (mkNmi s rules NewServer_reporter client tokenClient).

(** The flags of the command itself, with those of the parts. *)
Record nmi_command_flags := mkNmiCommandFlags {
  nf_parts : nmi_flags;
  nf_LogFormat : string;
  nf_versionInfo : bool;
  nf_httpProbePort : string;
  nf_prometheusPort : string
}.

(** The values of the flags that are not given. *)
Definition nmi_default_flags : nmi_command_flags :=
  mkNmiCommandFlags
    (mkNmiFlags "127.0.0.1" "2579" "169.254.169.254" "80" "" false "default" 16 4 5 true false true "standard" false
       "/etc/default/kubelet" false false)
    textLogFormat false "8080" "9090".

Context `{pl : !ProcessLib W}.

(** The whole command, up to [s.Run()]: [None] when it only prints the version. *)
Definition nmi_command (env : nmi_environment) (f : nmi_command_flags) : M W (option nmi) :=
  _ ← fatal "unable to apply logging options" (Options_Apply (nf_LogFormat f));
  if nf_versionInfo f then mret None
  else
    n ← nmi_main env (nf_parts f);
    _ ← InitAndStart (nf_httpProbePort f);
    _ ← fatal ("failed to register and export metrics on port " +:+ nf_prometheusPort f) (RegisterAndExport (nf_prometheusPort f));
    mret (Some n).
End main.

(** ** What client-go promises about what it builds *)

(** The list watch of an informer, with the resource, the namespace and the options of its
    requests; those of the pods. *)
Class ClientGoLaws `{cg : ClientGo} := {
  watch_of : SharedInformer → ListWatch;
  lw_resource : ListWatch → string;
  lw_namespace : ListWatch → string;
  lw_options : ListWatch → ListOptions;
  pod_namespace : PodInformer → string;
  pod_options : PodInformer → ListOptions;
  law_new_informer lw object resync i : NewSharedInformer lw object resync = Some i → watch_of i = lw;
  law_filtered r resource ns tweak : let lw := NewFilteredListWatchFromClient r resource ns tweak in
    lw_resource lw = resource ∧ lw_namespace lw = ns ∧ lw_options lw = tweak zeroListOptions;
  law_list_watch r resource ns selector : let lw := NewListWatchFromClient r resource ns selector in
    lw_resource lw = resource ∧ lw_namespace lw = ns ∧ lw_options lw = mkListOptions "" selector;
  law_pods cs ns resync tweak : let i := NewFilteredPodInformer cs ns resync tweak in
    pod_namespace i = ns ∧ pod_options i = tweak zeroListOptions
}.

(** An informer delivers the objects of [resource] in all namespaces with these options. *)
Definition delivers `{ClientGoLaws} (i : option SharedInformer) (resource : string) (options : ListOptions) : Prop :=
  ∃ i', i = Some i' ∧ lw_resource (watch_of i') = resource ∧ lw_namespace (watch_of i') = NamespaceAll ∧
        lw_options (watch_of i') = options.

(** The informers of a client, in the order in which they are started. *)
Definition informers_of `{cg : ClientGo} (c : CrdClient) : list SharedInformer :=
  omap id [AssignedIDInformer c; BindingInformer c; IDInformer c; PodIdentityExceptionInformer c].

(** The selector of the assigned identities: those of the node, or all. *)
Definition assigned_selector (f : nmi_flags) : string :=
  if enableScaleFeatures f then "nodename=" +:+ nodename f else "".

Section construction_spec.
Context `{laws : ClientGoLaws}.
Variable tag_New : list (string * string) → option error.

Lemma delivers_new_informer lw object msg i : new_informer lw object msg = Ret i →
  lw_namespace lw = NamespaceAll → delivers (Some i) (lw_resource lw) (lw_options lw).
Proof.
  unfold new_informer. destruct (NewSharedInformer _ _ _) as [i'|] eqn:E; [|done]. intros [= <-] Hns.
  exists i'. by rewrite (law_new_informer _ _ _ _ E).
Qed.

Lemma delivers_list_watch r resource object msg i :
  new_informer (NewListWatchFromClient r resource NamespaceAll Everything) object msg = Ret i →
  delivers (Some i) resource zeroListOptions.
Proof.
  destruct (law_list_watch r resource NamespaceAll Everything) as (H1 & H2 & H3).
  intros Hd%delivers_new_informer; [|done]. by rewrite H1, H3 in Hd.
Qed.

Lemma delivers_filtered r resource tweak object msg i :
  new_informer (NewFilteredListWatchFromClient r resource NamespaceAll tweak) object msg = Ret i →
  delivers (Some i) resource (tweak zeroListOptions).
Proof.
  destruct (law_filtered r resource NamespaceAll tweak) as (H1 & H2 & H3).
  intros Hd%delivers_new_informer; [|done]. by rewrite H1, H3 in Hd.
Qed.

(** What the client of a mode watches. *)
Lemma NewCRDClientLite_spec cfg nodeName scale isStandardMode c :
  NewCRDClientLite tag_New cfg nodeName scale isStandardMode = Ret c →
  delivers (PodIdentityExceptionInformer c) AzurePodIdentityExceptionResource zeroListOptions ∧
  if isStandardMode
  then delivers (AssignedIDInformer c) AzureAssignedIDResource
         (if scale then mkListOptions ("nodename=" +:+ nodeName) "" else zeroListOptions) ∧
       BindingInformer c = None ∧ IDInformer c = None
  else delivers (BindingInformer c) AzureIDBindingResource zeroListOptions ∧
       delivers (IDInformer c) AzureIDResource zeroListOptions ∧ AssignedIDInformer c = None.
Proof.
  unfold NewCRDClientLite, mbind, outcome_bind. destruct (newRestClient cfg) as [r| |]; [|done|done].
  destruct isStandardMode.
  - destruct (newAssignedIDInformer _) as [a| |] eqn:Ea; [|done|done].
    destruct (newPodIdentityExceptionInformer _) as [e| |] eqn:Ee; [|done|done].
    destruct (new_reporter _); [|done|done]. intros [= <-]. simpl.
    split; [by apply delivers_filtered in Ee|]. split; [|done].
    destruct scale; [by apply delivers_filtered in Ea|by apply delivers_list_watch in Ea].
  - destruct (newBindingInformerLite _) as [b| |] eqn:Eb; [|done|done].
    destruct (newIDInformerLite _) as [i| |] eqn:Ei; [|done|done].
    destruct (newPodIdentityExceptionInformer _) as [e| |] eqn:Ee; [|done|done].
    destruct (new_reporter _); [|done|done]. intros [= <-]. simpl.
    split; [by apply delivers_filtered in Ee|].
    split; [by apply delivers_list_watch in Eb|]. split; [by apply delivers_list_watch in Ei|done].
Qed.

Lemma NewKubeClient_spec K ua nodeName scale isStandardMode c :
  NewKubeClient tag_New K ua nodeName scale isStandardMode = Ret c →
  (∃ cfg, NewCRDClientLite tag_New cfg nodeName scale isStandardMode = Ret (kc_CrdClient c)) ∧
  pod_namespace (kc_PodInformer c) = NamespaceAll ∧
  pod_options (kc_PodInformer c) = mkListOptions "" ("spec.nodeName=" +:+ nodeName).
Proof.
  unfold NewKubeClient, mbind, outcome_bind. destruct (buildConfig K) as [cfg| |]; [|done|done].
  destruct (getkubeclient _) as [cs| |]; [|done|done]. destruct (NewCRDClientLite _ _ _ _ _) as [crd| |] eqn:E; [|done|done].
  destruct (new_reporter _); [|done|done]. intros [= <-]. simpl. split; [by eexists|].
  destruct (law_pods cs NamespaceAll (10 * Minute) (field_tweak nodeName)) as [H1 H2]. by rewrite H1, H2.
Qed.
End construction_spec.

(** ** What [GetIdentities] reads *)

Section reads.
Context {W : Type} `{wt : Waiter W} (k1 k2 : KubeInt W).

Lemma standard_reads sc podns podname clientID resourceID w :
  ki_ListPodIds (KubeInt := k1) podns podname = ki_ListPodIds (KubeInt := k2) podns podname →
  StandardClient_GetIdentities (H := k1) sc podns podname clientID resourceID w =
  StandardClient_GetIdentities (H := k2) sc podns podname clientID resourceID w.
Proof.
  intros E. unfold StandardClient_GetIdentities, listPodIDsWithRetry.
  assert (∀ left a err w, list_loop (H := k1) sc podns podname clientID resourceID left a err w =
                          list_loop (H := k2) sc podns podname clientID resourceID left a err w) as Hl.
  { intros left. induction left as [|left IH]; intros a err v; [done|]. cbn [list_loop]. rewrite E.
    destruct (ki_ListPodIds podns podname v) as [[m|e|] v1]; [|by destruct (wait _ v1) as [[e'|] v2]|done].
    destruct (ready _ _ m); [done|]. destruct (_ && _); [done|]. by destruct (wait _ v1) as [[e'|] v2]. }
  unfold mbind, M_bind. by rewrite Hl.
Qed.

Lemma managed_reads podns podname clientID resourceID w :
  (∀ labels, ki_ListPodIdsWithBinding (KubeInt := k1) podns labels = ki_ListPodIdsWithBinding (KubeInt := k2) podns labels) →
  ki_GetPod (KubeInt := k1) podns podname = ki_GetPod (KubeInt := k2) podns podname →
  ManagedClient_GetIdentities (H := k1) podns podname clientID resourceID w =
  ManagedClient_GetIdentities (H := k2) podns podname clientID resourceID w.
Proof.
  intros E1 E2. unfold ManagedClient_GetIdentities, or_wrap. rewrite E2.
  destruct (ki_GetPod podns podname w) as [[pod|e|] v]; [|done|done]. by rewrite E1.
Qed.
End reads.

(** ** The process *)

Section process.
Context {W : Type} `{rt : InformerRuntime W} `{laws : !ClientGoLaws}.
Variable tag_New : list (string * string) → option error.

Definition run_all (l : list SharedInformer) (w : W) : W := foldl (λ w i, go_Run i w) w l.

Lemma StartLite_run c w : StartLite c w = Client_SyncCache true (informers_of c) (run_all (informers_of c) w).
Proof.
  unfold StartLite, start_if, informers_of, run_all, mbind, M_bind, modify, mret, M_ret. simpl.
  by destruct (AssignedIDInformer c), (BindingInformer c), (IDInformer c), (PodIdentityExceptionInformer c).
Qed.

(** A start that returns has run every informer of the client and seen it synchronised. *)
Lemma KubeClient_Start_Ret c w w' : KubeClient_Start c w = (Ret tt, w') →
  ∃ w2, WaitForCacheSync (informers_of (kc_CrdClient c))
          (run_all (informers_of (kc_CrdClient c)) (go_Run_pods (kc_PodInformer c) w)) = (true, w2) ∧
        w' = (WaitForPodSync (kc_PodInformer c) w2).2.
Proof.
  unfold KubeClient_Start. intros (u & w1 & Hm & (u' & w2 & Hs & Hp)%bind_Ret)%bind_Ret. injection Hm as _ <-.
  rewrite StartLite_run in Hs. unfold Client_SyncCache in Hs. destruct (WaitForCacheSync _ _) as [[] w3] eqn:E; [|done].
  injection Hs as _ <-. exists w3. split; [done|]. by injection Hp as <-.
Qed.

Lemma fatal_Ret {A} prefix (m : M W A) w a w' : fatal prefix m w = (Ret a, w') → m w = (Ret a, w').
Proof. unfold fatal, catch. by destruct (m w) as [[a'|e|] v]. Qed.

Lemma check_kubenet_state env f (w : W) r w' : check_kubenet env f w = (r, w') → w' = w.
Proof.
  unfold check_kubenet, mbind, M_bind, fatal, catch, lift, fail. destruct (negb _); [|by intros [= _ <-]].
  destruct (IsKubenetCNI _ _) as [[]|e|]; by intros [= _ <-].
Qed.

Lemma nmi_main_inv env f w n w' : nmi_main tag_New env f w = (Ret n, w') →
  GetKubeClient tag_New (KUBECONFIG env) (nmi_userAgent env) (nodename f) (ToLower (operationMode f)) (enableScaleFeatures f)
    = Ret (nmi_KubeClient n) ∧
  KubeClient_Start (nmi_KubeClient n) w = (Ret tt, w') ∧
  GetTokenClient (nmi_config env f) = Ret (nmi_TokenClient n).
Proof.
  unfold nmi_main. intros (u & w0 & Hk & (c & w1 & Hc%fatal_Ret & ([] & w2 & Hs & Ht)%bind_Ret)%bind_Ret)%bind_Ret.
  apply check_kubenet_state in Hk as ->. injection Hc as Hc <-. cbv zeta in Ht.
  apply bind_Ret in Ht as (t & w3 & Ht%fatal_Ret & Hn). injection Ht as Ht <-. injection Hn as <- <-. done.
Qed.

(** The command starts the parts that [nmi_main] puts together. *)
Lemma nmi_command_parts `{pl : !ProcessLib W} env f w n w' : nmi_command tag_New env f w = (Ret (Some n), w') →
  ∃ w1 w2, nmi_main tag_New env (nf_parts f) w1 = (Ret n, w2).
Proof.
  unfold nmi_command. intros (u & w1 & _ & H)%bind_Ret. destruct (nf_versionInfo f); [by injection H|].
  apply bind_Ret in H as (n' & w2 & Hn & (u2 & w3 & _ & (u3 & w4 & _ & H)%bind_Ret)%bind_Ret). injection H as -> _.
  by exists w1, w2.
Qed.

Context `{R : GoRange} `{wt : Waiter W} `{rec : Recorder W} `{adal : Adal W}.
Variable sleep : Z → W → W.
Variable secrets : string → string → M W Secret.

(** [GetIdentities] of the process, and over the caches that its informers fill. *)
Definition nmi_GetIdentities (n : nmi) := tc_GetIdentities
  (TokenClientInt := client_of (H := informer_kube sleep secrets tag_New (nmi_Reporter n) (nmi_KubeClient n))
                       tag_New (nmi_Reporter n) (nmi_TokenClient n)).
Definition cached_GetIdentities (n : nmi) := tc_GetIdentities
  (TokenClientInt := client_of (H := kube_client (H := client_pods sleep (nmi_KubeClient n))
                                       (H0 := client_caches secrets (nmi_KubeClient n)) tag_New (nmi_Reporter n))
                       tag_New (nmi_Reporter n) (nmi_TokenClient n)).

(** The token client of a mode. *)
Lemma GetTokenClient_mode env f t : GetTokenClient (nmi_config env f) = Ret t →
  (ToLower (operationMode f) = StandardMode ∧
   t = Standard (mkStandardClient (retryAttemptsForCreated f) (retryAttemptsForAssigned f)
                   (findIdentityRetryIntervalInSeconds f) (nmi_namespaced env f))) ∨
  (ToLower (operationMode f) = ManagedMode ∧ nmi_namespaced env f = true ∧ ∃ mc, t = Managed mc).
Proof.
  unfold GetTokenClient, getOperationMode. cbn [Mode nmi_config]. rewrite ToLower_idemp. case_bool_decide as E1.
  - intros [= <-]. by left.
  - case_bool_decide as E2; [|done]. unfold NewManagedTokenClient. cbn [Namespaced nmi_config]. destruct (nmi_namespaced env f) eqn:En; [|done].
    intros [= <-]. right. split; [done|]. split; [done|]. by eexists.
Qed.

Lemma nmi_starts env f w n w' : nmi_main tag_New env f w = (Ret n, w') →
  let c := kc_CrdClient (nmi_KubeClient n) in
  (if decide (ToLower (operationMode f) = StandardMode)
   then delivers (AssignedIDInformer c) AzureAssignedIDResource (mkListOptions (assigned_selector f) "")
   else ToLower (operationMode f) = ManagedMode ∧
        nmi_namespaced env f = true ∧
        delivers (BindingInformer c) AzureIDBindingResource zeroListOptions ∧
        delivers (IDInformer c) AzureIDResource zeroListOptions) ∧
  delivers (PodIdentityExceptionInformer c) AzurePodIdentityExceptionResource zeroListOptions ∧
  pod_options (kc_PodInformer (nmi_KubeClient n)) = mkListOptions "" ("spec.nodeName=" +:+ nodename f) ∧
  (∃ w2, WaitForCacheSync (informers_of c) (run_all (informers_of c) (go_Run_pods (kc_PodInformer (nmi_KubeClient n)) w)) =
           (true, w2) ∧ w' = (WaitForPodSync (kc_PodInformer (nmi_KubeClient n)) w2).2) ∧
  (∀ podns podname clientID resourceID v,
     nmi_GetIdentities n podns podname clientID resourceID v = cached_GetIdentities n podns podname clientID resourceID v) ∧
  (∀ ns v, kube_ListPodIdentityExceptions (nmi_KubeClient n) ns v =
     (ListPodIdentityExceptions (ca_exceptions (Caches := client_caches secrets (nmi_KubeClient n)) v) ns, v)).
Proof.
  intros (Hc & Hs & Ht)%nmi_main_inv c. unfold GetKubeClient in Hc.
  apply NewKubeClient_spec in Hc as ([cfg Hcrd] & _ & Hpods). apply NewCRDClientLite_spec in Hcrd as [Hex Hcrd].
  apply KubeClient_Start_Ret in Hs. apply GetTokenClient_mode in Ht.
  assert (∀ ns v, kube_ListPodIdentityExceptions (nmi_KubeClient n) ns v =
     (ListPodIdentityExceptions (ca_exceptions (Caches := client_caches secrets (nmi_KubeClient n)) v) ns, v)) as Hexc.
  { intros ns v. destruct Hex as (e & He & _). unfold kube_ListPodIdentityExceptions. simpl. by rewrite He. }
  destruct Ht as [(Hmode & Ht)|(Hmode & Hns & mc & Ht)].
  - rewrite bool_decide_true in Hcrd by done. destruct Hcrd as (Ha & _). rewrite decide_True by done.
    split; [unfold assigned_selector; by destruct (enableScaleFeatures f)|]. do 3 (split; [done|]). split; [|done].
    intros podns podname clientID resourceID v. unfold nmi_GetIdentities, cached_GetIdentities. rewrite Ht. simpl.
    apply standard_reads. destruct Ha as (i & Hi & _). simpl. unfold kube_ListPodIds, KubeClient_ListPodIds. simpl. by rewrite Hi.
  - rewrite Hmode in *. rewrite bool_decide_false in Hcrd by done. destruct Hcrd as (Hb & Hi & _). rewrite decide_False by done.
    split; [done|]. do 3 (split; [done|]). split; [|done].
    intros podns podname clientID resourceID v. unfold nmi_GetIdentities, cached_GetIdentities. rewrite Ht. simpl.
    destruct Hb as (b & Hb & _). destruct Hi as (i & Hi & _). apply managed_reads; [|done]. intros labels.
    simpl. unfold kube_ListPodIdsWithBinding, KubeClient_ListPodIdsWithBinding. simpl. by rewrite Hb, Hi.
Qed.

(** C32: NMI is put together correctly. When the process has started: in standard mode its client
    watches the assigned identities of its node (of all nodes without the scale features), in
    managed mode the bindings and the identities, in both the exceptions and the pods of its
    node; every informer that was built is running and was synchronised; and [GetIdentities]
    of the mode's token client never meets an informer that was not built: it does what it
    does over the caches of those that were. Managed mode is always namespaced. *)
Theorem nmi_reads_its_caches env f w n w' : nmi_main tag_New env f w = (Ret n, w') →
  let c := kc_CrdClient (nmi_KubeClient n) in
  (if decide (ToLower (operationMode f) = StandardMode)
   then delivers (AssignedIDInformer c) AzureAssignedIDResource (mkListOptions (assigned_selector f) "")
   else ToLower (operationMode f) = ManagedMode ∧
        nmi_namespaced env f = true ∧
        delivers (BindingInformer c) AzureIDBindingResource zeroListOptions ∧
        delivers (IDInformer c) AzureIDResource zeroListOptions) ∧
  delivers (PodIdentityExceptionInformer c) AzurePodIdentityExceptionResource zeroListOptions ∧
  pod_options (kc_PodInformer (nmi_KubeClient n)) = mkListOptions "" ("spec.nodeName=" +:+ nodename f) ∧
  (∃ w2, WaitForCacheSync (informers_of c) (run_all (informers_of c) (go_Run_pods (kc_PodInformer (nmi_KubeClient n)) w)) =
           (true, w2) ∧ w' = (WaitForPodSync (kc_PodInformer (nmi_KubeClient n)) w2).2) ∧
  (∀ podns podname clientID resourceID v,
     nmi_GetIdentities n podns podname clientID resourceID v = cached_GetIdentities n podns podname clientID resourceID v) ∧
  (∀ ns v, kube_ListPodIdentityExceptions (nmi_KubeClient n) ns v =
     (ListPodIdentityExceptions (ca_exceptions (Caches := client_caches secrets (nmi_KubeClient n)) v) ns, v)).
Proof. apply nmi_starts. Qed.
End process.
