(* ===== verification/MicUpdate.v ===== *)
(** * MIC: applying the work of a node (pkg/mic/mic.go: [updateUserMSI],
    [cleanUpAllAssignedIdentitiesOnNode], [updateNodeAndDeps]).

    The goroutines are processes ([Concurrency]) over a world with the cluster's store, the
    cloud, the recorded events, the logged errors and the counters of pkg/stats. The
    goroutines of a loop are bounded by a weighted semaphore that is acquired in full
    afterwards: every interleaving it allows is an interleaving of [Fork]
    ([Termination.bstep_pstep]); that the waiting ends is in [MicProgress]. *)

From S2P Require Import Prelude GoStrings Types Conversion Fixtures Regex ResourceId MicDesired MicVmss MicNode Concurrency Stats CrdInterface CloudInterface.

(** ** The world *)

Inductive ev_object := OnBinding (b : AzureIdentityBinding) | OnAssigned (a : AzureAssignedIdentity).

Record event := mkEvent { ev_object_ : ev_object; ev_type : string; ev_reason : string; ev_message : string }.

Definition EventTypeNormal : string := "Normal".
Definition EventTypeWarning : string := "Warning".

Record mic_world {S C : Type} := mkMicWorld {
  mw_store : S;
  mw_cloud : C;
  mw_events : list event;
  mw_errors : list string;          (* klog.Error and klog.Errorf *)
  mw_stats : gmap string Z
}.
Arguments mic_world S C : clear implicits.
Arguments mkMicWorld {S C}.


Section update.
Context `{R : GoRange} {S C : Type} `{ci : ClientInt S} `{cc : CloudInt C}.
Abbreviation W := (mic_world S C).

Definition on_store {A} (m : M S A) : M W A := λ w,
  let '(r, s) := m (mw_store w) in (r, mkMicWorld s (mw_cloud w) (mw_events w) (mw_errors w) (mw_stats w)).
Definition on_cloud {A} (m : M C A) : M W A := λ w,
  let '(r, c) := m (mw_cloud w) in (r, mkMicWorld (mw_store w) c (mw_events w) (mw_errors w) (mw_stats w)).

(** [EventRecorder.Event] and [klog.Error]. *)
Definition Event (o : ev_object) (ty reason msg : string) (w : W) : W :=
  mkMicWorld (mw_store w) (mw_cloud w) (mw_events w ++ [mkEvent o ty reason msg]) (mw_errors w) (mw_stats w).
Definition klog_Error (msg : string) (w : W) : W :=
  mkMicWorld (mw_store w) (mw_cloud w) (mw_events w) (mw_errors w ++ [msg]) (mw_stats w).
(** [stats.Increment] *)
Definition stats_Increment (key : string) (count : Z) (w : W) : W :=
  mkMicWorld (mw_store w) (mw_cloud w) (mw_events w) (mw_errors w)
    (<[key := (default 0 (mw_stats w !! key) + count)%Z]> (mw_stats w)).

(** An action that cannot fail, then [k]. *)
Definition note (f : W → W) (k : proc W) : proc W := Op (λ w, (f w, k)).

Definition with_status (a : AzureAssignedIdentity) (st : string) : AzureAssignedIdentity :=
  mkAzureAssignedIdentity (aai_TypeMeta a) (aai_ObjectMeta a) (aai_Spec a)
    (mkAzureAssignedIdentityStatus (aast_ObjectMeta (aai_Status a)) st (aast_AvailableReplicas (aai_Status a))).

Definition aai_ns (a : AzureAssignedIdentity) : string := Namespace (aai_ObjectMeta a).
Definition aai_podns (a : AzureAssignedIdentity) : string := aas_PodNamespace (aai_Spec a).

(** The two pointers of an assigned identity, or a panic. *)
Definition with_binding (a : AzureAssignedIdentity) (k : AzureIdentityBinding → proc W) : proc W :=
  match aas_AzureBindingRef (aai_Spec a) with Some b => k b | None => Crash end.
Definition with_identity (a : AzureAssignedIdentity) (k : AzureIdentity → proc W) : proc W :=
  match aas_AzureIdentityRef (aai_Spec a) with Some i => k i | None => Crash end.

(** Lines 1055-1071: the goroutine that creates an assigned identity. *)
Definition create_goroutine (assignedID : AzureAssignedIdentity) : proc W :=
  if bool_decide (aai_status assignedID = "")
  then with_binding assignedID (λ binding,
    act (on_store (ci_CreateAssignedIdentity (with_status assignedID AssignedIDCreated)))
      (λ _, Done)
      (λ err,
        let message := "failed to create AzureAssignedIdentity " +:+ aai_name assignedID +:+ "/" +:+ aai_ns assignedID +:+
          " for pod " +:+ aai_podns assignedID +:+ "/" +:+ aai_pod assignedID +:+ ", error: " +:+ Error err in
        note (Event (OnBinding binding) EventTypeWarning "binding apply error" message)
          (note (klog_Error message) Done)))
  else Done.

(** Lines 1079-1095: the goroutine that updates one. *)
Definition update_goroutine (assignedID : AzureAssignedIdentity) : proc W :=
  if bool_decide (aai_status assignedID = "")
  then with_binding assignedID (λ binding,
    act (on_store (ci_UpdateAssignedIdentity (with_status assignedID AssignedIDCreated)))
      (λ _, Done)
      (λ err,
        let message := "failed to update AzureAssignedIdentity " +:+ aai_ns assignedID +:+ "/" +:+ aai_name assignedID +:+
          " for pod " +:+ aai_pod assignedID +:+ "/" +:+ aai_podns assignedID +:+ ", error: " +:+ Error err in
        note (Event (OnBinding binding) EventTypeWarning "binding apply error" message)
          (note (klog_Error message) Done)))
  else Done.

(** Lines 1203-1216: the goroutine that marks one as assigned. *)
Definition assigned_goroutine (assignedID : AzureAssignedIdentity) : proc W :=
  with_binding assignedID (λ binding,
    act (on_store (ci_UpdateAzureAssignedIdentityStatus assignedID AssignedIDAssigned))
      (λ _, note (Event (OnBinding binding) EventTypeNormal "binding applied"
              ("Binding " +:+ Name (aib_ObjectMeta binding) +:+ " applied on node " +:+ aai_node assignedID +:+
               " for pod " +:+ aai_name assignedID)) Done)
      (λ err,
        let message := "failed to update AzureAssignedIdentity " +:+ aai_ns assignedID +:+ "/" +:+ aai_name assignedID +:+
          " status to " +:+ AssignedIDAssigned +:+ " for pod " +:+ aai_pod assignedID +:+ ", error: " +:+ Error err in
        note (Event (OnAssigned assignedID) EventTypeWarning "status update error" message)
          (note (klog_Error message) Done))).

(** Lines 1232-1252: the goroutine that marks one as unassigned and deletes it. *)
Definition delete_goroutine (assignedID : AzureAssignedIdentity) : proc W :=
  act (on_store (ci_UpdateAzureAssignedIdentityStatus assignedID AssignedIDUnAssigned))
    (λ _, act (on_store (ci_RemoveAssignedIdentity assignedID))
       (λ _, Done)
       (λ err, note (klog_Error ("failed to remove AzureAssignedIdentity " +:+ aai_ns assignedID +:+ "/" +:+
          aai_name assignedID +:+ ", error: " +:+ Error err)) Done))
    (λ err,
      let message := "failed to update AzureAssignedIdentity " +:+ aai_ns assignedID +:+ "/" +:+ aai_name assignedID +:+
        " status to " +:+ AssignedIDUnAssigned +:+ " for pod " +:+ aai_podns assignedID +:+ "/" +:+ aai_pod assignedID +:+
        ", error: " +:+ Error err in
      note (Event (OnAssigned assignedID) EventTypeWarning "status update error" message)
        (note (klog_Error message) Done)).

(** Lines 1118-1157: after a failed update, the created and updated ones, one at a time. *)
Fixpoint recover_creates (toCreate : list AzureAssignedIdentity) (idList : list string) (err : error)
    (l : list AzureAssignedIdentity) (k : proc W) : proc W :=
  match l with
  | [] => k
  | createID :: l' =>
      with_identity createID (λ id, with_binding createID (λ binding,
        let isUserAssignedMSI := checkIfUserAssignedMSI id in
        let idExistsOnNode := checkIfMSIExistsOnNode id idList in
        if isUserAssignedMSI && negb idExistsOnNode
        then
          let message := "failed to apply binding " +:+ Namespace (aib_ObjectMeta binding) +:+ "/" +:+ Name (aib_ObjectMeta binding) +:+
            " node " +:+ aai_node createID +:+ " for pod " +:+ aai_podns createID +:+ "/" +:+ aai_pod createID +:+
            ", error: " +:+ Error err in
          note (Event (OnBinding binding) EventTypeWarning "binding apply error" message)
            (note (klog_Error message) (recover_creates toCreate idList err l' k))
        else
          let counted :=
            note (stats_Increment (if bool_decide (createID ∈ toCreate) then StatsPkg.TotalAzureAssignedIdentitiesCreated
                                   else StatsPkg.TotalAzureAssignedIdentitiesUpdated) 1)
              (recover_creates toCreate idList err l' k) in
          note (Event (OnBinding binding) EventTypeNormal "binding applied"
                  ("binding " +:+ Name (aib_ObjectMeta binding) +:+ " applied on node " +:+ aai_node createID +:+
                   " for pod " +:+ aai_name createID))
            (act (on_store (ci_UpdateAzureAssignedIdentityStatus createID AssignedIDAssigned))
               (λ _, counted)
               (λ updateErr,
                 let message := "failed to update AzureAssignedIdentity " +:+ aai_ns createID +:+ "/" +:+ aai_name createID +:+
                   " status to " +:+ AssignedIDAssigned +:+ " for pod " +:+ aai_podns createID +:+ "/" +:+ aai_pod createID +:+
                   ", error: " +:+ Error updateErr in
                 note (Event (OnAssigned createID) EventTypeWarning "status update error" message)
                   (note (klog_Error message) counted)))))
  end.

(** [%+v] of an [error] variable. *)
Definition show_error (err : option error) : string :=
  match err with Some e => Error e | None => "<nil>" end.

(** Lines 1159-1191: and the deleted ones. The groups are computed afresh for each, and the
    result of each removal overwrites [err], which the later messages show. *)
Fixpoint recover_deletes (nc : NodeGetter) (newAssignedIDs : aai_map) (nodeRefs : gmap string bool)
    (idList : list string) (err : option error) (l : list AzureAssignedIdentity) (k : proc W) : proc W :=
  match l with
  | [] => k
  | delID :: l' =>
      with_identity delID (λ id,
        let isUserAssignedMSI := checkIfUserAssignedMSI id in
        let idExistsOnNode := checkIfMSIExistsOnNode id idList in
        let next err := recover_deletes nc newAssignedIDs nodeRefs idList err l' k in
        match getVMSSGroups nc nodeRefs with
        | Panic => Crash
        | Fail getErr => note (klog_Error ("failed to get VMSS groups, error: " +:+ Error getErr)) (next err)
        | Ret vmssGroups =>
            match (checkIfInUse nc delID newAssignedIDs vmssGroups).1 with
            | Panic => Crash
            | Fail _ => note (klog_Error "failed to check if identity is in use, error: <nil>") (next err)
            | Ret inUse =>
                if isUserAssignedMSI && negb inUse && idExistsOnNode
                then
                  with_binding delID (λ removedBinding,
                    note (klog_Error ("failed to remove AzureIdentityBinding " +:+ Name (aib_ObjectMeta removedBinding) +:+
                      " from node " +:+ aai_node delID +:+ " for pod " +:+ aai_podns delID +:+ "/" +:+ aai_pod delID +:+
                      ", error: " +:+ show_error err)) (next err))
                else
                  act (on_store (ci_RemoveAssignedIdentity delID))
                    (λ _, note (stats_Increment StatsPkg.TotalAzureAssignedIdentitiesDeleted 1) (next None))
                    (λ rerr, note (klog_Error ("failed to remove AzureAssignedIdentity " +:+ aai_name delID +:+
                      ", error: " +:+ Error rerr)) (next (Some rerr)))
            end
        end)
  end.

(** The process of one node or scale set. *)
Definition updateUserMSI (nc : NodeGetter) (newAssignedIDs : aai_map) (nodeOrVMSSName : string)
    (nodeTrackList : trackUserAssignedMSIIds) (nodeRefs : gmap string bool) : proc W :=
  let toCreate := assignedIDsToCreate nodeTrackList in
  let toUpdate := assignedIDsToUpdate nodeTrackList in
  let toDelete := assignedIDsToDelete nodeTrackList in
  let createOrUpdateList := toCreate ++ toUpdate in
  Fork ((create_goroutine <$> toCreate) ++ (update_goroutine <$> toUpdate))
    (let addIDs := getUniqueIDs (addUserAssignedMSIIDs nodeTrackList) in
     let removeIDs := getUniqueIDs (removeUserAssignedMSIIDs nodeTrackList) in
     act (on_cloud (cc_UpdateUserMSI addIDs removeIDs nodeOrVMSSName (isvmss nodeTrackList)))
       (λ _,
         Fork (assigned_goroutine <$> createOrUpdateList)
           (Fork (delete_goroutine <$> toDelete)
              (note (stats_Increment StatsPkg.TotalAzureAssignedIdentitiesCreated (Z.of_nat (length toCreate)))
                 (note (stats_Increment StatsPkg.TotalAzureAssignedIdentitiesUpdated (Z.of_nat (length toUpdate)))
                    (note (stats_Increment StatsPkg.TotalAzureAssignedIdentitiesDeleted (Z.of_nat (length toDelete))) Done)))))
       (λ err,
         note (klog_Error ("failed to update user-assigned identities on node " +:+ nodeOrVMSSName +:+
                 " (add [" +:+ pretty (length toCreate) +:+ "], del [" +:+ pretty (length toDelete) +:+
                 "], update[" +:+ pretty (length toUpdate) +:+ "]), error: " +:+ Error err))
           (act (on_cloud (cc_GetUserMSIs nodeOrVMSSName (isvmss nodeTrackList)))
              (λ idList, recover_creates toCreate idList err createOrUpdateList
                 (recover_deletes nc newAssignedIDs nodeRefs idList (Some err) toDelete Done))
              (λ getErr, note (klog_Error ("failed to get a list of user-assigned identites from node " +:+ nodeOrVMSSName +:+
                 ", error: " +:+ Error getErr)) Done)))).

(** [cleanUpAllAssignedIdentitiesOnNode] *)
Fixpoint cleanUp (l : list AzureAssignedIdentity) : proc W :=
  match l with
  | [] => Done
  | deleteID :: l' =>
      act (on_store (ci_RemoveAssignedIdentity deleteID))
        (λ _, with_binding deleteID (λ binding,
           note (Event (OnBinding binding) EventTypeNormal "binding removed"
             ("Binding " +:+ Name (aib_ObjectMeta binding) +:+ " removed from node " +:+ aai_node deleteID +:+
              " for pod " +:+ aai_pod deleteID)) (cleanUp l')))
        (λ err, with_binding deleteID (λ binding,
           let message := "failed to remove AzureIdentityBinding " +:+ Namespace (aib_ObjectMeta binding) +:+ "/" +:+
             Name (aib_ObjectMeta binding) +:+ " from node " +:+ aai_node deleteID +:+ " for pod " +:+ aai_podns deleteID +:+ "/" +:+
             aai_pod deleteID +:+ ", error: " +:+ Error err in
           note (Event (OnBinding binding) EventTypeWarning "binding remove error" message)
             (note (klog_Error message) (cleanUp l'))))
  end.

Definition cleanUpAllAssignedIdentitiesOnNode (node : string) (nodeTrackList : trackUserAssignedMSIIds) : proc W :=
  cleanUp (assignedIDsToDelete nodeTrackList).

(** [updateNodeAndDeps]: one goroutine per entry of the node map. *)
Definition updateNodeAndDeps (nc : NodeGetter) (newAssignedIDs : aai_map) (nodeMap : track_map)
    (nodeRefs : gmap string bool) : list (proc W) :=
  (λ kv : string * trackUserAssignedMSIIds, updateUserMSI nc newAssignedIDs kv.1 kv.2 nodeRefs) <$> go_range 1031 nodeMap.
End update.
