(* ===== verification/MicUpdateFacts.v ===== *)
(** * MIC: what the concurrent update of a node guarantees.

    The theorems hold for every interleaving of the goroutines of a node with each other and
    with an environment (the other nodes, other controllers) that leaves the node's own
    assigned identities and machine alone. *)

From S2P Require Import Prelude GoStrings Types Conversion Fixtures Regex ResourceId MicDesired MicVmss MicNode Concurrency Stats CrdInterface CloudInterface MicUpdate.

(** The cells of the world: an assigned identity on the cluster, an identity on a machine. *)
Inductive mic_cell := CKey (k : string * string) | CId (isvmss : bool) (name x : string).

Section facts.
Context `{R : GoRange} {S C : Type} {ci : ClientInt S} {cc : CloudInt C}
  {cl : ClientLaws ci} {cll : CloudIntLaws cc}.
Abbreviation W := (mic_world S C).

#[export, refine] Instance mic_World : World W := {|
  cell := mic_cell;
  value := option content + bool;
  read := λ w c, match c with
                 | CKey k => inl (stored (mw_store w) k)
                 | CId b n x => inr (cl_assigned (mw_cloud w) b n x)
                 end;
  w_inv := λ w, store_ok (mw_store w);
  log_le := λ w w', length (mw_errors w) <= length (mw_errors w')
|}.
Proof. { done. } { intros w1 w2 w3 ??. lia. } Defined.

Abbreviation st w k := (stored (mw_store w) k).
Abbreviation on_machine w b n x := (cl_assigned (mw_cloud w) b n x).
Abbreviation errors w := (length (mw_errors w)).

Definition key_fp (a : AzureAssignedIdentity) : mic_cell → Prop := λ c, c = CKey (aai_key a).
Definition machine_fp (isv : bool) (name : string) : mic_cell → Prop := λ c,
  match c with CId b n _ => ¬ other_machine isv name b n | CKey _ => False end.

Lemma machine_fp_self isv name x : machine_fp isv name (CId isv name x).
Proof. intros [?|?]; done. Qed.

(** ** Reading off an environment step *)

Lemma env_key F a (w w' : W) : env F w w' → w_inv w → F (CKey (aai_key a)) → st w' (aai_key a) = st w (aai_key a).
Proof. intros H Hi HF. destruct (H Hi) as (_ & _ & E). specialize (E _ HF). simpl in E. congruence. Qed.

Lemma env_machine F isv name (w w' : W) x :
  env F w w' → w_inv w → F (CId isv name x) → on_machine w' isv name x = on_machine w isv name x.
Proof. intros H Hi HF. destruct (H Hi) as (_ & _ & E). specialize (E _ HF). simpl in E. congruence. Qed.

Lemma env_inv F (w w' : W) : env F w w' → w_inv w → w_inv w'.
Proof. intros H Hi. by destruct (H Hi). Qed.

Lemma env_errors F (w w' : W) : env F w w' → w_inv w → (errors w <= errors w')%nat.
Proof. intros H Hi. by destruct (H Hi) as (_ & ? & _). Qed.

(** ** What the actions touch *)

Lemma touch_store_op (F : mic_cell → Prop) a (m : M S unit) (w : W) :
  F (CKey (aai_key a)) →
  (∀ k, k ≠ aai_key a → stored (m (mw_store w)).2 k = st w k) → (w_inv w → store_ok (m (mw_store w)).2) →
  touch F w (on_store m w).2.
Proof.
  intros HF Hk Hi Hinv. unfold on_store. destruct (m (mw_store w)) as [r s] eqn:E. simpl in *.
  split; [auto|]. split; [done|]. intros [k|b n x] Hc; [|done]. rewrite Hk; [done|]. by intros ->.
Qed.

Lemma touch_note F (f : W → W) w :
  mw_store (f w) = mw_store w → mw_cloud (f w) = mw_cloud w → (errors w <= errors (f w))%nat → touch F w (f w).
Proof.
  intros Hs Hc He Hi. simpl. rewrite Hs, Hc. split; [done|]. split; [done|]. by intros [].
Qed.

Lemma touches_note F f (k : proc W) :
  (∀ w, mw_store (f w) = mw_store w ∧ mw_cloud (f w) = mw_cloud w ∧ (errors w <= errors (f w))%nat) →
  touches F k → touches F (note f k).
Proof. intros Hf Hk. constructor; [|done]. intros w. destruct (Hf w) as (? & ? & ?). by apply touch_note. Qed.

Lemma touches_act {A} F (m : M W A) ok failed :
  (∀ w, touch F w (m w).2) → (∀ a, touches F (ok a)) → (∀ e, touches F (failed e)) → touches F (act m ok failed).
Proof.
  intros Hm Hok Hf. constructor; intros w; specialize (Hm w); destruct (m w) as [[a|e|] w']; simpl in *; auto.
  constructor.
Qed.

Lemma touches_event F o ty r m (k : proc W) : touches F k → touches F (note (Event o ty r m) k).
Proof. apply touches_note. intros w. simpl. auto. Qed.
Lemma touches_klog F m (k : proc W) : touches F k → touches F (note (klog_Error m) k).
Proof. apply touches_note. intros w. simpl. rewrite length_app. simpl. split; [done|]. split; [done|lia]. Qed.
Lemma touches_stats F n z (k : proc W) : touches F k → touches F (note (stats_Increment n z) k).
Proof. apply touches_note. intros w. simpl. auto. Qed.

Lemma touch_create (F : mic_cell → Prop) a w :
  F (CKey (aai_key a)) → own_finalizers finalizer (Finalizers (aai_ObjectMeta a)) →
  touch F w (on_store (ci_CreateAssignedIdentity a) w).2.
Proof. intros HF Hf. apply (touch_store_op F a); [done| |]; intros; [by apply create_frame|by apply create_inv]. Qed.
Lemma touch_update (F : mic_cell → Prop) a w :
  F (CKey (aai_key a)) → own_finalizers finalizer (Finalizers (aai_ObjectMeta a)) →
  touch F w (on_store (ci_UpdateAssignedIdentity a) w).2.
Proof. intros HF Hf. apply (touch_store_op F a); [done| |]; intros; [by apply update_frame|by apply update_inv]. Qed.
Lemma touch_status (F : mic_cell → Prop) a s w :
  F (CKey (aai_key a)) → touch F w (on_store (ci_UpdateAzureAssignedIdentityStatus a s) w).2.
Proof. intros HF. apply (touch_store_op F a); [done| |]; intros; [by apply status_frame|by apply status_inv]. Qed.
Lemma touch_remove (F : mic_cell → Prop) a w :
  F (CKey (aai_key a)) → touch F w (on_store (ci_RemoveAssignedIdentity a) w).2.
Proof. intros HF. apply (touch_store_op F a); [done| |]; intros; [by apply remove_frame|by apply remove_inv]. Qed.

Lemma touch_cloud_update (F : mic_cell → Prop) add remove name isv w :
  (∀ c, machine_fp isv name c → F c) → touch F w (on_cloud (cc_UpdateUserMSI add remove name isv) w).2.
Proof.
  intros HF Hi. unfold on_cloud. pose proof (cl_update_frame add remove name isv (mw_cloud w)) as Hf.
  destruct (cc_UpdateUserMSI _ _ _ _ _) as [r c]. simpl in *. split; [done|]. split; [done|].
  intros [k|b n x] Hc; [done|]. simpl. f_equal. apply Hf.
  destruct (decide (isv = b)) as [->|]; [|by left]. destruct (decide (ToLower name = ToLower n)) as [E|]; [|by right].
  destruct Hc. apply HF. intros [?|?]; done.
Qed.

Lemma touch_cloud_get F name isv w : touch F w (on_cloud (cc_GetUserMSIs name isv) w).2.
Proof.
  intros Hi. unfold on_cloud. pose proof (cl_get_frame name isv (mw_cloud w)) as Hf.
  destruct (cc_GetUserMSIs _ _ _) as [r c]. simpl in *. split; [done|]. split; [done|].
  intros [k|b n x] Hc; [done|]. simpl. f_equal. apply Hf.
Qed.

(** A panic of a nil reference touches nothing; the other branch is the continuation. *)
Lemma touches_with_binding F a (k : AzureIdentityBinding → proc W) : (∀ b, touches F (k b)) → touches F (with_binding a k).
Proof. intros Hk. unfold with_binding. destruct (aas_AzureBindingRef _); [done|constructor]. Qed.
Lemma touches_with_identity F a (k : AzureIdentity → proc W) : (∀ b, touches F (k b)) → touches F (with_identity a k).
Proof. intros Hk. unfold with_identity. destruct (aas_AzureIdentityRef _); [done|constructor]. Qed.

Definition own (a : AzureAssignedIdentity) : Prop := own_finalizers finalizer (Finalizers (aai_ObjectMeta a)).

Lemma touches_create_goroutine a : own a → touches (key_fp a) (create_goroutine a).
Proof.
  intros Ho. unfold create_goroutine. case_bool_decide; [|constructor]. apply touches_with_binding. intros b.
  apply touches_act; [intros w; by apply touch_create|constructor|]. intros e. apply touches_event, touches_klog. constructor.
Qed.
Lemma touches_update_goroutine a : own a → touches (key_fp a) (update_goroutine a).
Proof.
  intros Ho. unfold update_goroutine. case_bool_decide; [|constructor]. apply touches_with_binding. intros b.
  apply touches_act; [intros w; by apply touch_update|constructor|]. intros e. apply touches_event, touches_klog. constructor.
Qed.
Lemma touches_assigned_goroutine a : touches (key_fp a) (assigned_goroutine a).
Proof.
  apply touches_with_binding. intros b. apply touches_act; [intros w; by apply touch_status| |].
  - intros ?. apply touches_event. constructor.
  - intros e. apply touches_event, touches_klog. constructor.
Qed.
Lemma touches_delete_goroutine a : touches (key_fp a) (delete_goroutine a).
Proof.
  apply touches_act; [intros w; by apply touch_status| |].
  - intros ?. apply touches_act; [intros w; by apply touch_remove|constructor|]. intros e. apply touches_klog. constructor.
  - intros e. apply touches_event, touches_klog. constructor.
Qed.

(** ** Running the parts of a goroutine *)

Lemma runs_act_inv {A} F (m : M W A) ok failed w w' :
  runs F (act m ok failed) w w' →
  ∃ w1, env F w w1 ∧
    match m w1 with
    | (Ret a, w2) => runs F (ok a) w2 w'
    | (Fail e, w2) => runs F (failed e) w2 w'
    | (Panic, _) => False
    end.
Proof.
  intros (w1 & He & Hr)%runs_op_inv. exists w1. split; [done|].
  destruct (m w1) as [[a|e|] w2]; simpl in Hr; [done|done|by apply runs_crash_inv in Hr].
Qed.

Lemma runs_note_inv F f k (w w' : W) :
  runs F (note f k) w w' → ∃ w1, env F w w1 ∧ runs F k (f w1) w'.
Proof. apply runs_op_inv. Qed.

(** A process that touches only [F] never loses an error. *)
Lemma runs_errors F G p (w w' : W) : touches G p → runs F p w w' → w_inv w → w_inv w' ∧ (errors w <= errors w')%nat.
Proof.
  intros Ht H. induction H as [w|p w w1 w2 He Hr IH|p p1 w w1 w2 Hs Hr IH]; intros Hi; [done| |].
  - destruct (He Hi) as (Hi1 & Hl & _). destruct (IH Ht Hi1) as [? ?]. simpl in *. split; [done|lia].
  - destruct (pstep_touch _ _ _ _ _ Ht Hs) as [Htw Ht1]. destruct (Htw Hi) as (Hi1 & Hl & _).
    destruct (IH Ht1 Hi1) as [? ?]. simpl in *. split; [done|lia].
Qed.
(** ** What each goroutine achieves *)

Lemma runs_report F o ty r m m2 (w w' : W) :
  runs F (note (Event o ty r m) (note (klog_Error m2) Done)) w w' → w_inv w →
  w_inv w' ∧ (errors w < errors w')%nat ∧ ∀ a, F (CKey (aai_key a)) → st w' (aai_key a) = st w (aai_key a).
Proof.
  intros (w1 & H1 & (w2 & H2 & H3%runs_done_inv)%runs_note_inv)%runs_note_inv Hi.
  pose proof (env_inv _ _ _ H1 Hi) as Hi1. pose proof (env_inv _ _ _ H2 Hi1) as Hi2.
  pose proof (env_errors _ _ _ H1 Hi). pose proof (env_errors _ _ _ H2 Hi1). pose proof (env_errors _ _ _ H3 Hi2).
  simpl in *. rewrite length_app in *. simpl in *. split; [by apply (env_inv _ _ _ H3)|]. split; [lia|].
  intros a HF. rewrite (env_key _ a _ _ H3 Hi2 HF). simpl. rewrite (env_key _ a _ _ H2 Hi1 HF). simpl.
  by apply (env_key _ a _ _ H1 Hi).
Qed.

(** What is stored while an assigned identity is being created or updated. *)
Definition created_or (a : AzureAssignedIdentity) (old new : option content) : Prop :=
  new = old ∨ new = None ∨ new = Some (content_of (with_status a AssignedIDCreated)).

Lemma on_store_eq {A} (m : M S A) (w : W) r s :
  m (mw_store w) = (r, s) → on_store m w = (r, mkMicWorld s (mw_cloud w) (mw_events w) (mw_errors w) (mw_stats w)).
Proof. intros E. unfold on_store. by rewrite E. Qed.

(** The shape shared by the create and the update goroutine. *)
Lemma write_goroutine_spec (op : AzureAssignedIdentity → M S unit) a binding ty r (msg : error → string) (w w' : W) :
  let a' := with_status a AssignedIDCreated in
  (∀ s, store_ok s → store_ok (op a' s).2) →
  (∀ s, created_or a (stored s (aai_key a)) (stored (op a' s).2 (aai_key a))) →
  runs (key_fp a) (act (on_store (op a')) (λ _, Done)
    (λ err, note (Event (OnBinding binding) ty r (msg err)) (note (klog_Error (msg err)) Done))) w w' →
  w_inv w →
  w_inv w' ∧ (errors w <= errors w')%nat ∧ created_or a (st w (aai_key a)) (st w' (aai_key a)) ∧
  (errors w' = errors w → ∃ s1 s2, store_ok s1 ∧ op a' s1 = (Ret tt, s2) ∧ st w' (aai_key a) = stored s2 (aai_key a)).
Proof.
  intros a' Hinv Hany (w1 & He & Hr)%runs_act_inv Hi.
  pose proof (env_inv _ _ _ He Hi) as Hi1. pose proof (env_errors _ _ _ He Hi) as Hle.
  pose proof (env_key _ a _ _ He Hi eq_refl) as Hk. simpl in Hi1.
  specialize (Hinv (mw_store w1) Hi1). specialize (Hany (mw_store w1)).
  destruct (op a' (mw_store w1)) as [o s2] eqn:Eop. rewrite (on_store_eq _ _ _ _ Eop) in Hr. simpl in *.
  rewrite <- Hk. destruct o as [[]|e|]; [| |done].
  - apply runs_done_inv in Hr. pose proof (env_errors _ _ _ Hr Hinv). pose proof (env_key _ a _ _ Hr Hinv eq_refl) as Hk2.
    simpl in *. split; [by apply (env_inv _ _ _ Hr)|]. split; [lia|]. rewrite Hk2. split; [done|]. intros _. eauto 10.
  - destruct (runs_report _ _ _ _ _ _ _ _ Hr Hinv) as (Hi' & Hlt & Hk2). simpl in *. split; [done|]. split; [lia|].
    rewrite (Hk2 a eq_refl). split; [done|]. lia.
Qed.

Lemma create_goroutine_spec a (w w' : W) :
  own a → runs (key_fp a) (create_goroutine a) w w' → w_inv w →
  w_inv w' ∧ (errors w <= errors w')%nat ∧ created_or a (st w (aai_key a)) (st w' (aai_key a)) ∧
  (errors w' = errors w → aai_status a = "" → st w' (aai_key a) = Some (content_of (with_status a AssignedIDCreated))).
Proof.
  intros Ho. unfold create_goroutine. case_bool_decide as Hs.
  - unfold with_binding. destruct (aas_AzureBindingRef _) as [b|]; [|by intros ?%runs_crash_inv].
    intros Hr Hi.
    assert (∀ s, store_ok s → store_ok (ci_CreateAssignedIdentity (with_status a AssignedIDCreated) s).2) as Hinv
      by (intros s; by apply create_inv).
    assert (∀ s, created_or a (stored s (aai_key a))
      (stored (ci_CreateAssignedIdentity (with_status a AssignedIDCreated) s).2 (aai_key a))) as Hany
      by (intros s; destruct (create_any (with_status a AssignedIDCreated) s) as [E|E]; unfold created_or; auto).
    eapply (write_goroutine_spec _ a b _ _ _ w w' Hinv Hany) in Hr as (H1 & H2 & H3 & H4); [|exact Hi].
    split; [done|]. split; [done|]. split; [done|]. intros He _. destruct (H4 He) as (s1 & s2 & Hok & Hop & ->).
      by apply (create_ok _ _ _ Hok Hop).
  - intros Hr%runs_done_inv Hi. split; [by apply (env_inv _ _ _ Hr)|]. split; [by apply (env_errors _ _ _ Hr)|].
    split; [left; by apply (env_key _ a _ _ Hr)|done].
Qed.

Lemma update_goroutine_spec a (w w' : W) :
  own a → runs (key_fp a) (update_goroutine a) w w' → w_inv w →
  w_inv w' ∧ (errors w <= errors w')%nat ∧ created_or a (st w (aai_key a)) (st w' (aai_key a)) ∧
  (errors w' = errors w → aai_status a = "" → st w' (aai_key a) = None ∨
     st w' (aai_key a) = Some (content_of (with_status a AssignedIDCreated))).
Proof.
  intros Ho. unfold update_goroutine. case_bool_decide as Hs.
  - unfold with_binding. destruct (aas_AzureBindingRef _) as [b|]; [|by intros ?%runs_crash_inv].
    intros Hr Hi.
    assert (∀ s, store_ok s → store_ok (ci_UpdateAssignedIdentity (with_status a AssignedIDCreated) s).2) as Hinv
      by (intros s; by apply update_inv).
    assert (∀ s, created_or a (stored s (aai_key a))
      (stored (ci_UpdateAssignedIdentity (with_status a AssignedIDCreated) s).2 (aai_key a))) as Hany
      by (intros s; destruct (update_any (with_status a AssignedIDCreated) s) as [E|[E|E]]; unfold created_or; auto).
    eapply (write_goroutine_spec _ a b _ _ _ w w' Hinv Hany) in Hr as (H1 & H2 & H3 & H4); [|exact Hi].
    split; [done|]. split; [done|]. split; [done|]. intros He _. destruct (H4 He) as (s1 & s2 & Hok & Hop & ->).
      destruct (update_ok _ _ _ Hok Hop); auto.
  - intros Hr%runs_done_inv Hi. split; [by apply (env_inv _ _ _ Hr)|]. split; [by apply (env_errors _ _ _ Hr)|].
    split; [left; by apply (env_key _ a _ _ Hr)|done].
Qed.

(** What is stored under an entry that needs no write stays. *)
Lemma written_goroutine_keeps a (w w' : W) :
  aai_status a ≠ "" → runs (key_fp a) (create_goroutine a) w w' ∨ runs (key_fp a) (update_goroutine a) w w' → w_inv w →
  st w' (aai_key a) = st w (aai_key a).
Proof.
  intros Hs Hr Hi. unfold create_goroutine, update_goroutine in Hr. rewrite bool_decide_false in Hr by done.
  destruct Hr as [Hr|Hr]; apply runs_done_inv in Hr; by apply (env_key _ a _ _ Hr Hi).
Qed.

Lemma assigned_goroutine_spec a (w w' : W) :
  runs (key_fp a) (assigned_goroutine a) w w' → w_inv w →
  w_inv w' ∧ (errors w <= errors w')%nat ∧
  (errors w' = errors w → ∃ c, st w (aai_key a) = Some c ∧ st w' (aai_key a) = Some (mkContent (c_Spec c) AssignedIDAssigned (c_Labels c))).
Proof.
  unfold assigned_goroutine, with_binding. destruct (aas_AzureBindingRef _) as [b|]; [|by intros ?%runs_crash_inv].
  intros (w1 & He & Hr)%runs_act_inv Hi.
  pose proof (env_inv _ _ _ He Hi) as Hi1. pose proof (env_errors _ _ _ He Hi) as Hle.
  pose proof (env_key _ a _ _ He Hi eq_refl) as Hk. simpl in Hi1.
  pose proof (status_inv a AssignedIDAssigned _ Hi1) as Hinv.
  destruct (ci_UpdateAzureAssignedIdentityStatus a AssignedIDAssigned (mw_store w1)) as [[[]|e|] s2] eqn:Eop;
    rewrite (on_store_eq _ _ _ _ Eop) in Hr; simpl in *; [| |done].
  - apply runs_note_inv in Hr as (w2 & H2 & H3%runs_done_inv). pose proof (env_inv _ _ _ H2 Hinv) as Hi2.
    pose proof (env_errors _ _ _ H2 Hinv). pose proof (env_errors _ _ _ H3 Hi2).
    pose proof (env_key _ a _ _ H2 Hinv eq_refl) as Hk2. pose proof (env_key _ a _ _ H3 Hi2 eq_refl) as Hk3. simpl in *.
    split; [by apply (env_inv _ _ _ H3)|]. split; [lia|]. intros _. rewrite <- Hk, Hk3, Hk2. by eapply status_ok.
  - destruct (runs_report _ _ _ _ _ _ _ _ Hr Hinv) as (Hi' & Hlt & _). simpl in *. split; [done|]. split; [lia|]. lia.
Qed.

Lemma delete_goroutine_spec a (w w' : W) :
  runs (key_fp a) (delete_goroutine a) w w' → w_inv w →
  w_inv w' ∧ (errors w <= errors w')%nat ∧ (errors w' = errors w → st w' (aai_key a) = None).
Proof.
  intros (w1 & He & Hr)%runs_act_inv Hi.
  pose proof (env_inv _ _ _ He Hi) as Hi1. pose proof (env_errors _ _ _ He Hi) as Hle. simpl in Hi1.
  pose proof (status_inv a AssignedIDUnAssigned _ Hi1) as Hinv.
  destruct (ci_UpdateAzureAssignedIdentityStatus a AssignedIDUnAssigned (mw_store w1)) as [[[]|e|] s2] eqn:Eop;
    rewrite (on_store_eq _ _ _ _ Eop) in Hr; simpl in *; [| |done].
  - apply runs_act_inv in Hr as (w2 & H2 & Hr). pose proof (env_inv _ _ _ H2 Hinv) as Hi2.
    pose proof (env_errors _ _ _ H2 Hinv). simpl in Hi2. pose proof (remove_inv a _ Hi2) as Hinv2.
    destruct (ci_RemoveAssignedIdentity a (mw_store w2)) as [[[]|e|] s3] eqn:Er;
      rewrite (on_store_eq _ _ _ _ Er) in Hr; simpl in *; [| |done].
    + apply runs_done_inv in Hr. pose proof (env_errors _ _ _ Hr Hinv2).
      pose proof (env_key _ a _ _ Hr Hinv2 eq_refl) as Hk3. simpl in *.
      split; [by apply (env_inv _ _ _ Hr)|]. split; [lia|]. intros _. rewrite Hk3. exact (remove_ok _ _ _ Hi2 Er).
    + apply runs_note_inv in Hr as (w3 & H3 & H4%runs_done_inv). pose proof (env_inv _ _ _ H3 Hinv2) as Hi3.
      pose proof (env_errors _ _ _ H3 Hinv2). pose proof (env_errors _ _ _ H4 Hi3). simpl in *. rewrite length_app in *. simpl in *.
      split; [by apply (env_inv _ _ _ H4)|]. split; [lia|]. lia.
  - destruct (runs_report _ _ _ _ _ _ _ _ Hr Hinv) as (Hi' & Hlt & _). simpl in *. split; [done|]. split; [lia|]. lia.
Qed.
(** ** The footprint of a node *)

Definition entries (t : trackUserAssignedMSIIds) : list AzureAssignedIdentity :=
  assignedIDsToCreate t ++ assignedIDsToUpdate t ++ assignedIDsToDelete t.

Definition node_fp (t : trackUserAssignedMSIIds) (name : string) : mic_cell → Prop := λ c,
  (∃ a, a ∈ entries t ∧ c = CKey (aai_key a)) ∨ machine_fp (isvmss t) name c.

Lemma node_fp_key t name a : a ∈ entries t → node_fp t name (CKey (aai_key a)).
Proof. intros H. left. eauto. Qed.

(** What the lists of a node have to satisfy: no object is on two of them, and the ones that
    are written carry no finalizer of another controller. *)
Record track_wf (t : trackUserAssignedMSIIds) : Prop := {
  tw_keys : NoDup (aai_key <$> entries t);
  tw_own : Forall own (assignedIDsToCreate t ++ assignedIDsToUpdate t)
}.

Lemma touches_recover_creates F tc idl err l k :
  (∀ a, a ∈ l → F (CKey (aai_key a))) → touches F k → touches F (recover_creates tc idl err l k).
Proof.
  intros HF Hk. induction l as [|a l IH]; [done|]. cbn [recover_creates].
  assert (touches F (recover_creates tc idl err l k)) as Hr by (apply IH; intros b Hb; apply HF; by right).
  apply touches_with_identity. intros i. apply touches_with_binding. intros b. case_match.
  - by apply touches_event, touches_klog.
  - apply touches_event, touches_act.
    + intros w. apply touch_status, HF. left.
    + intros _. by apply touches_stats.
    + intros e. by apply touches_event, touches_klog, touches_stats.
Qed.

Lemma touches_recover_deletes F nc new refs idl err l k :
  (∀ a, a ∈ l → F (CKey (aai_key a))) → touches F k → touches F (recover_deletes nc new refs idl err l k).
Proof.
  intros HF Hk. revert err. induction l as [|a l IH]; [done|]. intros err. cbn [recover_deletes].
  assert (∀ e, touches F (recover_deletes nc new refs idl e l k)) as Hr by (intros e; apply IH; intros b Hb; apply HF; by right).
  apply touches_with_identity. intros i. destruct (getVMSSGroups nc refs); [|by apply touches_klog|constructor].
  destruct ((checkIfInUse _ _ _ _).1); [|by apply touches_klog|constructor]. case_match.
  - apply touches_with_binding. intros b. by apply touches_klog.
  - apply touches_act; [intros w; apply touch_remove, HF; left| |]; intros; [by apply touches_stats|by apply touches_klog].
Qed.

Lemma touches_fork_fmap F (l : list AzureAssignedIdentity) (g : AzureAssignedIdentity → proc W) k :
  (∀ a, a ∈ l → touches F (g a)) → touches F k → touches F (Fork (g <$> l) k).
Proof.
  intros Hg Hk. constructor; [|done]. apply Forall_forall. intros p (a & -> & Ha)%list_elem_of_fmap. auto.
Qed.

Lemma key_fp_node t name a c : a ∈ entries t → key_fp a c → node_fp t name c.
Proof. intros Ha ->. by apply node_fp_key. Qed.

Lemma entries_create t a : a ∈ assignedIDsToCreate t → a ∈ entries t.
Proof. intros. unfold entries. rewrite !elem_of_app. auto. Qed.
Lemma entries_update t a : a ∈ assignedIDsToUpdate t → a ∈ entries t.
Proof. intros. unfold entries. rewrite !elem_of_app. auto. Qed.
Lemma entries_delete t a : a ∈ assignedIDsToDelete t → a ∈ entries t.
Proof. intros. unfold entries. rewrite !elem_of_app. auto. Qed.
Lemma entries_both t a : a ∈ assignedIDsToCreate t ++ assignedIDsToUpdate t → a ∈ entries t.
Proof. unfold entries. rewrite !elem_of_app. tauto. Qed.
Hint Resolve entries_create entries_update entries_delete entries_both : core.

(** The part of the program after the update of the machine, on both branches. *)
Lemma touches_success t name :
  touches (node_fp t name) (Fork (assigned_goroutine <$> (assignedIDsToCreate t ++ assignedIDsToUpdate t))
    (Fork (delete_goroutine <$> assignedIDsToDelete t)
       (note (stats_Increment StatsPkg.TotalAzureAssignedIdentitiesCreated (Z.of_nat (length (assignedIDsToCreate t))))
         (note (stats_Increment StatsPkg.TotalAzureAssignedIdentitiesUpdated (Z.of_nat (length (assignedIDsToUpdate t))))
           (note (stats_Increment StatsPkg.TotalAzureAssignedIdentitiesDeleted (Z.of_nat (length (assignedIDsToDelete t)))) Done))))).
Proof.
  apply touches_fork_fmap; [|apply touches_fork_fmap].
  - intros a Ha. eapply touches_mono; [|apply touches_assigned_goroutine]. intros c. apply key_fp_node. auto.
  - intros a Ha. eapply touches_mono; [|apply touches_delete_goroutine]. intros c. apply key_fp_node. auto.
  - do 3 apply touches_stats. constructor.
Qed.

Lemma touches_updateUserMSI nc new name t refs :
  Forall own (assignedIDsToCreate t ++ assignedIDsToUpdate t) → touches (node_fp t name) (updateUserMSI nc new name t refs).
Proof.
  intros [Ho1 Ho2]%Forall_app. rewrite Forall_forall in Ho1, Ho2. unfold updateUserMSI. constructor.
  - apply Forall_app. split; apply Forall_forall; intros p (a & -> & Ha)%list_elem_of_fmap.
    + eapply touches_mono; [|by apply touches_create_goroutine, Ho1]. intros c. apply key_fp_node. auto.
    + eapply touches_mono; [|by apply touches_update_goroutine, Ho2]. intros c. apply key_fp_node. auto.
  - apply touches_act.
    + intros w. apply touch_cloud_update. intros c Hc. by right.
    + intros _. apply touches_success.
    + intros e. apply touches_klog, touches_act; [intros w; apply touch_cloud_get| |].
      * intros idl. apply touches_recover_creates; [intros; apply node_fp_key; auto|].
        apply touches_recover_deletes; [intros; apply node_fp_key; auto|constructor].
      * intros e'. apply touches_klog. constructor.
Qed.

(** A fork whose children each work on one assigned identity. *)
Lemma runs_fork_keys F (pp : list (AzureAssignedIdentity * proc W)) k w w' :
  (∀ a p, (a, p) ∈ pp → touches (key_fp a) p) → NoDup (aai_key <$> pp.*1) →
  (∀ a, a ∈ pp.*1 → F (CKey (aai_key a))) → w_inv w →
  runs F (Fork pp.*2 k) w w' →
  ∃ w1, (∀ a p, (a, p) ∈ pp → runs (key_fp a) p w w1) ∧ runs F k w1 w' ∧
    w_inv w1 ∧ (errors w <= errors w1)%nat ∧
    (∀ c, F c → (∀ a, a ∈ pp.*1 → c ≠ CKey (aai_key a)) → read w1 c = read w c).
Proof.
  intros Ht Hnd HF Hi Hr.
  destruct (runs_fork_inv (wd := mic_World) F (key_fp <$> pp.*1) pp.*2 k w w') as (w1 & Hch & Hk & He); [| | |exact Hr|].
  - clear -Ht. induction pp as [|[a p] pp IH]; [constructor|]. rewrite !fmap_cons. constructor.
    + apply Ht. left.
    + apply IH. intros b q Hb. apply Ht. by right.
  - intros i Fi HFi c Hc. rewrite list_lookup_fmap in HFi. destruct (pp.*1 !! i) as [a|] eqn:E; [|done].
    injection HFi as <-. rewrite Hc. apply HF. by eapply list_elem_of_lookup_2.
  - intros i j Fi Fj Hne HFi HFj c Hci Hcj. rewrite list_lookup_fmap in HFi, HFj.
    destruct (pp.*1 !! i) as [a|] eqn:Ea; [|done]. destruct (pp.*1 !! j) as [b|] eqn:Eb; [|done].
    injection HFi as <-. injection HFj as <-. unfold key_fp in *. rewrite Hci in Hcj.
    assert (aai_key a = aai_key b) as Hkey by congruence.
    apply Hne. apply (NoDup_lookup _ i j (aai_key a) Hnd); rewrite list_lookup_fmap, ?Ea, ?Eb; cbn; congruence.
  - exists w1. split; [|split; [done|]].
    + intros a p (i & Hp)%list_elem_of_lookup. apply (Hch i); rewrite ?list_lookup_fmap, Hp; done.
    + destruct (He Hi) as (Hi1 & Hl & Hrd). split; [done|]. split; [done|]. intros c HFc Hc. apply Hrd. split; [done|].
      intros i Fi HFi. rewrite list_lookup_fmap in HFi. destruct (pp.*1 !! i) as [a|] eqn:E; [|done].
      injection HFi as <-. apply Hc. by eapply list_elem_of_lookup_2.
Qed.

Lemma runs_fork_fmap F (g : AzureAssignedIdentity → proc W) l k w w' :
  (∀ a, a ∈ l → touches (key_fp a) (g a)) → NoDup (aai_key <$> l) →
  (∀ a, a ∈ l → F (CKey (aai_key a))) → w_inv w →
  runs F (Fork (g <$> l) k) w w' →
  ∃ w1, (∀ a, a ∈ l → runs (key_fp a) (g a) w w1) ∧ runs F k w1 w' ∧
    w_inv w1 ∧ (errors w <= errors w1)%nat ∧
    (∀ c, F c → (∀ a, a ∈ l → c ≠ CKey (aai_key a)) → read w1 c = read w c).
Proof.
  intros Ht Hnd HF Hi Hr.
  assert (((λ a, (a, g a)) <$> l).*1 = l) as E1 by (rewrite <- list_fmap_compose; apply list_fmap_id).
  assert (((λ a, (a, g a)) <$> l).*2 = g <$> l) as E2 by (by rewrite <- list_fmap_compose).
  destruct (runs_fork_keys F ((λ a, (a, g a)) <$> l) k w w') as (w1 & Hch & H); rewrite ?E1, ?E2 in *; try done.
  - intros a p (b & [= -> ->] & Hb)%list_elem_of_fmap. auto.
  - exists w1. split; [|done]. intros a Ha. apply Hch, list_elem_of_fmap. eauto.
Qed.

Lemma elem_of_getUniqueIDs x l : x ∈ getUniqueIDs l ↔ x ∈ l.
Proof.
  unfold getUniqueIDs. assert (∀ l (m : gmap string unit), is_Some (foldl (λ m id, <[id := tt]> m) m l !! x) ↔ x ∈ l ∨ is_Some (m !! x)) as H.
  { intros l0. induction l0 as [|y l0 IH]; intros m; cbn [foldl]; [set_solver|]. rewrite IH, elem_of_cons.
    destruct (decide (y = x)) as [->|Hne]; [rewrite lookup_insert_eq; naive_solver|rewrite lookup_insert_ne by done; naive_solver]. }
  specialize (H l ∅). rewrite lookup_empty in H. rewrite list_elem_of_fmap. split.
  - intros ([k v] & -> & Hk%elem_of_go_range). destruct (proj1 H) as [?|[? ?]]; [by exists v|done|done].
  - intros Hx. destruct (proj2 H (or_introl Hx)) as [v Hv]. exists (x, v). by rewrite elem_of_go_range.
Qed.

Lemma wanted_after_unique add remove b x :
  wanted_after (getUniqueIDs add) (getUniqueIDs remove) b x = wanted_after add remove b x.
Proof.
  unfold wanted_after.
  assert (∀ l, x ∈ ToLower <$> getUniqueIDs l ↔ x ∈ ToLower <$> l) as H.
  { intros l. rewrite !list_elem_of_fmap. by setoid_rewrite elem_of_getUniqueIDs. }
  pose proof (H add). pose proof (H remove). repeat case_decide; tauto.
Qed.

Lemma distinct_ids_unique add remove :
  distinct_ids (add ++ remove) → distinct_ids (getUniqueIDs add ++ getUniqueIDs remove).
Proof.
  intros H x y Hx Hy. apply H; rewrite elem_of_app in *; rewrite !elem_of_getUniqueIDs in *; done.
Qed.

(** A process leaves alone what neither it nor its environment may touch. *)
Lemma runs_frame (F G : mic_cell → Prop) p (w w' : W) c :
  touches (wd := mic_World) G p → runs (wd := mic_World) F p w w' → w_inv w → F c → ¬ G c → read w' c = read w c.
Proof.
  intros Ht H. induction H as [w|p w w1 w2 He Hr IH|p p1 w w1 w2 Hs Hr IH]; intros Hi HF HG; [done| |].
  - destruct (He Hi) as (Hi1 & _ & E). rewrite IH by done. by apply E.
  - destruct (pstep_touch _ _ _ _ _ Ht Hs) as [Htw Ht1]. destruct (Htw Hi) as (Hi1 & _ & E). rewrite IH by done. by apply E.
Qed.

Lemma entries_inj t a b : track_wf t → a ∈ entries t → b ∈ entries t → aai_key a = aai_key b → a = b.
Proof.
  intros [Hnd _] (i & Hi)%list_elem_of_lookup (j & Hj)%list_elem_of_lookup Hk.
  assert (i = j) as ->; [|congruence].
  apply (NoDup_lookup _ i j (aai_key a) Hnd); rewrite list_lookup_fmap; [by rewrite Hi|by rewrite Hj, Hk].
Qed.

Lemma track_wf_parts t : track_wf t →
  NoDup (aai_key <$> (assignedIDsToCreate t ++ assignedIDsToUpdate t)) ∧ NoDup (aai_key <$> assignedIDsToDelete t) ∧
  (∀ a, a ∈ assignedIDsToCreate t ++ assignedIDsToUpdate t → ∀ b, b ∈ assignedIDsToDelete t → aai_key a ≠ aai_key b).
Proof.
  intros [Hnd _]. unfold entries in Hnd. rewrite (assoc_L (++)), fmap_app in Hnd.
  apply NoDup_app in Hnd as (H1 & H2 & H3). split; [done|]. split; [done|].
  intros a Ha b Hb E. apply (H2 (aai_key a)); apply list_elem_of_fmap; eauto.
Qed.

(** The first fork: every create and update goroutine runs as if alone. *)
Lemma runs_writes t name k (w w' : W) :
  track_wf t → w_inv w →
  runs (node_fp t name) (Fork ((create_goroutine <$> assignedIDsToCreate t) ++ (update_goroutine <$> assignedIDsToUpdate t)) k) w w' →
  ∃ w1, (∀ a, a ∈ assignedIDsToCreate t → runs (key_fp a) (create_goroutine a) w w1) ∧
    (∀ a, a ∈ assignedIDsToUpdate t → runs (key_fp a) (update_goroutine a) w w1) ∧
    runs (node_fp t name) k w1 w' ∧ w_inv w1 ∧ (errors w <= errors w1)%nat ∧
    ∀ x, on_machine w1 (isvmss t) name x = on_machine w (isvmss t) name x.
Proof.
  intros Hwf Hi Hr. pose proof (tw_own _ Hwf) as [Ho1 Ho2]%Forall_app. rewrite Forall_forall in Ho1, Ho2.
  set (pp := ((λ a, (a, create_goroutine a : proc W)) <$> assignedIDsToCreate t) ++ ((λ a, (a, update_goroutine a)) <$> assignedIDsToUpdate t)).
  assert (pp.*1 = assignedIDsToCreate t ++ assignedIDsToUpdate t) as E1
    by (unfold pp; rewrite fmap_app, <- !list_fmap_compose; f_equal; apply list_fmap_id).
  assert (pp.*2 = (create_goroutine <$> assignedIDsToCreate t) ++ (update_goroutine <$> assignedIDsToUpdate t)) as E2
    by (unfold pp; by rewrite fmap_app, <- !list_fmap_compose).
  rewrite <- E2 in Hr. apply runs_fork_keys in Hr as (w1 & Hch & Hk & Hi1 & Hl & Hrd); [| | | |exact Hi].
  - exists w1. split; [|split; [|split; [done|split; [done|split; [done|]]]]].
    + intros a Ha. apply Hch, elem_of_app. left. apply list_elem_of_fmap. eauto.
    + intros a Ha. apply Hch, elem_of_app. right. apply list_elem_of_fmap. eauto.
    + intros x. specialize (Hrd (CId (isvmss t) name x)). simpl in Hrd.
      enough (inr (A := option content) (on_machine w1 (isvmss t) name x) = inr (on_machine w (isvmss t) name x)) by congruence.
      apply Hrd; [right; apply machine_fp_self|done].
  - unfold pp. intros a p [(b & [= -> ->] & Hb)%list_elem_of_fmap|(b & [= -> ->] & Hb)%list_elem_of_fmap]%elem_of_app.
    + by apply touches_create_goroutine, Ho1.
    + by apply touches_update_goroutine, Ho2.
  - rewrite E1. by apply track_wf_parts.
  - rewrite E1. intros a Ha. apply node_fp_key. auto.
Qed.

(** The keys that a list of entries writes. *)
Definition keys_fp (l : list AzureAssignedIdentity) : mic_cell → Prop := λ c, ∃ a, a ∈ l ∧ c = CKey (aai_key a).

Abbreviation success_part t :=
  (Fork (assigned_goroutine <$> (assignedIDsToCreate t ++ assignedIDsToUpdate t))
    (Fork (delete_goroutine <$> assignedIDsToDelete t)
       (note (stats_Increment StatsPkg.TotalAzureAssignedIdentitiesCreated (Z.of_nat (length (assignedIDsToCreate t))))
         (note (stats_Increment StatsPkg.TotalAzureAssignedIdentitiesUpdated (Z.of_nat (length (assignedIDsToUpdate t))))
           (note (stats_Increment StatsPkg.TotalAzureAssignedIdentitiesDeleted (Z.of_nat (length (assignedIDsToDelete t)))) Done))))).

Lemma touches_success_keys t : touches (wd := mic_World) (keys_fp (entries t)) (success_part t).
Proof.
  apply touches_fork_fmap; [|apply touches_fork_fmap].
  - intros a Ha. eapply touches_mono; [|apply touches_assigned_goroutine]. intros c ->. exists a. auto.
  - intros a Ha. eapply touches_mono; [|apply touches_delete_goroutine]. intros c ->. exists a. auto.
  - do 3 apply touches_stats. constructor.
Qed.

Lemma touches_counters F z1 z2 z3 :
  touches (wd := mic_World) F (note (stats_Increment StatsPkg.TotalAzureAssignedIdentitiesCreated z1)
    (note (stats_Increment StatsPkg.TotalAzureAssignedIdentitiesUpdated z2) (note (stats_Increment StatsPkg.TotalAzureAssignedIdentitiesDeleted z3) Done))).
Proof. do 3 apply touches_stats. constructor. Qed.

(** A world that a process with an empty footprint only passed through. *)
Lemma runs_key_same (F G : mic_cell → Prop) p (w w' : W) a :
  touches (wd := mic_World) G p → runs (wd := mic_World) F p w w' → w_inv w → F (CKey (aai_key a)) → ¬ G (CKey (aai_key a)) →
  st w' (aai_key a) = st w (aai_key a).
Proof. intros Ht Hr Hi HF HG. pose proof (runs_frame F G p w w' _ Ht Hr Hi HF HG) as E. simpl in E. congruence. Qed.

Lemma runs_machine_same (F G : mic_cell → Prop) p (w w' : W) isv name x :
  touches (wd := mic_World) G p → runs (wd := mic_World) F p w w' → w_inv w → F (CId isv name x) → ¬ G (CId isv name x) →
  on_machine w' isv name x = on_machine w isv name x.
Proof. intros Ht Hr Hi HF HG. pose proof (runs_frame F G p w w' _ Ht Hr Hi HF HG) as E. simpl in E. congruence. Qed.

(** After the machine was updated: no error means that all are assigned or gone. *)
Lemma runs_success t name (w w' : W) :
  track_wf t → w_inv w → runs (wd := mic_World) (node_fp t name) (success_part t) w w' → errors w' = errors w →
  (∀ a, a ∈ assignedIDsToCreate t ++ assignedIDsToUpdate t →
     ∃ c, st w (aai_key a) = Some c ∧ st w' (aai_key a) = Some (mkContent (c_Spec c) AssignedIDAssigned (c_Labels c))) ∧
  (∀ a, a ∈ assignedIDsToDelete t → st w' (aai_key a) = None).
Proof.
  intros Hwf Hi Hr He. destruct (track_wf_parts _ Hwf) as (Hn1 & Hn2 & Hdis).
  apply runs_fork_fmap in Hr as (w1 & Hch1 & Hr & Hi1 & Hl1 & Hrd1);
    [|intros; apply touches_assigned_goroutine|done|intros; apply node_fp_key; auto|done].
  apply runs_fork_fmap in Hr as (w2 & Hch2 & Hr & Hi2 & Hl2 & Hrd2);
    [|intros; apply touches_delete_goroutine|done|intros; apply node_fp_key; auto|done].
  destruct (runs_errors _ (λ _, False) _ _ _ (touches_counters _ _ _ _) Hr Hi2) as [_ Hl3].
  assert (∀ a, a ∈ entries t → st w' (aai_key a) = st w2 (aai_key a)) as Hk3
    by (intros a Ha; apply (runs_key_same _ (λ _, False) _ _ _ _ (touches_counters _ _ _ _) Hr Hi2); [by apply node_fp_key|tauto]).
  split.
  - intros a Ha. destruct (assigned_goroutine_spec a w w1 (Hch1 a Ha) Hi) as (_ & _ & Hok).
    destruct Hok as (c & Hc1 & Hc2); [lia|]. exists c. split; [done|]. rewrite Hk3, <- Hc2 by auto.
    specialize (Hrd2 (CKey (aai_key a))). simpl in Hrd2.
    enough (inl (B := bool) (st w2 (aai_key a)) = inl (st w1 (aai_key a))) by congruence.
    apply Hrd2; [apply node_fp_key; auto|]. intros b Hb [= E1 E2]. by apply (Hdis a Ha b Hb); unfold aai_key; rewrite E1, E2.
  - intros a Ha. rewrite Hk3 by auto. destruct (delete_goroutine_spec a w1 w2 (Hch2 a Ha) Hi1) as (_ & _ & Hok). apply Hok. lia.
Qed.

Lemma content_with_status a s :
  mkContent (c_Spec (content_of (with_status a s))) AssignedIDAssigned (c_Labels (content_of (with_status a s))) = content_of (with_status a AssignedIDAssigned).
Proof. done. Qed.

Lemma on_cloud_eq {A} (m : M C A) (w : W) r c :
  m (mw_cloud w) = (r, c) → on_cloud m w = (r, mkMicWorld (mw_store w) c (mw_events w) (mw_errors w) (mw_stats w)).
Proof. intros E. unfold on_cloud. by rewrite E. Qed.

(** The updates of a machine, on the two lists without repetition. *)
Lemma machine_updated t name (w w2 : W) :
  distinct_ids (addUserAssignedMSIIDs t ++ removeUserAssignedMSIIDs t) →
  on_cloud (cc_UpdateUserMSI (getUniqueIDs (addUserAssignedMSIIDs t)) (getUniqueIDs (removeUserAssignedMSIIDs t)) name (isvmss t)) w = (Ret tt, w2) →
  mw_store w2 = mw_store w ∧ mw_errors w2 = mw_errors w ∧
  ∀ x, on_machine w2 (isvmss t) name x =
    wanted_after (addUserAssignedMSIIDs t) (removeUserAssignedMSIIDs t) (on_machine w (isvmss t) name x) x.
Proof.
  intros Hd H. unfold on_cloud in H. destruct (cc_UpdateUserMSI _ _ _ _ _) as [r c] eqn:E. simplify_eq. simpl.
  split; [done|]. split; [done|]. intros x. rewrite <- wanted_after_unique.
  by apply (cl_update_ok _ _ _ _ _ _ (distinct_ids_unique _ _ Hd) E).
Qed.
End facts.

#[export] Hint Resolve entries_create entries_update entries_delete entries_both : core.
