(* ===== verification/MicUpdateSpec.v ===== *)
(** * MIC: the theorems about the concurrent update of a node ([updateUserMSI]), against the
    interfaces of the resource client and of the cloud. *)

From S2P Require Import Prelude GoStrings Types Conversion Fixtures Regex ResourceId MicDesired MicVmss MicNode Concurrency Stats CrdInterface CloudInterface MicUpdate MicUpdateFacts Retry CloudIdentity CloudProvider Crd CrdSim.

Section spec.
Context `{R : GoRange} {S C : Type} {ci : ClientInt S} {cc : CloudInt C}
  {cl : ClientLaws ci} {cll : CloudIntLaws cc}.
Abbreviation W := (mic_world S C).
Abbreviation st w k := (stored (mw_store w) k).
Abbreviation on_machine w b n x := (cl_assigned (mw_cloud w) b n x).
Abbreviation errors w := (length (mw_errors w)).

(** ** No error: the node reaches the desired state *)

(** What the theorem promises of the entries of a node. *)
Definition node_converged (t : trackUserAssignedMSIIds) (name : string) (w w' : W) : Prop :=
  (∀ a, a ∈ assignedIDsToCreate t → aai_status a = "" →
     st w' (aai_key a) = Some (content_of (with_status a AssignedIDAssigned))) ∧
  (∀ a, a ∈ assignedIDsToUpdate t → aai_status a = "" →
     st w' (aai_key a) = Some (content_of (with_status a AssignedIDAssigned))) ∧
  (∀ a, a ∈ assignedIDsToCreate t ++ assignedIDsToUpdate t →
     ∃ c, st w' (aai_key a) = Some (mkContent (c_Spec c) AssignedIDAssigned (c_Labels c)) ∧
       (aai_status a ≠ "" → st w (aai_key a) = Some c)) ∧
  (∀ a, a ∈ assignedIDsToDelete t → st w' (aai_key a) = None) ∧
  (∀ x, on_machine w' (isvmss t) name x =
     wanted_after (addUserAssignedMSIIDs t) (removeUserAssignedMSIIDs t) (on_machine w (isvmss t) name x) x).

(** A failed update of the machine logs an error, whatever happens next. *)
Lemma failed_update_logs nc new name t refs err msg (w w' : W) :
  runs (wd := mic_World) (node_fp t name)
    (note (klog_Error msg)
       (act (on_cloud (cc_GetUserMSIs name (isvmss t)))
          (λ idList, recover_creates (assignedIDsToCreate t) idList err (assignedIDsToCreate t ++ assignedIDsToUpdate t)
             (recover_deletes nc new refs idList (Some err) (assignedIDsToDelete t) Done))
          (λ getErr, note (klog_Error ("failed to get a list of user-assigned identites from node " +:+ name +:+
             ", error: " +:+ Error getErr)) Done))) w w' →
  w_inv w → (errors w < errors w')%nat.
Proof.
  intros (w1 & He & Hr)%runs_note_inv Hi. pose proof (env_inv _ _ _ He Hi) as Hi1. pose proof (env_errors _ _ _ He Hi).
  assert (errors w1 < errors (klog_Error msg w1))%nat
    by (simpl; rewrite length_app; simpl; lia).
  eapply (runs_errors _ (node_fp t name)) in Hr as [_ ?]; [lia| |exact Hi1].
  apply touches_act; [intros v; apply touch_cloud_get| |].
  - intros idl. apply touches_recover_creates; [intros; apply node_fp_key; auto|].
    apply touches_recover_deletes; [intros; apply node_fp_key; auto|constructor].
  - intros e. apply touches_klog. constructor.
Qed.

(** Whatever the interleaving of the goroutines of a node with each other and with the rest of
    the system, when the work of the node ends without a logged error then every created and
    every updated assigned identity is stored with its spec and status [Assigned], every deleted
    one is gone, and the machine has exactly the identities it should have. *)
Lemma node_update_converges nc new name t refs (w w' : W) :
  track_wf t → distinct_ids (addUserAssignedMSIIDs t ++ removeUserAssignedMSIIDs t) → w_inv w →
  runs (wd := mic_World) (node_fp t name) (updateUserMSI nc new name t refs) w w' → errors w' = errors w →
  node_converged t name w w'.
Proof.
  intros Hwf Hd Hi Hr He.
  pose proof (tw_own _ Hwf) as [Ho1 Ho2]%Forall_app. rewrite Forall_forall in Ho1, Ho2.
  apply runs_writes in Hr as (w1 & Hc & Hu & Hr & Hi1 & Hl1 & Hm1); [|done|done].
  apply runs_act_inv in Hr as (w2 & Hw2 & Hr).
  pose proof (env_inv _ _ _ Hw2 Hi1) as Hi2. pose proof (env_errors _ _ _ Hw2 Hi1) as Hl2.
  destruct (on_cloud _ w2) as [[[]|err|] w3] eqn:E3; [| |done].
  - destruct (machine_updated _ _ _ _ Hd E3) as (Hs3 & Her3 & Hm3).
    assert (w_inv w3) as Hi3 by (simpl in *; by rewrite Hs3).
    destruct (runs_errors _ _ _ _ _ (touches_success_keys t) Hr Hi3) as [_ Hl3].
    assert (errors w3 = errors w2) as Hl23 by (by rewrite Her3).
    destruct (runs_success _ _ _ _ Hwf Hi3 Hr) as [Hass Hgone]; [lia|].
    assert (∀ a, a ∈ entries t → st w3 (aai_key a) = st w1 (aai_key a)) as Hk3
      by (intros a Ha; rewrite Hs3; apply (env_key _ a _ _ Hw2 Hi1), node_fp_key, Ha).
    unfold node_converged. split; [|split; [|split; [|split; [done|]]]].
    + intros a Ha Hs. destruct (Hass a) as (c & Hc1 & ->); [apply elem_of_app; auto|].
      destruct (create_goroutine_spec a w w1 (Ho1 a Ha) (Hc a Ha) Hi) as (_ & _ & _ & Hok).
      rewrite Hk3, Hok in Hc1 by (auto; lia). injection Hc1 as <-. by rewrite content_with_status.
    + intros a Ha Hs. destruct (Hass a) as (c & Hc1 & ->); [apply elem_of_app; auto|].
      destruct (update_goroutine_spec a w w1 (Ho2 a Ha) (Hu a Ha) Hi) as (_ & _ & _ & Hok).
      rewrite Hk3 in Hc1 by auto. destruct Hok as [Hok|Hok]; [lia|done|congruence|].
      rewrite Hok in Hc1. injection Hc1 as <-. by rewrite content_with_status.
    + intros a Ha. destruct (Hass a Ha) as (c & Hc1 & Hc2). exists c. split; [done|]. intros Hs.
      rewrite <- Hc1, Hk3 by (apply elem_of_app in Ha as [?|?]; auto). symmetry.
      apply written_goroutine_keeps; [done| |done]. apply elem_of_app in Ha as [Ha|Ha]; [left; by apply Hc|right; by apply Hu].
    + intros x. rewrite <- Hm1, <- (env_machine _ _ _ _ _ x Hw2 Hi1), <- Hm3 by (right; apply machine_fp_self).
      apply (runs_machine_same _ _ _ _ _ _ _ _ (touches_success_keys t) Hr Hi3); [right; apply machine_fp_self|].
      by intros (a & _ & ?).
  - assert (errors w3 = errors w2 ∧ w_inv w3) as [Hl3 Hi3].
    { unfold on_cloud in E3. destruct (cc_UpdateUserMSI _ _ _ _ _). by simplify_eq. }
    apply failed_update_logs in Hr; [lia|done].
Qed.

(** ** Errors or not: nothing is marked as assigned that the machine does not have *)

(** The test of the recovery loop, for the assigned identities it marks. *)
Definition passes (idl : list string) (a : AzureAssignedIdentity) : Prop :=
  ∀ i, aas_AzureIdentityRef (aai_Spec a) = Some i → checkIfUserAssignedMSI i = true → checkIfMSIExistsOnNode i idl = true.

Lemma touches_recover_passing F tc idl err l k :
  (∀ a, a ∈ l → passes idl a → F (CKey (aai_key a))) → touches (wd := mic_World) F k →
  touches (wd := mic_World) F (recover_creates tc idl err l k).
Proof.
  intros HF Hk. induction l as [|a l IH]; [done|]. cbn [recover_creates].
  assert (touches (wd := mic_World) F (recover_creates tc idl err l k)) as Hr by (apply IH; intros b Hb; apply HF; by right).
  unfold with_identity. destruct (aas_AzureIdentityRef (aai_Spec a)) as [i|] eqn:Ei; [|constructor].
  apply touches_with_binding. intros b. destruct (checkIfUserAssignedMSI i && negb (checkIfMSIExistsOnNode i idl)) eqn:Et.
  - by apply touches_event, touches_klog.
  - apply touches_event, touches_act.
    + intros w. apply touch_status, HF; [left|]. intros i' [= <-]%(eq_trans (eq_sym Ei)) Hu. rewrite Hu in Et.
      by destruct (checkIfMSIExistsOnNode _ _).
    + intros _. by apply touches_stats.
    + intros e. by apply touches_event, touches_klog, touches_stats.
Qed.

(** An entry that is not on the machine keeps what is stored through the recovery. *)
Lemma runs_recovery_not_on_machine nc new name t refs idl err a (w w' : W) :
  track_wf t → a ∈ assignedIDsToCreate t ++ assignedIDsToUpdate t → ¬ passes idl a → w_inv w →
  runs (wd := mic_World) (node_fp t name)
    (recover_creates (assignedIDsToCreate t) idl err (assignedIDsToCreate t ++ assignedIDsToUpdate t)
       (recover_deletes nc new refs idl (Some err) (assignedIDsToDelete t) Done)) w w' →
  st w' (aai_key a) = st w (aai_key a).
Proof.
  intros Hwf Ha Hp Hi Hr. destruct (track_wf_parts _ Hwf) as (_ & _ & Hdis).
  eapply (runs_key_same _ (λ c, ∃ b, (b ∈ assignedIDsToCreate t ++ assignedIDsToUpdate t ∧ passes idl b ∨ b ∈ assignedIDsToDelete t) ∧
    c = CKey (aai_key b))); [|exact Hr|done|apply node_fp_key; auto|].
  - apply touches_recover_passing; [intros b ??; exists b; auto|].
    apply touches_recover_deletes; [intros b ?; exists b; auto|constructor].
  - intros (b & [[Hb Hpb]|Hb] & [= E1 E2]).
    + assert (a = b) as ->; [|done]. apply (entries_inj t); auto. unfold aai_key. by rewrite E1, E2.
    + apply (Hdis a Ha b Hb). unfold aai_key. by rewrite E1, E2.
Qed.

Lemma existsb_on_machine i idl (w w' : W) isv name :
  on_cloud (cc_GetUserMSIs name isv) w = (Ret idl, w') → checkIfMSIExistsOnNode i idl = true →
  on_machine w' isv name (ToLower (ais_ResourceID (ai_Spec i))) = true.
Proof.
  unfold on_cloud. pose proof (cl_get_frame name isv (mw_cloud w) isv name (ToLower (ais_ResourceID (ai_Spec i)))) as Hf.
  destruct (cc_GetUserMSIs _ _ _) as [r c] eqn:E. intros [= -> <-] (y & Hy & Hfold%EqualFold_spec)%existsb_exists. simpl in *.
  rewrite Hf. apply (cl_get_ok _ _ _ _ _ E). exists y. by rewrite list_elem_of_In.
Qed.

(** The machine does not change after it was read. *)
Lemma recovery_machine nc new name t refs idl err (w w' : W) x :
  w_inv w →
  runs (wd := mic_World) (node_fp t name)
    (recover_creates (assignedIDsToCreate t) idl err (assignedIDsToCreate t ++ assignedIDsToUpdate t)
       (recover_deletes nc new refs idl (Some err) (assignedIDsToDelete t) Done)) w w' →
  on_machine w' (isvmss t) name x = on_machine w (isvmss t) name x.
Proof.
  intros Hi Hr. eapply (runs_machine_same _ (keys_fp (entries t))); [|exact Hr|done|right; apply machine_fp_self|by intros (b & _ & ?)].
  apply touches_recover_creates; [intros b Hb; exists b; auto|].
  apply touches_recover_deletes; [intros b Hb; exists b; auto|constructor].
Qed.

(** After the first fork an entry that was not marked as assigned still is not. *)
Lemma writes_not_assigned t name k (w w' : W) a :
  track_wf t → w_inv w → a ∈ assignedIDsToCreate t ++ assignedIDsToUpdate t →
  c_Status <$> st w (aai_key a) ≠ Some AssignedIDAssigned →
  runs (wd := mic_World) (node_fp t name)
    (Fork ((create_goroutine <$> assignedIDsToCreate t) ++ (update_goroutine <$> assignedIDsToUpdate t)) k) w w' →
  ∃ w1, c_Status <$> st w1 (aai_key a) ≠ Some AssignedIDAssigned ∧ w_inv w1 ∧ runs (wd := mic_World) (node_fp t name) k w1 w'.
Proof.
  intros Hwf Hi Ha Hs Hr. pose proof (tw_own _ Hwf) as [Ho1 Ho2]%Forall_app. rewrite Forall_forall in Ho1, Ho2.
  apply runs_writes in Hr as (w1 & Hc & Hu & Hr & Hi1 & _ & _); [|done|done].
  exists w1. split; [|done]. assert (created_or a (st w (aai_key a)) (st w1 (aai_key a))) as [->|[->| ->]]; [|done|done|done].
  apply elem_of_app in Ha as [Ha|Ha].
  - by apply (create_goroutine_spec a w w1 (Ho1 a Ha) (Hc a Ha) Hi).
  - by apply (update_goroutine_spec a w w1 (Ho2 a Ha) (Hu a Ha) Hi).
Qed.

(** C7: an assigned identity of a user-assigned MSI that a node creates or updates and whose id
    is to be on the machine is marked [Assigned] only if the machine has it, whatever fails
    and whatever the interleaving: NMI never hands out an identity before it can work. *)
Theorem assigned_only_if_on_machine nc new name t refs (w w' : W) a i :
  track_wf t → distinct_ids (addUserAssignedMSIIDs t ++ removeUserAssignedMSIIDs t) → w_inv w →
  runs (wd := mic_World) (node_fp t name) (updateUserMSI nc new name t refs) w w' →
  a ∈ assignedIDsToCreate t ++ assignedIDsToUpdate t →
  aas_AzureIdentityRef (aai_Spec a) = Some i → checkIfUserAssignedMSI i = true →
  ais_ResourceID (ai_Spec i) ∈ addUserAssignedMSIIDs t →
  c_Status <$> st w (aai_key a) ≠ Some AssignedIDAssigned →
  c_Status <$> st w' (aai_key a) = Some AssignedIDAssigned →
  on_machine w' (isvmss t) name (ToLower (ais_ResourceID (ai_Spec i))) = true.
Proof.
  intros Hwf Hd Hi Hr Ha Hai Hmsi Hadd Hbefore Hafter.
  apply (writes_not_assigned _ _ _ _ _ a) in Hr as (w1 & Hn1 & Hi1 & Hr); [|done..].
  apply runs_act_inv in Hr as (w2 & Hw2 & Hr). pose proof (env_inv _ _ _ Hw2 Hi1) as Hi2.
  assert (st w2 (aai_key a) = st w1 (aai_key a)) as Hk2 by (apply (env_key _ a _ _ Hw2 Hi1), node_fp_key; auto).
  destruct (on_cloud _ w2) as [[[]|err|] w3] eqn:E3; [| |done].
  - destruct (machine_updated _ _ _ _ Hd E3) as (Hs3 & _ & Hm3).
    assert (w_inv w3) as Hi3 by (simpl in *; by rewrite Hs3).
    rewrite (runs_machine_same _ _ _ _ _ _ _ _ (touches_success_keys t) Hr Hi3), Hm3;
      [|right; apply machine_fp_self|by intros (b & _ & ?)].
    unfold wanted_after. rewrite decide_True; [done|]. apply list_elem_of_fmap. eauto.
  - assert (w_inv w3 ∧ st w3 (aai_key a) = st w2 (aai_key a)) as [Hi3 Hk3]
      by (unfold on_cloud in E3; destruct (cc_UpdateUserMSI _ _ _ _ _); by simplify_eq).
    apply runs_note_inv in Hr as (w4 & Hw4 & Hr). pose proof (env_inv _ _ _ Hw4 Hi3) as Hi4.
    assert (st w4 (aai_key a) = st w3 (aai_key a)) as Hk4 by (apply (env_key _ a _ _ Hw4 Hi3), node_fp_key; auto).
    apply runs_act_inv in Hr as (w5 & Hw5 & Hr). pose proof (env_inv _ _ _ Hw5 Hi4) as Hi5.
    assert (st w5 (aai_key a) = st w4 (aai_key a)) as Hk5 by (by apply (env_key _ a _ _ Hw5 Hi4), node_fp_key; auto).
    destruct (on_cloud _ w5) as [[idl|err'|] w6] eqn:E6; [| |done];
      assert (w_inv w6 ∧ st w6 (aai_key a) = st w5 (aai_key a)) as [Hi6 Hk6]
        by (unfold on_cloud in E6; destruct (cc_GetUserMSIs _ _ _); by simplify_eq).
    + destruct (checkIfMSIExistsOnNode i idl) eqn:Ex.
      * rewrite (recovery_machine _ _ _ _ _ _ _ _ _ _ Hi6 Hr). by eapply existsb_on_machine.
      * assert (¬ passes idl a) as Hp by (intros Hp; specialize (Hp i Hai Hmsi); congruence).
        pose proof (runs_recovery_not_on_machine _ _ _ _ _ _ _ _ _ _ Hwf Ha Hp Hi6 Hr). congruence.
    + eapply (runs_key_same _ (λ _, False)) in Hr as Hk7; [rewrite Hk7 in Hafter; congruence| |done|apply node_fp_key; auto|tauto].
      apply touches_klog. constructor.
Qed.
End spec.

(** ** A concrete node *)

(** Node [n1]: [p1]'s assigned identity goes, with identity [a] of the machine, and [p2]'s
    comes, with identity [b]. The cluster and the cloud are the simulated ones. *)
Definition track1 : trackUserAssignedMSIIds :=
  mkTrack [rid "b"] [rid "a"] [mk_assigned "p2" "ns" "n1" "b" "bb" ""] [assigned1] [] false.

Definition world1 : mic_world cluster (cloud machines) :=
  mkMicWorld cluster1 (sim_cloud {[(false, "n1") := {[ToLower (rid "a") := Some newIdentityValue]}]}) [] [] ∅.

#[export] Instance sim_cloud_client : CloudInt (cloud machines) :=
  cloud_client (R := canonical_range) no_date no_time "rg" (NewRetryClient 2 5).
#[export] Instance sim_cloud_laws : CloudIntLaws sim_cloud_client :=
  cloud_laws (R := canonical_range) no_date no_time "rg" (NewRetryClient 2 5).

Definition node1_proc : proc (mic_world cluster (cloud machines)) :=
  updateUserMSI (R := canonical_range) (λ _, Fail (Errorf "none")) ∅ "n1" track1 ∅.

Definition world1' : mic_world cluster (cloud machines) := default world1 (run_proc node1_proc world1).

Lemma node1_ends : run_proc node1_proc world1 = Some world1'.
Proof.
  unfold world1'. assert (bool_decide (is_Some (run_proc node1_proc world1)) = true) as H by (vm_compute; reflexivity).
  apply bool_decide_eq_true in H as [w ->]. done.
Qed.

Lemma track1_wf : track_wf (ci := crd_client) (cl := crd_laws) track1.
Proof. split; [by_computation|]. apply Forall_singleton. constructor. Qed.

Lemma track1_distinct : distinct_ids (addUserAssignedMSIIDs track1 ++ removeUserAssignedMSIIDs track1).
Proof.
  intros x y Hx Hy. unfold track1, addUserAssignedMSIIDs, removeUserAssignedMSIIDs, app in *.
  apply elem_of_cons in Hx as [->|[->|Hx]%elem_of_cons]; [| |by apply not_elem_of_nil in Hx];
    (apply elem_of_cons in Hy as [->|[->|Hy]%elem_of_cons]; [| |by apply not_elem_of_nil in Hy]);
    intros E; try reflexivity; vm_compute in E; discriminate E.
Qed.

Lemma cluster1_ok : crd_ok cluster1.
Proof. apply crd_ok_create; [constructor|]. intros ns name o. simpl. by rewrite lookup_empty. Qed.

Lemma node1_converged : node_converged (ci := crd_client) (cl := crd_laws) track1 "n1" world1 world1'.
Proof.
  eapply (node_update_converges (ci := crd_client) (cl := crd_laws) (R := canonical_range));
    [exact track1_wf|exact track1_distinct|exact cluster1_ok|exact (run_proc_runs _ _ _ _ node1_ends)|by_computation].
Qed.

Lemma assigned_only_if_on_machine_witness :
  c_Status <$> stored (ClientLaws := crd_laws) (mw_store world1') ("default", "p2-ns-b") = Some AssignedIDAssigned ∧
  cl_assigned (mw_cloud world1') false "n1" (ToLower (rid "b")) = true.
Proof.
  assert (c_Status <$> stored (ClientLaws := crd_laws) (mw_store world1') ("default", "p2-ns-b") = Some AssignedIDAssigned) as H
    by (vm_compute; reflexivity).
  split; [exact H|].
  refine (assigned_only_if_on_machine (ci := crd_client) (cl := crd_laws) (R := canonical_range) (λ _, Fail (Errorf "none")) ∅ "n1" track1 ∅
    world1 world1' (mk_assigned "p2" "ns" "n1" "b" "bb" "") (mk_identity "ns" "b")
    track1_wf track1_distinct cluster1_ok (run_proc_runs _ _ _ _ node1_ends) _ _ _ _ _ H).
  - left.
  - reflexivity.
  - reflexivity.
  - left.
  - vm_compute. discriminate.
Defined.
