(* ===== verification/MicRemoval.v ===== *)
(** * MIC: an assigned identity is only deleted when its identity is off the machine.

    The counterpart of [assigned_only_if_on_machine]: as long as a machine may still have an
    identity that nobody needs, the object that tells MIC to remove it stays on the cluster,
    whatever fails. No identity is left behind on a machine without a trace. *)

From S2P Require Import Prelude GoStrings Types Conversion Fixtures Regex ResourceId MicDesired MicVmss MicNode Concurrency Stats CrdInterface CloudInterface MicUpdate MicUpdateFacts CloudIdentity CloudProvider Crd CrdSim MicUpdateSpec.

Section removal.
Context `{R : GoRange} {S C : Type} {ci : ClientInt S} {cc : CloudInt C}
  {cl : ClientLaws ci} {cll : CloudIntLaws cc}.
Abbreviation W := (mic_world S C).
Abbreviation st w k := (stored (mw_store w) k).
Abbreviation on_machine w b n x := (cl_assigned (mw_cloud w) b n x).

(** The recovery after a failed update keeps the object: its identity is on the machine and
    not in use. *)
Definition kept (nc : NodeGetter) (new : aai_map) (refs : gmap string bool) (idl : list string) (a : AzureAssignedIdentity) : Prop :=
  ∀ i, aas_AzureIdentityRef (aai_Spec a) = Some i →
    checkIfUserAssignedMSI i = true ∧ checkIfMSIExistsOnNode i idl = true ∧
    ∀ ls, getVMSSGroups nc refs = Ret ls → (checkIfInUse nc a new ls).1 ≠ Ret true.

Lemma touches_recover_removing F nc new refs idl err l k :
  (∀ a, a ∈ l → ¬ kept nc new refs idl a → F (CKey (aai_key a))) → touches (wd := mic_World) F k →
  touches (wd := mic_World) F (recover_deletes nc new refs idl err l k).
Proof.
  intros HF Hk. revert err. induction l as [|a l IH]; [done|]. intros err. cbn [recover_deletes].
  assert (∀ e, touches (wd := mic_World) F (recover_deletes nc new refs idl e l k)) as Hr
    by (intros e; apply IH; intros b Hb; apply HF; by right).
  unfold with_identity. destruct (aas_AzureIdentityRef (aai_Spec a)) as [i|] eqn:Ei; [|constructor].
  destruct (getVMSSGroups nc refs) as [ls|e|] eqn:Eg; [|by apply touches_klog|constructor].
  destruct ((checkIfInUse nc a new ls).1) as [inUse|e|] eqn:Eu; [|by apply touches_klog|constructor].
  destruct (checkIfUserAssignedMSI i && negb inUse && checkIfMSIExistsOnNode i idl) eqn:Et.
  - apply touches_with_binding. intros b. by apply touches_klog.
  - apply touches_act; [|intros; by apply touches_stats|intros; by apply touches_klog].
    intros w. apply touch_remove, HF; [left|]. intros Hkept. destruct (Hkept i Ei) as (Hm & Hx & Hu).
    specialize (Hu ls Eg). rewrite Hm, Hx in Et. destruct inUse; [congruence|done].
Qed.

(** Whatever is removed, a kept object stays as it is through the recovery. *)
Lemma runs_recovery_kept nc new name t refs idl err a (w w' : W) :
  track_wf t → a ∈ assignedIDsToDelete t → kept nc new refs idl a → w_inv w →
  runs (wd := mic_World) (node_fp t name)
    (recover_creates (assignedIDsToCreate t) idl err (assignedIDsToCreate t ++ assignedIDsToUpdate t)
       (recover_deletes nc new refs idl (Some err) (assignedIDsToDelete t) Done)) w w' →
  st w' (aai_key a) = st w (aai_key a).
Proof.
  intros Hwf Ha Hp Hi Hr. destruct (track_wf_parts _ Hwf) as (_ & _ & Hdis).
  eapply (runs_key_same _ (λ c, ∃ b, (b ∈ assignedIDsToCreate t ++ assignedIDsToUpdate t ∨
    b ∈ assignedIDsToDelete t ∧ ¬ kept nc new refs idl b) ∧ c = CKey (aai_key b)));
    [|exact Hr|done|by apply node_fp_key, entries_delete|].
  - apply touches_recover_creates; [intros b ?; exists b; auto|].
    apply touches_recover_removing; [intros b ??; exists b; auto|constructor].
  - intros (b & [Hb|[Hb Hn]] & [= E1 E2]).
    + apply (Hdis b Hb a Ha). unfold aai_key. by rewrite E1, E2.
    + assert (a = b) as ->; [|done]. apply (entries_inj t); [done|by apply entries_delete..|]. unfold aai_key. by rewrite E1, E2.
Qed.

(** The machine does not list what it does not have. *)
Lemma not_existsb_off_machine i idl (w w' : W) isv name :
  on_cloud (cc_GetUserMSIs name isv) w = (Ret idl, w') → checkIfMSIExistsOnNode i idl = false →
  on_machine w' isv name (ToLower (ais_ResourceID (ai_Spec i))) = false.
Proof.
  unfold on_cloud. pose proof (cl_get_frame name isv (mw_cloud w) isv name (ToLower (ais_ResourceID (ai_Spec i)))) as Hf.
  destruct (cc_GetUserMSIs _ _ _) as [r c] eqn:E. intros [= -> <-] Hn. simpl in *. rewrite Hf.
  apply not_true_iff_false. intros (y & Hy & Ey)%(cl_get_ok _ _ _ _ _ E). apply not_true_iff_false in Hn. apply Hn.
  apply existsb_exists. exists y. split; [by apply list_elem_of_In|]. by apply EqualFold_spec.
Qed.

(** The writes of a node leave the objects to delete alone. *)
Lemma writes_keep_deleted t name k a (w w' : W) :
  track_wf t → w_inv w → a ∈ assignedIDsToDelete t →
  runs (wd := mic_World) (node_fp t name)
    (Fork ((create_goroutine <$> assignedIDsToCreate t) ++ (update_goroutine <$> assignedIDsToUpdate t)) k) w w' →
  ∃ w1, w_inv w1 ∧ st w1 (aai_key a) = st w (aai_key a) ∧ runs (wd := mic_World) (node_fp t name) k w1 w'.
Proof.
  intros Hwf Hi Ha (w1 & H1 & H2)%runs_fork_join. exists w1. destruct (track_wf_parts _ Hwf) as (_ & _ & Hdis).
  pose proof (tw_own _ Hwf) as [Ho1 Ho2]%Forall_app. rewrite Forall_forall in Ho1, Ho2.
  assert (touches (wd := mic_World) (keys_fp (assignedIDsToCreate t ++ assignedIDsToUpdate t))
    (Fork ((create_goroutine <$> assignedIDsToCreate t) ++ (update_goroutine <$> assignedIDsToUpdate t)) Done)) as Ht.
  { constructor; [|constructor]. apply Forall_app.
    split; apply Forall_forall; intros p (b & -> & Hb)%list_elem_of_fmap; cbn.
    - eapply touches_mono; [|by apply touches_create_goroutine, Ho1]. intros c ->. exists b. rewrite elem_of_app. auto.
    - eapply touches_mono; [|by apply touches_update_goroutine, Ho2]. intros c ->. exists b. rewrite elem_of_app. auto. }
  destruct (runs_errors _ _ _ _ _ Ht H1 Hi) as [Hi1 _]. split; [done|]. split; [|done].
  eapply (runs_key_same _ _ _ _ _ _ Ht H1 Hi); [by apply node_fp_key, entries_delete|].
  intros (b & Hb & [= E1 E2]). apply (Hdis b Hb a Ha). unfold aai_key. by rewrite E1, E2.
Qed.

(** C8: an assigned identity of a user-assigned MSI that a node deletes, and whose id is to come
    off the machine, is gone from the cluster only if the machine no longer has the id, whatever
    fails and whatever the interleaving, unless the identity is in use. *)
Theorem deleted_only_if_off_machine nc new name t refs (w w' : W) a i :
  track_wf t → distinct_ids (addUserAssignedMSIIDs t ++ removeUserAssignedMSIIDs t) → w_inv w →
  runs (wd := mic_World) (node_fp t name) (updateUserMSI nc new name t refs) w w' →
  a ∈ assignedIDsToDelete t →
  aas_AzureIdentityRef (aai_Spec a) = Some i → checkIfUserAssignedMSI i = true →
  ais_ResourceID (ai_Spec i) ∈ removeUserAssignedMSIIDs t → ais_ResourceID (ai_Spec i) ∉ addUserAssignedMSIIDs t →
  (∀ ls, getVMSSGroups nc refs = Ret ls → (checkIfInUse nc a new ls).1 ≠ Ret true) →
  st w (aai_key a) ≠ None → st w' (aai_key a) = None →
  on_machine w' (isvmss t) name (ToLower (ais_ResourceID (ai_Spec i))) = false.
Proof.
  intros Hwf Hd Hi Hr Ha Hai Hmsi Hrem Hadd Huse Hbefore Hafter.
  apply (writes_keep_deleted _ _ _ a) in Hr as (w1 & Hi1 & Hk1 & Hr); [|done..].
  apply runs_act_inv in Hr as (w2 & Hw2 & Hr). pose proof (env_inv _ _ _ Hw2 Hi1) as Hi2.
  assert (st w2 (aai_key a) = st w1 (aai_key a)) as Hk2 by (by apply (env_key _ a _ _ Hw2 Hi1), node_fp_key, entries_delete).
  destruct (on_cloud _ w2) as [[[]|err|] w3] eqn:E3; [| |done].
  - destruct (machine_updated _ _ _ _ Hd E3) as (Hs3 & _ & Hm3).
    assert (w_inv w3) as Hi3 by (simpl in *; by rewrite Hs3).
    rewrite (runs_machine_same _ _ _ _ _ _ _ _ (touches_success_keys t) Hr Hi3), Hm3;
      [|right; apply machine_fp_self|by intros (b & _ & ?)].
    unfold wanted_after. rewrite decide_False, decide_True; [done|apply list_elem_of_fmap; eauto|].
    intros (y & Ey & Hy)%list_elem_of_fmap. apply Hadd.
    by rewrite (Hd (ais_ResourceID (ai_Spec i)) y) by (rewrite ?elem_of_app; auto).
  - assert (w_inv w3 ∧ st w3 (aai_key a) = st w2 (aai_key a)) as [Hi3 Hk3]
      by (unfold on_cloud in E3; destruct (cc_UpdateUserMSI _ _ _ _ _); by simplify_eq).
    apply runs_note_inv in Hr as (w4 & Hw4 & Hr). pose proof (env_inv _ _ _ Hw4 Hi3) as Hi4.
    assert (st w4 (aai_key a) = st w3 (aai_key a)) as Hk4 by (by apply (env_key _ a _ _ Hw4 Hi3), node_fp_key, entries_delete).
    apply runs_act_inv in Hr as (w5 & Hw5 & Hr). pose proof (env_inv _ _ _ Hw5 Hi4) as Hi5.
    assert (st w5 (aai_key a) = st w4 (aai_key a)) as Hk5 by (by apply (env_key _ a _ _ Hw5 Hi4), node_fp_key, entries_delete).
    destruct (on_cloud _ w5) as [[idl|err'|] w6] eqn:E6; [| |done];
      assert (w_inv w6 ∧ st w6 (aai_key a) = st w5 (aai_key a)) as [Hi6 Hk6]
        by (unfold on_cloud in E6; destruct (cc_GetUserMSIs _ _ _); by simplify_eq).
    + destruct (checkIfMSIExistsOnNode i idl) eqn:Ex.
      * assert (kept nc new refs idl a) as Hkept by (intros i' [= <-]%(eq_trans (eq_sym Hai)); done).
        pose proof (runs_recovery_kept _ _ _ _ _ _ _ _ _ _ Hwf Ha Hkept Hi6 Hr). congruence.
      * rewrite (recovery_machine _ _ _ _ _ _ _ _ _ _ Hi6 Hr). by eapply not_existsb_off_machine.
    + eapply (runs_key_same _ (λ _, False) _ _ _ a) in Hr as Hk7; [congruence| |done|by apply node_fp_key, entries_delete|tauto].
      apply touches_klog. constructor.
Qed.
End removal.

(** On the node of [world1], [p1]'s object is gone and its identity off the machine. *)
Lemma deleted_only_if_off_machine_witness :
  stored (ClientLaws := crd_laws) (mw_store world1') (aai_key assigned1) = None ∧
  cl_assigned (mw_cloud world1) false "n1" (ToLower (rid "a")) = true ∧
  cl_assigned (mw_cloud world1') false "n1" (ToLower (rid "a")) = false.
Proof.
  assert (stored (ClientLaws := crd_laws) (mw_store world1') (aai_key assigned1) = None) as H by (vm_compute; reflexivity).
  split; [exact H|]. split; [vm_compute; reflexivity|].
  refine (deleted_only_if_off_machine (ci := crd_client) (cl := crd_laws) (R := canonical_range) (λ _, Fail (Errorf "none")) ∅ "n1" track1 ∅
    world1 world1' assigned1 (mk_identity "ns" "a")
    track1_wf track1_distinct cluster1_ok (run_proc_runs _ _ _ _ node1_ends) _ _ _ _ _ _ _ H).
  - left.
  - reflexivity.
  - reflexivity.
  - left.
  - intros Hin. apply elem_of_cons in Hin as [E|E]; [vm_compute in E; discriminate E|by apply not_elem_of_nil in E].
  - intros ls _ E. vm_compute in E. discriminate E.
  - vm_compute. discriminate.
Defined.
