(* ===== verification/MicReconcile.v ===== *)
(** * MIC: reconciling what is assigned on Azure (pkg/mic/mic.go:
    [generateIdentityAssignmentState], [generateIdentityAssignmentDiff],
    [reconcileIdentityAssignment]).

    The sync thread runs it between two cycles, when no other goroutine of MIC uses the
    cloud: it is a sequential program over the cloud and the log. *)

From S2P Require Import Prelude GoStrings Types Conversion Fixtures Regex ResourceId MicDesired MicVmss MicNode Concurrency Stats CrdInterface CloudInterface MicUpdate CloudIdentity CloudProvider Crd CrdSim MicUpdateSpec.

Abbreviation id_state := (gmap string (gmap string bool)).

Record nodeMetadata := mkNodeMetadata { nm_nodeName : string; nm_isVMSS : bool }.

(** The maps that the loop over the assigned identities fills. *)
Record gen_state := mkGenState {
  gs_cache : gmap string nodeMetadata;
  gs_isVMSSMap : gmap string bool;
  gs_currentState : id_state;
  gs_desiredState : id_state
}.

Section reconcile.
Context `{R : GoRange} {S C : Type} `{cc : CloudInt C}.
Abbreviation W := (mic_world S C).

(** Lines 1369-1389: where a node's identities are kept, looked up at most once. *)
Definition node_metadata (nc : NodeGetter) (cache : gmap string nodeMetadata) (name : string) :
    outcome (gmap string nodeMetadata * nodeMetadata) :=
  match cache !! name with
  | Some m => Ret (cache, m)
  | None =>
      match nc name with
      | Panic => Panic
      | Fail err => Fail (Errorf ("failed to get node " +:+ name +:+ ", error: " +:+ Error err))
      | Ret node =>
          match isVMSS node with
          | Panic => Panic
          | Fail err => Fail (Errorf ("failed to check if node " +:+ name +:+ " is VMSS, error: " +:+ Error err))
          | Ret (Some vmss) => let m := mkNodeMetadata (getVMSSName vmss) true in Ret (<[name := m]> cache, m)
          | Ret None => let m := mkNodeMetadata name false in Ret (<[name := m]> cache, m)
          end
      end
  end.

(** [state[node][id] = true], creating the inner map. *)
Definition set_id (node id : string) (st : id_state) : id_state :=
  <[node := <[id := true]> (default ∅ (st !! node))]> st.

(** Lines 1400-1406. The comparison of the status comes first. *)
Definition desired_step (node : string) (a : AzureAssignedIdentity) (desired : id_state) : outcome id_state :=
  if bool_decide (aai_status a = AssignedIDAssigned)
  then id ← deref (aas_AzureIdentityRef (aai_Spec a));
       Ret (if checkIfUserAssignedMSI id then set_id node (ais_ResourceID (ai_Spec id)) desired else desired)
  else Ret desired.

(** Lines 1408-1418: read the machine the first time it is met. *)
Definition current_step (m : nodeMetadata) (current : id_state) : M C id_state :=
  match current !! nm_nodeName m with
  | Some _ => mret current
  | None => λ w,
      match cc_GetUserMSIs (nm_nodeName m) (nm_isVMSS m) w with
      | (Ret idList, w') => (Ret (<[nm_nodeName m := foldl (λ s i, <[i := true]> s) ∅ idList]> current), w')
      | (Fail err, w') => (Fail (Errorf ("failed to get a list of user-assigned identites from node " +:+ nm_nodeName m +:+
          ", error: " +:+ Error err)), w')
      | (Panic, w') => (Panic, w')
      end
  end.

Definition gen_step (nc : NodeGetter) (st : gen_state) (a : AzureAssignedIdentity) : M C gen_state :=
  r ← lift (node_metadata nc (gs_cache st) (aai_node a));
  let '(cache, m) := r in
  desired ← lift (desired_step (nm_nodeName m) a (gs_desiredState st));
  current ← current_step m (gs_currentState st);
  mret (mkGenState cache (<[nm_nodeName m := nm_isVMSS m]> (gs_isVMSSMap st)) current desired).

Definition generateIdentityAssignmentState (nc : NodeGetter) (listed : outcome (list AzureAssignedIdentity)) : M C gen_state :=
  match listed with
  | Panic => lift Panic
  | Fail err => fail (Errorf ("failed to list AzureAssignedIdentities, error: " +:+ Error err))
  | Ret assignedIDs => fold_each (gen_step nc) (mkGenState ∅ ∅ ∅ ∅) assignedIDs
  end.

(** Lines 1438-1440: the test, for a missing node as for a missing id. *)
Definition is_current (currentState : id_state) (nodeName identityResourceID : string) : bool :=
  match currentState !! nodeName with
  | Some ids => default false (ids !! identityResourceID)
  | None => false
  end.

Definition identitiesToAssign (currentState : id_state) (nodeName : string) (identityResourceIDs : gmap string bool) : list string :=
  filter (λ i, is_current currentState nodeName i = false) (go_range 1437 identityResourceIDs).*1.

Definition generateIdentityAssignmentDiff (currentState desiredState : id_state) : gmap string (list string) :=
  foldl (λ diff (kv : string * gmap string bool),
    match identitiesToAssign currentState kv.1 kv.2 with
    | [] => diff
    | l => <[kv.1 := l]> diff
    end) ∅ (go_range 1435 desiredState).

(** Lines 1466-1469, one machine. *)
Definition reconcile_node (isVMSSMap : gmap string bool) (kv : string * list string) : M W unit :=
  catch (on_cloud (cc_UpdateUserMSI kv.2 [] kv.1 (default false (isVMSSMap !! kv.1))))
    (λ err, modify (klog_Error ("failed to update user-assigned identities on node " +:+ kv.1 +:+ ", error: " +:+ Error err))).

Definition reconcileIdentityAssignment (nc : NodeGetter) (listed : outcome (list AzureAssignedIdentity)) : M W unit := λ w,
  match on_cloud (generateIdentityAssignmentState nc listed) w with
  | (Fail err, w') => (Ret tt, klog_Error ("failed to generate identity assignment state, error: " +:+ Error err) w')
  | (Panic, w') => (Panic, w')
  | (Ret st, w') =>
      for_each (reconcile_node (gs_isVMSSMap st))
        (go_range 1465 (generateIdentityAssignmentDiff (gs_currentState st) (gs_desiredState st))) w'
  end.
End reconcile.

(** ** Properties *)

Section reconcile_theory.
Context `{R : GoRange} {S C : Type} {cc : CloudInt C} {cll : CloudIntLaws cc}.
Abbreviation W := (mic_world S C).
Abbreviation errors w := (length (mw_errors w)).

(** Where the identities of the node [n] are kept. *)
Definition metadata_of (nc : NodeGetter) (n : string) : option nodeMetadata :=
  match node_metadata nc ∅ n with Ret r => Some r.2 | _ => None end.

(** No two places share a name, ignoring case. *)
Definition places_distinct (nc : NodeGetter) (l : list AzureAssignedIdentity) : Prop :=
  ∀ a b m m', a ∈ l → b ∈ l → metadata_of nc (aai_node a) = Some m → metadata_of nc (aai_node b) = Some m' →
    ToLower (nm_nodeName m) = ToLower (nm_nodeName m') → m = m'.

(** [a] asks for the user-assigned identity [i] on the place [m]. *)
Definition asks (nc : NodeGetter) (a : AzureAssignedIdentity) (m : nodeMetadata) (i : string) : Prop :=
  metadata_of nc (aai_node a) = Some m ∧ aai_status a = AssignedIDAssigned ∧
  ∃ id, aas_AzureIdentityRef (aai_Spec a) = Some id ∧ checkIfUserAssignedMSI id = true ∧ ais_ResourceID (ai_Spec id) = i.

Definition has_id (st : id_state) (n i : string) : Prop := ∃ ids, st !! n = Some ids ∧ is_Some (ids !! i).

Lemma has_id_set_id node id st n i : has_id (set_id node id st) n i ↔ (n = node ∧ i = id) ∨ has_id st n i.
Proof.
  unfold has_id, set_id. destruct (decide (node = n)) as [->|Hn].
  - rewrite lookup_insert_eq. split.
    + intros (ids & [= <-] & Hi). destruct (decide (id = i)) as [->|Hne]; [by left|].
      rewrite lookup_insert_ne in Hi by done. right. destruct (st !! n) as [ids|]; [by exists ids|cbn in Hi; rewrite lookup_empty in Hi; by destruct Hi].
    + intros [[_ ->]|(ids & Hids & Hi)]; (eexists; split; [done|]); [by rewrite lookup_insert_eq|].
      rewrite Hids. simpl. destruct (decide (id = i)) as [->|Hne]; [by rewrite lookup_insert_eq|by rewrite lookup_insert_ne].
  - rewrite lookup_insert_ne by done. naive_solver.
Qed.

Lemma has_id_desired_step node a st st' n i : desired_step node a st = Ret st' →
  has_id st' n i ↔ has_id st n i ∨ (n = node ∧ aai_status a = AssignedIDAssigned ∧
    ∃ id, aas_AzureIdentityRef (aai_Spec a) = Some id ∧ checkIfUserAssignedMSI id = true ∧ ais_ResourceID (ai_Spec id) = i).
Proof.
  unfold desired_step. case_bool_decide as Hs; [|intros [= <-]; naive_solver].
  destruct (aas_AzureIdentityRef (aai_Spec a)) as [id|]; [|done]. cbn. intros [= <-].
  destruct (checkIfUserAssignedMSI id) eqn:Hu; [rewrite has_id_set_id|].
  - split; [intros [[-> ->]|?]; [right; eauto 6|by left]|]. intros [?|(-> & _ & id0 & [= <-] & _ & ->)]; [by right|by left].
  - split; [by left|]. intros [?|(-> & _ & id0 & [= <-] & ? & _)]; [done|congruence].
Qed.

Lemma node_metadata_ok nc cache n r :
  (∀ n m, cache !! n = Some m → metadata_of nc n = Some m) → node_metadata nc cache n = Ret r →
  metadata_of nc n = Some r.2 ∧ ∀ n m, r.1 !! n = Some m → metadata_of nc n = Some m.
Proof.
  intros Hc. unfold node_metadata. destruct (cache !! n) as [m|] eqn:E; [intros [= <-]; auto|].
  unfold metadata_of at 1, node_metadata. rewrite lookup_empty.
  destruct (nc n) as [node|e|] eqn:En; [|done|done].
  assert (∀ m, metadata_of nc n = Some m → ∀ n' m', <[n := m]> cache !! n' = Some m' → metadata_of nc n' = Some m') as Hins.
  { intros m Hm n' m'. destruct (decide (n = n')) as [->|]; [rewrite lookup_insert_eq; congruence|rewrite lookup_insert_ne by done; apply Hc]. }
  assert (∀ m m0, metadata_of nc n = Some m0 → m = m0 →
     ∀ n' m', <[n := m]> cache !! n' = Some m' → metadata_of nc n' = Some m') as Hins' by (intros m m0 Hm0 ->; by apply Hins).
  destruct (isVMSS node) as [[v|]|e|] eqn:Ev; cbn; try done; intros [= <-]; cbn; split; try done;
    (eapply Hins'; [unfold metadata_of, node_metadata; rewrite lookup_empty, En, Ev; cbn; reflexivity|reflexivity]).
Qed.

(** The invariant of the loop over the assigned identities, [done] having been visited. *)
Record gen_inv (nc : NodeGetter) (w0 : C) (seen : list AzureAssignedIdentity) (st : gen_state) (w : C) : Prop := {
  gi_cloud : ∀ b n x, cl_assigned w b n x = cl_assigned w0 b n x;
  gi_cache : ∀ n m, gs_cache st !! n = Some m → metadata_of nc n = Some m;
  gi_vmss : ∀ a, a ∈ seen → ∃ m, metadata_of nc (aai_node a) = Some m ∧ gs_isVMSSMap st !! nm_nodeName m = Some (nm_isVMSS m);
  gi_current : ∀ n i, has_id (gs_currentState st) n i → ∃ a m, a ∈ seen ∧ metadata_of nc (aai_node a) = Some m ∧
    nm_nodeName m = n ∧ cl_assigned w0 (nm_isVMSS m) n (ToLower i) = true;
  gi_desired : ∀ n i, has_id (gs_desiredState st) n i ↔ ∃ a m, a ∈ seen ∧ asks nc a m i ∧ nm_nodeName m = n
}.

Lemma read_ids_lookup (idList : list string) i (s : gmap string bool) :
  is_Some (foldl (λ s i, <[i := true]> s) s idList !! i) → i ∈ idList ∨ is_Some (s !! i).
Proof.
  revert s. induction idList as [|y l IH]; intros s; [by right|]. cbn [foldl]. intros [H|H]%IH; [by left; right|].
  destruct (decide (y = i)) as [->|]; [by left; left|]. rewrite lookup_insert_ne in H by done. by right.
Qed.

Lemma current_step_ok nc w0 m current current' (w w' : C) a seen :
  (∀ b n x, cl_assigned w b n x = cl_assigned w0 b n x) → metadata_of nc (aai_node a) = Some m →
  (∀ n i, has_id current n i → ∃ a m, a ∈ seen ∧ metadata_of nc (aai_node a) = Some m ∧
    nm_nodeName m = n ∧ cl_assigned w0 (nm_isVMSS m) n (ToLower i) = true) →
  current_step m current w = (Ret current', w') →
  (∀ b n x, cl_assigned w' b n x = cl_assigned w0 b n x) ∧
  (∀ n i, has_id current' n i → ∃ a' m, a' ∈ seen ++ [a] ∧ metadata_of nc (aai_node a') = Some m ∧
    nm_nodeName m = n ∧ cl_assigned w0 (nm_isVMSS m) n (ToLower i) = true).
Proof.
  intros Hw Hm Hcur. unfold current_step. destruct (current !! nm_nodeName m) eqn:E.
  - intros [= <- <-]. split; [done|]. intros n i (a' & m' & ? & ?)%Hcur. exists a', m'. rewrite elem_of_app. tauto.
  - destruct (cc_GetUserMSIs _ _ _) as [[idList|e|] w1] eqn:Eg; [|done|done]. intros [= <- <-]. split.
    + intros b n x. rewrite <- Hw. pose proof (cl_get_frame (nm_nodeName m) (nm_isVMSS m) w b n x) as Hf. by rewrite Eg in Hf.
    + intros n i (ids & Hids & Hi). destruct (decide (nm_nodeName m = n)) as [<-|Hne].
      * rewrite lookup_insert_eq in Hids. injection Hids as <-. apply read_ids_lookup in Hi as [Hi|[? Hi]]; [|done].
        exists a, m. split; [apply elem_of_app; right; left|]. split; [done|]. split; [done|].
        rewrite <- Hw. apply (cl_get_ok _ _ _ _ _ Eg). eauto.
      * rewrite lookup_insert_ne in Hids by done. destruct (Hcur n i) as (a' & m' & ? & ?); [by exists ids|].
        exists a', m'. rewrite elem_of_app. tauto.
Qed.

Lemma gen_step_ok nc w0 l seen a st st' (w w' : C) :
  places_distinct nc l → a ∈ l → (∀ b, b ∈ seen → b ∈ l) → gen_inv nc w0 seen st w →
  gen_step nc st a w = (Ret st', w') → gen_inv nc w0 (seen ++ [a]) st' w'.
Proof.
  intros Hpd Ha Hsub [Hw Hca Hv Hcu Hde]. unfold gen_step, lift, mbind, M_bind.
  destruct (node_metadata nc (gs_cache st) (aai_node a)) as [[cache m]|e|] eqn:En; [|done|done].
  destruct (node_metadata_ok _ _ _ _ Hca En) as [Hm Hca']. simpl in Hm, Hca'.
  destruct (desired_step (nm_nodeName m) a (gs_desiredState st)) as [desired|e|] eqn:Ed; [|done|done].
  destruct (current_step m (gs_currentState st) w) as [[current|e|] w1] eqn:Ec; [|done|done]. intros [= <- <-].
  destruct (current_step_ok nc w0 _ _ _ _ _ a seen Hw Hm Hcu Ec) as [Hw1 Hcu1].
  split; cbn; [done|done| |done|].
  - intros b [Hb|Hb%list_elem_of_singleton]%elem_of_app; [|subst b; exists m; by rewrite lookup_insert_eq].
    destruct (Hv b Hb) as (m' & Hm' & Hvm). exists m'. split; [done|].
    destruct (decide (nm_nodeName m = nm_nodeName m')) as [E|Hne]; [|by rewrite lookup_insert_ne].
    rewrite E, lookup_insert_eq. by rewrite (Hpd a b m m' Ha (Hsub _ Hb) Hm Hm' (f_equal ToLower E)).
  - intros n i. rewrite (has_id_desired_step _ _ _ _ _ _ Ed), Hde. setoid_rewrite elem_of_app. setoid_rewrite list_elem_of_singleton.
    unfold asks. split.
    + intros [(b & m' & ? & ?)|(-> & ? & ?)]; [exists b, m'; tauto|exists a, m; eauto 10].
    + intros (b & m' & [Hb| ->] & (Hm' & ? & ?) & <-); [left; exists b, m'; tauto|].
      right. rewrite Hm in Hm'. by injection Hm' as <-.
Qed.

Lemma gen_loop_ok nc w0 l todo seen st st' (w w' : C) :
  places_distinct nc l → (∀ b, b ∈ todo → b ∈ l) → (∀ b, b ∈ seen → b ∈ l) → gen_inv nc w0 seen st w →
  fold_each (gen_step nc) st todo w = (Ret st', w') → gen_inv nc w0 (seen ++ todo) st' w'.
Proof.
  intros Hpd. revert seen st w. induction todo as [|a todo IH]; intros seen st w Ht Hs Hi.
  - intros [= <- <-]. by rewrite app_nil_r.
  - cbn [fold_each]. unfold mbind, M_bind. destruct (gen_step nc st a w) as [[st1|e|] w1] eqn:E; [|done|done].
    intros Hr. replace (seen ++ a :: todo) with ((seen ++ [a]) ++ todo) by (by rewrite <- (assoc_L (++))).
    apply (IH (seen ++ [a]) st1 w1); [| | |exact Hr].
    + intros b Hb. apply Ht. by right.
    + intros b [Hb|Hb%list_elem_of_singleton]%elem_of_app; [auto|subst; apply Ht; left].
    + apply (gen_step_ok nc w0 l seen a st st1 w w1); auto. apply Ht. left.
Qed.

Lemma generate_ok nc l st (w w' : C) :
  places_distinct nc l → generateIdentityAssignmentState nc (Ret l) w = (Ret st, w') → gen_inv nc w l st w'.
Proof.
  intros Hpd H. apply (gen_loop_ok nc w l l [] (mkGenState ∅ ∅ ∅ ∅) st w w' Hpd); [done|by intros b ?%not_elem_of_nil| |done].
  split; cbn; [done| | | |].
  - intros n m. by rewrite lookup_empty.
  - by intros a ?%not_elem_of_nil.
  - intros n i (ids & Hids & _). by rewrite lookup_empty in Hids.
  - intros n i. split; [|by intros (a & m & ?%not_elem_of_nil & _)]. intros (ids & Hids & _). by rewrite lookup_empty in Hids.
Qed.

Lemma elem_of_identitiesToAssign current n ids i :
  i ∈ identitiesToAssign current n ids ↔ is_current current n i = false ∧ is_Some (ids !! i).
Proof.
  unfold identitiesToAssign. rewrite list_elem_of_filter, list_elem_of_fmap. split; intros [Hc H]; (split; [done|]).
  - destruct H as ([k v] & -> & Hk%elem_of_go_range). by exists v.
  - destruct H as [v Hv]. exists (i, v). by rewrite elem_of_go_range.
Qed.

Lemma diff_lookup current desired n :
  generateIdentityAssignmentDiff current desired !! n =
    match desired !! n with
    | Some ids => match identitiesToAssign current n ids with [] => None | l => Some l end
    | None => None
    end.
Proof.
  unfold generateIdentityAssignmentDiff.
  rewrite (foldl_pointwise (λ (m : gmap string (list string)) k, m !! k) _
    (λ n ids o, match identitiesToAssign current n ids with [] => o | l => Some l end)).
  - rewrite lookup_empty. by destruct (desired !! n).
  - intros st k v k'. cbn. destruct (identitiesToAssign current k v) as [|i l] eqn:E.
    + by destruct (decide (k = k')).
    + destruct (decide (k = k')) as [->|]; [by rewrite lookup_insert_eq|by rewrite lookup_insert_ne].
Qed.

(** The message for a machine that could not be updated. *)
Definition update_failed (n : string) (err : error) : string :=
  "failed to update user-assigned identities on node " +:+ n +:+ ", error: " +:+ Error err.

Abbreviation is_on w k n x := (cl_assigned (mw_cloud w) k n x).

(** One update: the failure is logged, or the machine gets the ids; other machines are not
    concerned. *)
Lemma reconcile_node_ok vm n ids (w w' : W) :
  distinct_ids ids → reconcile_node vm (n, ids) w = (Ret tt, w') →
  let k := default false (vm !! n) in
  (∃ new, mw_errors w' = mw_errors w ++ new ∧
    ((∃ err, new = [update_failed n err]) ∨ new = [] ∧ ∀ x, is_on w' k n x = wanted_after ids [] (is_on w k n x) x)) ∧
  (∀ k' n' x, other_machine k n k' n' → is_on w' k' n' x = is_on w k' n' x).
Proof.
  intros Hd. unfold reconcile_node, catch, on_cloud, modify. cbn [fst snd].
  pose proof (cl_update_frame ids [] n (default false (vm !! n)) (mw_cloud w)) as Hf.
  destruct (cc_UpdateUserMSI ids [] n (default false (vm !! n)) (mw_cloud w)) as [[[]|e|] c] eqn:E; cbn [fst snd klog_Error] in *; intros [= <-];
    (split; [|exact Hf]).
  - exists []. split; [by rewrite app_nil_r|]. right. split; [done|].
    apply (cl_update_ok _ _ _ _ _ _ ltac:(by rewrite app_nil_r) E).
  - eexists. split; [done|]. left. by exists e.
Qed.

(** The loop over the machines: each is updated or its failure is logged, whatever happens to
    the others. *)
Lemma reconcile_loop vm (l : list (string * list string)) (w w' : W) :
  distinct_ids l.*1 → NoDup l.*1 → (∀ n ids, (n, ids) ∈ l → distinct_ids ids) →
  for_each (reconcile_node vm) l w = (Ret tt, w') →
  (∃ new, mw_errors w' = mw_errors w ++ new ∧ ∀ n ids, (n, ids) ∈ l →
    (∃ err, update_failed n err ∈ new) ∨
    ∀ x, is_on w' (default false (vm !! n)) n x = wanted_after ids [] (is_on w (default false (vm !! n)) n x) x) ∧
  (∀ k n' x, (∀ n, n ∈ l.*1 → other_machine (default false (vm !! n)) n k n') → is_on w' k n' x = is_on w k n' x).
Proof.
  revert w. induction l as [|[n ids] l IH]; intros w Hf Hnd Hd Hr.
  - injection Hr as <-. split; [|done]. exists []. split; [by rewrite app_nil_r|]. by intros ?? ?%not_elem_of_nil.
  - cbn [for_each] in Hr. unfold mbind, M_bind in Hr. destruct (reconcile_node vm (n, ids) w) as [[[]|e|] w1] eqn:E1; [|done|done].
    destruct (reconcile_node_ok vm n ids w w1) as [(new1 & He1 & H1) Hfr1]; [apply (Hd n); left|done|].
    rewrite fmap_cons in *. cbn [fst] in *. apply NoDup_cons in Hnd as [Hn Hnd].
    destruct (IH w1) as [(new2 & He2 & H2) Hfr2]; [|done| |done|].
    { intros x y Hx Hy. apply Hf; by right. }
    { intros n' ids' Hin. apply (Hd n'). by right. }
    assert (∀ n', n' ∈ l.*1 → ToLower n ≠ ToLower n') as Hne.
    { intros n' Hn' E. apply Hn. rewrite (Hf n n'); [done|left|by right|done]. }
    split.
    + exists (new1 ++ new2). split; [by rewrite He2, He1, (assoc_L (++))|]. intros n' ids' [[= -> ->]|Hin]%elem_of_cons.
      * destruct H1 as [[err ->]|[_ H1]]; [left; exists err; apply elem_of_app; left; left|]. right. intros x. rewrite <- H1.
        apply Hfr2. intros n' Hn'. right. intros E. symmetry in E. by apply (Hne n').
      * destruct (H2 n' ids' Hin) as [[err Herr]|Hx]; [left; exists err; apply elem_of_app; by right|]. right. intros x. rewrite Hx.
        rewrite Hfr1; [done|]. right. apply Hne. apply list_elem_of_fmap. by exists (n', ids').
    + intros k n' x Hk. rewrite Hfr2 by (intros m Hm; apply Hk; by right). apply Hfr1, Hk. left.
Qed.

(** Reading the cloud does not change what is assigned, even when it fails. *)
Lemma gen_step_frame nc st a (c : C) k n x : cl_assigned (gen_step nc st a c).2 k n x = cl_assigned c k n x.
Proof.
  unfold gen_step, lift, mbind, M_bind. destruct (node_metadata nc (gs_cache st) (aai_node a)) as [[cache m]|e|]; [|done|done].
  destruct (desired_step _ _ _); [|done|done]. unfold current_step. destruct (gs_currentState st !! nm_nodeName m); [done|].
  pose proof (cl_get_frame (nm_nodeName m) (nm_isVMSS m) c k n x) as Hf. by destruct (cc_GetUserMSIs _ _ _) as [[]].
Qed.

Lemma generate_frame nc l (c : C) k n x : cl_assigned (generateIdentityAssignmentState nc (Ret l) c).2 k n x = cl_assigned c k n x.
Proof.
  unfold generateIdentityAssignmentState. generalize (mkGenState ∅ ∅ ∅ ∅). revert c.
  induction l as [|a l IH]; intros c st; [done|]. cbn [fold_each]. unfold mbind, M_bind. pose proof (gen_step_frame nc st a c k n x) as Hf.
  destruct (gen_step nc st a c) as [[st'|e|] c']; [|done|done]. by rewrite IH.
Qed.

(** The ids and the places of a list of assigned identities can be told apart ignoring case. *)
Definition ids_distinct (l : list AzureAssignedIdentity) : Prop :=
  distinct_ids (omap (λ a, ais_ResourceID ∘ ai_Spec <$> aas_AzureIdentityRef (aai_Spec a)) l).

Lemma asks_distinct nc l a b m m' i j :
  ids_distinct l → a ∈ l → b ∈ l → asks nc a m i → asks nc b m' j → ToLower i = ToLower j → i = j.
Proof.
  intros Hd Ha Hb (_ & _ & id & Hid & _ & <-) (_ & _ & id' & Hid' & _ & <-). apply Hd; apply list_elem_of_omap; [exists a|exists b].
  - by rewrite Hid.
  - by rewrite Hid'.
Qed.

Section diff.
Variables (nc : NodeGetter) (l : list AzureAssignedIdentity) (st : gen_state) (c c' : C).
Hypothesis (Hpd : places_distinct nc l) (Hid : ids_distinct l) (Hgen : gen_inv nc c l st c').
Abbreviation diff := (generateIdentityAssignmentDiff (gs_currentState st) (gs_desiredState st)).

(** The requests are for identities that are asked for and not known to be there. *)
Lemma diff_asked n ids i : diff !! n = Some ids → i ∈ ids → ∃ a m, a ∈ l ∧ asks nc a m i ∧ nm_nodeName m = n.
Proof.
  destruct Hgen as [_ _ _ _ Hde]. intros Hn Hi. rewrite diff_lookup in Hn. destruct (gs_desiredState st !! n) as [d|] eqn:Ed; [|done].
  apply Hde. exists d. split; [done|]. destruct (identitiesToAssign _ n d) as [|j l'] eqn:El; [done|]. injection Hn as <-.
  rewrite <- El in Hi. by apply elem_of_identitiesToAssign in Hi as [_ ?].
Qed.

Lemma diff_place n : n ∈ (go_range 1465 diff).*1 → ∃ a m, a ∈ l ∧ metadata_of nc (aai_node a) = Some m ∧ nm_nodeName m = n.
Proof.
  intros ([n' ids] & -> & Hn%elem_of_go_range)%list_elem_of_fmap. simpl.
  assert (∃ i, i ∈ ids) as [i Hi].
  { rewrite diff_lookup in Hn. destruct (gs_desiredState st !! n') as [d|]; [|done].
    destruct (identitiesToAssign _ n' d) as [|i l']; [done|]. injection Hn as <-. exists i. left. }
  destruct (diff_asked n' ids i Hn Hi) as (a & m & ? & [? _] & ?). eauto.
Qed.

Lemma vmss_of a m : a ∈ l → metadata_of nc (aai_node a) = Some m → default false (gs_isVMSSMap st !! nm_nodeName m) = nm_isVMSS m.
Proof.
  destruct Hgen as [_ _ Hv _ _]. intros Ha Hm. destruct (Hv a Ha) as (m' & Hm' & Hk). rewrite Hm in Hm'. injection Hm' as <-. by rewrite Hk.
Qed.

(** What is asked for and not requested is there. *)
Lemma asked_known a m i : a ∈ l → asks nc a m i →
  (∃ ids, diff !! nm_nodeName m = Some ids ∧ i ∈ ids) ∨ cl_assigned c (nm_isVMSS m) (nm_nodeName m) (ToLower i) = true.
Proof.
  destruct Hgen as [_ _ _ Hcu Hde]. intros Ha Has. destruct (is_current (gs_currentState st) (nm_nodeName m) i) eqn:Ec.
  - right. destruct (Hcu (nm_nodeName m) i) as (b & m' & Hb & Hm' & E & Hx).
    { unfold is_current in Ec. destruct (_ !! nm_nodeName m) as [ids|] eqn:Ei; [|done]. exists ids. split; [done|].
      destruct (ids !! i); [eauto|done]. }
    by assert (m' = m) as -> by (apply (Hpd b a); [done|done|done|apply Has|by rewrite E]).
  - left. assert (has_id (gs_desiredState st) (nm_nodeName m) i) as (d & Hd & Hi) by (apply Hde; eauto 6).
    assert (i ∈ identitiesToAssign (gs_currentState st) (nm_nodeName m) d) as Hmem by (by apply elem_of_identitiesToAssign).
    exists (identitiesToAssign (gs_currentState st) (nm_nodeName m) d). split; [|done].
    rewrite diff_lookup, Hd. destruct (identitiesToAssign _ _ d); [by apply not_elem_of_nil in Hmem|done].
Qed.

(** After the loop, a place without a logged failure has what it had and what is asked for. *)
Lemma place_restored (w w' : W) (new : list string) a m :
  mw_cloud w = c' →
  (∀ n ids, (n, ids) ∈ go_range 1465 diff → (∃ err, update_failed n err ∈ new) ∨
     ∀ x, is_on w' (default false (gs_isVMSSMap st !! n)) n x = wanted_after ids [] (is_on w (default false (gs_isVMSSMap st !! n)) n x) x) →
  (∀ k n' x, (∀ n, n ∈ (go_range 1465 diff).*1 → other_machine (default false (gs_isVMSSMap st !! n)) n k n') → is_on w' k n' x = is_on w k n' x) →
  a ∈ l → metadata_of nc (aai_node a) = Some m →
  (∃ err, update_failed (nm_nodeName m) err ∈ new) ∨
  ∀ x, is_on w' (nm_isVMSS m) (nm_nodeName m) x = true ↔
    cl_assigned c (nm_isVMSS m) (nm_nodeName m) x = true ∨ ∃ b i, b ∈ l ∧ asks nc b m i ∧ x = ToLower i.
Proof.
  intros Hw Hloop Hframe Ha Hm. assert (∀ k n x, is_on w k n x = cl_assigned c k n x) as Hcl by (intros; rewrite Hw; by apply Hgen).
  destruct (diff !! nm_nodeName m) as [ids|] eqn:Ed.
  - destruct (Hloop (nm_nodeName m) ids) as [Hfail|Hx]; [by apply elem_of_go_range|by left|]. right. intros x.
    rewrite (vmss_of a m Ha Hm) in Hx. rewrite Hx, Hcl. unfold wanted_after. case_decide as Hin.
    + split; [|done]. intros _. right. apply list_elem_of_fmap in Hin as (i & -> & Hi).
      destruct (diff_asked _ ids i Ed Hi) as (b & m' & Hb & Has & E). exists b, i. split; [done|]. split; [|done].
      by assert (m' = m) as <- by (apply (Hpd b a); [done|done|apply Has|done|by rewrite E]).
    + rewrite decide_False by apply not_elem_of_nil. split; [by left|]. intros [?|(b & i & Hb & Has & ->)]; [done|].
      destruct (asked_known b m i Hb Has) as [(ids' & Hids & Hi)|?]; [|done]. rewrite Ed in Hids. injection Hids as <-.
      destruct Hin. apply list_elem_of_fmap. eauto.
  - right. intros x. rewrite Hframe, Hcl.
    + split; [by left|]. intros [?|(b & i & Hb & Has & ->)]; [done|].
      destruct (asked_known b m i Hb Has) as [(ids' & Hids & Hi)|?]; [|done]. by rewrite Ed in Hids.
    + intros n Hn. pose proof Hn as (b & m' & Hb & Hm' & <-)%diff_place. right. intros E.
      assert (m' = m) as -> by (by apply (Hpd b a)).
      apply list_elem_of_fmap in Hn as ([n' ids] & Hn' & Hin%elem_of_go_range). simpl in Hn'. subst n'. congruence.
Qed.
End diff.

(** C17: reconciliation puts back what is missing on Azure and takes nothing away. Let the places
    of the nodes and the ids be distinguishable ignoring case. If the state cannot be read, this
    is logged and nothing is changed. Otherwise, for the machine or scale set of
    each node of an assigned identity: either the failure to update it is logged, or it then has exactly
    the user-assigned identities it had before and those of the assigned identities in state
    [Assigned] on it, whatever happens to the others. Other machines are not touched. *)
Theorem reconcile_restores nc l (w w' : W) :
  places_distinct nc l → ids_distinct l →
  reconcileIdentityAssignment nc (Ret l) w = (Ret tt, w') →
  ∃ new, mw_errors w' = mw_errors w ++ new ∧
  (((∃ err, new = ["failed to generate identity assignment state, error: " +:+ Error err]) ∧ ∀ k n x, is_on w' k n x = is_on w k n x) ∨
   ((∀ a m, a ∈ l → metadata_of nc (aai_node a) = Some m →
      (∃ err, update_failed (nm_nodeName m) err ∈ new) ∨
      ∀ x, is_on w' (nm_isVMSS m) (nm_nodeName m) x = true ↔
        is_on w (nm_isVMSS m) (nm_nodeName m) x = true ∨ ∃ b i, b ∈ l ∧ asks nc b m i ∧ x = ToLower i) ∧
    (∀ k n x, (∀ a m, a ∈ l → metadata_of nc (aai_node a) = Some m → other_machine (nm_isVMSS m) (nm_nodeName m) k n) →
       is_on w' k n x = is_on w k n x))).
Proof.
  intros Hpd Hid Hr. unfold reconcileIdentityAssignment, on_cloud in Hr. pose proof (generate_frame nc l (mw_cloud w)) as Hfr.
  destruct (generateIdentityAssignmentState nc (Ret l) (mw_cloud w)) as [[st|e|] c1] eqn:Eg; simpl in Hr, Hfr; [| |done].
  2: { injection Hr as <-. eexists. split; [done|]. left. split; [by exists e|]. intros k n x. cbn. apply Hfr. }
  pose proof (generate_ok _ _ _ _ _ Hpd Eg) as Hgen.
  destruct (λ H1 H2 H3, reconcile_loop (gs_isVMSSMap st) _ _ _ H1 H2 H3 Hr) as [(new & He & Hloop) Hframe].
  - intros x y (a & m & Ha & Hm & <-)%(diff_place nc l st _ _ Hgen) (b & m' & Hb & Hm' & <-)%(diff_place nc l st _ _ Hgen) E.
    by rewrite (Hpd a b m m').
  - apply NoDup_fst_go_range.
  - intros n ids Hn%elem_of_go_range i j (a & m & Ha & Haa & _)%(diff_asked nc l st _ _ Hgen n ids i Hn)
      (b & m' & Hb & Hbb & _)%(diff_asked nc l st _ _ Hgen n ids j Hn). by apply (asks_distinct nc l a b m m').
  - exists new. split; [done|]. right. split.
    + intros a m Ha Hm. eapply (place_restored nc l st (mw_cloud w) c1 Hpd Hgen); [|exact Hloop|exact Hframe|done|done]. done.
    + intros k n x Hk. rewrite Hframe; [cbn; apply Hfr|].
      intros n' (a & m & Ha & Hm & <-)%(diff_place nc l st _ _ Hgen). rewrite (vmss_of nc l st _ _ Hgen a m Ha Hm). by apply (Hk a).
Qed.
End reconcile_theory.

(** ** A machine that lost its identity *)

Definition nc_vm : NodeGetter := λ n,
  Ret (mkNode n ("azure:///subscriptions/s/resourceGroups/rg/providers/Microsoft.Compute/virtualMachines/" +:+ n)).

Definition lost : list AzureAssignedIdentity := [mk_assigned "p1" "ns" "n1" "a" "ba" AssignedIDAssigned].

Definition lost_world : mic_world cluster (cloud machines) :=
  mkMicWorld ∅ (sim_cloud {[(false, "n1") := {["b" := Some newIdentityValue]}]}) [] [] ∅.

Lemma reconcile_restores_witness :
  let w' := (reconcileIdentityAssignment (R := canonical_range) nc_vm (Ret lost) lost_world).2 in
  mw_errors w' = [] ∧ cl_assigned (mw_cloud lost_world) false "n1" (ToLower (rid "a")) = false ∧
  cl_assigned (mw_cloud w') false "n1" (ToLower (rid "a")) = true ∧
  cl_assigned (mw_cloud w') false "n1" "b" = true.
Proof.
  intros w'. assert (mw_errors w' = []) as He by (vm_compute; reflexivity). split; [exact He|]. split; [vm_compute; reflexivity|].
  destruct (reconcile_restores (R := canonical_range) nc_vm lost lost_world w') as (new & Hnew & [[[err Herr] _]|[H _]]).
  - intros a b m m' Ha Hb Hm Hm' _. apply list_elem_of_singleton in Ha as ->. apply list_elem_of_singleton in Hb as ->. congruence.
  - intros x y Hx Hy _. apply list_elem_of_singleton in Hx as ->. apply list_elem_of_singleton in Hy as ->. reflexivity.
  - unfold w'. apply surjective_pairing_ret. vm_compute. reflexivity.
  - rewrite He, Herr in Hnew. discriminate Hnew.
  - rewrite He in Hnew. change (mw_errors lost_world) with (@nil string) in Hnew. simpl in Hnew. subst new.
    pose (a := mk_assigned "p1" "ns" "n1" "a" "ba" AssignedIDAssigned). assert (a ∈ lost) as Ha by left.
    assert (metadata_of nc_vm (aai_node a) = Some (mkNodeMetadata "n1" false)) as Hm by (vm_compute; reflexivity).
    clearbody w'. specialize (H a (mkNodeMetadata "n1" false) Ha Hm).
    destruct H as [[err Herr]|Hx]; [exfalso; exact (not_elem_of_nil _ Herr)|]. split; apply Hx.
    + right. exists a, (rid "a"). split; [exact Ha|].
      split; [|reflexivity]. split; [exact Hm|]. split; [reflexivity|]. exists (mk_identity "ns" "a"). split; [reflexivity|]. split; reflexivity.
    + left. vm_compute. reflexivity.
Defined.
