(* ===== verification/MicSync.v ===== *)
(** * MIC: a sync cycle (pkg/mic/mic.go: [Sync], [canSync], [setStopped]) from the listed
    objects to the goroutines that carry out the work. *)

From S2P Require Import Prelude GoStrings Types Conversion Fixtures Regex ResourceId MicDesired MicVmss MicNode MicConsolidate Concurrency Stats PodClient Metrics CrdInterface CloudInterface MicUpdate MicReconcile.

(** ** Planning the work of a cycle *)

(** What the clients return when a cycle lists pods and resources. *)
Record sync_view := mkSyncView {
  sv_pods : outcome (list Pod);
  sv_bindings : outcome (list AzureIdentityBinding);
  sv_ids : outcome (list AzureIdentity);
  sv_assigned : outcome aai_map
}.

(** The result of the planning part, lines 432-506. *)
Record sync_plan := mkSyncPlan {
  sp_workDone : bool;
  sp_newAssignedIDs : aai_map;
  sp_nodeRefs : gmap string bool;
  sp_lists : update_state;
  sp_perNode : track_map;                                  (* the node map before the consolidation *)
  sp_nodeMap : track_map;                                  (* and after it *)
  sp_cleanup : list (string * trackUserAssignedMSIIds)     (* nodes that are gone *)
}.

Section sync.
Context `{R : GoRange} (c : MicClient) (nc : NodeGetter).

(** [len(l) > 0] *)
Definition nonempty (m : aai_map) : bool := negb (bool_decide (size m = 0%nat)).

(** Lines 485-501: the node map from the three lists. *)
Definition plan_nodeMap (st : update_state) (newAssignedIDs : aai_map) (nodeRefs : gmap string bool) : outcome track_map :=
  let nodeMap := convertAssignedIDListToMap (us_add st) (us_del st) (us_after st) ∅ in
  nodeMap ← (if nonempty (us_del st) || nonempty (us_before st)
             then getListOfIdsToDelete c nc (us_del st) (us_before st) (us_after st) newAssignedIDs nodeMap nodeRefs
             else Ret nodeMap);
  if nonempty (us_add st) || nonempty (us_after st) then getListOfIdsToAssign (us_add st) (us_after st) nodeMap
  else Ret nodeMap.

Definition plan (v : sync_view) : outcome sync_plan :=
  listPods ← sv_pods v;
  listBindings ← sv_bindings v;
  listIDs ← sv_ids v;
  let idMap := convertIDListToMap (λ r, bool_decide (ValidateResourceID r = None)) listIDs in
  currentAssignedIDs ← sv_assigned v;
  let '(newAssignedIDs, nodeRefs) := createDesiredAssignedIdentityList c listPods listBindings idMap in
  st ← computeLists currentAssignedIDs newAssignedIDs;
  nodeMap ← plan_nodeMap st newAssignedIDs nodeRefs;
  r ← consolidateVMSSNodes nc nodeMap;
  Ret (mkSyncPlan (nonempty (us_del st) || nonempty (us_before st) || nonempty (us_add st) || nonempty (us_after st))
         newAssignedIDs nodeRefs st nodeMap r.1 r.2).
End sync.

(** ** Carrying it out *)

(** What a cycle does on the side: it waits for the caches of the resource client, puts the time
    that a part has taken into the statistics, reports the cycle, logs the statistics and pauses. *)
Class CycleLib (W : Type) := {
  cy_SyncCacheAll : bool → W → W;                    (* [false]: not the initial synchronisation *)
  cy_Put : string → W → W;                           (* stats.Put(key, time.Since(...)) *)
  cy_SinceInSeconds : W → Z;                         (* since the cycle began *)
  cy_Report : list (measure * Z) → W → W;
  cy_PrintSync : W → W;
  cy_Sleep : Z → W → W
}.

Section execute.
Context `{R : GoRange} {S C : Type} `{ci : ClientInt S} `{cc : CloudInt C}.
Abbreviation W := (mic_world S C).

(** One goroutine per node that is gone and per entry of the node map; [wg.Wait()] joins them. *)
Definition execute (nc : NodeGetter) (p : sync_plan) (k : proc W) : proc W :=
  Fork (((λ kv : string * trackUserAssignedMSIIds, cleanUpAllAssignedIdentitiesOnNode kv.1 kv.2) <$> sp_cleanup p) ++
        updateNodeAndDeps nc (sp_newAssignedIDs p) (sp_nodeMap p) (sp_nodeRefs p)) k.

(** [stats.Init], of which MIC's own counters are kept. *)
Definition stats_Init (w : W) : W :=
  mkMicWorld (mw_store w) (mw_cloud w) (mw_events w) (mw_errors w) ∅.

(** What wakes the sync loop: the end of the process, an event or the periodic tick, each
    followed by the listing of the cycle, or the tick of the reconciliation. *)
Inductive wake :=
  | WakeExit
  | WakeCycle (nc : NodeGetter) (v : sync_view)
  | WakeReconcile (nc : NodeGetter) (listed : outcome (list AzureAssignedIdentity)).

(** A computation over the world as one action, for a continuation. *)
Definition then_ (m : M W unit) (k : proc W) : proc W := act m (λ _, k) (λ _, k).

(** The cloud client before the first cycle: it counts the machines that it reads and updates
    with [stats.Increment], which panics until [stats.Init] has made the mutex
    ([Stats.StatsPkg.Increment_before_Init]). An update of nothing reads nothing. *)
Definition before_Init (client : CloudInt C) : CloudInt C := {|
  cc_UpdateUserMSI add remove name isvmss := λ w,
    match cc_UpdateUserMSI add remove name isvmss w with
    | (Ret _, w') => (if bool_decide (add = [] ∧ remove = []) then Ret tt else Panic, w')
    | r => r
    end;
  cc_GetUserMSIs name isvmss := λ w,
    match cc_GetUserMSIs name isvmss w with
    | (Ret _, w') => (Panic, w')
    | r => r
    end
|}.

(** The client that a reconciliation uses after [totalSyncCycles] cycles. *)
Definition cloud_of (totalSyncCycles : nat) : CloudInt C :=
  if bool_decide (totalSyncCycles = 0%nat) then before_Init cc else cc.

Context `{cy : !CycleLib W}.

(** The start of a cycle, and what follows the listing and planning. *)
Definition begin_cycle (k : proc W) : proc W :=
  note stats_Init (note (cy_SyncCacheAll false) (note (cy_Put StatsPkg.CacheSync) k)).
Definition note_planned (k : proc W) : proc W :=
  note (cy_Put StatsPkg.System) (note (cy_Put StatsPkg.CurrentState) k).

(** The end of a cycle: reported when there was work, and every thousandth time; after work the
    loop leaves the caches 200 ms to follow. *)
Definition end_cycle (workDone : bool) (totalSyncCycles : nat) (w : W) : W :=
  if workDone || bool_decide (totalSyncCycles `mod` 1000 = 0)%nat then
    let w := cy_Put StatsPkg.Total w in
    let w := cy_PrintSync (cy_Report [(MICCycleCountM, 1%Z); (MICCycleDurationM, cy_SinceInSeconds w)] w) in
    if workDone then cy_Sleep (200 * Millisecond) w else w
  else w.

(** The [for] loop of [Sync] on the wake-ups it receives; the state it threads is the two
    counters. A cycle that cannot list the objects is given up; so is the loop at an exit. A
    reconciliation before the first cycle finds the statistics without their mutex. *)
Fixpoint sync_loop (c : MicClient) (wakes : list wake) (totalSyncCycles totalWorkDoneCycles : nat) : proc W :=
  match wakes with
  | [] => Done
  | WakeExit :: _ => Done
  | WakeReconcile nc listed :: wakes' =>
      then_ (reconcileIdentityAssignment (cc := cloud_of totalSyncCycles) nc listed) (sync_loop c wakes' totalSyncCycles totalWorkDoneCycles)
  | WakeCycle nc v :: wakes' =>
      let totalSyncCycles := Nat.succ totalSyncCycles in
      begin_cycle
        match plan c nc v with
        | Panic => Crash
        | Fail err =>
            let next := sync_loop c wakes' totalSyncCycles totalWorkDoneCycles in
            match sv_pods v with
            | Fail _ => note (klog_Error ("failed to list pods, error: " +:+ Error err)) next
            | _ => next
            end
        | Ret p =>
            note_planned (execute nc p (note (end_cycle (sp_workDone p) totalSyncCycles)
              (sync_loop c wakes' totalSyncCycles
                 (if sp_workDone p then Nat.succ totalWorkDoneCycles else totalWorkDoneCycles))))
        end
  end.
End execute.

(** ** At most one sync thread

    [canSync] is a compare-and-swap of the field [syncing], [setStopped] a store. *)
Definition stopped : Z := 0.
Definition running : Z := 1.

Definition CompareAndSwapInt32 (v old new : Z) : bool * Z :=
  if bool_decide (v = old) then (true, new) else (false, v).

Definition canSync (syncing : Z) : bool * Z := CompareAndSwapInt32 syncing stopped running.
Definition setStopped (syncing : Z) : Z := stopped.

(** The threads that call [Sync]: where each is, and the shared field. *)
Inductive sync_pc := NotStarted | InLoop | Returned | Panicked.

Inductive sync_step : Z * list sync_pc → Z * list sync_pc → Prop :=
  | sync_enter syncing threads i syncing' : threads !! i = Some NotStarted → canSync syncing = (true, syncing') →
      sync_step (syncing, threads) (syncing', <[i := InLoop]> threads)
  | sync_refuse syncing threads i syncing' : threads !! i = Some NotStarted → canSync syncing = (false, syncing') →
      sync_step (syncing, threads) (syncing', <[i := Panicked]> threads)
  | sync_exit syncing threads i : threads !! i = Some InLoop →
      sync_step (syncing, threads) (setStopped syncing, <[i := Returned]> threads).

Definition sync_inv (st : Z * list sync_pc) : Prop :=
  (st.1 = stopped ∧ ∀ i, st.2 !! i ≠ Some InLoop) ∨
  (st.1 = running ∧ ∃ i, st.2 !! i = Some InLoop ∧ ∀ j, st.2 !! j = Some InLoop → j = i).

#[export] Instance sync_pc_eq_dec : EqDecision sync_pc.
Proof. solve_decision. Defined.

Lemma sync_inv_step a b : sync_inv a → sync_step a b → sync_inv b.
Proof.
  intros Hi Hs. destruct Hs as [s ts i s' Hts Hc|s ts i s' Hts Hc|s ts i Hts]; unfold sync_inv in *; simpl in *.
  - unfold canSync, CompareAndSwapInt32 in Hc. case_bool_decide as Hst; [|done]. injection Hc as <-.
    destruct Hi as [[_ Hn]|[Hr _]]; [|subst; done]. right. split; [done|]. exists i.
    split; [apply list_lookup_insert_eq; by eapply lookup_lt_Some|]. intros j Hj.
    destruct (decide (i = j)) as [->|Hne]; [done|]. rewrite list_lookup_insert_ne in Hj by done. by apply Hn in Hj.
  - unfold canSync, CompareAndSwapInt32 in Hc. case_bool_decide as Hst; [done|]. injection Hc as <-.
    destruct Hi as [[Hn _]|(Hr & k & Hk & Hu)]; [done|]. right. split; [done|]. exists k.
    assert (i ≠ k) by (intros ->; congruence). split; [by rewrite list_lookup_insert_ne|]. intros j Hj.
    destruct (decide (i = j)) as [->|Hne]; [|rewrite list_lookup_insert_ne in Hj by done; auto].
    rewrite list_lookup_insert_eq in Hj; [done|by eapply lookup_lt_Some].
  - destruct Hi as [[_ Hn]|(Hr & k & Hk & Hu)]; [by apply Hn in Hts|]. left. split; [done|]. intros j Hj.
    destruct (decide (i = j)) as [->|Hne]; [rewrite list_lookup_insert_eq in Hj; [done|by eapply lookup_lt_Some]|].
    rewrite list_lookup_insert_ne in Hj by done. rewrite (Hu _ Hj), (Hu _ Hts) in *. done.
Qed.

(** C26: no two sync threads run at the same time: however many threads call [Sync] and in
    whatever order, at most one is in the loop; the others panic or wait to start. *)
Theorem one_sync_at_a_time (n : nat) (st : Z * list sync_pc) (i j : nat) :
  rtc sync_step (stopped, replicate n NotStarted) st →
  st.2 !! i = Some InLoop → st.2 !! j = Some InLoop → i = j.
Proof.
  intros Hr. assert (sync_inv st) as [[_ Hn]|(_ & k & _ & Hu)].
  - remember (stopped, replicate n NotStarted) as st0 eqn:E0.
    assert (sync_inv st0) as H0; [subst|clear E0; induction Hr; eauto using sync_inv_step]. left. split; [done|]. intros k [H _]%lookup_replicate. done.
  - intros Hi. by apply Hn in Hi.
  - intros ->%Hu ->%Hu. done.
Qed.

Lemma one_sync_at_a_time_witness :
  rtc sync_step (stopped, replicate 2 NotStarted) (running, [InLoop; Panicked]) ∧ 0 = 0.
Proof.
  assert (rtc sync_step (stopped, replicate 2 NotStarted) (running, [InLoop; Panicked])) as H.
  { apply (rtc_l _ _ (running, [InLoop; NotStarted])).
    - exact (sync_enter stopped [NotStarted; NotStarted] 0 running eq_refl eq_refl).
    - apply rtc_once. exact (sync_refuse running [InLoop; NotStarted] 1 running eq_refl eq_refl). }
  split; [exact H|]. exact (one_sync_at_a_time 2 (running, [InLoop; Panicked]) 0 0 H eq_refl eq_refl).
Defined.
