(* ===== verification/MicSyncFacts.v ===== *)
(** * MIC: a sync cycle from end to end.

    The lists of a cycle are followed through the node map and the consolidation to the
    goroutines, whose footprints are disjoint; a cycle that logs no error leaves the cluster
    as the three-way diff asks. *)

From S2P Require Import Prelude GoStrings Types Conversion Fixtures Regex ResourceId MicDesired MicVmss MicNode MicConsolidate Concurrency Stats CrdInterface CloudInterface MicUpdate MicUpdateFacts CloudIdentity CloudProvider Crd CrdSim MicUpdateSpec MicReconcile MicSync.

(** ** The lists of a node, through the planning *)

Abbreviation track_field := (trackUserAssignedMSIIds → list AzureAssignedIdentity).

Definition of_node (f : track_field) (m : track_map) (n : string) : list AzureAssignedIdentity :=
  default [] (f <$> m !! n).

(** The three lists of assigned identities of a node. *)
Definition work (m : track_map) (n : string) :=
  (of_node assignedIDsToCreate m n, of_node assignedIDsToUpdate m n, of_node assignedIDsToDelete m n).

Definition same_work (m m' : track_map) : Prop := ∀ n, work m' n = work m n.

Lemma same_work_refl m : same_work m m.
Proof. done. Qed.
Lemma same_work_trans m1 m2 m3 : same_work m1 m2 → same_work m2 m3 → same_work m1 m3.
Proof. intros H1 H2 n. by rewrite H2, H1. Qed.

Lemma of_node_track_at f g m node n :
  f zeroTrack = [] →
  of_node f (track_at g m node) n = if decide (node = n) then f (g (default zeroTrack (m !! n))) else of_node f m n.
Proof.
  intros Hz. unfold track_at, of_node. destruct (decide (node = n)) as [->|Hne].
  - destruct (m !! n); by rewrite lookup_insert_eq.
  - destruct (m !! node); by rewrite lookup_insert_ne.
Qed.

Lemma of_node_default f m n : f zeroTrack = [] → f (default zeroTrack (m !! n)) = of_node f m n.
Proof. intros Hz. unfold of_node. by destruct (m !! n). Qed.

(** A fold that appends each assigned identity to one list of its node. *)
Lemma fold_append (f : track_field) (g : AzureAssignedIdentity → trackUserAssignedMSIIds → trackUserAssignedMSIIds)
    (l : list (string * AzureAssignedIdentity)) m n :
  f zeroTrack = [] → (∀ a t, f (g a t) = f t ++ [a]) →
  of_node f (foldl (λ m (kv : string * _), track_at (g kv.2) m (aai_node kv.2)) m l) n =
    of_node f m n ++ filter (λ a, aai_node a = n) l.*2.
Proof.
  intros Hz Hg. revert m. induction l as [|[k a] l IH]; intros m; [by rewrite app_nil_r|].
  cbn [foldl snd]. rewrite IH, of_node_track_at, fmap_cons, filter_cons by done. cbn [snd].
  destruct (decide (aai_node a = n)); [|done]. by rewrite Hg, of_node_default, <- (assoc_L (++)).
Qed.

Lemma fold_append_other (f : track_field) (g : AzureAssignedIdentity → trackUserAssignedMSIIds → trackUserAssignedMSIIds)
    (l : list (string * AzureAssignedIdentity)) m n :
  f zeroTrack = [] → (∀ a t, f (g a t) = f t) →
  of_node f (foldl (λ m (kv : string * _), track_at (g kv.2) m (aai_node kv.2)) m l) n = of_node f m n.
Proof.
  intros Hz Hg. revert m. induction l as [|[k a] l IH]; intros m; [done|].
  cbn [foldl snd]. rewrite IH, of_node_track_at by done. destruct (decide (aai_node a = n)); [|done].
  by rewrite Hg, of_node_default.
Qed.

Section planning.
Context `{R : GoRange}.

(** The assigned identities of a map on node [n], in the order the loop [site] visits them. *)
Definition on_node (site : nat) (m : aai_map) (n : string) : list AzureAssignedIdentity :=
  filter (λ a, aai_node a = n) (go_range site m).*2.

Lemma elem_of_on_node site m n a : a ∈ on_node site m n ↔ aai_node a = n ∧ ∃ k, m !! k = Some a.
Proof.
  unfold on_node. rewrite list_elem_of_filter, list_elem_of_fmap. split; intros [Hn H]; (split; [done|]).
  - destruct H as ([k b] & -> & Hk%elem_of_go_range). by exists k.
  - destruct H as [k Hk]. exists (k, a). by rewrite elem_of_go_range.
Qed.

Lemma convert_work add del upd n :
  work (convertAssignedIDListToMap add del upd ∅) n = (on_node 546 add n, on_node 564 upd n, on_node 555 del n).
Proof.
  unfold convertAssignedIDListToMap, work, on_node.
  rewrite !(fold_append_other assignedIDsToCreate append_update), !(fold_append_other assignedIDsToCreate append_delete),
    (fold_append assignedIDsToCreate append_create), (fold_append assignedIDsToUpdate append_update),
    !(fold_append_other assignedIDsToUpdate append_delete), !(fold_append_other assignedIDsToUpdate append_create),
    !(fold_append_other assignedIDsToDelete append_update), (fold_append assignedIDsToDelete append_delete),
    !(fold_append_other assignedIDsToDelete append_create) by done.
  unfold of_node. by rewrite lookup_empty.
Qed.

Lemma work_track_at g m node :
  (∀ t, assignedIDsToCreate (g t) = assignedIDsToCreate t) → (∀ t, assignedIDsToUpdate (g t) = assignedIDsToUpdate t) →
  (∀ t, assignedIDsToDelete (g t) = assignedIDsToDelete t) → same_work m (track_at g m node).
Proof.
  intros H1 H2 H3 n. unfold work. rewrite !of_node_track_at by done. destruct (decide (node = n)); [|done].
  by rewrite H1, H2, H3, !of_node_default.
Qed.

Lemma shouldRemoveID_work c nc toCheck a st m :
  same_work m (rs_nodeMap st) → same_work m (rs_nodeMap (shouldRemoveID c nc toCheck a st).2).
Proof.
  intros Hw. unfold shouldRemoveID. destruct (checkIfInUse _ _ _ _) as [[b|e|] ls]; [|done|done].
  destruct (aas_AzureIdentityRef _) as [id|]; [|done]. destruct (_ && _); [|done]. simpl.
  eapply same_work_trans; [exact Hw|]. by apply work_track_at.
Qed.

Lemma delete_work c nc del before after new m refs m' :
  getListOfIdsToDelete c nc del before after new m refs = Ret m' → same_work m m'.
Proof.
  unfold getListOfIdsToDelete. destruct (getVMSSGroups nc refs) as [ls|e|]; [|by intros [= <-]|done].
  match goal with |- context [for_each ?b ?l ?s] =>
    pose proof (for_each_invariant (λ st, same_work m (rs_nodeMap st)) b l s) as Hi;
    destruct (for_each b l s) as [[[]|e|] st] end; [|done|done].
  cbn. intros [= <-]. apply Hi; [|done]. intros [k a] st' _ Hw. unfold remove_step, catch.
  pose proof (shouldRemoveID_work c nc (consolidatedMapToCheck new after) a st' m Hw) as H. simpl.
  by destruct (shouldRemoveID _ _ _ _ _) as [[[]|e|] st''].
Qed.

Lemma assign_work add upd m m' : getListOfIdsToAssign add upd m = Ret m' → same_work m m'.
Proof.
  unfold getListOfIdsToAssign. generalize (go_range 692 add ++ go_range 695 upd). intros l. revert m.
  induction l as [|[k a] l IH]; intros m; [by intros [= <-]|]. simpl. unfold shouldAssignID.
  destruct (aas_AzureIdentityRef _) as [id|]; [|done]. cbn. intros H%IH. eapply same_work_trans; [|exact H].
  case_bool_decide; [|done]. destruct (checkIfUserAssignedMSI id); [|done]. by apply work_track_at.
Qed.

Lemma plan_nodeMap_work c nc st new refs m :
  plan_nodeMap c nc st new refs = Ret m →
  ∀ n, work m n = (on_node 546 (us_add st) n, on_node 564 (us_after st) n, on_node 555 (us_del st) n).
Proof.
  intros H n. rewrite <- convert_work. revert n. unfold plan_nodeMap in H.
  set (m0 := convertAssignedIDListToMap _ _ _ _) in *. fold (same_work m0 m).
  assert (∃ m1, (if nonempty (us_del st) || nonempty (us_before st)
    then getListOfIdsToDelete c nc (us_del st) (us_before st) (us_after st) new m0 refs else Ret m0) = Ret m1 ∧
    (if nonempty (us_add st) || nonempty (us_after st) then getListOfIdsToAssign (us_add st) (us_after st) m1 else Ret m1) = Ret m)
    as (m1 & H1 & H2).
  { unfold mbind, outcome_bind in H. destruct (if nonempty (us_del st) || nonempty (us_before st) then _ else _) as [m1|e|]; [|done|done].
    by exists m1. }
  apply (same_work_trans _ m1).
  - destruct (nonempty (us_del st) || nonempty (us_before st)); [exact (delete_work _ _ _ _ _ _ _ _ _ H1)|].
    injection H1 as <-. apply same_work_refl.
  - destruct (nonempty (us_add st) || nonempty (us_after st)); [exact (assign_work _ _ _ _ H2)|].
    injection H2 as <-. apply same_work_refl.
Qed.
End planning.

(** ** The goroutines of a cycle *)

(** Where the work of a node ends up: a clean-up of its own when the node is gone, the entry of
    its scale set, or its own entry. *)
Definition place (nc : NodeGetter) (n : string) : bool * string :=
  match node_class_of nc n with
  | Gone => (true, n)
  | InVMSS v => (false, getVMSSName v)
  | Other => (false, n)
  end.

Definition is_field (f : track_field) : Prop :=
  f = assignedIDsToCreate ∨ f = assignedIDsToUpdate ∨ f = assignedIDsToDelete.

Lemma is_field_zero f : is_field f → f zeroTrack = [].
Proof. by intros [->|[->| ->]]. Qed.

Lemma merged_field (f : track_field) (l : list trackUserAssignedMSIIds) : is_field f → f (merged l) = l ≫= f.
Proof.
  intros Hf. destruct l as [|t l]; [by apply is_field_zero|]. rewrite merged_all_work by done. by destruct Hf as [->|[->| ->]].
Qed.

Section jobs.
Context `{R : GoRange} (nc : NodeGetter).

(** The jobs of a cycle, with the place each works on. *)
Abbreviation job := ((bool * string) * trackUserAssignedMSIIds)%type.

Definition jobs (p : sync_plan) : list job :=
  ((λ kv : string * trackUserAssignedMSIIds, ((true, kv.1), kv.2)) <$> sp_cleanup p) ++
  ((λ kv : string * trackUserAssignedMSIIds, ((false, kv.1), kv.2)) <$> go_range 1031 (sp_nodeMap p)).

Lemma elem_of_jobs p (b : bool) (n : string) (t : trackUserAssignedMSIIds) :
  ((b, n), t) ∈ jobs p ↔ if b then (n, t) ∈ sp_cleanup p else sp_nodeMap p !! n = Some t.
Proof.
  unfold jobs. rewrite elem_of_app, !list_elem_of_fmap. split.
  - intros [([n' t'] & [= -> -> ->] & H)|([n' t'] & [= -> -> ->] & H%elem_of_go_range)]; done.
  - destruct b; intros H; [left|right]; exists (n, t); by rewrite ?elem_of_go_range.
Qed.

(** The nodes whose work a job does, and nothing but their work. *)
Definition job_of (m : track_map) (j : job) (ns : list string) : Prop :=
  NoDup ns ∧ (∀ n, n ∈ ns → place nc n = j.1) ∧ ∀ f, is_field f → f j.2 = ns ≫= of_node f m.

Context (p : sync_plan).
Hypothesis nc_total : ∀ n, nc n ≠ Panic.
Hypothesis Hnames : names_distinct nc (sp_perNode p).
Hypothesis Hplan : consolidateVMSSNodes nc (sp_perNode p) = Ret (sp_nodeMap p, sp_cleanup p).

Lemma plan_consolidated :
  sp_cleanup p = members nc (sp_perNode p) Gone ∧
  (∀ v, members nc (sp_perNode p) (InVMSS v) ≠ [] →
     sp_nodeMap p !! getVMSSName v = Some (merged (members nc (sp_perNode p) (InVMSS v)).*2)) ∧
  (∀ k t, sp_perNode p !! k = Some t → node_class_of nc k = Other → sp_nodeMap p !! k = Some t) ∧
  (∀ k t, sp_nodeMap p !! k = Some t →
     (sp_perNode p !! k = Some t ∧ node_class_of nc k = Other) ∨
     (∃ v, k = getVMSSName v ∧ members nc (sp_perNode p) (InVMSS v) ≠ [] ∧
        t = merged (members nc (sp_perNode p) (InVMSS v)).*2)).
Proof.
  destruct (consolidate_run nc (sp_perNode p) nc_total Hnames) as (m & E & H1 & H2 & H3).
  rewrite Hplan in E. injection E as -> ->. done.
Qed.

Lemma NoDup_jobs : NoDup (jobs p).*1.
Proof.
  assert (∀ (b : bool) (l : list (string * trackUserAssignedMSIIds)), NoDup l.*1 →
    NoDup ((λ kv : string * trackUserAssignedMSIIds, ((b, kv.1), kv.2)) <$> l).*1) as Hnd.
  { intros b l Hl. assert (((λ kv : string * trackUserAssignedMSIIds, ((b, kv.1), kv.2)) <$> l).*1 = (pair b : string → bool * string) <$> l.*1) as ->
      by (by rewrite <- !list_fmap_compose). apply NoDup_fmap; [by intros ?? [= ->]|done]. }
  unfold jobs. rewrite fmap_app. apply NoDup_app. split; [|split].
  - apply Hnd. rewrite (proj1 plan_consolidated). apply NoDup_members.
  - intros [b n] ([[b1 n1] t1] & [= -> ->] & ([? ?] & [= -> -> ->] & _)%list_elem_of_fmap)%list_elem_of_fmap
      ([[b2 n2] t2] & [= <- ->] & ([? ?] & [=] & _)%list_elem_of_fmap)%list_elem_of_fmap.
  - apply Hnd, NoDup_fst_go_range.
Qed.

Lemma members_field (f : track_field) cl : is_field f →
  (members nc (sp_perNode p) cl).*2 ≫= f = (members nc (sp_perNode p) cl).*1 ≫= of_node f (sp_perNode p).
Proof.
  intros Hf. assert (∀ n t, (n, t) ∈ members nc (sp_perNode p) cl → of_node f (sp_perNode p) n = f t) as H.
  { intros n t [_ Hn]%elem_of_members. unfold of_node. by rewrite Hn. }
  induction (members nc (sp_perNode p) cl) as [|[n t] l IH]; [done|]. rewrite !fmap_cons, !bind_cons. cbn [fst snd].
  rewrite IH by (intros n' t' ?; apply H; by right). by rewrite (H n t) by left.
Qed.

Lemma job_nodes j : j ∈ jobs p → ∃ ns, job_of (sp_perNode p) j ns.
Proof.
  destruct plan_consolidated as (Hc & _ & _ & Hm). destruct j as [[b n] t]. rewrite elem_of_jobs. destruct b.
  - rewrite Hc. intros [Hcl Hn]%elem_of_members. exists [n]. split; [apply NoDup_singleton|]. split.
    + intros n' ->%list_elem_of_singleton. unfold place. by rewrite Hcl.
    + intros f Hf. cbn. unfold of_node. rewrite Hn. cbn. by rewrite app_nil_r.
  - intros [[Hn Hcl]|(v & -> & Hne & ->)]%Hm.
    + exists [n]. split; [apply NoDup_singleton|]. split.
      * intros n' ->%list_elem_of_singleton. unfold place. by rewrite Hcl.
      * intros f Hf. cbn. unfold of_node. rewrite Hn. cbn. by rewrite app_nil_r.
    + exists (members nc (sp_perNode p) (InVMSS v)).*1. split; [apply NoDup_members|]. split.
      * intros n [Hcl _]%elem_of_members_fst. unfold place. by rewrite Hcl.
      * intros f Hf. cbn [snd]. rewrite merged_field by done. by apply members_field.
Qed.

(** And the work of every node is done by the job of its place. *)
Lemma node_job n t : sp_perNode p !! n = Some t →
  ∃ t', (place nc n, t') ∈ jobs p ∧ ∀ f a, is_field f → a ∈ f t → a ∈ f t'.
Proof.
  destruct plan_consolidated as (Hc & Hv & Ho & _). intros Hn. unfold place. destruct (node_class_of nc n) as [|v|] eqn:Hcl.
  - exists t. rewrite elem_of_jobs, Hc, elem_of_members. done.
  - assert ((n, t) ∈ members nc (sp_perNode p) (InVMSS v)) as Hmem by (by apply elem_of_members).
    exists (merged (members nc (sp_perNode p) (InVMSS v)).*2). rewrite elem_of_jobs. split.
    + apply Hv. intros E. rewrite E in Hmem. by apply not_elem_of_nil in Hmem.
    + intros f a Hf Ha. rewrite merged_field by done. apply list_elem_of_bind. exists t. split; [done|].
      apply list_elem_of_fmap. by exists (n, t).
  - exists t. rewrite elem_of_jobs. auto.
Qed.
End jobs.

(** ** The assigned identities of a cycle are worked on once *)

(** The three lists of a cycle name different objects, each under its own name. *)
Record lists_ok (st : update_state) : Prop := {
  lo_name : ∀ k a, us_add st !! k = Some a ∨ us_after st !! k = Some a ∨ us_del st !! k = Some a → aai_name a = k;
  lo_disjoint : ∀ k, (us_add st !! k = None ∧ us_after st !! k = None) ∨ (us_add st !! k = None ∧ us_del st !! k = None) ∨
    (us_after st !! k = None ∧ us_del st !! k = None)
}.

Section once.
Context `{R : GoRange} (nc : NodeGetter) (p : sync_plan).
Abbreviation job := ((bool * string) * trackUserAssignedMSIIds)%type.
Abbreviation st := (sp_lists p).
Hypothesis nc_total : ∀ n, nc n ≠ Panic.
Hypothesis Hnames : names_distinct nc (sp_perNode p).
Hypothesis Hplan : consolidateVMSSNodes nc (sp_perNode p) = Ret (sp_nodeMap p, sp_cleanup p).
Hypothesis Hlists : lists_ok st.
Hypothesis Hwork : ∀ n, work (sp_perNode p) n = (on_node 546 (us_add st) n, on_node 564 (us_after st) n, on_node 555 (us_del st) n).

(** The list of a field, its map and the loop that filled it. *)
Definition field_map (f : track_field) (m : aai_map) (site : nat) : Prop :=
  (f = assignedIDsToCreate ∧ m = us_add st ∧ site = 546) ∨ (f = assignedIDsToUpdate ∧ m = us_after st ∧ site = 564) ∨
  (f = assignedIDsToDelete ∧ m = us_del st ∧ site = 555).

Lemma is_field_map f : is_field f → ∃ m site, field_map f m site.
Proof. intros [->|[->| ->]]; unfold field_map; eauto 8. Qed.

Lemma field_map_node f m site n : field_map f m site → of_node f (sp_perNode p) n = on_node site m n.
Proof. intros [(-> & -> & ->)|[(-> & -> & ->)|(-> & -> & ->)]]; pose proof (Hwork n) as H; by injection H. Qed.

Lemma field_map_name f m site k a : field_map f m site → m !! k = Some a → aai_name a = k.
Proof. intros Hf Hk. apply (lo_name _ Hlists). by destruct Hf as [(_ & -> & _)|[(_ & -> & _)|(_ & -> & _)]]; auto. Qed.

Lemma field_map_is f m site : field_map f m site → is_field f.
Proof. unfold is_field. intros [(-> & _)|[(-> & _)|(-> & _)]]; auto. Qed.

Lemma elem_of_job_field j ns f m site a :
  job_of nc (sp_perNode p) j ns → field_map f m site →
  a ∈ f j.2 ↔ aai_node a ∈ ns ∧ ∃ k, m !! k = Some a.
Proof.
  intros (_ & _ & Hf) Hm. rewrite (Hf f (field_map_is _ _ _ Hm)), list_elem_of_bind. split.
  - intros (n & Ha & Hn). rewrite (field_map_node _ _ _ _ Hm) in Ha. by apply elem_of_on_node in Ha as [<- ?].
  - intros [Hn Hk]. exists (aai_node a). rewrite (field_map_node _ _ _ _ Hm). by rewrite elem_of_on_node.
Qed.

(** One object per name, over the three lists. *)
Lemma same_name_same_object f f' m m' site site' k k' a b :
  field_map f m site → field_map f' m' site' → m !! k = Some a → m' !! k' = Some b → aai_name a = aai_name b →
  a = b ∧ f = f'.
Proof.
  intros Hf Hf' Ha Hb E. pose proof (field_map_name _ _ _ _ _ Hf Ha) as <-. pose proof (field_map_name _ _ _ _ _ Hf' Hb) as <-.
  rewrite E in Ha. pose proof (lo_disjoint _ Hlists (aai_name b)) as Hd.
  destruct Hf as [(-> & -> & _)|[(-> & -> & _)|(-> & -> & _)]], Hf' as [(-> & -> & _)|[(-> & -> & _)|(-> & -> & _)]];
    first [split; [congruence|done]|rewrite Ha, Hb in Hd; destruct Hd as [[? ?]|[[? ?]|[? ?]]]; done].
Qed.

Lemma NoDup_on_node site m n :
  (∀ k a, m !! k = Some a → aai_name a = k) → NoDup ((λ a, aai_name a) <$> on_node site m n).
Proof.
  intros Hn. apply (sublist_NoDup _ ((λ a, aai_name a) <$> (go_range site m).*2)).
  2: { apply fmap_sublist. unfold on_node. apply sublist_filter. }
  assert ((λ a, aai_name a) <$> (go_range site m).*2 = (go_range site m).*1) as ->; [|apply NoDup_fst_go_range].
  rewrite <- list_fmap_compose. apply list_fmap_ext. intros i [k a] Hi%list_elem_of_lookup_2%elem_of_go_range. by apply Hn.
Qed.

Lemma NoDup_bind_nodes f m site ns : field_map f m site → NoDup ns →
  NoDup ((λ a, aai_name a) <$> (ns ≫= on_node site m)).
Proof.
  intros Hf Hns. assert (∀ k a, m !! k = Some a → aai_name a = k) as Hn by (intros k a; by eapply field_map_name).
  induction Hns as [|n ns Hnin Hns IH]; [constructor|]. rewrite bind_cons, fmap_app. apply NoDup_app.
  split; [by apply NoDup_on_node|]. split; [|done].
  intros x (a & -> & [Han [k Hk]]%elem_of_on_node)%list_elem_of_fmap (b & E & Hb)%list_elem_of_fmap.
  apply list_elem_of_bind in Hb as (n' & [Hbn [k' Hk']]%elem_of_on_node & Hn').
  destruct (same_name_same_object f f m m site site k k' a b Hf Hf Hk Hk' E) as [-> _]. congruence.
Qed.

(** Every object of a job is in a list of the cycle, on a node of the job. *)
Lemma elem_of_job_entries j a : j ∈ jobs p → a ∈ entries j.2 →
  place nc (aai_node a) = j.1 ∧ ∃ f m site k, field_map f m site ∧ m !! k = Some a.
Proof.
  intros Hj Ha. destruct (job_nodes nc p nc_total Hnames Hplan j Hj) as (ns & Hns).
  assert (∃ f, is_field f ∧ a ∈ f j.2) as (f & Hf & Haf).
  { unfold entries in Ha. rewrite !elem_of_app in Ha. unfold is_field. destruct Ha as [?|[?|?]]; eauto. }
  destruct (is_field_map f Hf) as (m & site & Hm). rewrite (elem_of_job_field _ _ _ _ _ _ Hns Hm) in Haf.
  destruct Haf as [Hn [k Hk]]. split; [by apply Hns|]. by exists f, m, site, k.
Qed.

Lemma job_key_unique j j' a b : j ∈ jobs p → j' ∈ jobs p → a ∈ entries j.2 → b ∈ entries j'.2 →
  aai_key a = aai_key b → j.1 = j'.1.
Proof.
  intros Hj Hj' Ha Hb E. destruct (elem_of_job_entries j a Hj Ha) as (Hp & f & m & site & k & Hf & Hk).
  destruct (elem_of_job_entries j' b Hj' Hb) as (Hp' & f' & m' & site' & k' & Hf' & Hk').
  assert (aai_name a = aai_name b) as En by (by injection E).
  destruct (same_name_same_object _ _ _ _ _ _ _ _ _ _ Hf Hf' Hk Hk' En) as [-> _]. congruence.
Qed.

Lemma job_keys_NoDup j : j ∈ jobs p → NoDup (aai_key <$> entries j.2).
Proof.
  intros Hj. destruct (job_nodes nc p nc_total Hnames Hplan j Hj) as (ns & Hns).
  apply (NoDup_fmap_1 snd). rewrite <- list_fmap_compose.
  change (NoDup ((λ a, aai_name a) <$> entries j.2)). destruct Hns as (Hnd & Hpl & Hf). unfold entries.
  assert (∀ f m site, field_map f m site → f j.2 = ns ≫= on_node site m) as Hfm.
  { intros f m site Hm. rewrite (Hf f (field_map_is _ _ _ Hm)). apply list_bind_ext; [|done]. intros n. by apply field_map_node. }
  assert (∀ f m site f' m' site', field_map f m site → field_map f' m' site' → f ≠ f' →
    ∀ x, x ∈ (λ a, aai_name a) <$> (f j.2) → x ∉ (λ a, aai_name a) <$> (f' j.2)) as Hdis.
  { intros f m site f' m' site' Hm Hm' Hne x (a & -> & Ha)%list_elem_of_fmap (b & E & Hb)%list_elem_of_fmap.
    rewrite (elem_of_job_field j ns) in Ha; [|done..]. rewrite (elem_of_job_field j ns) in Hb; [|done..].
    destruct Ha as [_ [k Hk]], Hb as [_ [k' Hk']].
    by destruct (same_name_same_object _ _ _ _ _ _ _ _ _ _ Hm Hm' Hk Hk' E). }
  assert (field_map assignedIDsToCreate (us_add st) 546) as Hm1 by (by left).
  assert (field_map assignedIDsToUpdate (us_after st) 564) as Hm2 by (by right; left).
  assert (field_map assignedIDsToDelete (us_del st) 555) as Hm3 by (by right; right).
  assert (∀ f m site, field_map f m site → NoDup ((λ a, aai_name a) <$> f j.2)) as Hnd1
    by (intros f m site Hm; rewrite (Hfm _ _ _ Hm); by apply (NoDup_bind_nodes f)).
  assert (assignedIDsToCreate ≠ assignedIDsToUpdate ∧ assignedIDsToCreate ≠ assignedIDsToDelete ∧
    assignedIDsToUpdate ≠ assignedIDsToDelete) as (N12 & N13 & N23).
  { split; [|split]; intros E; apply (f_equal (λ f, length (f (mkTrack [] [] [assigned1] [] [assigned1; assigned1] false)))) in E; discriminate E. }
  rewrite !fmap_app. apply NoDup_app. split; [by eapply Hnd1|]. split; [|apply NoDup_app; split; [by eapply Hnd1|split; [|by eapply Hnd1]]].
  - intros x Hx [H|H]%elem_of_app; [exact (Hdis _ _ _ _ _ _ Hm1 Hm2 N12 x Hx H)|exact (Hdis _ _ _ _ _ _ Hm1 Hm3 N13 x Hx H)].
  - exact (Hdis _ _ _ _ _ _ Hm2 Hm3 N23).
Qed.
End once.

(** ** The run of a cycle *)

Section run.
Context `{R : GoRange} {S C : Type} {ci : ClientInt S} {cc : CloudInt C}
  {cl : ClientLaws ci} {cll : CloudIntLaws cc}.
Abbreviation W := (mic_world S C).
Abbreviation stored_at w k := (stored (mw_store w) k).
Abbreviation on_machine w b n x := (cl_assigned (mw_cloud w) b n x).
Abbreviation errors w := (length (mw_errors w)).
Abbreviation job := ((bool * string) * trackUserAssignedMSIIds)%type.

(** The clean-up of a node that is gone removes every object on its delete list. *)
Lemma touches_cleanUp F l : (∀ a, a ∈ l → F (CKey (aai_key a))) → touches (wd := mic_World) F (cleanUp l : proc W).
Proof.
  intros HF. induction l as [|a l IH]; [constructor|]. cbn [cleanUp].
  assert (touches (wd := mic_World) F (cleanUp l : proc W)) as Hl by (apply IH; intros b Hb; apply HF; by right).
  apply touches_act; [intros w; apply touch_remove, HF; left| |]; intros; apply touches_with_binding; intros b.
  - by apply touches_event.
  - by apply touches_event, touches_klog.
Qed.

Lemma touches_cleanUp_keys l : touches (wd := mic_World) (keys_fp l) (cleanUp l : proc W).
Proof. apply touches_cleanUp. intros a Ha. by exists a. Qed.

Lemma cleanUp_spec l (w w' : W) :
  NoDup (aai_key <$> l) → runs (wd := mic_World) (keys_fp l) (cleanUp l : proc W) w w' → w_inv w →
  w_inv w' ∧ (errors w <= errors w')%nat ∧ (errors w' = errors w → ∀ a, a ∈ l → stored_at w' (aai_key a) = None).
Proof.
  assert (∀ F : mic_cell → Prop, (∀ a, a ∈ l → F (CKey (aai_key a))) → NoDup (aai_key <$> l) →
    runs (wd := mic_World) F (cleanUp l : proc W) w w' → w_inv w →
    errors w' = errors w → ∀ a, a ∈ l → stored_at w' (aai_key a) = None) as H.
  { intros F HF Hnd Hr. revert w HF Hnd Hr. induction l as [|a l IH]; intros w HF Hnd Hr Hi He b Hb; [by apply not_elem_of_nil in Hb|].
    cbn [cleanUp] in Hr. rewrite fmap_cons in Hnd. apply NoDup_cons in Hnd as [Ha Hnd].
    assert (∀ b, b ∈ l → F (CKey (aai_key b))) as HFl by (intros c Hc; apply HF; by right).
    apply runs_act_inv in Hr as (w1 & He1 & Hr). pose proof (env_inv _ _ _ He1 Hi) as Hi1. simpl in Hi1.
    pose proof (env_errors _ _ _ He1 Hi). pose proof (remove_inv a _ Hi1) as Hinv.
    destruct (ci_RemoveAssignedIdentity a (mw_store w1)) as [[[]|e|] s2] eqn:Er;
      rewrite (on_store_eq _ _ _ _ Er) in Hr; simpl in Hinv; [| |done];
      unfold with_binding in Hr; (destruct (aas_AzureBindingRef (aai_Spec a)); [|by apply runs_crash_inv in Hr]).
    - apply runs_note_inv in Hr as (w3 & He3 & Hr). pose proof (env_inv _ _ _ He3 Hinv) as Hi3.
      pose proof (env_errors _ _ _ He3 Hinv) as Hl3. cbn [mw_errors] in Hl3.
      destruct (runs_errors _ (keys_fp l) _ _ _ (touches_cleanUp_keys l) Hr Hi3) as [_ Hl4]. cbn [Event mw_errors] in Hl4.
      apply elem_of_cons in Hb as [->|Hb].
      + rewrite (runs_key_same F (keys_fp l) _ _ _ a (touches_cleanUp_keys l) Hr Hi3);
          [|apply HF; left|intros (c & Hc & [= E1 E2]); apply Ha, list_elem_of_fmap; exists c; unfold aai_key; by rewrite E1, E2].
        cbn [Event mw_store]. rewrite (env_key _ a _ _ He3 Hinv) by (apply HF; left). exact (remove_ok _ _ _ Hi1 Er).
      + refine (IH _ HFl Hnd Hr Hi3 _ b Hb). cbn [Event mw_errors]. lia.
    - apply runs_note_inv in Hr as (w3 & He3 & Hr). pose proof (env_inv _ _ _ He3 Hinv) as Hi3.
      pose proof (env_errors _ _ _ He3 Hinv) as Hl3. cbn [mw_errors] in Hl3.
      apply runs_note_inv in Hr as (w4 & He4 & Hr). pose proof (env_inv _ _ _ He4 Hi3) as Hi4.
      pose proof (env_errors _ _ _ He4 Hi3) as Hl4. cbn [Event mw_errors] in Hl4.
      destruct (runs_errors _ (keys_fp l) _ _ _ (touches_cleanUp_keys l) Hr Hi4) as [_ Hl5].
      unfold klog_Error in Hl5. cbn [mw_errors] in Hl5. rewrite length_app in Hl5. cbn [length] in Hl5. lia. }
  intros Hnd Hr Hi. assert (∀ a, a ∈ l → keys_fp l (CKey (aai_key a))) as Hk by (intros a Ha; by exists a).
  destruct (runs_errors _ (keys_fp l) _ _ _ (touches_cleanUp _ l Hk) Hr Hi) as [? ?]. split; [done|]. split; [done|].
  intros He. by apply (H (keys_fp l)).
Qed.

(** The footprint and the process of a job. *)
Definition job_fp (j : job) : mic_cell → Prop :=
  if j.1.1 then keys_fp (assignedIDsToDelete j.2) else node_fp j.2 j.1.2.

Definition job_proc (nc : NodeGetter) (p : sync_plan) (j : job) : proc W :=
  if j.1.1 then cleanUpAllAssignedIdentitiesOnNode j.1.2 j.2
  else updateUserMSI nc (sp_newAssignedIDs p) j.1.2 j.2 (sp_nodeRefs p).

Definition cycle_fp (p : sync_plan) : mic_cell → Prop := λ c, ∃ j, j ∈ jobs p ∧ job_fp j c.

Lemma execute_jobs nc p k : execute nc p k = Fork (job_proc nc p <$> jobs p) k.
Proof.
  unfold execute, jobs, updateNodeAndDeps. f_equal. rewrite fmap_app, <- !list_fmap_compose. done.
Qed.

(** What a job leaves behind. *)
Definition job_done (j : job) (w w' : W) : Prop :=
  (∀ a, a ∈ assignedIDsToDelete j.2 → stored_at w' (aai_key a) = None) ∧
  (j.1.1 = false → node_converged j.2 j.1.2 w w').

(** What the plan has to satisfy for its jobs to be independent. *)
Record plan_ok (nc : NodeGetter) (p : sync_plan) : Prop := {
  po_unique : ∀ j j' a b, j ∈ jobs p → j' ∈ jobs p → a ∈ entries j.2 → b ∈ entries j'.2 → aai_key a = aai_key b → j.1 = j'.1;
  po_keys : ∀ j, j ∈ jobs p → NoDup (aai_key <$> entries j.2);
  po_tags : NoDup (jobs p).*1;
  po_own : ∀ j, j ∈ jobs p → Forall own (assignedIDsToCreate j.2 ++ assignedIDsToUpdate j.2);
  po_machines : ∀ n n', is_Some (sp_nodeMap p !! n) → is_Some (sp_nodeMap p !! n') → ToLower n = ToLower n' → n = n';
  po_ids : ∀ n t, sp_nodeMap p !! n = Some t → distinct_ids (addUserAssignedMSIIDs t ++ removeUserAssignedMSIIDs t)
}.

Lemma job_touches nc p j : plan_ok nc p → j ∈ jobs p → touches (wd := mic_World) (job_fp j) (job_proc nc p j).
Proof.
  intros Hok Hj. unfold job_fp, job_proc. destruct (j.1.1).
  - apply touches_cleanUp. intros a Ha. by exists a.
  - apply touches_updateUserMSI. by apply (po_own _ _ Hok).
Qed.

Lemma job_fp_entries j c : job_fp j c → (∃ a, a ∈ entries j.2 ∧ c = CKey (aai_key a)) ∨
  (j.1.1 = false ∧ machine_fp (isvmss j.2) j.1.2 c).
Proof.
  unfold job_fp. destruct (j.1.1); [|intros [?|?]; auto]. intros (a & Ha & ->). left. exists a. auto.
Qed.

Lemma jobs_disjoint nc p i i' j j' c :
  plan_ok nc p → jobs p !! i = Some j → jobs p !! i' = Some j' → i ≠ i' → job_fp j c → ¬ job_fp j' c.
Proof.
  intros Hok Hj Hj' Hne Hc%job_fp_entries Hc'%job_fp_entries.
  pose proof (list_elem_of_lookup_2 _ _ _ Hj) as Hi. pose proof (list_elem_of_lookup_2 _ _ _ Hj') as Hi'.
  assert (j.1 = j'.1) as E; [|apply Hne, (NoDup_lookup _ i i' j.1 (po_tags _ _ Hok)); rewrite list_lookup_fmap, ?Hj, ?Hj'; cbn; congruence].
  destruct Hc as [(a & Ha & ->)|[Hb Hm]], Hc' as [(b & Hb' & E)|[Hb' Hm']].
  - apply (po_unique _ _ Hok j j' a b); try done. unfold aai_key. injection E as -> ->. done.
  - by destruct Hm'.
  - by subst.
  - destruct j as [[b n] t], j' as [[b' n'] t']. cbn in *. subst b b'. destruct c as [|k nm x]; [done|].
    rewrite elem_of_jobs in Hi, Hi'. f_equal. unfold machine_fp, other_machine in *.
    apply (po_machines _ _ Hok); [by eexists|by eexists|].
    destruct (decide (ToLower n = ToLower nm)) as [->|]; [|tauto]. destruct (decide (ToLower n' = ToLower nm)); [done|tauto].
Qed.

Lemma runs_jobs nc p (w w' : W) :
  plan_ok nc p → w_inv w → runs (wd := mic_World) (cycle_fp p) (execute nc p Done) w w' → errors w' = errors w →
  ∃ w1, (∀ j, j ∈ jobs p → runs (wd := mic_World) (job_fp j) (job_proc nc p j) w w1 ∧ errors w1 = errors w) ∧
    env (wd := mic_World) (cycle_fp p) w1 w' ∧ w_inv w1.
Proof.
  intros Hok Hi Hr He. rewrite execute_jobs in Hr.
  apply (runs_fork_inv (wd := mic_World) (cycle_fp p) (job_fp <$> jobs p)) in Hr as (w1 & Hch & Hk & Hrest).
  - apply runs_done_inv in Hk. destruct (Hrest Hi) as (Hi1 & Hl1 & _). pose proof (env_errors _ _ _ Hk Hi1). cbn in Hl1.
    exists w1. split; [|done]. intros j (i & Hj)%list_elem_of_lookup. split; [|lia].
    by apply (Hch i); rewrite list_lookup_fmap, Hj.
  - apply Forall2_fmap_2, Forall_Forall2_diag, Forall_forall. intros j Hj. by apply job_touches.
  - intros i Fi HFi c Hc. rewrite list_lookup_fmap in HFi. destruct (jobs p !! i) as [j|] eqn:E; [|done].
    injection HFi as <-. exists j. split; [by eapply list_elem_of_lookup_2|done].
  - intros i i' Fi Fi' Hne HFi HFi' c. rewrite list_lookup_fmap in HFi, HFi'.
    destruct (jobs p !! i) as [j|] eqn:E; [|done]. destruct (jobs p !! i') as [j'|] eqn:E'; [|done].
    injection HFi as <-. injection HFi' as <-. by eapply jobs_disjoint.
Qed.

Lemma job_runs nc p j (w w1 : W) :
  plan_ok nc p → w_inv w → j ∈ jobs p → runs (wd := mic_World) (job_fp j) (job_proc nc p j) w w1 → errors w1 = errors w →
  job_done j w w1.
Proof.
  intros Hok Hi Hj Hr He.
  destruct j as [[[] n] t]; unfold job_fp, job_proc, job_done in *; cbn [fst snd] in *.
  - split; [|done]. apply cleanUp_spec in Hr as (_ & _ & H); [by apply H| |done].
    pose proof (po_keys _ _ Hok _ Hj) as Hnd. unfold entries in Hnd. rewrite !fmap_app in Hnd.
    apply NoDup_app in Hnd as (_ & _ & [_ [_ Hnd]]%NoDup_app). done.
  - pose proof Hj as Hn. rewrite elem_of_jobs in Hn.
    assert (node_converged t n w w1) as Hc.
    { apply (node_update_converges nc (sp_newAssignedIDs p) n t (sp_nodeRefs p)); try done.
      - split; [exact (po_keys _ _ Hok _ Hj)|exact (po_own _ _ Hok _ Hj)].
      - by eapply (po_ids _ _ Hok). }
    split; [|done]. by apply Hc.
Qed.
End run.
