(* ===== verification/MicSyncSpec.v ===== *)
(** * MIC: the theorem about a whole sync cycle, and its run on a concrete cluster. *)

From S2P Require Import Prelude GoStrings Types Conversion Fixtures Regex ResourceId MicDesired MicVmss MicNode MicConsolidate Concurrency Stats CrdInterface CloudInterface MicUpdate MicUpdateFacts CloudIdentity CloudProvider Crd CrdSim MicUpdateSpec MicReconcile MicSync MicSyncFacts.

Section spec.
Context `{R : GoRange} {S C : Type} {ci : ClientInt S} {cc : CloudInt C}
  {cl : ClientLaws ci} {cll : CloudIntLaws cc}.
Abbreviation W := (mic_world S C).
Abbreviation stored_at w k := (stored (mw_store w) k).
Abbreviation errors w := (length (mw_errors w)).

(** ** What a plan consists of *)

Lemma plan_inv c nc v p current :
  plan c nc v = Ret p → sv_assigned v = Ret current →
  ∃ pods bindings idMap,
    (sp_newAssignedIDs p, sp_nodeRefs p) = createDesiredAssignedIdentityList c pods bindings idMap ∧
    computeLists current (sp_newAssignedIDs p) = Ret (sp_lists p) ∧
    plan_nodeMap c nc (sp_lists p) (sp_newAssignedIDs p) (sp_nodeRefs p) = Ret (sp_perNode p) ∧
    consolidateVMSSNodes nc (sp_perNode p) = Ret (sp_nodeMap p, sp_cleanup p).
Proof.
  intros H Hc. unfold plan, mbind, outcome_bind in H. rewrite Hc in H.
  destruct (sv_pods v) as [pods| |]; [|done|done]. destruct (sv_bindings v) as [bs| |]; [|done|done].
  destruct (sv_ids v) as [ids| |]; [|done|done].
  exists pods, bs, (convertIDListToMap (λ r, bool_decide (ValidateResourceID r = None)) ids).
  destruct (createDesiredAssignedIdentityList _ _ _ _) as [new refs].
  destruct (computeLists current new) as [st| |] eqn:Ec; [|done|done].
  destruct (plan_nodeMap c nc st new refs) as [m| |] eqn:En; [|done|done].
  destruct (consolidateVMSSNodes nc m) as [[m' cln]| |] eqn:Em; [|done|done]. by injection H as <-.
Qed.

(** The desired assigned identities are complete, unwritten and carry no finalizer. *)
Lemma desired_entries c pods bindings idMap k a :
  (createDesiredAssignedIdentityList c pods bindings idMap).1 !! k = Some a →
  aai_name a = k ∧ refs_set a = true ∧ Finalizers (aai_ObjectMeta a) = [] ∧ aai_status a = "".
Proof.
  rewrite createDesired_reference. intros [-> Ha]%keep_first_Some. apply elem_of_all_assignments in Ha as (pod & b & i & _ & ->).
  done.
Qed.

(** The objects listed from the cluster: complete, under their names, of this controller. *)
Definition current_ok (current : aai_map) : Prop :=
  ∀ k a, current !! k = Some a → aai_name a = k ∧ refs_set a = true ∧ own a.

(** What the cycle needs of the cluster it finds: nodes and scale sets that can be told apart
    by name, and resource ids that differ in more than case. *)
Record cycle_wf (nc : NodeGetter) (current : aai_map) (p : sync_plan) : Prop := {
  cw_nc : ∀ n, nc n ≠ Panic;
  cw_current : current_ok current;
  cw_names : names_distinct nc (sp_perNode p);
  cw_machines : ∀ n n', is_Some (sp_nodeMap p !! n) → is_Some (sp_nodeMap p !! n') → ToLower n = ToLower n' → n = n';
  cw_ids : ∀ n t, sp_nodeMap p !! n = Some t → distinct_ids (addUserAssignedMSIIDs t ++ removeUserAssignedMSIIDs t)
}.

Section cycle.
Context (c : MicClient) (nc : NodeGetter) (v : sync_view) (p : sync_plan) (current : aai_map).
Hypothesis Hplan : plan c nc v = Ret p.
Hypothesis Hcur : sv_assigned v = Ret current.
Hypothesis Hwf : cycle_wf nc current p.
Abbreviation new := (sp_newAssignedIDs p).

Lemma new_entries k a : new !! k = Some a →
  aai_name a = k ∧ refs_set a = true ∧ Finalizers (aai_ObjectMeta a) = [] ∧ aai_status a = "".
Proof.
  destruct (plan_inv c nc v p current Hplan Hcur) as (pods & bs & idMap & E & _).
  intros H. apply (desired_entries c pods bs idMap). by rewrite <- E.
Qed.

Lemma lists_view k : us_view (sp_lists p) k = action_entries (classify (current !! k) (new !! k)).
Proof.
  destruct (plan_inv c nc v p current Hplan Hcur) as (pods & bs & idMap & _ & E & _).
  destruct (computeLists_run current new) as (st & Est & Hst).
  - intros j a Hj. by destruct (cw_current _ _ _ Hwf j a Hj) as (_ & ? & _).
  - intros j a Hj. by apply new_entries in Hj as (_ & ? & _).
  - rewrite E in Est. injection Est as <-. apply Hst.
Qed.

(** The entry of each list under a name. *)
Lemma lists_cases k :
  let add := us_add (sp_lists p) !! k in let upd := us_after (sp_lists p) !! k in let del := us_del (sp_lists p) !! k in
  match classify (current !! k) (new !! k) with
  | Unchanged => add = None ∧ upd = None ∧ del = None
  | ToCreate a | ToRetry a => add = Some a ∧ upd = None ∧ del = None
  | ToDelete a => add = None ∧ upd = None ∧ del = Some a
  | ToUpdate b a => add = None ∧ upd = Some a ∧ del = None
  end.
Proof.
  cbv zeta. pose proof (lists_view k) as H. unfold us_view in H.
  destruct (classify (current !! k) (new !! k)); unfold action_entries in H; injection H as _ -> -> ->; done.
Qed.

(** What is known of the object that an action writes. *)
Lemma classify_object k :
  match classify (current !! k) (new !! k) with
  | Unchanged => True
  | ToCreate a => aai_name a = k ∧ own a ∧ aai_status a = ""
  | ToRetry a => aai_name a = k ∧ own a ∧ aai_status a = AssignedIDCreated
  | ToDelete a => aai_name a = k ∧ own a
  | ToUpdate b a => aai_name a = k ∧ own a ∧ aai_status a = ""
  end.
Proof.
  unfold classify. destruct (current !! k) as [o|] eqn:Eo, (new !! k) as [n|] eqn:En; try done.
  - destruct (cw_current _ _ _ Hwf k o Eo) as (Ho & _ & Hown). destruct (new_entries k n En) as (Hn & _ & Hf & Hs).
    destruct (same_assignment o n); [by case_bool_decide|]. done.
  - destruct (cw_current _ _ _ Hwf k o Eo) as (Ho & _ & Hown). done.
  - destruct (new_entries k n En) as (Hn & _ & Hf & Hs). split; [done|]. split; [|done]. unfold own, own_finalizers.
    rewrite Hf. constructor.
Qed.

Lemma plan_lists_ok : lists_ok (sp_lists p).
Proof.
  split.
  - intros k a Ha. pose proof (lists_cases k) as H. pose proof (classify_object k) as Ho. cbv zeta in H.
    destruct (classify (current !! k) (new !! k)); destruct H as (H1 & H2 & H3); rewrite H1, H2, H3 in Ha;
      destruct Ha as [Ha|[Ha|Ha]]; simplify_eq; try done; by destruct Ho.
  - intros k. pose proof (lists_cases k) as H. cbv zeta in H.
    destruct (classify (current !! k) (new !! k)); destruct H as (H1 & H2 & H3); auto.
Qed.

Lemma plan_work n : work (sp_perNode p) n =
  (on_node 546 (us_add (sp_lists p)) n, on_node 564 (us_after (sp_lists p)) n, on_node 555 (us_del (sp_lists p)) n).
Proof.
  destruct (plan_inv c nc v p current Hplan Hcur) as (_ & _ & _ & _ & _ & E & _). by apply (plan_nodeMap_work _ _ _ _ _ _ E).
Qed.

Lemma plan_consolidate : consolidateVMSSNodes nc (sp_perNode p) = Ret (sp_nodeMap p, sp_cleanup p).
Proof. by destruct (plan_inv c nc v p current Hplan Hcur) as (_ & _ & _ & _ & _ & _ & E). Qed.

Lemma plan_is_ok : plan_ok nc p.
Proof.
  pose proof (cw_nc _ _ _ Hwf) as Hnc. pose proof (cw_names _ _ _ Hwf) as Hnd.
  pose proof plan_consolidate as Hc. pose proof plan_lists_ok as Hl. pose proof plan_work as Hw.
  split.
  - intros j j' a b. by apply (job_key_unique nc p).
  - intros j. by apply (job_keys_NoDup nc p).
  - by apply (NoDup_jobs nc p).
  - intros j Hj. apply Forall_forall. intros a Ha.
    destruct (elem_of_job_entries nc p Hnc Hnd Hc Hw j a Hj) as (_ & f & m & site & k & Hf & Hk).
    { apply entries_both. exact Ha. }
    pose proof (lists_cases k) as H. pose proof (classify_object k) as Ho. cbv zeta in H.
    destruct (classify (current !! k) (new !! k)); destruct H as (H1 & H2 & H3);
      destruct Hf as [(_ & -> & _)|[(_ & -> & _)|(_ & -> & _)]]; simplify_eq; by destruct_and?.
  - apply (cw_machines _ _ _ Hwf).
  - apply (cw_ids _ _ _ Hwf).
Qed.

(** The job that works on an object of a list. *)
Lemma object_job f m site k a : field_map p f m site → m !! k = Some a →
  ∃ t, (place nc (aai_node a), t) ∈ jobs p ∧ a ∈ f t.
Proof.
  intros Hf Hk. pose proof (field_map_node p plan_work f m site (aai_node a) Hf) as Hn.
  assert (a ∈ of_node f (sp_perNode p) (aai_node a)) as Ha by (rewrite Hn; apply elem_of_on_node; eauto).
  unfold of_node in Ha. destruct (sp_perNode p !! aai_node a) as [t|] eqn:Et; [|by apply not_elem_of_nil in Ha].
  destruct (node_job nc p (cw_nc _ _ _ Hwf) (cw_names _ _ _ Hwf) plan_consolidate _ _ Et) as (t' & Hj & Hsub).
  exists t'. split; [done|]. apply Hsub; [by eapply field_map_is|done].
Qed.

Lemma place_not_gone n : node_class_of nc n ≠ Gone → (place nc n).1 = false.
Proof. unfold place. by destruct (node_class_of nc n). Qed.
End cycle.

(** What the diff asks of the cluster, for one name, given the cluster before. Nothing is
    created on a node that no longer exists. *)
Definition settled (nc : NodeGetter) (s0 s : S) (act : action) : Prop :=
  match act with
  | Unchanged => True
  | ToCreate a | ToUpdate _ a => node_class_of nc (aai_node a) ≠ Gone →
      stored s (aai_key a) = Some (content_of (with_status a AssignedIDAssigned))
  | ToRetry a => node_class_of nc (aai_node a) ≠ Gone →
      ∃ ct, stored s0 (aai_key a) = Some ct ∧
        stored s (aai_key a) = Some (mkContent (c_Spec ct) AssignedIDAssigned (c_Labels ct))
  | ToDelete a => stored s (aai_key a) = None
  end.

Lemma cycle_stored p a j (w1 w' : W) : env (wd := mic_World) (cycle_fp p) w1 w' → w_inv w1 → j ∈ jobs p →
  job_fp j (CKey (aai_key a)) → stored_at w' (aai_key a) = stored_at w1 (aai_key a).
Proof. intros He Hi Hj Hfp. apply (env_key _ a _ _ He Hi). by exists j. Qed.

Lemma cycle_job_done c nc v p current j (w w1 w' : W) :
  plan c nc v = Ret p → sv_assigned v = Ret current → cycle_wf nc current p → w_inv w →
  (∀ j, j ∈ jobs p → runs (wd := mic_World) (job_fp j) (job_proc nc p j) w w1 ∧ errors w1 = errors w) →
  env (wd := mic_World) (cycle_fp p) w1 w' → w_inv w1 → j ∈ jobs p → job_done j w w'.
Proof.
  intros Hp Hcur Hwf Hi Hruns He Hi1 Hj. destruct (Hruns j Hj) as [Hr Her].
  destruct (job_runs nc p j w w1 (plan_is_ok _ _ _ _ _ Hp Hcur Hwf) Hi Hj Hr Her) as [Hd Hc].
  assert (∀ a, job_fp j (CKey (aai_key a)) → stored_at w' (aai_key a) = stored_at w1 (aai_key a)) as Hst
    by (intros a; by apply (cycle_stored p a j)).
  assert (∀ a, a ∈ assignedIDsToDelete j.2 → job_fp j (CKey (aai_key a))) as Hfd.
  { intros a Ha. unfold job_fp. destruct (j.1.1); [by exists a|]. apply node_fp_key. auto. }
  split; [intros a Ha; rewrite Hst by auto; by apply Hd|]. intros Hb. destruct (Hc Hb) as (H1 & H2 & H3 & H4 & H5).
  assert (∀ a, a ∈ entries j.2 → job_fp j (CKey (aai_key a))) as Hfp
    by (intros a Ha; unfold job_fp; rewrite Hb; by apply node_fp_key).
  split; [|split; [|split; [|split]]].
  - intros a Ha. rewrite Hst by auto. by apply H1.
  - intros a Ha. rewrite Hst by auto. by apply H2.
  - intros a Ha. rewrite Hst by auto. by apply H3.
  - intros a Ha. rewrite Hst by auto. by apply H4.
  - intros x. rewrite <- H5. apply (env_machine _ _ _ _ _ x He Hi1). exists j. split; [done|].
    unfold job_fp. rewrite Hb. right. apply machine_fp_self.
Qed.

Lemma cycle_run c nc v p current (w w' : W) :
  plan c nc v = Ret p → sv_assigned v = Ret current → cycle_wf nc current p → w_inv w →
  runs (wd := mic_World) (cycle_fp p) (execute nc p Done) w w' → mw_errors w' = mw_errors w →
  (∀ k, settled nc (mw_store w) (mw_store w') (classify (current !! k) (sp_newAssignedIDs p !! k))) ∧
  (∀ n t, sp_nodeMap p !! n = Some t → ∀ x, cl_assigned (mw_cloud w') (isvmss t) n x =
     wanted_after (addUserAssignedMSIIDs t) (removeUserAssignedMSIIDs t) (cl_assigned (mw_cloud w) (isvmss t) n x) x).
Proof.
  intros Hp Hcur Hwf Hi Hr He. assert (errors w' = errors w) as He' by congruence.
  destruct (runs_jobs nc p w w' (plan_is_ok _ _ _ _ _ Hp Hcur Hwf) Hi Hr He') as (w1 & Hruns & Henv & Hi1).
  assert (∀ j, j ∈ jobs p → job_done j w w') as Hdone by (intros j; by apply (cycle_job_done c nc v p current j w w1 w')).
  split.
  - intros k. pose proof (lists_cases c nc v p current Hp Hcur Hwf k) as Hl. cbv zeta in Hl.
    pose proof (classify_object c nc v p current Hp Hcur Hwf k) as Ho.
    assert (∀ f m site a, field_map p f m site → m !! k = Some a → ∃ t, (place nc (aai_node a), t) ∈ jobs p ∧ a ∈ f t) as Hjob
      by (intros f m site a; by eapply object_job).
    destruct (classify (current !! k) (sp_newAssignedIDs p !! k)) as [|a|a|a|b a]; cbn [settled]; [done| | | |];
      destruct Hl as (H1 & H2 & H3).
    + intros Hg. destruct (Hjob assignedIDsToCreate (us_add (sp_lists p)) 546 a) as (t & Hj & Ha); [by left|done|].
      destruct (Hdone _ Hj) as [_ Hc]. destruct Hc as (Hc & _); [by apply place_not_gone|]. apply Hc; [done|]. by destruct Ho as (_ & _ & ?).
    + intros Hg. destruct (Hjob assignedIDsToCreate (us_add (sp_lists p)) 546 a) as (t & Hj & Ha); [by left|done|].
      destruct (Hdone _ Hj) as [_ Hc]. destruct Hc as (_ & _ & Hc & _); [by apply place_not_gone|].
      destruct (Hc a) as (ct & Hct & Hbefore); [apply elem_of_app; by left|]. exists ct. split; [|done]. apply Hbefore.
      destruct Ho as (_ & _ & ->). done.
    + destruct (Hjob assignedIDsToDelete (us_del (sp_lists p)) 555 a) as (t & Hj & Ha); [by right; right|done|].
      destruct (Hdone _ Hj) as [Hd _]. by apply Hd.
    + intros Hg. destruct (Hjob assignedIDsToUpdate (us_after (sp_lists p)) 564 a) as (t & Hj & Ha); [by right; left|done|].
      destruct (Hdone _ Hj) as [_ Hc]. destruct Hc as (_ & Hc & _); [by apply place_not_gone|]. apply Hc; [done|]. by destruct Ho as (_ & _ & ?).
  - intros n t Hn. assert (((false, n), t) ∈ jobs p) as Hj by (by apply elem_of_jobs).
    destruct (Hdone _ Hj) as [_ Hc]. destruct Hc as (_ & _ & _ & _ & Hc); [done|]. exact Hc.
Qed.

(** C3: a sync cycle converges. Let [p] be the plan that the listed pods, bindings and identities
    give. When its goroutines, interleaved in any way with each other and with the rest of
    the system, end without a logged error, every name is settled as the three-way diff of
    the current and the desired objects asks: what is new is stored and [Assigned], what was
    replaced is stored with its new content, what is no longer wanted is gone; and every
    machine and scale set has exactly the identities that its lists ask for. *)
Theorem sync_cycle_converges c nc v p current (w w' : W) :
  plan c nc v = Ret p → sv_assigned v = Ret current → cycle_wf nc current p → w_inv w →
  runs (wd := mic_World) (cycle_fp p) (execute nc p Done) w w' → mw_errors w' = mw_errors w →
  (∀ k, settled nc (mw_store w) (mw_store w') (classify (current !! k) (sp_newAssignedIDs p !! k))) ∧
  (∀ n t, sp_nodeMap p !! n = Some t → ∀ x, cl_assigned (mw_cloud w') (isvmss t) n x =
     wanted_after (addUserAssignedMSIIDs t) (removeUserAssignedMSIIDs t) (cl_assigned (mw_cloud w) (isvmss t) n x) x).
Proof. apply cycle_run. Qed.
End spec.

(** ** A concrete cycle

    Pod [p1] with identity [a] is gone, pod [p2] with identity [b] is new, on node [n1]. *)

Definition nc_one : NodeGetter := λ n,
  Ret (mkNode n "azure:///subscriptions/s/resourceGroups/rg/providers/Microsoft.Compute/virtualMachines/m").

Definition p1_assigned : AzureAssignedIdentity := retype_assigned (mk_assigned "p1" "ns" "n1" "a" "ba" AssignedIDAssigned).
Definition current1 : aai_map := by_name [p1_assigned].

Definition view1 : sync_view := mkSyncView (Ret [mk_pod "ns" "p2" "n1" "sel"])
  (Ret [mk_binding "ns" "bb" "b" "sel"]) (Ret [mk_identity "ns" "b"]) (Ret current1).

Definition client0 : MicClient := mkMicClient false 20 (Some ∅).

Definition zeroPlan : sync_plan := mkSyncPlan false ∅ ∅ (mkUpdateState ∅ ∅ ∅ ∅) ∅ ∅ [].
Definition plan1 : sync_plan :=
  match plan (R := canonical_range) client0 nc_one view1 with Ret p => p | _ => zeroPlan end.

Definition cycle_world : mic_world cluster (cloud machines) :=
  mkMicWorld (CreateAssignedIdentity p1_assigned ∅).2
    (sim_cloud {[(false, "n1") := {[ToLower (rid "a") := Some newIdentityValue]}]}) [] [] ∅.

Definition cycle_proc : proc (mic_world cluster (cloud machines)) := execute (R := canonical_range) nc_one plan1 Done.
Definition cycle_world' : mic_world cluster (cloud machines) := default cycle_world (run_proc cycle_proc cycle_world).

Lemma plan1_runs : plan (R := canonical_range) client0 nc_one view1 = Ret plan1.
Proof.
  unfold plan1. assert (match plan (R := canonical_range) client0 nc_one view1 with Ret _ => true | _ => false end = true) as H
    by (vm_compute; reflexivity).
  destruct (plan (R := canonical_range) client0 nc_one view1); done.
Qed.

Lemma cycle_ends : run_proc cycle_proc cycle_world = Some cycle_world'.
Proof.
  unfold cycle_world'. assert (bool_decide (is_Some (run_proc cycle_proc cycle_world)) = true) as H by (vm_compute; reflexivity).
  apply bool_decide_eq_true in H as [w ->]. done.
Qed.

Lemma nc_one_class n v : node_class_of nc_one n ≠ InVMSS v.
Proof. unfold node_class_of, nc_one. intros H. vm_compute in H. discriminate H. Qed.

Lemma plan1_machines : map_Forall (λ n t, n = "n1" ∧ addUserAssignedMSIIDs t = addUserAssignedMSIIDs track1 ∧
  removeUserAssignedMSIIDs t = removeUserAssignedMSIIDs track1 ∧ isvmss t = false) (sp_nodeMap plan1).
Proof. by_computation. Qed.

Lemma cycle1_wf : cycle_wf (ci := crd_client) (cl := crd_laws) nc_one current1 plan1.
Proof.
  split.
  - done.
  - intros k a Hk. unfold current1, by_name in Hk. simpl in Hk.
    destruct (decide (k = "p1-ns-a")) as [->|Hne].
    + rewrite lookup_insert_eq in Hk. injection Hk as <-. split; [reflexivity|]. split; [reflexivity|]. constructor.
    + by rewrite lookup_insert_ne, lookup_empty in Hk.
  - split; [|by intros n v _ ?%nc_one_class]. by intros n1 n2 v1 v2 _ _ ?%nc_one_class.
  - intros n n' [t Ht] [t' Ht'] _. destruct (plan1_machines n t Ht) as [-> _]. by destruct (plan1_machines n' t' Ht') as [-> _].
  - intros n t Ht. destruct (plan1_machines n t Ht) as (_ & -> & -> & _). exact track1_distinct.
Qed.

Lemma sync_cycle_converges_witness :
  stored (ClientLaws := crd_laws) (mw_store cycle_world') ("default", "p1-ns-a") = None ∧
  c_Status <$> stored (ClientLaws := crd_laws) (mw_store cycle_world') ("default", "p2-ns-b") = Some AssignedIDAssigned ∧
  cl_assigned (mw_cloud cycle_world') false "n1" (ToLower (rid "b")) = true ∧
  cl_assigned (mw_cloud cycle_world') false "n1" (ToLower (rid "a")) = false.
Proof.
  destruct (sync_cycle_converges (ci := crd_client) (cl := crd_laws) (R := canonical_range) client0 nc_one view1 plan1 current1
    cycle_world cycle_world' plan1_runs eq_refl cycle1_wf) as [Hs Hm].
  - apply crd_ok_create; [constructor|]. intros ns name o. simpl. by rewrite lookup_empty.
  - exact (run_proc_runs _ _ _ _ cycle_ends).
  - vm_compute. reflexivity.
  - split; [|split].
    + assert (classify (current1 !! "p1-ns-a") (sp_newAssignedIDs plan1 !! "p1-ns-a") = ToDelete p1_assigned) as E
        by (vm_compute; reflexivity).
      pose proof (Hs "p1-ns-a") as H. rewrite E in H. exact H.
    + assert (match classify (current1 !! "p2-ns-b") (sp_newAssignedIDs plan1 !! "p2-ns-b") with
        | ToCreate a => bool_decide (aai_key a = ("default", "p2-ns-b") ∧ aai_node a = "n1") | _ => false end = true) as E
        by (vm_compute; reflexivity).
      pose proof (Hs "p2-ns-b") as H. destruct (classify _ _) as [|a|a|a|b a]; try discriminate E.
      apply bool_decide_eq_true in E as [E1 E2]. cbn [settled] in H. rewrite E1, E2 in H. rewrite H; [reflexivity|].
      intros Hg. vm_compute in Hg. discriminate Hg.
    + assert (is_Some (sp_nodeMap plan1 !! "n1")) as [t Ht] by (apply (bool_decide_unpack _); vm_compute; exact I).
      destruct (plan1_machines "n1" t Ht) as (_ & Ha & Hr & Hv). pose proof (Hm "n1" t Ht) as H. rewrite Ha, Hr, Hv in H.
      split; rewrite H; vm_compute; reflexivity.
Defined.
