(* ===== verification/MicQuiet.v ===== *)
(** * MIC: a sync cycle that succeeds leaves nothing to do for the next one.

    The reconciliation is level triggered: every cycle lists the cluster again and computes
    the difference anew. The theorem below says that the loop comes to rest: after a cycle
    without errors, a second cycle over the same pods, bindings and identities finds every
    name unchanged, reports no work and starts no goroutine. *)

From S2P Require Import Prelude GoStrings Types Conversion Fixtures Regex ResourceId MicDesired MicVmss MicNode MicConsolidate Concurrency Stats CrdInterface CloudInterface MicUpdate MicUpdateFacts CloudIdentity CloudProvider Crd CrdSim MicUpdateSpec MicReconcile MicSync MicSyncFacts MicSyncSpec.

(** ** The comparison of assignments *)

(** It reads the spec of the objects only, and of the references neither kind nor version. *)
Lemma match_spec x x' y : aai_Spec x = aai_Spec x' → matchAssignedID x y = matchAssignedID x' y.
Proof. intros E. unfold matchAssignedID. by rewrite E. Qed.

Lemma match_retype x y : matchAssignedID (retype_assigned x) y = matchAssignedID x y.
Proof.
  unfold matchAssignedID, retype_assigned. destruct x as [? ? [? [i|] [b|] ? ? ? ?] ?]; done.
Qed.

Lemma same_assignment_refl a : refs_set a = true → same_assignment a a = true.
Proof.
  intros (i & b & Hi & Hb)%refs_set_spec. unfold same_assignment, matchAssignedID. rewrite Hi, Hb. cbn.
  rewrite (bool_decide_true (_ ∧ _)) by done. cbn. apply bool_decide_eq_true. by rewrite bool_decide_true.
Qed.

(** An object written from [a], as it is read back. *)
Lemma same_assignment_written a b n : aai_Spec b = aai_Spec (retype_assigned a) → same_assignment b n = same_assignment a n.
Proof. intros E. unfold same_assignment. by rewrite (match_spec _ _ _ E), match_retype. Qed.

Lemma same_assignment_spec a b n : aai_Spec b = aai_Spec a → same_assignment b n = same_assignment a n.
Proof. intros E. unfold same_assignment. by rewrite (match_spec _ _ _ E). Qed.

Lemma same_assignment_node a b : same_assignment a b = true → aai_node a = aai_node b.
Proof.
  unfold same_assignment. rewrite bool_decide_eq_true. unfold matchAssignedID.
  destruct (aas_AzureBindingRef (aai_Spec a)), (aas_AzureBindingRef (aai_Spec b)); try done. cbn.
  destruct (negb _); [done|]. destruct (aas_AzureIdentityRef (aai_Spec a)), (aas_AzureIdentityRef (aai_Spec b)); try done. cbn.
  intros [= H]. apply bool_decide_eq_true in H. naive_solver.
Qed.

(** ** Listing the cluster *)

Section quiet.
Context `{R : GoRange} {S C : Type} {ci : ClientInt S} {cc : CloudInt C}
  {cl : ClientLaws ci} {cll : CloudIntLaws cc}.
Abbreviation W := (mic_world S C).
Abbreviation stored_at w k := (stored (mw_store w) k).

(** The map that a cycle lists shows the cluster: every entry is an object of the cluster, and
    every object of the cluster is in the map under its name. *)
Record listing_of (s : S) (m : aai_map) : Prop := {
  ls_sound : ∀ k a, m !! k = Some a → aai_name a = k ∧ refs_set a = true ∧
    stored s (aai_key a) = Some (mkContent (aai_Spec a) (aai_status a) (Labels (aai_ObjectMeta a)));
  ls_complete : ∀ ns k ct, stored s (ns, k) = Some ct → ∃ a, m !! k = Some a ∧ aai_key a = (ns, k)
}.

Lemma listed_object s m k ns ct : listing_of s m → stored s (ns, k) = Some ct →
  ∃ a, m !! k = Some a ∧ aai_Spec a = c_Spec ct ∧ aai_status a = c_Status ct.
Proof.
  intros Hl Hs. destruct (ls_complete _ _ Hl _ _ _ Hs) as (a & Ha & Hk). exists a. split; [done|].
  destruct (ls_sound _ _ Hl _ _ Ha) as (_ & _ & E). rewrite Hk, Hs in E. by injection E as ->.
Qed.

Lemma not_listed s m k : listing_of s m → (∀ ns, stored s (ns, k) = None) → m !! k = None.
Proof.
  intros Hl Hs. apply eq_None_not_Some. intros [a Ha]. destruct (ls_sound _ _ Hl _ _ Ha) as (En & _ & E).
  unfold aai_key in E. rewrite En in E. by rewrite Hs in E.
Qed.

Lemma listing_refs s m : listing_of s m → refs_wf m.
Proof. intros Hl k a Hk. by destruct (ls_sound _ _ Hl k a Hk) as (_ & ? & _). Qed.

(** ** A cycle with nothing to do *)

Lemma map_eq_empty {A} (m : gmap string A) : (∀ k, m !! k = None) → m = ∅.
Proof. intros H. by apply map_empty. Qed.

Lemma consolidate_nothing nc : consolidateVMSSNodes nc ∅ = Ret (∅, []).
Proof.
  unfold consolidateVMSSNodes. rewrite (proj2 (go_range_nil 1291 (∅ : track_map)) eq_refl). cbn.
  by rewrite (proj2 (go_range_nil 1322 (∅ : gmap string (list string))) eq_refl).
Qed.

Definition idle_state : update_state := mkUpdateState ∅ ∅ ∅ ∅.

Lemma computeLists_nothing (old new : aai_map) : refs_wf old → refs_wf new →
  (∀ k, classify (old !! k) (new !! k) = Unchanged) → computeLists old new = Ret idle_state.
Proof.
  intros Ho Hn Hu. destruct (computeLists_run old new Ho Hn) as ([b a add del] & -> & H).
  assert (∀ k, b !! k = None ∧ a !! k = None ∧ add !! k = None ∧ del !! k = None) as E.
  { intros k. specialize (H k). rewrite Hu in H. by injection H. }
  unfold idle_state. do 2 f_equal; apply map_eq_empty; intros k; by destruct (E k) as (? & ? & ? & ?).
Qed.

Lemma plan_nodeMap_nothing c nc new refs : plan_nodeMap c nc idle_state new refs = Ret ∅.
Proof.
  unfold plan_nodeMap, idle_state, nonempty. cbn [us_before us_after us_add us_del].
  rewrite map_size_empty. cbn. unfold convertAssignedIDListToMap.
  by rewrite !(proj2 (go_range_nil _ (∅ : aai_map)) eq_refl).
Qed.

Lemma plan_nothing c nc v pods bs ids next new refs :
  sv_pods v = Ret pods → sv_bindings v = Ret bs → sv_ids v = Ret ids → sv_assigned v = Ret next →
  createDesiredAssignedIdentityList c pods bs
    (convertIDListToMap (λ r, bool_decide (ValidateResourceID r = None)) ids) = (new, refs) →
  refs_wf next → refs_wf new → (∀ k, classify (next !! k) (new !! k) = Unchanged) →
  plan c nc v = Ret (mkSyncPlan false new refs idle_state ∅ ∅ []).
Proof.
  intros E1 E2 E3 E4 E5 Hn Hw Hu. unfold plan, mbind, outcome_bind. rewrite E1, E2, E3, E4, E5.
  by rewrite computeLists_nothing, plan_nodeMap_nothing, consolidate_nothing by done.
Qed.

Lemma execute_nothing nc p (k : proc W) : sp_cleanup p = [] → sp_nodeMap p = ∅ → execute nc p k = Fork [] k.
Proof.
  intros Hc Hm. rewrite execute_jobs. unfold jobs.
  by rewrite Hc, Hm, (proj2 (go_range_nil 1031 (∅ : track_map)) eq_refl).
Qed.

(** ** What the cycle leaves *)

Lemma plan_lists c nc v p current : plan c nc v = Ret p → sv_assigned v = Ret current →
  ∃ pods bs ids, sv_pods v = Ret pods ∧ sv_bindings v = Ret bs ∧ sv_ids v = Ret ids ∧
    createDesiredAssignedIdentityList c pods bs
      (convertIDListToMap (λ r, bool_decide (ValidateResourceID r = None)) ids) = (sp_newAssignedIDs p, sp_nodeRefs p).
Proof.
  unfold plan, mbind, outcome_bind. intros H Hc. rewrite Hc in H.
  destruct (sv_pods v) as [pods| |]; [|done|done]. destruct (sv_bindings v) as [bs| |]; [|done|done].
  destruct (sv_ids v) as [ids| |]; [|done|done]. exists pods, bs, ids. do 3 (split; [done|]).
  destruct (createDesiredAssignedIdentityList _ _ _ _) as [n refs].
  destruct (computeLists _ _) as [st| |]; [|done|done]. destruct (plan_nodeMap _ _ _ _ _) as [m| |]; [|done|done].
  destruct (consolidateVMSSNodes _ _) as [[m' cln]| |]; [|done|done]. by injection H as <-.
Qed.

Section after.
Context (c : MicClient) (nc : NodeGetter) (v : sync_view) (p : sync_plan) (current : aai_map) (w w' : W).
Hypothesis Hplan : plan c nc v = Ret p.
Hypothesis Hcur : sv_assigned v = Ret current.
Hypothesis Hwf : cycle_wf nc current p.
Abbreviation new := (sp_newAssignedIDs p).

(** The keys that the cycle works on are those of its lists. *)
Lemma cycle_key (key : string * string) : cycle_fp p (CKey key) →
  ∃ a, aai_key a = key ∧ (us_add (sp_lists p) !! key.2 = Some a ∨ us_after (sp_lists p) !! key.2 = Some a ∨
    us_del (sp_lists p) !! key.2 = Some a).
Proof.
  intros (j & Hj & [(a & Ha & Hk)|(_ & [])]%job_fp_entries). injection Hk as ->. exists a. split; [done|].
  destruct (elem_of_job_entries nc p (cw_nc _ _ _ Hwf) (cw_names _ _ _ Hwf)
    (plan_consolidate c nc v p current Hplan Hcur) (plan_work c nc v p current Hplan Hcur) j a Hj Ha)
    as (_ & f & m & site & k & Hf & Hk').
  pose proof (field_map_name p (plan_lists_ok c nc v p current Hplan Hcur Hwf) f m site k a Hf Hk') as En. cbn [aai_key snd].
  rewrite En. by destruct Hf as [(_ & -> & _)|[(_ & -> & _)|(_ & -> & _)]]; auto.
Qed.

Lemma cycle_key_action ns k : cycle_fp p (CKey (ns, k)) →
  match classify (current !! k) (new !! k) with
  | Unchanged => False
  | ToCreate a | ToRetry a | ToDelete a | ToUpdate _ a => aai_key a = (ns, k)
  end.
Proof.
  intros (a & Ha & Hin)%cycle_key. pose proof (lists_cases c nc v p current Hplan Hcur Hwf k) as H. cbv zeta in H. cbn [snd] in Hin.
  destruct (classify (current !! k) (new !! k)); destruct H as (H1 & H2 & H3); rewrite H1, H2, H3 in Hin;
    destruct Hin as [?|[?|?]]; congruence.
Qed.

Lemma cycle_key_in k a :
  us_del (sp_lists p) !! k = Some a ∨
  ((us_add (sp_lists p) !! k = Some a ∨ us_after (sp_lists p) !! k = Some a) ∧ node_class_of nc (aai_node a) ≠ Gone) →
  cycle_fp p (CKey (aai_key a)).
Proof.
  assert (∀ f m site, field_map p f m site → m !! k = Some a → ∃ t, (place nc (aai_node a), t) ∈ jobs p ∧ a ∈ f t) as Hjob
    by (intros f m site; by eapply object_job).
  intros [H|[[H|H] Hg%place_not_gone]].
  - destruct (Hjob assignedIDsToDelete (us_del (sp_lists p)) 555) as (t & Hj & Ha); [by right; right|done|].
    exists (place nc (aai_node a), t). split; [done|]. unfold job_fp. destruct (_.1); [by exists a|].
    apply node_fp_key. auto.
  - destruct (Hjob assignedIDsToCreate (us_add (sp_lists p)) 546) as (t & Hj & Ha); [by left|done|].
    exists (place nc (aai_node a), t). split; [done|]. unfold job_fp. cbn [fst]. rewrite Hg. apply node_fp_key.
    unfold MicUpdateFacts.entries. rewrite !elem_of_app. auto.
  - destruct (Hjob assignedIDsToUpdate (us_after (sp_lists p)) 564) as (t & Hj & Ha); [by right; left|done|].
    exists (place nc (aai_node a), t). split; [done|]. unfold job_fp. cbn [fst]. rewrite Hg. apply node_fp_key.
    unfold MicUpdateFacts.entries. rewrite !elem_of_app. auto.
Qed.

Context (next : aai_map).
Hypothesis Hbefore : listing_of (mw_store w) current.
Hypothesis Hafter : listing_of (mw_store w') next.
Hypothesis Hsettled : ∀ k, settled nc (mw_store w) (mw_store w') (classify (current !! k) (new !! k)).
Hypothesis Halone : ∀ key, ¬ cycle_fp p (CKey key) → stored_at w' key = stored_at w key.
Hypothesis Hnodes : ∀ k a, new !! k = Some a → node_class_of nc (aai_node a) ≠ Gone.

(** A key that the cycle does not touch holds what was listed before. *)
Lemma untouched_listed ns k : ¬ cycle_fp p (CKey (ns, k)) → is_Some (stored_at w' (ns, k)) →
  ∃ o, current !! k = Some o ∧ aai_key o = (ns, k).
Proof. intros Hf [ct Hct]. rewrite Halone in Hct by done. by apply (ls_complete _ _ Hbefore) in Hct. Qed.

(** An assigned object of the cluster that has the wanted spec is the one listed next. *)
Lemma listed_next a n ct : stored_at w' (aai_key a) = Some ct → aai_name a = aai_name n →
  new !! aai_name n = Some n → c_Status ct ≠ AssignedIDCreated →
  (∀ b, aai_Spec b = c_Spec ct → same_assignment b n = true) → classify (next !! aai_name n) (new !! aai_name n) = Unchanged.
Proof.
  intros Hs En Hn Hst Hsame. destruct (listed_object _ _ _ _ _ Hafter Hs) as (b & Hb & Hspec & Hbs).
  rewrite En in Hb. rewrite Hb, Hn. unfold classify. rewrite Hsame, bool_decide_false by congruence. done.
Qed.

Lemma next_unchanged k : classify (next !! k) (new !! k) = Unchanged.
Proof.
  pose proof (Hsettled k) as Hk. pose proof (λ ns, cycle_key_action ns k) as Hact.
  pose proof (λ a, new_entries c nc v p current Hplan Hcur k a) as Hnew. pose proof (classify_object c nc v p current Hplan Hcur Hwf k) as Hobj.
  pose proof (λ ns, untouched_listed ns k) as Hun. unfold classify in Hk, Hact, Hobj.
  destruct (new !! k) as [n|] eqn:En.
  - destruct (Hnew n eq_refl) as (Enk & Hrn & _ & _). pose proof (Hnodes _ _ En) as Hgone. rewrite <- Enk in En |- *. rewrite <- En.
    destruct (current !! k) as [o|] eqn:Eo.
    + pose proof (ls_sound _ _ Hbefore _ _ Eo) as (Eok & Hro & Hso).
      destruct (same_assignment o n) eqn:Esame; [case_bool_decide as Hst|].
      * destruct Hk as (ct & Hct & Hk); [by rewrite (same_assignment_node _ _ Esame)|]. rewrite Hso in Hct. injection Hct as <-.
        eapply (listed_next o n); [exact Hk|congruence|done|done|]. intros b Hb. by rewrite (same_assignment_spec o).
      * eapply (listed_next o n); [rewrite Halone; [exact Hso|]|congruence|done|exact Hst|].
        -- unfold aai_key. rewrite Eok. by intros ?%Hact.
        -- intros b Hb. by rewrite (same_assignment_spec o).
      * eapply (listed_next (update_value o n) n); [by apply Hk|by rewrite (proj1 Hobj)|done|done|].
        intros b Hb. rewrite (same_assignment_written n); [by apply same_assignment_refl|done].
    + eapply (listed_next n n); [by apply Hk|done|done|done|].
      intros b Hb. rewrite (same_assignment_written n); [by apply same_assignment_refl|done].
  - rewrite (not_listed (mw_store w') next k Hafter); [done|]. intros ns. apply eq_None_not_Some. intros Hs.
    destruct (current !! k) as [o|] eqn:Eo.
    + cbn [settled] in Hk. destruct (decide (aai_key o = (ns, k))) as [E|E].
      * rewrite <- E, Hk in Hs. by destruct Hs.
      * destruct (Hun ns) as (o' & Ho' & E'); [by intros ?%Hact|done|]. congruence.
    + destruct (Hun ns) as (o' & Ho' & E'); [by intros ?%Hact|done|]. congruence.
Qed.
End after.

(** C4: a cycle that ends without a logged error leaves nothing to do. When nobody else wrote
    the objects that the cycle did not work on, and no wanted node has disappeared, the next
    cycle that lists the cluster with the same pods, bindings and identities wants the same
    assigned identities, counts no work and starts no goroutine: the loop does its bookkeeping,
    a pause not included, and waits for the next event. *)
Theorem cycle_then_quiet `{cy : !CycleLib W} c nc nc' v p current next (w w' : W) wakes (cycles workDone : nat) :
  plan c nc v = Ret p → sv_assigned v = Ret current → cycle_wf nc current p → w_inv w →
  listing_of (mw_store w) current →
  runs (wd := mic_World) (cycle_fp p) (execute nc p Done) w w' → mw_errors w' = mw_errors w →
  (∀ key, ¬ cycle_fp p (CKey key) → stored_at w' key = stored_at w key) →
  (∀ k a, sp_newAssignedIDs p !! k = Some a → node_class_of nc (aai_node a) ≠ Gone) →
  listing_of (mw_store w') next →
  let v' := mkSyncView (sv_pods v) (sv_bindings v) (sv_ids v) (Ret next) in
  (∃ p', plan c nc' v' = Ret p' ∧ sp_newAssignedIDs p' = sp_newAssignedIDs p ∧ sp_workDone p' = false ∧
     sp_nodeMap p' = ∅ ∧ sp_cleanup p' = []) ∧
  sync_loop (S := S) c (WakeCycle nc' v' :: wakes) cycles workDone =
    begin_cycle (note_planned (Fork [] (note (end_cycle false (Nat.succ cycles)) (sync_loop c wakes (Nat.succ cycles) workDone)))).
Proof.
  intros Hp Hcur Hwf Hi Hb Hr He Halone Hnodes Ha v'.
  destruct (cycle_run c nc v p current w w' Hp Hcur Hwf Hi Hr He) as [Hs _].
  destruct (plan_lists c nc v p current Hp Hcur) as (pods & bs & ids & E1 & E2 & E3 & E4).
  assert (plan c nc' v' = Ret (mkSyncPlan false (sp_newAssignedIDs p) (sp_nodeRefs p) idle_state ∅ ∅ [])) as Hp'.
  { apply (plan_nothing _ _ v' pods bs ids next); try done; [by eapply listing_refs| |].
    - intros k a Hk. by destruct (new_entries c nc v p current Hp Hcur k a Hk) as (_ & ? & _).
    - intros k. by eapply next_unchanged. }
  split; [by eexists|]. cbn [sync_loop]. rewrite Hp'. by rewrite execute_nothing.
Qed.
End quiet.

(** ** Where the listings come from *)

Abbreviation v1_key o := (Namespace (v1aai_ObjectMeta o), Name (v1aai_ObjectMeta o)).

Lemma listed_map_from (l : list V1AzureAssignedIdentity) (acc : aai_map) :
  foldM (λ result assignedID,
    match assignedID with
    | ItemAssignedID o => Ret (<[Name (v1aai_ObjectMeta o) := listed_assigned o]> result)
    | _ => Fail (failed_cast assignedID AzureAssignedIDResource)
    end) acc (all_assigned l) =
  Ret (foldl (λ m o, <[Name (v1aai_ObjectMeta o) := listed_assigned o]> m) acc l).
Proof. revert acc. induction l as [|o l IH]; intros acc; [done|]. cbn. by rewrite <- IH. Qed.

Lemma listed_map_lookup l (acc : aai_map) k a : NoDup ((λ o, Name (v1aai_ObjectMeta o)) <$> l) →
  foldl (λ (m : aai_map) o, <[Name (v1aai_ObjectMeta o) := listed_assigned o]> m) acc l !! k = Some a ↔
  (∃ o, o ∈ l ∧ Name (v1aai_ObjectMeta o) = k ∧ a = listed_assigned o) ∨
  (acc !! k = Some a ∧ k ∉ (λ o, Name (v1aai_ObjectMeta o)) <$> l).
Proof.
  revert acc. induction l as [|o l IH]; intros acc; cbn [foldl fmap list_fmap]; [set_solver|].
  intros [Ho Hl]%NoDup_cons. rewrite IH by done. destruct (decide (Name (v1aai_ObjectMeta o) = k)) as [<-|Hne].
  - rewrite lookup_insert_eq. split.
    + intros [(o' & Ho' & E & ->)|[[= <-] _]]; left; [exists o'|exists o]; set_solver.
    + intros [(o' & [->|Ho']%elem_of_cons & E & ->)|[_ []%not_elem_of_cons]]; [right; done| |done].
      left. by exists o'.
  - rewrite lookup_insert_ne by done. set_solver.
Qed.

(** When an informer's store holds the objects of the cluster, no two of the same name,
    [ListAssignedIDsInMap] returns a listing of it. *)
Lemma ListAssignedIDsInMap_listing {S : Type} {api : CrdAPI S} {laws : CrdAPILaws api}
    (s : S) (l : list V1AzureAssignedIdentity) :
  (∀ ns name o, api_obj s ns name = Some o ↔ o ∈ l ∧ v1_key o = (ns, name)) →
  NoDup ((λ o, Name (v1aai_ObjectMeta o)) <$> l) →
  ∃ m, ListAssignedIDsInMap (all_assigned l) = Ret m ∧ listing_of (cl := crd_laws) s m.
Proof.
  intros Hl Hnd. eexists. split; [apply (listed_map_from l ∅)|]. split.
  - intros k a [(o & Ho & <- & ->)|[[=] _]]%listed_map_lookup; [|done].
    split; [done|]. split; [apply ConvertV1_refs_set|]. cbn. unfold crd_stored. cbn.
    by rewrite (proj2 (Hl (Namespace (v1aai_ObjectMeta o)) (Name (v1aai_ObjectMeta o)) o) (conj Ho eq_refl)).
  - intros ns k ct. cbn. unfold crd_stored. cbn. intros (o & [Ho [= Hns Hk]]%Hl & _)%fmap_Some.
    exists (listed_assigned o). split; [|cbn; unfold aai_key; cbn; by rewrite Hns, Hk].
    apply listed_map_lookup; [done|]. left. by exists o.
Qed.

(** The objects of the simulated cluster. *)
Definition sim_objects (s : cluster) : list V1AzureAssignedIdentity := fst <$> (map_to_list s).*2.

Lemma sim_listing (s : cluster) :
  map_Forall (λ k ot, v1_key ot.1 = k) s → NoDup ((λ o, Name (v1aai_ObjectMeta o)) <$> sim_objects s) →
  ∃ m, ListAssignedIDsInMap (all_assigned (sim_objects s)) = Ret m ∧ listing_of (cl := crd_laws) s m.
Proof.
  intros Hk Hnd. apply ListAssignedIDsInMap_listing; [|done]. intros ns name o. cbn. unfold sim_objects.
  rewrite fmap_Some, list_elem_of_fmap. split.
  - intros ([o' t] & Hs & ->). split; [|exact (Hk _ _ Hs)]. exists (o', t). split; [done|].
    apply list_elem_of_fmap. exists ((ns, name), (o', t)). by rewrite elem_of_map_to_list.
  - intros [([o' t] & -> & ([k ot] & -> & Hin%elem_of_map_to_list)%list_elem_of_fmap) E].
    exists ot. pose proof (Hk _ _ Hin) as Hkk. cbn in *. rewrite <- E, Hkk. done.
Qed.

(** ** The cycle of [cycle_world], and the next one *)

Definition next1 : aai_map :=
  match ListAssignedIDsInMap (all_assigned (sim_objects (mw_store cycle_world'))) with Ret m => m | _ => ∅ end.

Lemma next1_listing : listing_of (cl := crd_laws) (mw_store cycle_world') next1.
Proof.
  destruct (sim_listing (mw_store cycle_world')) as (m & E & Hm).
  - by_computation.
  - by_computation.
  - unfold next1. by rewrite E.
Qed.

Lemma current1_listing : listing_of (cl := crd_laws) (mw_store cycle_world) current1.
Proof.
  split.
  - intros k a Hk. unfold current1, by_name in Hk. simpl in Hk.
    apply lookup_insert_Some in Hk as [[<- <-]|[_ Hk]]; [|by rewrite lookup_empty in Hk].
    split; [reflexivity|]. split; [reflexivity|]. vm_compute. reflexivity.
  - assert (map_Forall (λ k _, k = ("default", "p1-ns-a")) (mw_store cycle_world)) as H by by_computation.
    intros ns k ct. cbn. unfold crd_stored. cbn. intros (o & (ot & Hs & _)%fmap_Some & _)%fmap_Some.
    apply H in Hs as [= -> ->]. exists p1_assigned. split; reflexivity.
Qed.

(** The cycle works on the objects of both pods. *)
Lemma cycle1_keys key : ¬ cycle_fp (R := canonical_range) plan1 (CKey key) →
  key ≠ ("default", "p1-ns-a") ∧ key ≠ ("default", "p2-ns-b").
Proof.
  intros Hf. pose proof (cycle_key_in (R := canonical_range) (cl := crd_laws) client0 nc_one view1 plan1 current1 plan1_runs eq_refl cycle1_wf) as Hin.
  split; intros ->; apply Hf.
  - assert (us_del (sp_lists plan1) !! "p1-ns-a" = Some p1_assigned) as E by (vm_compute; reflexivity).
    apply (Hin "p1-ns-a" p1_assigned). by left.
  - assert (match us_add (sp_lists plan1) !! "p2-ns-b" with
      | Some a => bool_decide (aai_key a = ("default", "p2-ns-b") ∧ node_class_of nc_one (aai_node a) ≠ Gone)
      | None => false end = true) as E by (vm_compute; reflexivity).
    destruct (us_add (sp_lists plan1) !! "p2-ns-b") as [a|] eqn:Ea; [|done].
    apply bool_decide_eq_true in E as [<- Hg]. apply (Hin "p2-ns-b" a). auto.
Qed.

(** A cluster with no other objects than theirs. *)
Abbreviation of_cycle1 s := (map_Forall (λ k _, k = ("default", "p1-ns-a") ∨ k = ("default", "p2-ns-b")) (s : cluster)).

(** Between two such clusters only these two keys change. *)
Lemma cycle1_changes (s s' : cluster) key : of_cycle1 s → of_cycle1 s' → ¬ cycle_fp (R := canonical_range) plan1 (CKey key) →
  stored (ClientLaws := crd_laws) s' key = stored (ClientLaws := crd_laws) s key.
Proof.
  intros Hs Hs' [H1 H2]%cycle1_keys.
  assert (∀ s : cluster, of_cycle1 s → stored (ClientLaws := crd_laws) s key = None) as Hnone; [|by rewrite !Hnone].
  intros s0 Hs0. cbn. unfold crd_stored. cbn. rewrite <- surjective_pairing.
  destruct (s0 !! key) as [o|] eqn:E; [|done]. by destruct (Hs0 _ _ E).
Qed.

Lemma cycle1_alone key : ¬ cycle_fp (R := canonical_range) plan1 (CKey key) →
  stored (ClientLaws := crd_laws) (mw_store cycle_world') key = stored (ClientLaws := crd_laws) (mw_store cycle_world) key.
Proof. apply cycle1_changes; by_computation. Qed.

#[export] Instance quiet_cycle_lib : CycleLib (mic_world cluster (cloud machines)) := {|
  cy_SyncCacheAll := λ _ w, w; cy_Put := λ _ w, w; cy_SinceInSeconds := λ _, 0%Z; cy_Report := λ _ w, w;
  cy_PrintSync := λ w, w; cy_Sleep := λ _ w, w
|}.

(** The second cycle finds the pod of the first one assigned. *)
Lemma cycle_then_quiet_witness :
  (λ a, aai_status a) <$> next1 !! "p2-ns-b" = Some AssignedIDAssigned ∧
  sync_loop (R := canonical_range) (C := cloud machines) client0
    [WakeCycle nc_one (mkSyncView (sv_pods view1) (sv_bindings view1) (sv_ids view1) (Ret next1)); WakeExit] 1 1 =
  begin_cycle (note_planned (Fork [] (note (end_cycle false 2) Done))).
Proof.
  split; [vm_compute; reflexivity|].
  refine (proj2 (cycle_then_quiet (cl := crd_laws) (R := canonical_range) client0 nc_one nc_one view1 plan1 current1 next1
    cycle_world cycle_world' [WakeExit] 1 1 plan1_runs eq_refl cycle1_wf _ current1_listing _ _ cycle1_alone _ next1_listing)).
  - apply crd_ok_create; [constructor|]. intros ns name o. simpl. by rewrite lookup_empty.
  - exact (run_proc_runs _ _ _ _ cycle_ends).
  - vm_compute. reflexivity.
  - assert (map_Forall (λ _ a, node_class_of nc_one (aai_node a) ≠ Gone) (sp_newAssignedIDs plan1)) as H by by_computation.
    exact H.
Defined.
