(* ===== verification/MicProgress.v ===== *)
(** * MIC: the sync loop never panics, never hangs, and ends.

    Everything that MIC reads from the cluster is complete: the conversion from v1 sets both
    references of an assigned identity. From that no step of planning or of a goroutine
    dereferences nil, and a goroutine that does not panic gives its token back, so that the
    next one starts. [sync_loop_ends] puts this together for the whole loop, with the bound
    [createDeleteBatch] on the goroutines of a node, and whatever fails; it needs the bound to
    be positive ([no_batch_hangs]) and no reconciliation before the first cycle
    ([reconcile_before_first_cycle_panics]). *)

From S2P Require Import Prelude GoStrings Types Conversion Fixtures Regex ResourceId MicDesired MicVmss MicNode MicConsolidate Concurrency Termination Stats Retry CrdInterface CloudInterface MicUpdate MicUpdateFacts CloudIdentity CloudProvider Crd CrdSim MicUpdateSpec MicReconcile MicSync MicSyncFacts MicSyncSpec MicQuiet.

(** The assigned identities of a node that are worked on are complete. *)
Definition complete (t : trackUserAssignedMSIIds) : Prop :=
  ∀ a, a ∈ assignedIDsToCreate t ∨ a ∈ assignedIDsToUpdate t ∨ a ∈ assignedIDsToDelete t → refs_set a = true.

Definition complete_map (m : track_map) : Prop := map_Forall (λ _ t, complete t) m.

(** ** The diff keeps the objects complete *)

Record lists_complete (new : aai_map) (st : update_state) : Prop := {
  lc_add : refs_wf (us_add st); lc_del : refs_wf (us_del st);
  lc_before : refs_wf (us_before st); lc_after : refs_wf (us_after st);
  lc_node : ∀ k a, us_after st !! k = Some a → ∃ n, new !! k = Some n ∧ aai_node a = aai_node n
}.

Lemma computeLists_complete `{R : GoRange} old new :
  refs_wf old → refs_wf new → ∃ st, computeLists old new = Ret st ∧ lists_complete new st.
Proof.
  intros Ho Hn. destruct (computeLists_run old new Ho Hn) as (st & E & Hst). exists st. split; [done|].
  assert (∀ k, match classify (old !! k) (new !! k) with
    | Unchanged => us_before st !! k = None ∧ us_after st !! k = None ∧ us_add st !! k = None ∧ us_del st !! k = None
    | ToCreate a | ToRetry a => us_before st !! k = None ∧ us_after st !! k = None ∧ us_add st !! k = Some a ∧ us_del st !! k = None
    | ToDelete a => us_before st !! k = None ∧ us_after st !! k = None ∧ us_add st !! k = None ∧ us_del st !! k = Some a
    | ToUpdate b a => us_before st !! k = Some b ∧ us_after st !! k = Some a ∧ us_add st !! k = None ∧ us_del st !! k = None
    end) as Hv.
  { intros k. specialize (Hst k). unfold us_view in Hst.
    destruct (classify _ _); unfold action_entries in Hst; by injection Hst as -> -> -> ->. }
  assert (∀ k o n, new !! k = Some n → refs_set (update_value o n) = true) as Hu by (intros k o n Hk; exact (Hn k n Hk)).
  split; intros k a Hk; specialize (Hv k); unfold classify in Hv;
    destruct (old !! k) as [o|] eqn:Eo, (new !! k) as [n|] eqn:En; repeat case_match; destruct_and?; simplify_eq; eauto with go.
Qed.

(** ** The plan *)

Section planning.
Context `{R : GoRange} (c : MicClient) (nc : NodeGetter).

(** Every desired assignment is on a node that has a reference. *)
Lemma desired_has_node pods bindings idMap k a :
  (createDesiredAssignedIdentityList c pods bindings idMap).1 !! k = Some a →
  is_Some ((createDesiredAssignedIdentityList c pods bindings idMap).2 !! aai_node a).
Proof.
  rewrite createDesired_reference. intros [_ (pod & b & i & Hw & ->)%elem_of_all_assignments]%keep_first_Some.
  exists true. apply nodeRefs_lookup. exists pod, b. destruct Hw as (? & ? & ? & ? & ? & _). done.
Qed.

Lemma assign_loop_total (l : list (string * AzureAssignedIdentity)) m :
  (∀ k a, (k, a) ∈ l → refs_set a = true) →
  ∃ m', foldM (λ m (kv : string * AzureAssignedIdentity), shouldAssignID kv.2 m) m l = Ret m'.
Proof.
  revert m. induction l as [|[k a] l IH]; intros m Hl; [by eexists|]. cbn [foldM snd]. unfold mbind, outcome_bind, shouldAssignID.
  destruct (proj1 (refs_set_spec a)) as (i & b & -> & _); [apply (Hl k); left|]. cbn. apply IH. intros k' a' H. apply (Hl k'). by right.
Qed.

Lemma plan_nodeMap_total st new refs :
  (∀ n, nc n ≠ Panic) → refs_wf new → lists_complete new st → (∀ k a, new !! k = Some a → is_Some (refs !! aai_node a)) →
  ∃ m, plan_nodeMap c nc st new refs = Ret m ∧ complete_map m.
Proof.
  intros Hnc Hnew [Ha Hd Hb Hf Hn] Hrefs.
  assert (∃ m, plan_nodeMap c nc st new refs = Ret m) as [m Hm].
  { unfold plan_nodeMap. set (m0 := convertAssignedIDListToMap _ _ _ _). unfold mbind, outcome_bind.
    assert (∃ m1, (if nonempty (us_del st) || nonempty (us_before st)
      then getListOfIdsToDelete c nc (us_del st) (us_before st) (us_after st) new m0 refs else Ret m0) = Ret m1) as [m1 ->].
    { destruct (_ || _); [|by eexists]. destruct (getListOfIdsToDelete_run c nc (us_del st) (us_before st) (us_after st) new m0 refs) as (m1 & -> & _); [|by eexists].
      apply delete_inputs_intro; try done. intros k a Hk. destruct (Hn k a Hk) as (n & Hkn & ->). by apply (Hrefs k). }
    destruct (_ || _); [|by eexists]. unfold getListOfIdsToAssign. apply assign_loop_total.
    intros k a [Hk%elem_of_go_range|Hk%elem_of_go_range]%elem_of_app; eauto with go. }
  exists m. split; [done|]. intros n t Ht a Hin. pose proof (plan_nodeMap_work _ _ _ _ _ _ Hm n) as Hw. unfold work, of_node in Hw.
  rewrite Ht in Hw. cbn in Hw. injection Hw as H1 H2 H3. rewrite H1, H2, H3, !elem_of_on_node in Hin.
  destruct Hin as [[_ [k Hk]]|[[_ [k Hk]]|[_ [k Hk]]]]; eauto with go.
Qed.

Lemma complete_zero : complete zeroTrack.
Proof. intros a [H|[H|H]]; by apply not_elem_of_nil in H. Qed.

Lemma complete_merge t t' : complete t → complete t' → complete (merge_track t t').
Proof. intros H H' a. cbn. rewrite !elem_of_app. specialize (H a). specialize (H' a). tauto. Qed.

Lemma aggregate_node_complete v ns t m :
  complete t → complete_map m → complete (foldl (aggregate_node v) (t, m) ns).1 ∧ complete_map (foldl (aggregate_node v) (t, m) ns).2.
Proof.
  revert t m. induction ns as [|n ns IH]; intros t m Ht Hm; [done|]. cbn [foldl].
  assert (complete (merge_track t (default zeroTrack (m !! n)))) as Ht'.
  { apply complete_merge; [done|]. destruct (m !! n) as [t'|] eqn:E; [by apply (Hm n)|apply complete_zero]. }
  apply IH; [done|]. apply map_Forall_insert_2; [done|]. by apply map_Forall_delete.
Qed.

Lemma consolidate_complete m : (∀ n, nc n ≠ Panic) → complete_map m →
  ∃ m' cl, consolidateVMSSNodes nc m = Ret (m', cl) ∧ complete_map m' ∧ Forall (λ kv, complete kv.2) cl.
Proof.
  intros Hnc Hm. unfold consolidateVMSSNodes, mbind, outcome_bind.
  destruct (consolidate_loop nc (go_range 1291 m) (mkConsolidateState m ∅ []) Hnc) as (st & -> & Hc & Hn & _).
  eexists _, _. split; [done|]. split.
  - assert (complete_map (cs_nodeMap st)) as H0.
    { intros k t Hk. rewrite Hn in Hk. case_decide; [done|]. by apply (Hm k). }
    clear Hn Hc. generalize (go_range 1322 (cs_vmssMap st)). intros l. revert H0. generalize (cs_nodeMap st).
    induction l as [|[v ns] l IH]; intros m' H'; [done|]. cbn [foldl]. apply IH. unfold aggregate_vmss.
    destruct (_ <? _)%nat; [done|]. apply aggregate_node_complete; [apply complete_zero|done].
  - rewrite Hc. cbn. unfold of_class. apply Forall_forall. intros [n t] [_ Ht%elem_of_go_range]%list_elem_of_filter. by apply (Hm n).
Qed.

(** What the goroutines of a cycle need of its plan. *)
Record plan_complete (p : sync_plan) : Prop := {
  pc_new : refs_wf (sp_newAssignedIDs p);
  pc_refs : ∀ k a, sp_newAssignedIDs p !! k = Some a → is_Some (sp_nodeRefs p !! aai_node a);
  pc_map : complete_map (sp_nodeMap p);
  pc_cleanup : Forall (λ kv, complete kv.2) (sp_cleanup p)
}.

(** A listing that does not panic, of complete objects. *)
Record view_ok (v : sync_view) : Prop := {
  vo_pods : sv_pods v ≠ Panic; vo_bindings : sv_bindings v ≠ Panic; vo_ids : sv_ids v ≠ Panic;
  vo_assigned : sv_assigned v ≠ Panic;
  vo_complete : ∀ m, sv_assigned v = Ret m → refs_wf m
}.

(** Planning fails only where a listing failed, and never panics. *)
Lemma plan_total v : (∀ n, nc n ≠ Panic) → view_ok v →
  match plan c nc v with
  | Ret p => plan_complete p
  | Fail e => sv_pods v = Fail e ∨ sv_bindings v = Fail e ∨ sv_ids v = Fail e ∨ sv_assigned v = Fail e
  | Panic => False
  end.
Proof.
  intros Hnc [Hp Hb Hi Ha Hc]. unfold plan, mbind, outcome_bind.
  destruct (sv_pods v) as [pods|e|] eqn:E1; [|by left|done]. destruct (sv_bindings v) as [bs|e|] eqn:E2; [|by right; left|done].
  destruct (sv_ids v) as [ids|e|] eqn:E3; [|by right; right; left|done].
  destruct (sv_assigned v) as [current|e|] eqn:E4; [|by right; right; right|done].
  pose proof (desired_has_node pods bs (convertIDListToMap (λ r, bool_decide (ValidateResourceID r = None)) ids)) as Hn.
  pose proof (desired_entries c pods bs (convertIDListToMap (λ r, bool_decide (ValidateResourceID r = None)) ids)) as He.
  destruct (createDesiredAssignedIdentityList _ _ _ _) as [new refs]. cbn [fst snd] in *.
  assert (refs_wf new) as Hnew by (intros k a Hk; by destruct (He k a Hk) as (_ & ? & _)).
  destruct (computeLists_complete current new (Hc _ eq_refl) Hnew) as (st & -> & Hst).
  destruct (plan_nodeMap_total st new refs Hnc Hnew Hst Hn) as (m & -> & Hm).
  destruct (consolidate_complete m Hnc Hm) as (m' & cl & -> & Hm' & Hcl). by split.
Qed.
End planning.

(** ** The goroutines *)

Create HintDb safe_db.

Section goroutines.
Context `{R : GoRange} {S C : Type} {ci : ClientInt S} {cc : CloudInt C} {ct : ClientTotal ci} {cct : CloudTotal cc}.
Abbreviation W := (mic_world S C).
Implicit Types (k : proc W).

Lemma on_store_total {A} (m : M S A) : (∀ s, (m s).1 ≠ Panic) → ∀ w : W, (on_store m w).1 ≠ Panic.
Proof. intros Hm w. unfold on_store. specialize (Hm (mw_store w)). by destruct (m _). Qed.

Lemma on_cloud_total {A} (m : M C A) : (∀ s, (m s).1 ≠ Panic) → ∀ w : W, (on_cloud m w).1 ≠ Panic.
Proof. intros Hm w. unfold on_cloud. specialize (Hm (mw_cloud w)). by destruct (m _). Qed.

Lemma safe_note f k : safe k → safe (note f k).
Proof. intros Hk. by constructor. Qed.

Lemma safe_binding a (k : AzureIdentityBinding → proc W) : refs_set a = true → (∀ b, safe (k b)) → safe (with_binding a k).
Proof. intros (i & b & _ & Hb)%refs_set_spec Hk. unfold with_binding. by rewrite Hb. Qed.

Lemma safe_identity a (k : AzureIdentity → proc W) : refs_set a = true → (∀ i, safe (k i)) → safe (with_identity a k).
Proof. intros (i & b & Hi & _)%refs_set_spec Hk. unfold with_identity. by rewrite Hi. Qed.

Lemma safe_store {A} (m : M S A) (ok : A → proc W) failed :
  (∀ s, (m s).1 ≠ Panic) → (∀ a, safe (ok a)) → (∀ e, safe (failed e)) → safe (act (on_store m) ok failed).
Proof. intros Hm. by apply safe_act, on_store_total. Qed.

Lemma safe_cloud {A} (m : M C A) (ok : A → proc W) failed :
  (∀ s, (m s).1 ≠ Panic) → (∀ a, safe (ok a)) → (∀ e, safe (failed e)) → safe (act (on_cloud m) ok failed).
Proof. intros Hm. by apply safe_act, on_cloud_total. Qed.

Lemma refs_set_status a st : refs_set (with_status a st) = refs_set a.
Proof. done. Qed.

#[local] Hint Resolve safe_done safe_note safe_binding safe_identity safe_store safe_cloud create_total update_total
  remove_total status_total update_msi_total get_msis_total : safe_db.

Lemma safe_create a : refs_set a = true → safe (create_goroutine a : proc W).
Proof. intros Ha. unfold create_goroutine. case_bool_decide; auto 10 with safe_db. Qed.

Lemma safe_update a : refs_set a = true → safe (update_goroutine a : proc W).
Proof. intros Ha. unfold update_goroutine. case_bool_decide; auto 10 with safe_db. Qed.

Lemma safe_assigned a : refs_set a = true → safe (assigned_goroutine a : proc W).
Proof. intros Ha. unfold assigned_goroutine. auto 10 with safe_db. Qed.

Lemma safe_delete a : safe (delete_goroutine a : proc W).
Proof. unfold delete_goroutine. auto 10 with safe_db. Qed.

Lemma safe_recover_creates toCreate idl err l k :
  Forall (λ a, refs_set a = true) l → safe k → safe (recover_creates toCreate idl err l k).
Proof.
  intros Hl Hk. induction Hl as [|a l Ha Hl IH]; [done|]. cbn [recover_creates].
  apply safe_identity; [done|]. intros i. apply safe_binding; [done|]. intros b.
  destruct (_ && _); auto 10 with safe_db.
Qed.

(** The in-use test finds the group of every desired node. *)
Lemma checkIfInUse_total nc d newA refs ls :
  (∀ n, nc n ≠ Panic) → refs_wf newA → (∀ j a, newA !! j = Some a → is_Some (refs !! aai_node a)) →
  getVMSSGroups nc refs = Ret ls → refs_set d = true → (checkIfInUse nc d newA ls).1 ≠ Panic.
Proof.
  intros Hnc Hw Hrefs E Hd. destruct (getVMSSGroups_repr _ _ _ E) as (_ & m & Hg & Hm). unfold checkIfInUse.
  pose proof (checkIfInUse_loop_spec nc d (go_range 973 newA).*2 m ls Hg) as Hs.
  destruct (checkIfInUse_loop _ _ _ _) as [r ls']. cbn. intros ->.
  assert (vmssFromNodeRef nc (aai_node d) = Panic) as Hp; [|by apply vmssFromNodeRef_not_panic in Hp].
  apply Hs; [|done|by apply wanted_values].
  apply Forall_forall. intros a ([j a'] & -> & Hk%elem_of_go_range)%list_elem_of_fmap v Hv. cbn in *.
  destruct (Hrefs _ _ Hk) as [b Hb]. by rewrite Hm, Hb, Hv.
Qed.

Lemma safe_recover_deletes nc newA refs idl err l k :
  (∀ n, nc n ≠ Panic) → refs_wf newA → (∀ j a, newA !! j = Some a → is_Some (refs !! aai_node a)) →
  Forall (λ a, refs_set a = true) l → safe k → safe (recover_deletes nc newA refs idl err l k).
Proof.
  intros Hnc Hw Hrefs Hl Hk. revert err. induction Hl as [|a l Ha Hl IH]; intros err; [done|]. cbn [recover_deletes].
  apply safe_identity; [done|]. intros i. pose proof (getVMSSGroups_run nc refs) as Hg.
  destruct (getVMSSGroups nc refs) as [ls|e|] eqn:E; [|by apply safe_note|by destruct Hg as (n & _ & ?%Hnc)].
  pose proof (checkIfInUse_total nc a newA refs ls Hnc Hw Hrefs E Ha) as Hp.
  destruct (checkIfInUse nc a newA ls).1 as [inUse|e|]; [|by apply safe_note|done].
  destruct (_ && _); auto 10 with safe_db.
Qed.

Lemma Forall_complete (f : track_field) t : is_field f → complete t → Forall (λ a, refs_set a = true) (f t).
Proof. intros Hf Ht. apply Forall_forall. intros a Ha. apply Ht. destruct Hf as [->|[->| ->]]; auto. Qed.

Lemma safe_children (f : AzureAssignedIdentity → proc W) l :
  (∀ a, refs_set a = true → safe (f a)) → Forall (λ a, refs_set a = true) l → Forall safe (f <$> l).
Proof. intros Hf Hl. apply Forall_fmap. eapply Forall_impl; [exact Hl|]. exact Hf. Qed.

Lemma safe_updateUserMSI nc newA name t refs :
  (∀ n, nc n ≠ Panic) → refs_wf newA → (∀ j a, newA !! j = Some a → is_Some (refs !! aai_node a)) →
  complete t → safe (updateUserMSI nc newA name t refs : proc W).
Proof.
  intros Hnc Hw Hrefs Ht.
  pose proof (Forall_complete assignedIDsToCreate t ltac:(by left) Ht) as Hc.
  pose proof (Forall_complete assignedIDsToUpdate t ltac:(by right; left) Ht) as Hu.
  pose proof (Forall_complete assignedIDsToDelete t ltac:(by right; right) Ht) as Hd.
  assert (Forall (λ a, refs_set a = true) (assignedIDsToCreate t ++ assignedIDsToUpdate t)) as Hcu by (by apply Forall_app).
  unfold updateUserMSI. constructor.
  { apply Forall_app. split; [by apply safe_children; [apply safe_create|]|by apply safe_children; [apply safe_update|]]. }
  apply safe_cloud; [apply update_msi_total|intros _|intros err; apply safe_note, safe_cloud; [apply get_msis_total|intros idl|auto with safe_db]].
  - constructor; [by apply safe_children; [apply safe_assigned|]|]. constructor; [|auto with safe_db].
    apply safe_children; [intros a _; apply safe_delete|done].
  - apply safe_recover_creates; [done|]. apply safe_recover_deletes; auto with safe_db.
Qed.

Lemma safe_cleanUp l : Forall (λ a, refs_set a = true) l → safe (cleanUp l : proc W).
Proof. intros Hl. induction Hl as [|a l Ha Hl IH]; [constructor|]. cbn [cleanUp]. auto 10 with safe_db. Qed.

Lemma safe_execute nc p k : (∀ n, nc n ≠ Panic) → plan_complete p → safe k → safe (execute nc p k).
Proof.
  intros Hnc [Hw Hrefs Hm Hc] Hk. constructor; [|done]. apply Forall_app. split.
  - apply Forall_fmap. eapply Forall_impl; [exact Hc|]. intros kv Ht.
    by apply safe_cleanUp, Forall_complete; [right; right|].
  - unfold updateNodeAndDeps. apply Forall_fmap, Forall_forall. intros [n t] Hn%elem_of_go_range.
    apply safe_updateUserMSI; try done. by apply (Hm n).
Qed.
End goroutines.

(** ** The reconciliation *)

Lemma fold_each_total {W A B : Type} (f : B → A → M W B) (b : B) (l : list A) (w : W) :
  (∀ b x w, x ∈ l → (f b x w).1 ≠ Panic) → (fold_each f b l w).1 ≠ Panic.
Proof.
  revert b w. induction l as [|x l IH]; intros b w Hf; [done|]. cbn [fold_each]. unfold mbind, M_bind.
  pose proof (Hf b x w ltac:(left)) as H. destruct (f b x w) as [[b'|e|] w']; [|done|done].
  apply IH. intros b'' y w'' Hy. apply Hf. by right.
Qed.

Lemma for_each_total {W A : Type} (f : A → M W unit) (l : list A) (w : W) :
  (∀ x w, (f x w).1 ≠ Panic) → (for_each f l w).1 ≠ Panic.
Proof.
  intros Hf. revert w. induction l as [|x l IH]; intros w; [done|]. cbn [for_each]. unfold mbind, M_bind.
  pose proof (Hf x w) as H. by destruct (f x w) as [[b'|e|] w'].
Qed.

Section reconcile.
Context `{R : GoRange} {S C : Type} {cc : CloudInt C}.
Abbreviation W := (mic_world S C).

Lemma node_metadata_total nc cache n : nc n ≠ Panic → node_metadata nc cache n ≠ Panic.
Proof.
  intros Hn. unfold node_metadata. destruct (cache !! n); [done|]. destruct (nc n) as [nd|e|]; [|done|done].
  destruct (isVMSS nd) as [[v|]|e|] eqn:E; try done. by apply isVMSS_not_panic in E.
Qed.

Lemma desired_step_total n a st : refs_set a = true → desired_step n a st ≠ Panic.
Proof. intros (i & b & Hi & _)%refs_set_spec. unfold desired_step. case_bool_decide; [by rewrite Hi|done]. Qed.

Lemma gen_step_total {cct : CloudTotal cc} nc st a w : (∀ n, nc n ≠ Panic) → refs_set a = true → (gen_step nc st a w).1 ≠ Panic.
Proof.
  intros Hnc Ha. unfold gen_step, lift, mbind, M_bind. pose proof (node_metadata_total nc (gs_cache st) (aai_node a) (Hnc _)) as Hm.
  destruct (node_metadata _ _ _) as [[cache m]|e|]; [|done|done].
  pose proof (desired_step_total (nm_nodeName m) a (gs_desiredState st) Ha) as Hd.
  destruct (desired_step _ _ _) as [d|e|]; [|done|done].
  unfold current_step. destruct (_ !! _); [done|]. pose proof (get_msis_total (nm_nodeName m) (nm_isVMSS m) w) as Hg.
  by destruct (cc_GetUserMSIs _ _ _) as [[l|e|] w'].
Qed.

(** A listing that does not panic, of complete objects. *)
Definition listed_ok (listed : outcome (list AzureAssignedIdentity)) : Prop :=
  listed ≠ Panic ∧ ∀ l, listed = Ret l → Forall (λ a, refs_set a = true) l.

Lemma reconcile_total {cct : CloudTotal cc} nc listed (w : W) :
  (∀ n, nc n ≠ Panic) → listed_ok listed → (reconcileIdentityAssignment nc listed w).1 ≠ Panic.
Proof.
  intros Hnc [Hl Hc]. unfold reconcileIdentityAssignment.
  assert ((on_cloud (S := S) (generateIdentityAssignmentState nc listed) w).1 ≠ Panic) as Hg.
  { apply on_cloud_total. intros s. unfold generateIdentityAssignmentState. destruct listed as [l|e|]; [|done|done].
    apply fold_each_total. intros b a w' Ha. apply gen_step_total; [done|]. specialize (Hc l eq_refl).
    rewrite Forall_forall in Hc. auto. }
  destruct (on_cloud _ w) as [[st|e|] w']; [|done|done]. apply for_each_total. intros kv w''.
  unfold reconcile_node, catch, modify. pose proof (on_cloud_total (S := S) _ (update_msi_total (cc := cc) kv.2 [] kv.1 (default false (gs_isVMSSMap st !! kv.1))) w'') as Hu.
  by destruct (on_cloud _ w'') as [[[]|e|] w3].
Qed.

(** Before the first cycle, a reconciliation that reads a machine panics: the read is counted
    in statistics that are not there yet. *)
Lemma reconcile_before_first_cycle_panics nc a l cache m ids c' (w : W) :
  node_metadata nc ∅ (aai_node a) = Ret (cache, m) → refs_set a = true →
  cc_GetUserMSIs (nm_nodeName m) (nm_isVMSS m) (mw_cloud w) = (Ret ids, c') →
  (reconcileIdentityAssignment (cc := cloud_of 0) nc (Ret (a :: l)) w).1 = Panic.
Proof.
  intros Hm Ha Hg. unfold reconcileIdentityAssignment, on_cloud, generateIdentityAssignmentState. cbn [fold_each].
  unfold mbind, M_bind at 1, gen_step at 1, lift, mbind, M_bind at 1. cbn [gs_cache gs_desiredState gs_currentState gs_isVMSSMap].
  rewrite Hm. pose proof (desired_step_total (nm_nodeName m) a ∅ Ha) as Hd. unfold M_bind at 1.
  destruct (desired_step (nm_nodeName m) a ∅) as [d|e|] eqn:Ed; [| |done].
  - unfold M_bind, current_step. rewrite lookup_empty. unfold cloud_of. rewrite bool_decide_true by done. cbn. by rewrite Hg.
  - exfalso. revert Ed. unfold desired_step. apply refs_set_spec in Ha as (i & b & -> & _). by case_bool_decide.
Qed.
End reconcile.

(** ** The sync loop *)

Section sync_loop.
Context `{R : GoRange} {S C : Type} {ci : ClientInt S} {cc : CloudInt C} {ct : ClientTotal ci} {cct : CloudTotal cc}.
Abbreviation W := (mic_world S C).
Context `{cy : !CycleLib W}.

(** The goroutines of a cycle have no bound, those of a node [createDeleteBatch]. *)
Definition goroutine_limits (c : MicClient) : limits := [None; Some (Z.to_nat (createDeleteBatch c))].

(** What wakes the loop brings listings without panics, of complete objects, and a look-up of
    nodes that does not panic; errors are welcome. *)
Definition wake_ok (wk : wake) : Prop :=
  match wk with
  | WakeExit => True
  | WakeCycle nc v => (∀ n, nc n ≠ Panic) ∧ view_ok v
  | WakeReconcile nc listed => (∀ n, nc n ≠ Panic) ∧ listed_ok listed
  end.

(** The tick of the reconciliation is not the first to come. *)
Definition cycle_first (totalSyncCycles : nat) (wakes : list wake) : Prop :=
  match wakes with WakeReconcile _ _ :: _ => (0 < totalSyncCycles)%nat | _ => True end.

Lemma sync_loop_safe c wakes cycles workDone :
  Forall wake_ok wakes → cycle_first cycles wakes → safe (sync_loop c wakes cycles workDone : proc W).
Proof.
  intros Hw. revert cycles workDone. induction Hw as [|wk wakes Hwk Hw IH]; intros cycles workDone Hf; [constructor|].
  assert (∀ n wd, safe (sync_loop c wakes (Nat.succ n) wd : proc W)) as Hnext.
  { intros n wd. apply IH. destruct wakes as [|[]]; [done..|]. apply Nat.lt_0_succ. }
  destruct wk as [|nc v|nc listed]; cbn [sync_loop].
  - constructor.
  - destruct Hwk as [Hnc Hv]. unfold begin_cycle. apply safe_note, safe_note, safe_note.
    pose proof (plan_total c nc v Hnc Hv) as Hp. destruct (plan c nc v) as [p|e|]; [| |done].
    + unfold note_planned. apply safe_note, safe_note, safe_execute, safe_note; auto.
    + destruct (sv_pods v); auto. by apply safe_note.
  - destruct Hwk as [Hnc Hl]. cbn in Hf. unfold cloud_of. rewrite bool_decide_false by lia.
    assert (safe (sync_loop c wakes cycles workDone : proc W)) as Hk by (destruct cycles; [lia|apply Hnext]).
    unfold then_. apply safe_act; [|done|done]. intros w. by apply reconcile_total.
Qed.

(** C5: the sync loop ends. From any start of MIC that runs a cycle before the first
    reconciliation, with a positive [createDeleteBatch] and clients that do not panic on
    complete objects, every execution of the loop over the wake-ups up to the exit is finite
    and ends in the return of [Sync]: no goroutine panics, none waits for a token forever, and the loop
    survives every error, of the listings, of the clients, of the cloud, and whatever else
    happens to the cluster and the cloud between two steps. *)
Theorem sync_loop_ends (c : MicClient) (wakes : list wake) :
  (0 < createDeleteBatch c)%Z → Forall wake_ok wakes → cycle_first 0 wakes →
  ends (goroutine_limits c) (sync_loop c wakes 0 0 : proc W).
Proof.
  intros Hb Hw Hf. apply safe_ends; [|by apply sync_loop_safe]. constructor; [done|]. constructor; [cbn; lia|constructor].
Qed.

(** The cycle hangs at the first assigned identity to create when [createDeleteBatch] is not
    positive: the semaphore has no token, and the acquisition of one is not limited in time. *)
Lemma no_batch_hangs c nc p k n t a l (w : W) :
  (createDeleteBatch c ≤ 0)%Z → sp_nodeMap p !! n = Some t → assignedIDsToCreate t = a :: l →
  aai_status a = "" → refs_set a = true → ¬ ends (goroutine_limits c) (execute nc p k : proc W).
Proof.
  intros Hb Hn Ht Hs Ha. unfold execute.
  assert ((n, t) ∈ go_range 1031 (sp_nodeMap p)) as [i Hi]%list_elem_of_lookup_1 by (by apply elem_of_go_range).
  eapply (stuck_child_hangs _ _ _ (length (sp_cleanup p) + i)%nat (updateUserMSI nc (sp_newAssignedIDs p) n t (sp_nodeRefs p)) w).
  - rewrite lookup_app_r by (rewrite length_fmap; lia). rewrite length_fmap.
    replace (length (sp_cleanup p) + i - length (sp_cleanup p))%nat with i by lia.
    unfold updateNodeAndDeps. by rewrite list_lookup_fmap, Hi.
  - done.
  - intros w'. unfold updateUserMSI. rewrite Ht. cbn [fmap list_fmap app]. apply no_token_hangs.
    + unfold create_goroutine. rewrite bool_decide_true by done. apply refs_set_spec in Ha as (i' & b & _ & Hab).
      unfold with_binding. by rewrite Hab.
    + cbn. f_equal. lia.
Qed.
End sync_loop.

(** ** The simulated cluster and cloud *)

#[export] Instance sim_cloud_total : CloudTotal sim_cloud_client :=
  cloud_client_total (R := canonical_range) no_date no_time "rg" (NewRetryClient 2 5).

(** A start with a listing that fails, a cycle, a reconciliation, and the exit. *)
Definition wakes1 : list wake :=
  [WakeCycle nc_one (mkSyncView (Fail (Errorf "no pods")) (sv_bindings view1) (sv_ids view1) (sv_assigned view1));
   WakeCycle nc_one view1; WakeReconcile nc_one (Ret [p1_assigned]); WakeReconcile nc_one (Fail (Errorf "no list")); WakeExit].

Lemma nc_one_total n : nc_one n ≠ Panic.
Proof. discriminate. Qed.

Lemma wakes1_ok : Forall wake_ok wakes1.
Proof.
  assert (refs_wf current1) as Hc by by_computation.
  assert (∀ m, Ret current1 = Ret m → refs_wf m) as Hm by (intros m [= <-]; exact Hc).
  repeat apply Forall_cons_2; cbn [wake_ok].
  - split; [exact nc_one_total|]. split; try discriminate. exact Hm.
  - split; [exact nc_one_total|]. split; try discriminate. exact Hm.
  - split; [exact nc_one_total|]. split; [discriminate|]. intros l [= <-]. repeat constructor.
  - split; [exact nc_one_total|]. split; [discriminate|]. intros l [=].
  - exact I.
  - constructor.
Qed.

Lemma sync_loop_ends_witness :
  (0 < createDeleteBatch client0)%Z ∧ Forall wake_ok wakes1 ∧ cycle_first 0 wakes1 ∧
  ends [None; Some 20%nat] (sync_loop (R := canonical_range) client0 wakes1 0 0 : proc (mic_world cluster (cloud machines))).
Proof.
  split; [vm_compute; reflexivity|]. split; [exact wakes1_ok|]. split; [exact I|].
  exact (sync_loop_ends (R := canonical_range) client0 wakes1 eq_refl wakes1_ok I).
Defined.

(** The same cycle with [createDeleteBatch] 0 hangs. *)
Lemma batch_of_zero_hangs (k : proc (mic_world cluster (cloud machines))) :
  ¬ ends (goroutine_limits (mkMicClient false 0 (Some ∅))) (execute (R := canonical_range) nc_one plan1 k).
Proof.
  assert (match sp_nodeMap plan1 !! "n1" with
    | Some t => match assignedIDsToCreate t with a :: _ => bool_decide (aai_status a = "") && refs_set a | [] => false end
    | None => false end = true) as H by (vm_compute; reflexivity).
  destruct (sp_nodeMap plan1 !! "n1") as [t|] eqn:Et; [|discriminate H].
  destruct (assignedIDsToCreate t) as [|a l] eqn:Ea; [discriminate H|]. apply andb_true_iff in H as [H1%bool_decide_eq_true H2].
  apply (no_batch_hangs (mkMicClient false 0 (Some ∅)) nc_one plan1 k "n1" t a l cycle_world); done.
Qed.

(** And a reconciliation that comes first panics at the machine of the first assigned identity. *)
Lemma first_reconciliation_panics :
  (reconcileIdentityAssignment (R := canonical_range) (cc := cloud_of 0) nc_one (Ret [p1_assigned]) cycle_world).1 = Panic ∧
  (reconcileIdentityAssignment (R := canonical_range) (cc := cloud_of 1) nc_one (Ret [p1_assigned]) cycle_world).1 = Ret tt.
Proof. split; vm_compute; reflexivity. Qed.
