(* ===== verification/MicReplan.v ===== *)
(** * MIC: work that fails is planned again.

    A cycle does not stop at an error: it logs it and goes on, with other objects and with the
    next cycle. Nothing remembers what failed but the cluster itself. The theorem says that
    this is enough: whatever fails and however the goroutines interleave, the objects are left
    in states from which the next plan takes up all that is not settled. *)

From S2P Require Import Prelude GoStrings Types Conversion Fixtures Regex ResourceId MicDesired MicVmss MicNode MicConsolidate Concurrency Stats CrdInterface CloudInterface MicUpdate MicUpdateFacts CloudIdentity CloudProvider Crd CrdSim MicUpdateSpec MicReconcile MicSync MicSyncFacts MicSyncSpec MicQuiet MicProgress.

Create HintDb keeps_db.

Section replan.
Context `{R : GoRange} {S C : Type} {ci : ClientInt S} {cc : CloudInt C}
  {cl : ClientLaws ci} {cll : CloudIntLaws cc}.
Abbreviation W := (mic_world S C).
Abbreviation stored_at w k := (stored (mw_store w) k).

(** ** A predicate on one key that all goroutines keep *)

Section key.
Context (key : string * string) (P : option content → Prop).

Definition at_key (w : W) : Prop := P (stored_at w key).

(** The predicate survives a change of the status. *)
Definition stable (status : string) : Prop := ∀ ct, P (Some ct) → P (Some (mkContent (c_Spec ct) status (c_Labels ct))).

(** It admits what the goroutines of a node write under the key. *)
Record admits (t : trackUserAssignedMSIIds) : Prop := {
  ad_create : ∀ a, a ∈ assignedIDsToCreate t → aai_key a = key →
    (aai_status a = "" → P (Some (content_of (with_status a AssignedIDCreated)))) ∧ stable AssignedIDAssigned;
  ad_update : ∀ a, a ∈ assignedIDsToUpdate t → aai_key a = key →
    P None ∧ (aai_status a = "" → P (Some (content_of (with_status a AssignedIDCreated)))) ∧ stable AssignedIDAssigned;
  ad_delete : ∀ a, a ∈ assignedIDsToDelete t → aai_key a = key → P None ∧ stable AssignedIDUnAssigned
}.

(** An operation on [a] keeps it, on this key or on another. *)
Definition op_keeps (a : AzureAssignedIdentity) (m : M S unit) : Prop :=
  (∀ s k, k ≠ aai_key a → stored (m s).2 k = stored s k) ∧
  (aai_key a = key → ∀ s, P (stored s key) → P (stored (m s).2 key)).

Lemma op_keeps_at a m s : op_keeps a m → P (stored s key) → P (stored (m s).2 key).
Proof.
  intros [Hf Hk] Hs. destruct (decide (aai_key a = key)) as [E|E]; [by apply Hk|].
  rewrite Hf; [done|]. by intros ->.
Qed.

Lemma keeps_store a (m : M S unit) (ok : () → proc W) failed :
  op_keeps a m → (∀ u, keeps at_key (ok u)) → (∀ e, keeps at_key (failed e)) → keeps at_key (act (on_store m) ok failed).
Proof.
  intros Hm Hok Hf. constructor; intros w.
  - intros Hw. pose proof (op_keeps_at a m (mw_store w) Hm Hw) as H. unfold on_store.
    by destruct (m (mw_store w)) as [[u|e|] s'].
  - unfold on_store. destruct (m (mw_store w)) as [[u|e|] s']; cbn; auto. constructor.
Qed.

Lemma keeps_cloud {A} (m : M C A) (ok : A → proc W) failed :
  (∀ u, keeps at_key (ok u)) → (∀ e, keeps at_key (failed e)) → keeps at_key (act (on_cloud m) ok failed).
Proof.
  intros Hok Hf. constructor; intros w; unfold on_cloud; destruct (m (mw_cloud w)) as [[u|e|] c']; cbn; auto. constructor.
Qed.

Lemma keeps_event o ty r m (k : proc W) : keeps at_key k → keeps at_key (note (Event o ty r m) k).
Proof. by constructor. Qed.
Lemma keeps_klog m (k : proc W) : keeps at_key k → keeps at_key (note (klog_Error m) k).
Proof. by constructor. Qed.
Lemma keeps_stats n z (k : proc W) : keeps at_key k → keeps at_key (note (stats_Increment n z) k).
Proof. by constructor. Qed.
Lemma keeps_binding a (k : AzureIdentityBinding → proc W) : (∀ b, keeps at_key (k b)) → keeps at_key (with_binding a k).
Proof. intros Hk. unfold with_binding. destruct (aas_AzureBindingRef _); [done|constructor]. Qed.
Lemma keeps_identity a (k : AzureIdentity → proc W) : (∀ b, keeps at_key (k b)) → keeps at_key (with_identity a k).
Proof. intros Hk. unfold with_identity. destruct (aas_AzureIdentityRef _); [done|constructor]. Qed.

(** The four operations of the resource client. *)
Lemma op_create a : (aai_key a = key → P (Some (content_of a))) → op_keeps a (ci_CreateAssignedIdentity a).
Proof.
  intros Ha. split; [intros s k; apply create_frame|]. intros E s Hs.
  destruct (create_any a s) as [H|H]; rewrite E in H; rewrite H; auto.
Qed.

Lemma op_update a : (aai_key a = key → P None ∧ P (Some (content_of a))) → op_keeps a (ci_UpdateAssignedIdentity a).
Proof.
  intros Ha. split; [intros s k; apply CrdInterface.update_frame|]. intros E s Hs. destruct (Ha E) as [H0 H1].
  destruct (update_any a s) as [H|[H|H]]; rewrite E in H; rewrite H; auto.
Qed.

Lemma op_remove a : (aai_key a = key → P None) → op_keeps a (ci_RemoveAssignedIdentity a).
Proof.
  intros Ha. split; [intros s k; apply remove_frame|]. intros E s Hs.
  destruct (remove_any a s) as [H|H]; rewrite E in H; rewrite H; auto.
Qed.

Lemma op_status a status : (aai_key a = key → stable status) → op_keeps a (ci_UpdateAzureAssignedIdentityStatus a status).
Proof.
  intros Ha. split; [intros s k; apply status_frame|]. intros E s Hs.
  destruct (status_any a status s) as [H|(ct & H1 & H)]; rewrite E in *; rewrite H; [done|].
  apply Ha; [done|]. by rewrite <- H1.
Qed.

#[local] Hint Resolve keeps_done keeps_event keeps_klog keeps_stats keeps_binding keeps_identity keeps_cloud : keeps_db.

Lemma keeps_assigned a : (aai_key a = key → stable AssignedIDAssigned) → keeps at_key (assigned_goroutine a).
Proof. intros Ha. apply keeps_binding. intros b. apply (keeps_store a); [by apply op_status|auto with keeps_db..]. Qed.

Lemma keeps_delete a : (aai_key a = key → P None ∧ stable AssignedIDUnAssigned) → keeps at_key (delete_goroutine a).
Proof.
  intros Ha. apply (keeps_store a); [apply op_status; by apply Ha| |auto with keeps_db].
  intros _. apply (keeps_store a); [apply op_remove; by apply Ha|auto with keeps_db..].
Qed.

Lemma keeps_create a :
  (aai_key a = key → aai_status a = "" → P (Some (content_of (with_status a AssignedIDCreated)))) → keeps at_key (create_goroutine a).
Proof.
  intros Ha. unfold create_goroutine. case_bool_decide; [|constructor]. apply keeps_binding. intros b.
  apply (keeps_store (with_status a AssignedIDCreated)); [apply op_create; auto|auto with keeps_db..].
Qed.

Lemma keeps_update a :
  (aai_key a = key → P None ∧ (aai_status a = "" → P (Some (content_of (with_status a AssignedIDCreated))))) →
  keeps at_key (update_goroutine a).
Proof.
  intros Ha. unfold update_goroutine. case_bool_decide; [|constructor]. apply keeps_binding. intros b.
  apply (keeps_store (with_status a AssignedIDCreated)); [|auto with keeps_db..].
  apply op_update. intros E. destruct (Ha E). auto.
Qed.

Lemma keeps_recover_creates tc idl err l (k : proc W) :
  (∀ a, a ∈ l → aai_key a = key → stable AssignedIDAssigned) → keeps at_key k → keeps at_key (recover_creates tc idl err l k).
Proof.
  intros Hl Hk. induction l as [|a l IH]; [done|]. cbn [recover_creates].
  assert (keeps at_key (recover_creates tc idl err l k)) as Hr by (apply IH; intros b Hb; apply Hl; by right).
  apply keeps_identity. intros i. apply keeps_binding. intros b. destruct (_ && _); [auto with keeps_db|].
  apply keeps_event, (keeps_store a); [apply op_status, Hl; left|auto with keeps_db..].
Qed.

Lemma keeps_recover_deletes nc newA refs idl err l (k : proc W) :
  (∀ a, a ∈ l → aai_key a = key → P None) → keeps at_key k → keeps at_key (recover_deletes nc newA refs idl err l k).
Proof.
  intros Hl Hk. revert err. induction l as [|a l IH]; intros err; [done|]. cbn [recover_deletes].
  assert (∀ e, keeps at_key (recover_deletes nc newA refs idl e l k)) as Hr by (intros e; apply IH; intros b Hb; apply Hl; by right).
  apply keeps_identity. intros i. destruct (getVMSSGroups nc refs); [|auto with keeps_db|constructor].
  destruct ((checkIfInUse _ _ _ _).1); [|auto with keeps_db|constructor]. destruct (_ && _); [auto with keeps_db|].
  apply (keeps_store a); [apply op_remove, Hl; left|auto with keeps_db..].
Qed.

Lemma keeps_children (f : AzureAssignedIdentity → proc W) l :
  (∀ a, a ∈ l → keeps at_key (f a)) → Forall (keeps at_key) (f <$> l).
Proof. intros Hf. apply Forall_fmap, Forall_forall. exact Hf. Qed.

Lemma keeps_updateUserMSI nc newA name t refs : admits t → keeps at_key (updateUserMSI nc newA name t refs).
Proof.
  intros [Hc Hu Hd]. unfold updateUserMSI.
  assert (∀ a, a ∈ assignedIDsToCreate t ++ assignedIDsToUpdate t → aai_key a = key → stable AssignedIDAssigned) as Hs.
  { intros a [Ha|Ha]%elem_of_app E; [by destruct (Hc a Ha E)|by destruct (Hu a Ha E) as (_ & _ & ?)]. }
  constructor.
  - apply Forall_app. split; apply keeps_children; intros a Ha.
    + apply keeps_create. intros E. by apply Hc.
    + apply keeps_update. intros E. destruct (Hu a Ha E) as (? & ? & _). auto.
  - apply keeps_cloud; [intros _|intros err; apply keeps_klog, keeps_cloud; [intros idl|auto with keeps_db]].
    + constructor; [apply keeps_children; intros a Ha; by apply keeps_assigned, Hs|].
      constructor; [apply keeps_children; intros a Ha; by apply keeps_delete, Hd|auto with keeps_db].
    + apply keeps_recover_creates; [done|]. apply keeps_recover_deletes; [|constructor]. intros a Ha E. by apply (Hd a).
Qed.

Lemma keeps_cleanUp l : (∀ a, a ∈ l → aai_key a = key → P None) → keeps at_key (cleanUp l : proc W).
Proof.
  intros Hl. induction l as [|a l IH]; [constructor|]. cbn [cleanUp].
  assert (keeps at_key (cleanUp l : proc W)) as Hr by (apply IH; intros b Hb; apply Hl; by right).
  apply (keeps_store a); [apply op_remove, Hl; left|auto with keeps_db..].
Qed.

(** The goroutines of a whole cycle keep it. *)
Lemma keeps_execute nc p : (∀ j, j ∈ jobs p → admits j.2) → keeps at_key (execute nc p Done).
Proof.
  intros Ha. rewrite execute_jobs. constructor; [|constructor]. apply Forall_fmap, Forall_forall. intros j Hj. cbn.
  unfold job_proc. destruct (Ha j Hj) as [Hc Hu Hd]. destruct (j.1.1); [|by apply keeps_updateUserMSI].
  apply keeps_cleanUp. intros a Ha' E. by apply (Hd a).
Qed.
End key.

(** ** What a cycle may leave under a key *)

(** An unfinished action leaves what it found, nothing, or what it writes on its way. *)
Definition reached (act : action) (ct : option content) : Prop :=
  match act with
  | Unchanged | ToDelete _ => True
  | ToCreate a => ct = None ∨ ct = Some (content_of (with_status a AssignedIDCreated)) ∨
      ct = Some (content_of (with_status a AssignedIDAssigned))
  | ToRetry o => ∃ status, (status = AssignedIDCreated ∨ status = AssignedIDAssigned) ∧
      ct = Some (mkContent (aai_Spec o) status (Labels (aai_ObjectMeta o)))
  | ToUpdate b a => ct = None ∨ (∃ status labels, ct = Some (mkContent (aai_Spec b) status labels)) ∨
      ct = Some (content_of (with_status a AssignedIDCreated)) ∨ ct = Some (content_of (with_status a AssignedIDAssigned))
  end.

Lemma reached_stable act : stable (reached act) AssignedIDAssigned.
Proof.
  intros ct. destruct act as [|a|o|o|b a]; cbn; try done.
  - intros [?|[[= ->]|[= ->]]]; [done|right; right|right; right]; done.
  - intros (st & _ & [= ->]). exists AssignedIDAssigned. auto.
  - intros [?|[(st & l & [= ->])|[[= ->]|[= ->]]]]; [done|right; left; by eexists _, _|right; right; right|right; right; right]; done.
Qed.

Section cycle.
Context (c : MicClient) (nc : NodeGetter) (v : sync_view) (p : sync_plan) (current : aai_map) (w w' : W).
Hypothesis Hplan : plan c nc v = Ret p.
Hypothesis Hcur : sv_assigned v = Ret current.
Hypothesis Hwf : cycle_wf nc current p.
Abbreviation new := (sp_newAssignedIDs p).
Abbreviation action_at k := (classify (current !! k) (new !! k)).

(** An object that a job works on is the entry of its name in the list of the field. *)
Lemma job_entry j f m site a : j ∈ jobs p → field_map p f m site → a ∈ f j.2 → m !! aai_name a = Some a.
Proof.
  intros Hj Hf Ha. destruct (job_nodes nc p (cw_nc _ _ _ Hwf) (cw_names _ _ _ Hwf)
    (plan_consolidate c nc v p current Hplan Hcur) j Hj) as [ns Hns].
  destruct (proj1 (elem_of_job_field nc p (plan_work c nc v p current Hplan Hcur) j ns f m site a Hns Hf) Ha) as [_ [k Hk]].
  by rewrite (field_map_name p (plan_lists_ok c nc v p current Hplan Hcur Hwf) f m site k a Hf Hk).
Qed.

(** What the jobs write under the key of an action is on the way of the action. *)
Lemma jobs_admit ns k j : (∀ a, action_at k ≠ ToDelete a) → j ∈ jobs p → admits (ns, k) (reached (action_at k)) j.2.
Proof.
  intros Hnd Hj. pose proof (lists_cases c nc v p current Hplan Hcur Hwf k) as Hl. cbv zeta in Hl.
  pose proof (classify_object c nc v p current Hplan Hcur Hwf k) as Ho.
  split; intros a Ha E; assert (aai_name a = k) as Ek by (unfold aai_key in E; congruence); clear E.
  - apply (job_entry j _ (us_add (sp_lists p)) 546) in Ha; [|done|by left]. rewrite Ek in Ha.
    split; [|apply reached_stable]. intros Hs.
    destruct (action_at k) as [|x|x|x|b x]; destruct Hl as (H1 & H2 & H3); cbn; try done; simplify_eq; auto.
    destruct Ho as (_ & _ & Ho). rewrite Hs in Ho. discriminate Ho.
  - apply (job_entry j _ (us_after (sp_lists p)) 564) in Ha; [|done|by right; left]. rewrite Ek in Ha.
    split; [|split; [|apply reached_stable]].
    + destruct (action_at k) as [|x|x|x|b x]; destruct Hl as (H1 & H2 & H3); simplify_eq; cbn; auto.
    + destruct (action_at k) as [|x|x|x|b x]; destruct Hl as (H1 & H2 & H3); simplify_eq; cbn; auto.
  - apply (job_entry j _ (us_del (sp_lists p)) 555) in Ha; [|done|by right; right]. rewrite Ek in Ha.
    destruct (action_at k) as [|x|x|x|b x] eqn:E; destruct Hl as (H1 & H2 & H3); simplify_eq. by destruct (Hnd a).
Qed.

Lemma execute_touches : touches (wd := mic_World) (cycle_fp p) (execute nc p Done).
Proof.
  rewrite execute_jobs. constructor; [|constructor]. apply Forall_fmap, Forall_forall. intros j Hj. cbn.
  eapply touches_mono; [|apply job_touches; [exact (plan_is_ok c nc v p current Hplan Hcur Hwf)|exact Hj]].
  intros cell Hc. by exists j.
Qed.

Hypothesis Hinv : w_inv w.
Hypothesis Hruns : runs (wd := mic_World) (cycle_fp p) (execute nc p Done) w w'.

Lemma cycle_reaches a : cycle_fp p (CKey (aai_key a)) → (∀ x, action_at (aai_name a) ≠ ToDelete x) →
  reached (action_at (aai_name a)) (stored_at w (aai_key a)) → reached (action_at (aai_name a)) (stored_at w' (aai_key a)).
Proof.
  intros Hf Hnd Hr. change (at_key (aai_key a) (reached (action_at (aai_name a))) w').
  eapply (runs_keeps (wd := mic_World) (cycle_fp p) (cycle_fp p) _ (execute nc p Done) w w'); try done.
  - apply keeps_execute. intros j Hj. by apply jobs_admit.
  - exact execute_touches.
  - intros w1 w2 Hi He. unfold at_key. by rewrite (env_key _ a _ _ He Hi Hf).
Qed.

Context (next : aai_map).
Hypothesis Hbefore : listing_of (mw_store w) current.
Hypothesis Hafter : listing_of (mw_store w') next.
Hypothesis Halone : ∀ key, ¬ cycle_fp p (CKey key) → stored_at w' key = stored_at w key.

(** Only the key of the action changes among the keys with its name. *)
Lemma listed_under k o : next !! k = Some o →
  match action_at k with
  | Unchanged => True
  | ToCreate a | ToRetry a | ToDelete a | ToUpdate _ a => (∀ x, current !! k = Some x → aai_key x = aai_key a) → aai_key o = aai_key a
  end.
Proof.
  intros Ho. destruct (ls_sound _ _ Hafter _ _ Ho) as (En & _ & Es).
  destruct (aai_key o) as [ns k'] eqn:Ek. assert (k' = k) as -> by (unfold aai_key in Ek; congruence).
  pose proof (cycle_key_action c nc v p current Hplan Hcur Hwf ns k) as Hact.
  assert (∀ a, (cycle_fp p (CKey (ns, k)) → aai_key a = (ns, k)) → (∀ x, current !! k = Some x → aai_key x = aai_key a) →
    (∃ x, current !! k = Some x) ∨ (new !! k = Some a ∧ current !! k = None) → (ns, k) = aai_key a) as H.
  { intros a Ha Hx Hc. destruct (decide ((ns, k) = aai_key a)) as [|Hne]; [done|].
    destruct (untouched_listed p current w w' Hbefore Halone ns k) as (x & Hxk & E).
    - intros Hf. apply Hne. by rewrite Ha.
    - rewrite Es. by eexists.
    - rewrite <- E. by apply Hx. }
  unfold classify in *. destruct (current !! k) as [x|] eqn:Ex, (new !! k) as [n|] eqn:En'; repeat case_match; try done;
    intros Hx; (eapply H; [exact Hact|exact Hx|eauto]).
Qed.

Lemma classify_Unchanged o n : classify o (Some n) = Unchanged →
  ∃ o', o = Some o' ∧ same_assignment o' n = true ∧ aai_status o' ≠ AssignedIDCreated.
Proof.
  unfold classify. destruct o as [o'|]; [|done]. destruct (same_assignment o' n) eqn:E; [|done].
  case_bool_decide; [done|]. by exists o'.
Qed.

(** What the next diff leaves unchanged is settled. *)
Lemma unchanged_is_settled k :
  classify (next !! k) (new !! k) = Unchanged → settled nc (mw_store w) (mw_store w') (action_at k).
Proof.
  intros Hu. pose proof (λ o, listed_under k o) as Hlk.
  pose proof (classify_object c nc v p current Hplan Hcur Hwf k) as Hobj.
  pose proof (λ a, cycle_key_in c nc v p current Hplan Hcur Hwf k a) as Hin.
  pose proof (lists_cases c nc v p current Hplan Hcur Hwf k) as Hl. cbv zeta in Hl.
  pose proof (λ a, cycle_reaches a) as Hreach.
  destruct (action_at k) as [|a|o|o|b a] eqn:Eact; cbn [settled]; [done| | | |]; destruct Hl as (H1 & H2 & H3).
  - destruct Hobj as (En & _ & _). intros Hg. specialize (Hreach a). rewrite En, Eact in Hreach.
    unfold classify in Eact. destruct (current !! k) as [x|] eqn:Ex, (new !! k) as [n|] eqn:Enew; repeat case_match; try discriminate Eact; injection Eact as ->.
    apply classify_Unchanged in Hu as (o & Eo & Esame & Hst). pose proof (Hlk o Eo ltac:(done)) as Hk.
    destruct (ls_sound _ _ Hafter _ _ Eo) as (_ & _ & Es). rewrite Hk in Es.
    destruct Hreach as [E|[E|E]]; [apply Hin; auto|done| |congruence| |done].
    + left. apply eq_None_not_Some. intros [ct Hct]. destruct (ls_complete _ _ Hbefore _ _ _ Hct) as (x & Hx & _). congruence.
    + rewrite E in Es. injection Es as _ Hs _. cbn in Hs. congruence.
  - destruct Hobj as (En & _ & Hst0). intros Hg. specialize (Hreach o). rewrite En, Eact in Hreach.
    unfold classify in Eact. destruct (current !! k) as [x|] eqn:Ex, (new !! k) as [n|] eqn:Enew; repeat case_match; try discriminate Eact; injection Eact as ->.
    destruct (ls_sound _ _ Hbefore _ _ Ex) as (_ & _ & Hb). rewrite Hb. eexists. split; [done|].
    apply classify_Unchanged in Hu as (o' & Eo & Esame & Hst). pose proof (Hlk o' Eo ltac:(by intros ? [= <-])) as Hk.
    destruct (ls_sound _ _ Hafter _ _ Eo) as (_ & _ & Es). rewrite Hk in Es.
    destruct Hreach as (st & Hs & E); [apply Hin; auto|done| |].
    + exists AssignedIDCreated. split; [by left|]. rewrite Hb. by rewrite Hst0.
    + rewrite E in Es. injection Es as _ Hs' _. rewrite E. destruct Hs as [->| ->]; [congruence|done].
  - unfold classify in Eact. destruct (current !! k) as [x|] eqn:Ex, (new !! k) as [n|] eqn:Enew; repeat case_match; try discriminate Eact; injection Eact as ->.
    destruct Hobj as (En & _). apply eq_None_not_Some. intros [ct Hct]. unfold aai_key in Hct. rewrite En in Hct.
    destruct (ls_complete _ _ Hafter _ _ _ Hct) as (y & Hy & _). rewrite Hy in Hu. done.
  - destruct Hobj as (En & _ & _). intros Hg. specialize (Hreach a). rewrite En, Eact in Hreach.
    unfold classify in Eact. destruct (current !! k) as [x|] eqn:Ex, (new !! k) as [n|] eqn:Enew; repeat case_match; try discriminate Eact; injection Eact as -> <-.
    destruct (ls_sound _ _ Hbefore _ _ Ex) as (_ & _ & Hb).
    apply classify_Unchanged in Hu as (o' & Eo & Esame' & Hst). pose proof (Hlk o' Eo ltac:(by intros ? [= <-])) as Hk.
    destruct (ls_sound _ _ Hafter _ _ Eo) as (_ & _ & Es). rewrite Hk in Es.
    destruct Hreach as [E|[(st & l & E)|[E|E]]]; [apply Hin; auto|done| |congruence| | |done].
    + right. left. change (aai_key (update_value b n)) with (aai_key b). rewrite Hb. by eexists _, _.
    + rewrite E in Es. injection Es as Hspec _ _. rewrite (same_assignment_spec b) in Esame' by done. congruence.
    + rewrite E in Es. injection Es as _ Hs _. cbn in Hs. congruence.
Qed.
End cycle.

(** C6: work that fails is planned again. Let a cycle end in any way, with any of its
    requests failed, in any interleaving. When nobody else wrote the objects that it did not
    work on, the next plan over the same pods, bindings and identities succeeds and wants the same
    assigned identities, and for every name either the object is settled as the first plan
    asked, or the next plan has it on one of its lists. *)
Theorem failed_work_is_replanned c nc nc' v p current next (w w' : W) :
  plan c nc v = Ret p → sv_assigned v = Ret current → cycle_wf nc current p → w_inv w →
  listing_of (mw_store w) current →
  runs (wd := mic_World) (cycle_fp p) (execute nc p Done) w w' →
  (∀ key, ¬ cycle_fp p (CKey key) → stored_at w' key = stored_at w key) →
  listing_of (mw_store w') next → (∀ n, nc' n ≠ Panic) →
  let v' := mkSyncView (sv_pods v) (sv_bindings v) (sv_ids v) (Ret next) in
  ∃ p', plan c nc' v' = Ret p' ∧ sp_newAssignedIDs p' = sp_newAssignedIDs p ∧
    ∀ k, settled nc (mw_store w) (mw_store w') (classify (current !! k) (sp_newAssignedIDs p !! k)) ∨
         us_view (sp_lists p') k ≠ mkEntries None None None None.
Proof.
  intros Hp Hcur Hwf Hi Hb Hr Halone Ha Hnc v'.
  destruct (plan_lists c nc v p current Hp Hcur) as (pods & bs & ids & E1 & E2 & E3 & E4).
  assert (view_ok v') as Hv.
  { split; cbn; rewrite ?E1, ?E2, ?E3; try done. intros m [= <-]. by eapply listing_refs. }
  pose proof (plan_total c nc' v' Hnc Hv) as Ht.
  destruct (plan c nc' v') as [p'|e|] eqn:Ep; [| |done].
  2: { cbn in Ht. rewrite E1, E2, E3 in Ht. by destruct Ht as [?|[?|[?|?]]]. }
  destruct (plan_lists c nc' v' p' next Ep eq_refl) as (pods' & bs' & ids' & E1' & E2' & E3' & E4').
  cbn in E1', E2', E3'. rewrite E1 in E1'. rewrite E2 in E2'. rewrite E3 in E3'.
  injection E1' as <-. injection E2' as <-. injection E3' as <-. rewrite E4 in E4'. injection E4' as En _.
  exists p'. split; [done|]. split; [done|]. intros k.
  destruct (plan_inv c nc' v' p' next Ep eq_refl) as (_ & _ & _ & _ & El & _). rewrite <- En in El.
  destruct (computeLists_run next (sp_newAssignedIDs p)) as (st & Est & Hst); [by eapply listing_refs| |].
  { intros j a Hj. by destruct (new_entries c nc v p current Hp Hcur j a Hj) as (_ & ? & _). }
  rewrite El in Est. injection Est as ->. rewrite Hst.
  destruct (classify (next !! k) (sp_newAssignedIDs p !! k)) eqn:Ec; [left|by right..].
  by eapply unchanged_is_settled.
Qed.
End replan.

(** ** A cycle whose update of the machine is refused *)

(** The cloud throttles the client: the update fails, the identity stays off the machine, and
    the created object is not marked as assigned. *)
Definition throttled_world : mic_world cluster (cloud machines) :=
  mkMicWorld (mw_store cycle_world)
    (mkCloud (mkThrottle 0 100) (mkThrottle 0 100) (world (mw_cloud cycle_world))) [] [] ∅.

Definition throttled_world' : mic_world cluster (cloud machines) := default throttled_world (run_proc cycle_proc throttled_world).

Lemma throttled_ends : run_proc cycle_proc throttled_world = Some throttled_world'.
Proof.
  unfold throttled_world'. assert (bool_decide (is_Some (run_proc cycle_proc throttled_world)) = true) as H by (vm_compute; reflexivity).
  apply bool_decide_eq_true in H as [w ->]. done.
Qed.

Definition throttled_next : aai_map :=
  match ListAssignedIDsInMap (all_assigned (sim_objects (mw_store throttled_world'))) with Ret m => m | _ => ∅ end.

Lemma throttled_listing : listing_of (cl := crd_laws) (mw_store throttled_world') throttled_next.
Proof.
  destruct (sim_listing (mw_store throttled_world')) as (m & E & Hm).
  - by_computation.
  - by_computation.
  - unfold throttled_next. by rewrite E.
Qed.

Lemma failed_work_is_replanned_witness :
  length (mw_errors throttled_world') = 3%nat ∧
  (λ a, aai_status a) <$> throttled_next !! "p2-ns-b" = Some AssignedIDCreated ∧
  ∃ p', plan (R := canonical_range) client0 nc_one
      (mkSyncView (sv_pods view1) (sv_bindings view1) (sv_ids view1) (Ret throttled_next)) = Ret p' ∧
    us_view (sp_lists p') "p2-ns-b" ≠ mkEntries None None None None.
Proof.
  split; [vm_compute; reflexivity|]. split; [vm_compute; reflexivity|].
  destruct (failed_work_is_replanned (cl := crd_laws) (R := canonical_range) client0 nc_one nc_one view1 plan1 current1 throttled_next
    throttled_world throttled_world' plan1_runs eq_refl cycle1_wf) as (p' & Hp & _ & Hk).
  - apply crd_ok_create; [constructor|]. intros ns name o. simpl. by rewrite lookup_empty.
  - exact current1_listing.
  - exact (run_proc_runs _ _ _ _ throttled_ends).
  - intros key. apply cycle1_changes; by_computation.
  - exact throttled_listing.
  - exact nc_one_total.
  - exists p'. split; [exact Hp|]. destruct (Hk "p2-ns-b") as [Hs|H]; [|exact H]. exfalso.
    assert (match classify (current1 !! "p2-ns-b") (sp_newAssignedIDs plan1 !! "p2-ns-b") with
      | ToCreate a => bool_decide (aai_key a = ("default", "p2-ns-b") ∧ aai_node a = "n1") | _ => false end = true) as E
      by (vm_compute; reflexivity).
    destruct (classify _ _) as [|a|a|a|b a]; try discriminate E.
    apply bool_decide_eq_true in E as [E1 E2]. cbn [settled] in Hs. rewrite E1, E2 in Hs.
    assert (c_Status <$> stored (ClientLaws := crd_laws) (mw_store throttled_world') ("default", "p2-ns-b") = Some AssignedIDCreated) as Hst
      by (vm_compute; reflexivity).
    rewrite Hs in Hst; [vm_compute in Hst; discriminate Hst|]. intros Hg. vm_compute in Hg. discriminate Hg.
Defined.
