(* ===== verification/MicMachine.v ===== *)
(** * MIC: the identity of every new assignment is put on the machine of its node.

    The plan of a cycle has the resource id of every created or updated assignment on the add
    list of the node's machine, or of its scale set; after a cycle without errors the machine
    has it. *)

From S2P Require Import Prelude GoStrings Types Conversion Fixtures Regex ResourceId MicDesired MicVmss MicNode MicConsolidate Concurrency Stats CrdInterface CloudInterface MicUpdate MicUpdateFacts MicReconcile MicSync MicSyncFacts MicSyncSpec.

(** ** The add list of a node *)

Definition adds (m : track_map) (n : string) : list string := default [] (addUserAssignedMSIIDs <$> m !! n).

(** No entry of a map is that of a scale set, as before the consolidation. *)
Definition plain (m : track_map) : Prop := map_Forall (λ _ t, isvmss t = false) m.

Lemma plain_track_at f m n : (∀ t, isvmss (f t) = isvmss t) → plain m → plain (track_at f m n).
Proof.
  intros Hf Hm k t. unfold track_at. destruct (m !! n) as [t0|] eqn:E.
  - destruct (decide (n = k)) as [<-|Hne]; [|rewrite lookup_insert_ne by done; apply Hm].
    rewrite lookup_insert_eq. intros [= <-]. rewrite Hf. by apply (Hm n).
  - destruct (decide (n = k)) as [<-|Hne]; [|rewrite lookup_insert_ne by done; apply Hm].
    rewrite lookup_insert_eq. intros [= <-]. by rewrite Hf.
Qed.

Lemma adds_track_at f m n n' :
  adds (track_at f m n) n' = if decide (n = n') then addUserAssignedMSIIDs (f (default zeroTrack (m !! n))) else adds m n'.
Proof.
  unfold track_at, adds. destruct (decide (n = n')) as [->|Hne].
  - destruct (m !! n'); by rewrite lookup_insert_eq.
  - destruct (m !! n); by rewrite lookup_insert_ne.
Qed.

Section planning.
Context `{R : GoRange}.

Lemma plain_fold (f : AzureAssignedIdentity → trackUserAssignedMSIIds → trackUserAssignedMSIIds)
    (l : list (string * AzureAssignedIdentity)) m :
  (∀ a t, isvmss (f a t) = isvmss t) → plain m →
  plain (foldl (λ m (kv : string * AzureAssignedIdentity), track_at (f kv.2) m (aai_node kv.2)) m l).
Proof. intros Hf. revert m. induction l as [|kv l IH]; intros m Hm; [done|]. apply IH, plain_track_at; auto. Qed.

Lemma convert_plain add del upd : plain (convertAssignedIDListToMap add del upd ∅).
Proof. unfold convertAssignedIDListToMap. repeat (apply plain_fold; [done|]). apply map_Forall_empty. Qed.

Lemma delete_plain c nc del before after new m refs m' :
  getListOfIdsToDelete c nc del before after new m refs = Ret m' → plain m → plain m'.
Proof.
  unfold getListOfIdsToDelete. intros H Hm. destruct (getVMSSGroups nc refs) as [ls|e|]; [|by injection H as <-|done].
  match type of H with context [for_each ?b ?l ?s] =>
    pose proof (for_each_invariant (λ st, plain (rs_nodeMap st)) b l s) as Hi; destruct (for_each b l s) as [[[]|e|] st] end;
    [|done|done].
  injection H as <-. apply Hi; [|done]. intros [k a] st' _ Hp. unfold remove_step, catch, shouldRemoveID.
  destruct (checkIfInUse _ _ _ _) as [[b|e|] ls']; [|done|done]. destruct (aas_AzureIdentityRef _) as [id|]; [|done].
  destruct (_ && _); [|done]. by apply plain_track_at.
Qed.

(** [shouldAssignID] only adds, and adds the id of a new assignment. *)
Lemma shouldAssignID_adds a m m' n x : shouldAssignID a m = Ret m' → x ∈ adds m n → x ∈ adds m' n.
Proof.
  unfold shouldAssignID. destruct (aas_AzureIdentityRef _) as [id|]; [|done]. cbn. intros [= <-] Hx.
  case_bool_decide; [|done]. destruct (checkIfUserAssignedMSI id); [|done].
  unfold appendToAddListForNode. rewrite adds_track_at. case_decide as E; [subst n|done].
  apply elem_of_app. left. unfold adds in Hx. by destruct (m !! aai_node a).
Qed.

Lemma assign_loop_adds (l : list (string * AzureAssignedIdentity)) m m' n x :
  foldM (λ m (kv : string * AzureAssignedIdentity), shouldAssignID kv.2 m) m l = Ret m' → x ∈ adds m n → x ∈ adds m' n.
Proof.
  revert m. induction l as [|kv l IH]; intros m; [by intros [= <-]|]. cbn [foldM]. unfold mbind, outcome_bind.
  destruct (shouldAssignID kv.2 m) as [m1|e|] eqn:E; [|done|done]. intros H Hx. apply (IH m1 H). by eapply shouldAssignID_adds.
Qed.

(** The assignment is new, and of an identity that machines hold. *)
Definition to_assign (a : AzureAssignedIdentity) (x : string) : Prop :=
  ∃ id, identity_of a = Some id ∧ checkIfUserAssignedMSI id = true ∧ ais_ResourceID (ai_Spec id) = x ∧
        (aai_status a = "" ∨ aai_status a = AssignedIDCreated).

Lemma assign_loop_in (l : list (string * AzureAssignedIdentity)) m m' k a x :
  foldM (λ m (kv : string * AzureAssignedIdentity), shouldAssignID kv.2 m) m l = Ret m' → (k, a) ∈ l → to_assign a x →
  x ∈ adds m' (aai_node a).
Proof.
  revert m. induction l as [|kv l IH]; intros m; [by intros _ ?%not_elem_of_nil|]. cbn [foldM]. unfold mbind, outcome_bind.
  destruct (shouldAssignID kv.2 m) as [m1|e|] eqn:E; [|done|done]. intros H [<-|Hin]%elem_of_cons Ha; [|by apply (IH m1)].
  apply (assign_loop_adds l m1 m' _ _ H). destruct Ha as (id & Hid & Hmsi & <- & Hst). unfold shouldAssignID in E.
  unfold identity_of in Hid. cbn [snd] in E. rewrite Hid in E. cbn in E.
  rewrite bool_decide_true, Hmsi in E by done. injection E as <-.
  unfold appendToAddListForNode. rewrite adds_track_at, decide_True by done. apply elem_of_app. right. by apply list_elem_of_singleton.
Qed.

Lemma assign_plain add upd m m' : getListOfIdsToAssign add upd m = Ret m' → plain m → plain m'.
Proof.
  unfold getListOfIdsToAssign. generalize (go_range 692 add ++ go_range 695 upd). intros l. revert m.
  induction l as [|[k a] l IH]; intros m; [by intros [= <-]|]. cbn [foldM]. unfold shouldAssignID.
  destruct (aas_AzureIdentityRef _) as [id|]; [|done]. cbn. intros H Hm. apply (IH _ H).
  case_bool_decide; [|done]. destruct (checkIfUserAssignedMSI id); [|done]. by apply plain_track_at.
Qed.

Lemma nonempty_lookup (m : aai_map) k a : m !! k = Some a → nonempty m = true.
Proof.
  intros H. unfold nonempty. rewrite bool_decide_false; [done|]. intros E%map_size_empty_inv. subst. by rewrite lookup_empty in H.
Qed.

(** The node map of a plan: no entry of a scale set, and the ids of the new assignments. *)
Lemma plan_nodeMap_adds c nc st new refs m :
  plan_nodeMap c nc st new refs = Ret m →
  plain m ∧ ∀ k a x, us_add st !! k = Some a ∨ us_after st !! k = Some a → to_assign a x → x ∈ adds m (aai_node a).
Proof.
  intros H. unfold plan_nodeMap in H. set (m0 := convertAssignedIDListToMap _ _ _ _) in *.
  assert (plain m0) as H0 by apply convert_plain. unfold mbind, outcome_bind in H.
  destruct (if nonempty (us_del st) || nonempty (us_before st) then _ else _) as [m1|e|] eqn:E; [|done|done].
  assert (plain m1) as H1.
  { destruct (nonempty (us_del st) || nonempty (us_before st)); [by eapply delete_plain|by injection E as <-]. }
  split.
  - destruct (nonempty (us_add st) || nonempty (us_after st)); [by eapply assign_plain|by injection H as <-].
  - intros k a x Hk Ha.
    assert (nonempty (us_add st) || nonempty (us_after st) = true) as Hne.
    { apply orb_true_iff. destruct Hk as [Hk|Hk]; apply nonempty_lookup in Hk; auto. }
    rewrite Hne in H. unfold getListOfIdsToAssign in H. eapply assign_loop_in; [exact H| |done].
    apply elem_of_app. destruct Hk as [Hk|Hk]; [left|right]; apply elem_of_go_range; exact Hk.
Qed.

(** ** The machine of a node *)

Lemma merged_adds l x : x ∈ addUserAssignedMSIIDs (merged l) ↔ ∃ t, t ∈ l ∧ x ∈ addUserAssignedMSIIDs t.
Proof.
  destruct l as [|t0 l]; [set_solver|]. rewrite merged_all_work by done. cbn [all_work addUserAssignedMSIIDs].
  rewrite list_elem_of_bind. set_solver.
Qed.

Lemma merged_isvmss l : l ≠ [] → isvmss (merged l) = true.
Proof. intros Hl. by rewrite merged_all_work. Qed.

(** The machine that holds the identities of a node: its scale set, or the node itself. *)
Definition machine (nc : NodeGetter) (n : string) : option (bool * string) :=
  match node_class_of nc n with Gone => None | InVMSS v => Some (true, getVMSSName v) | Other => Some (false, n) end.
End planning.

Section cycle.
Context `{R : GoRange} {S C : Type} {ci : ClientInt S} {cc : CloudInt C}
  {cl : ClientLaws ci} {cll : CloudIntLaws cc}.
Abbreviation W := (mic_world S C).
Context (c : MicClient) (nc : NodeGetter) (v : sync_view) (p : sync_plan) (current : aai_map).
Hypothesis Hplan : plan c nc v = Ret p.
Hypothesis Hcur : sv_assigned v = Ret current.
Hypothesis Hwf : cycle_wf nc current p.

(** The node map that is worked on has the id on the add list of the machine. *)
Lemma plan_machine_adds k a x b m :
  us_add (sp_lists p) !! k = Some a ∨ us_after (sp_lists p) !! k = Some a → to_assign a x →
  machine nc (aai_node a) = Some (b, m) →
  ∃ t, sp_nodeMap p !! m = Some t ∧ isvmss t = b ∧ x ∈ addUserAssignedMSIIDs t.
Proof.
  intros Hk Ha Hm. destruct (plan_inv c nc v p current Hplan Hcur) as (_ & _ & _ & _ & _ & En & Ec).
  destruct (plan_nodeMap_adds _ _ _ _ _ _ En) as [Hplain Hadds]. specialize (Hadds k a x Hk Ha).
  destruct (plan_consolidated nc p (cw_nc _ _ _ Hwf) (cw_names _ _ _ Hwf) Ec) as (_ & Hv & Ho & _).
  unfold adds in Hadds. destruct (sp_perNode p !! aai_node a) as [t|] eqn:Et; [|by apply not_elem_of_nil in Hadds].
  unfold machine in Hm. destruct (node_class_of nc (aai_node a)) as [|s|] eqn:Hcl; [done| |]; injection Hm as <- <-.
  - assert ((aai_node a, t) ∈ members nc (sp_perNode p) (InVMSS s)) as Hmem by (by apply elem_of_members).
    assert (members nc (sp_perNode p) (InVMSS s) ≠ []) as Hne by (intros E; rewrite E in Hmem; by apply not_elem_of_nil in Hmem).
    eexists. split; [by apply Hv|]. split; [apply merged_isvmss; by destruct (members _ _ _)|].
    apply merged_adds. exists t. split; [|done]. apply list_elem_of_fmap. by exists (aai_node a, t).
  - exists t. split; [by apply Ho|]. split; [by apply (Hplain (aai_node a))|done].
Qed.
End cycle.
