(* ===== verification/MicStart.v ===== *)
(** * MIC: from winning the election to the first sync (pkg/mic/mic.go:
    [UpgradeTypeIfRequired], [Start]).

    The upgrade of the stored types is done once per cluster: a key of a config map records
    it. Config maps are accessed through the API server, a parameter ([ConfigMaps]) with its
    documented behaviour as laws. *)

From S2P Require Import Prelude GoStrings Types Concurrency.

(** ** Config maps *)

Record ConfigMap := mkConfigMap { cm_Namespace : string; cm_Name : string; cm_Data : option (gmap string string) }.

(** The requests of [typedcorev1.ConfigMapInterface] in the namespace of the client. *)
Class ConfigMaps (W : Type) := {
  cmc_Get : string → M W ConfigMap;
  cmc_Create : ConfigMap → M W ConfigMap;
  cmc_Update : ConfigMap → M W ConfigMap
}.

(** ** The upgrade *)

Record TypeUpgradeConfig := mkTypeUpgradeConfig { TypeUpgradeStatusKey : string; EnableTypeUpgrade : bool }.
Record CMConfig := mkCMConfig { CMCfg_Namespace : string; CMCfg_Name : string }.

Section start.
Context {W : Type} `{cmc : ConfigMaps W}.
Variable UpgradeAll : M W unit.                     (* of the CRD client *)
Variable MICVersion : string.
Variable TypeUpgradeCfg : TypeUpgradeConfig.
Variable CMCfg : CMConfig.

Definition config_map_failed (verb : string) (err : error) : error :=
  Errorf ("failed to " +:+ verb +:+ " ConfigMap " +:+ CMCfg_Namespace CMCfg +:+ "/" +:+ CMCfg_Name CMCfg +:+
          ", error: " +:+ Error err).

(** Lines 289-308: the config map, created when there is none. *)
Definition status_config_map : M W ConfigMap :=
  catch (cmc_Get (CMCfg_Name CMCfg)) (λ err,
    if negb (IsNotFound err) then fail (config_map_failed "get" err)
    else catch (cmc_Create (mkConfigMap (CMCfg_Namespace CMCfg) (CMCfg_Name CMCfg) None))
           (λ err, fail (config_map_failed "create" err))).

Definition UpgradeTypeIfRequired : M W unit :=
  if EnableTypeUpgrade TypeUpgradeCfg then
    cm ← status_config_map;
    let Data := default ∅ (cm_Data cm) in
    match Data !! TypeUpgradeStatusKey TypeUpgradeCfg with
    | None =>
        _ ← catch UpgradeAll (λ err, fail (Errorf ("failed to upgrade type, error: " +:+ Error err)));
        catch
          (_ ← cmc_Update (mkConfigMap (cm_Namespace cm) (cm_Name cm)
                 (Some (<[TypeUpgradeStatusKey TypeUpgradeCfg := MICVersion]> Data)));
           mret tt)
          (λ err, fail (Errorf ("failed to update ConfigMap key " +:+ TypeUpgradeStatusKey TypeUpgradeCfg +:+
             " failed, error: " +:+ Error err)))
    | Some _ => mret tt
    end
  else mret tt.

(** [Start]: the four clients start concurrently; when all have, the sync thread does. A
    failed upgrade ends the process. *)
Variables PodClient_Start CRDClient_Start NodeClient_Start CloudConfigWatcher_Start Sync : proc W.

Definition Start : proc W :=
  act UpgradeTypeIfRequired
    (λ _, Fork [PodClient_Start; CRDClient_Start; NodeClient_Start; CloudConfigWatcher_Start] Sync)
    (λ _, Crash).

(** ** What the code relies on *)

(** The stored config map of the client's name. Reads do not change it, a create or an update
    that succeeds stores what it was given, one that fails changes nothing. *)
Class ConfigMapLaws := {
  stored_cm : W → option ConfigMap;
  law_cm_Get_Ret w cm w' : cmc_Get (CMCfg_Name CMCfg) w = (Ret cm, w') → w' = w ∧ stored_cm w = Some cm;
  law_cm_Get_Fail w e w' : cmc_Get (CMCfg_Name CMCfg) w = (Fail e, w') →
    w' = w ∧ (IsNotFound e = true → stored_cm w = None);
  law_cm_Create w cm r w' : cm_Name cm = CMCfg_Name CMCfg → cmc_Create cm w = (r, w') →
    match r with Ret cm' => cm' = cm ∧ stored_cm w' = Some cm | _ => stored_cm w' = stored_cm w end;
  law_cm_Update w cm r w' : stored_cm w ≠ None → cmc_Update cm w = (r, w') →
    match r with Ret _ => stored_cm w' = Some cm | _ => stored_cm w' = stored_cm w end;
  law_cm_UpgradeAll w : stored_cm (UpgradeAll w).2 = stored_cm w
}.

(** The upgrade is recorded: the stored config map has the key. *)
Definition upgrade_recorded `{ConfigMapLaws} (w : W) : Prop :=
  ∃ cm Data, stored_cm w = Some cm ∧ cm_Data cm = Some Data ∧ is_Some (Data !! TypeUpgradeStatusKey TypeUpgradeCfg).

(** ** Properties *)

Section theory.
Context `{laws : ConfigMapLaws}.

Lemma status_config_map_Ret w cm w' : status_config_map w = (Ret cm, w') →
  stored_cm w' = Some cm ∧ ((w' = w ∧ stored_cm w = Some cm) ∨ (stored_cm w = None ∧ cm_Data cm = None)).
Proof.
  unfold status_config_map, catch. destruct (cmc_Get _ w) as [[cm0|e|] w1] eqn:Eg; [| |done].
  - intros [= <- <-]. apply law_cm_Get_Ret in Eg as [-> Hs]. auto.
  - apply law_cm_Get_Fail in Eg as [-> Hn]. destruct (IsNotFound e); [|done]. simpl.
    destruct (cmc_Create _ w) as [[cm0|e'|] w2] eqn:Ec; [|done|done]. intros [= <- <-].
    apply law_cm_Create in Ec as [-> Hs]; [|done]. simpl. auto.
Qed.

Lemma status_config_map_fails w e w' : status_config_map w = (Fail e, w') → stored_cm w' = stored_cm w.
Proof.
  unfold status_config_map, catch. destruct (cmc_Get _ w) as [[cm0|e0|] w1] eqn:Eg; [done| |done].
  apply law_cm_Get_Fail in Eg as [-> Hn]. destruct (IsNotFound e0); [|by intros [= _ <-]]. simpl.
  destruct (cmc_Create _ w) as [[cm0|e'|] w2] eqn:Ec; [done| |done]. intros [= _ <-]. by apply law_cm_Create in Ec.
Qed.

(** C38: the types are upgraded once, and before anything else. When [UpgradeTypeIfRequired]
    returns without error the upgrade is on record; it comes on record only after
    [UpgradeAll] has succeeded, in particular not when the upgrade fails half-way; and
    once it is on record, the call changes nothing and so never upgrades again. *)
Theorem upgraded_once w r w' :
  EnableTypeUpgrade TypeUpgradeCfg = true → UpgradeTypeIfRequired w = (r, w') → r ≠ Panic →
  (r = Ret tt → upgrade_recorded w') ∧
  (upgrade_recorded w' → upgrade_recorded w ∨ ∃ w2, UpgradeAll (status_config_map w).2 = (Ret tt, w2)) ∧
  (upgrade_recorded w → w' = w).
Proof.
  unfold UpgradeTypeIfRequired. intros -> Hr Hp. unfold mbind, M_bind in Hr.
  destruct (status_config_map w) as [[cm|e|] w1] eqn:Es; [|injection Hr as <- <-|by injection Hr as <- _].
  2: { pose proof Es as Hs%status_config_map_fails. split; [done|]. unfold upgrade_recorded. rewrite Hs. split; [by left|].
       intros (cm & Data & Hcm & _). unfold status_config_map, catch in Es.
       destruct (cmc_Get _ w) as [[cm0|e0|] w2] eqn:Eg; [done| |done]. apply law_cm_Get_Fail in Eg as [-> Hn].
       destruct (IsNotFound e0); [by rewrite Hn in Hcm|]. by injection Es as _ <-. }
  apply status_config_map_Ret in Es as [Hs1 Hs]. cbv zeta in Hr.
  destruct (default ∅ (cm_Data cm) !! _) as [v|] eqn:Ek.
  - injection Hr as <- <-. assert (upgrade_recorded w1) as Hrec.
    { exists cm, (default ∅ (cm_Data cm)). split; [done|]. destruct (cm_Data cm); simpl in *; [by rewrite Ek; eauto|done]. }
    destruct Hs as [[-> Hs]|[_ Hd]]; [by auto|]. by rewrite Hd in Ek.
  - assert (¬ upgrade_recorded w) as Hno.
    { intros (cm' & Data & Hcm & Hd & Hk). destruct Hs as [[-> Hs]|[Hs _]]; simplify_eq. rewrite Hd in Ek. simpl in Ek. by rewrite Ek in Hk; destruct Hk. }
    assert (¬ upgrade_recorded w1) as Hno1.
    { intros (cm' & Data & Hcm & Hd & Hk). simplify_eq. rewrite Hd in Ek. simpl in Ek. by rewrite Ek in Hk; destruct Hk. }
    unfold catch in Hr. pose proof (law_cm_UpgradeAll w1) as Hu. destruct (UpgradeAll w1) as [[[]|e|] w2] eqn:Eu; simpl in Hu;
      [|injection Hr as <- <-|by injection Hr as <- _].
    2: { split; [done|]. split; [|done]. intros (cm' & Data & Hcm & Hd & Hk). rewrite Hu in Hcm. destruct Hno1. by exists cm', Data. }
    destruct (cmc_Update _ w2) as [[cm'|e|] w3] eqn:Ec; injection Hr as <- <-; [| |done];
      apply law_cm_Update in Ec; try (rewrite Hu, Hs1; done).
    + split; [intros _|split; [right; eauto|done]]. eexists _, _. split; [done|]. split; [done|]. rewrite lookup_insert_eq. eauto.
    + split; [done|]. split; [|done]. intros (cm' & Data & Hcm & Hd & Hk). rewrite Ec, Hu in Hcm. destruct Hno1. by exists cm', Data.
Qed.
End theory.
End start.

(** ** A concrete cluster: the config map, and how often the types were upgraded *)

Record cm_world := mkCmWorld { cw_cm : option ConfigMap; cw_upgrades : nat }.

#[export] Instance sim_cms : ConfigMaps cm_world := {|
  cmc_Get := λ _ w, (match cw_cm w with Some cm => Ret cm | None => Fail (mk_error KNotFound "not found") end, w);
  cmc_Create := λ cm w, (Ret cm, mkCmWorld (Some cm) (cw_upgrades w));
  cmc_Update := λ cm w, (Ret cm, mkCmWorld (Some cm) (cw_upgrades w))
|}.

Definition sim_UpgradeAll : M cm_world unit := λ w, (Ret tt, mkCmWorld (cw_cm w) (S (cw_upgrades w))).
Definition upgrade_cfg : TypeUpgradeConfig := mkTypeUpgradeConfig "type-upgrade-status" true.
Definition cm_cfg : CMConfig := mkCMConfig "default" "aad-pod-identity-config".

#[export] Instance sim_cm_laws : ConfigMapLaws sim_UpgradeAll cm_cfg.
Proof.
  refine {| stored_cm := cw_cm |}.
  - intros w cm w'. simpl. by destruct (cw_cm w); intros [= <- <-].
  - intros w e w'. simpl. by destruct (cw_cm w); intros [= <- <-].
  - intros w cm r w' _. simpl. by intros [= <- <-].
  - intros w cm r w' _. simpl. by intros [= <- <-].
  - done.
Defined.

Definition upgrade_run (w : cm_world) : outcome unit * cm_world :=
  UpgradeTypeIfRequired sim_UpgradeAll "1.8.0" upgrade_cfg cm_cfg w.

Lemma upgraded_once_witness :
  cw_upgrades (upgrade_run (upgrade_run (mkCmWorld None 0)).2).2 = 1%nat ∧
  upgrade_recorded sim_UpgradeAll upgrade_cfg cm_cfg (upgrade_run (mkCmWorld None 0)).2.
Proof.
  split; [vm_compute; reflexivity|].
  assert (Ret () ≠ @Panic ()) as Hp by discriminate.
  destruct (upgraded_once sim_UpgradeAll "1.8.0" upgrade_cfg cm_cfg (mkCmWorld None 0) (Ret tt) (upgrade_run (mkCmWorld None 0)).2)
    as (Hr & _); [reflexivity|vm_compute; reflexivity|exact Hp|]. apply Hr. reflexivity.
Defined.
