(* ===== verification/MicMain.v ===== *)
(** * The process of MIC (cmd/mic/main.go; [NewMICClient], [Run] and [NewLeaderElector] of
    pkg/mic/mic.go): from its flags to the clients, the watcher of the cloud configuration and the
    leader election that starts the sync loop.

    The theorems say that what is put together fits: every client that [Start] and [Sync] use is
    there, and the protected identities are those of the flag and the one MIC runs with; that
    the defaults make an acceptable election; and that the cloud client follows the
    configuration file. The election itself does not return while the process lives, so
    [main] is split before it ([mic_main], [MIC_Run]). *)

From S2P Require Import Prelude GoStrings Types Conversion Fixtures Regex ResourceId MicDesired MicVmss MicNode Concurrency Retry Crd PodClient Metrics Auth CloudIdentity CloudInterface CloudProvider CloudInit Kube Nmi Http NmiServer Informers Iptables NmiMain Stats CrdInterface MicUpdate MicReconcile MicSync MicStart Process.

(** ** Configuration *)

Record LeaderElectionConfig := mkLeaderElectionConfig {
  le_Namespace : string; le_Name : string; le_Duration : Z; le_Instance : string
}.

Record UpdateUserMSIConfig := mkUpdateUserMSIConfig { MaxRetry : Z; RetryInterval : Z }.

(** What is called when the election is won, and when the lease is lost. *)
Inductive callback := CallStart | CallExit (code : Z).

(** [leaderelection.LeaderElectionConfig], for a lock. *)
Record elector_config (Lock : Type) := mkElectorConfig {
  LeaseDuration : Z; RenewDeadline : Z; RetryPeriod : Z;
  OnStartedLeading : callback; OnStoppedLeading : callback;
  ec_Lock : Lock
}.
Arguments mkElectorConfig {Lock}.
Arguments LeaseDuration {Lock}.
Arguments RenewDeadline {Lock}.
Arguments RetryPeriod {Lock}.

Class MicLib (W : Type) `{rt : InformerRuntime W} := {
  NewForConfigOrDie : rest_config config_other Serializer → outcome Clientset;     (* panics on an error *)
  NewSharedInformerFactory : Clientset → Z → SharedInformerFactory;
  factory_Nodes : SharedInformerFactory → NodeInformer;
  EventRecorder : Type;
  NewRecorder : Clientset → string → EventRecorder;        (* of a broadcaster that records to the cluster *)
  ConfigMapInterface : Type;
  clientset_ConfigMaps : Clientset → string → ConfigMapInterface;
  ResourceLock : Type;
  EndpointsResourceLock : string;
  resourcelock_New : string → string → string → Clientset → string → EventRecorder → outcome ResourceLock;
  LeaderElector : Type;
  leaderelection_NewLeaderElector : elector_config ResourceLock → outcome LeaderElector;
  LeaderElector_Run : LeaderElector → M W unit;
  Float : Type;                                             (* float64 *)
  float_5 : Float;
  set_rate : Float → config_other → config_other;           (* QPS and Burst *)
  go_serve_profile : string → W → W                         (* go http.ListenAndServe *)
}.

Section mic.
Context {W : Type} `{rt : InformerRuntime W} `{ml : !MicLib W} `{lib : CloudLib} `{fs : FsNotify}.
Variable tag_New : list (string * string) → option error.
Variable userAgent : string.                                (* version.GetUserAgent("MIC", version.MICVersion) *)
Variable StatusCodesForRetry : list Z.                      (* of the package autorest *)
Abbreviation config := (rest_config config_other Serializer).
Abbreviation provider := (provider (lib := lib)).

Record mic_Config := mkMicConfig {
  CloudCfgPath : string;
  RestConfig : config;
  cfg_IsNamespaced : bool;
  SyncRetryInterval : Z;
  LeaderElectionCfg : LeaderElectionConfig;
  CreateDeleteBatch : Z;
  ImmutableUserMSIsList : list string;
  CMcfg : CMConfig;
  cfg_TypeUpgradeCfg : TypeUpgradeConfig;
  UpdateUserMSICfg : UpdateUserMSIConfig;
  IdentityAssignmentReconcileInterval : Z
}.

(** [mic.Client]; the fields that a sync cycle reads are a [MicClient]. The cloud client is
    shared with the handler of the watcher. *)
Record mic_client := mkMicProcess {
  mcl_CRDClient : CrdClient;
  mcl_CloudClient : provider * retry_client;
  mcl_PodClient : PodInformer;
  mcl_CloudConfigWatcher : file_watcher (Files * provider);
  mcl_EventRecorder : EventRecorder;
  mcl_NodeClient : NodeInformer;
  mcl_settings : MicClient;
  mcl_syncRetryInterval : Z;
  mcl_TypeUpgradeCfg : TypeUpgradeConfig;
  mcl_CMCfg : CMConfig;
  mcl_CMClient : option ConfigMapInterface;
  mcl_identityAssignmentReconcileInterval : Z;
  mcl_leaderElector : LeaderElector;
  mcl_Reporter : Reporter
}.

(** ** Construction *)

(** Lines 167-174: the handler of changes of the cloud configuration, on the files as they are
    then and the cloud client. *)
Definition cloud_config_event (Op : Z) : M (Files * provider) unit := λ '(files, p),
  if bool_decide (Z.land Op fsnotify_Write = fsnotify_Write)
  then let '(r, p) := catch (client_Init tag_New userAgent files) (λ _, mret tt) p in (r, (files, p))
  else (Ret tt, (files, p)).

(** The division of durations truncates. *)
Definition leader_config (cfg : LeaderElectionConfig) (lock : ResourceLock) : elector_config ResourceLock :=
  mkElectorConfig (le_Duration cfg) (Z.quot (le_Duration cfg) 2) (Z.quot (le_Duration cfg) 4) CallStart (CallExit 1) lock.

Definition NewLeaderElector (clientSet : Clientset) (recorder : EventRecorder) (cfg : LeaderElectionConfig) :
    outcome LeaderElector :=
  resourceLock ← or_error "failed to create resource lock for leader election"
    (resourcelock_New EndpointsResourceLock (le_Namespace cfg) (le_Name cfg) clientSet (le_Instance cfg) recorder);
  leaderelection_NewLeaderElector (leader_config cfg resourceLock).

Definition NewMICClient (files : Files) (cfg : mic_Config) : outcome mic_client :=
  clientSet ← NewForConfigOrDie (RestConfig cfg);
  let informer := NewSharedInformerFactory clientSet (30 * Second) in
  cloudClient ← NewCloudProvider tag_New userAgent files (CloudCfgPath cfg) (MaxRetry (UpdateUserMSICfg cfg))
                  (RetryInterval (UpdateUserMSICfg cfg)) StatusCodesForRetry;
  crdClient ← NewCRDClient tag_New (RestConfig cfg);
  let podClient := NewPodClient informer in
  cloudConfigWatcher ← NewFileWatcher (Some cloud_config_event) (Some (λ _, mret tt));
  cloudConfigWatcher ← file_watcher_Add cloudConfigWatcher (CloudCfgPath cfg);
  let recorder := NewRecorder clientSet CRDGroup in
  let immutable := immutableUserMSIsMap (ImmutableUserMSIsList cfg) (GetClusterIdentity (cloudClient.1)) in
  let cmClient := if EnableTypeUpgrade (cfg_TypeUpgradeCfg cfg)
                  then Some (clientset_ConfigMaps clientSet (CMCfg_Namespace (CMcfg cfg))) else None in
  leaderElector ← or_error "failed to create new leader elector" (NewLeaderElector clientSet recorder (LeaderElectionCfg cfg));
  reporter ← new_reporter tag_New;
  Ret (mkMicProcess crdClient cloudClient podClient cloudConfigWatcher recorder (factory_Nodes informer)
         (mkMicClient (cfg_IsNamespaced cfg) (CreateDeleteBatch cfg) (Some immutable))
         (SyncRetryInterval cfg) (cfg_TypeUpgradeCfg cfg) (CMcfg cfg) cmClient
         (IdentityAssignmentReconcileInterval cfg) leaderElector reporter).

Context `{rec : Recorder W} `{pl : !ProcessLib W}.

(** ** The command *)

Record mic_flags := mkMicFlags {
  kubeconfig : string; cloudconfig : string;
  mf_forceNamespaced : bool; versionInfo : bool;
  syncRetryDuration : Z;
  leaderElectionCfg : LeaderElectionConfig;
  httpProbePort : string; prometheusPort : string;
  enableProfile : bool;
  mf_createDeleteBatch : Z;
  clientQPS : Float;
  immutableUserMSIs : string;
  cmConfig_Name : string;
  typeUpgradeConfig : TypeUpgradeConfig;
  updateUserMSIConfig : UpdateUserMSIConfig;
  identityAssignmentReconcileInterval : Z;
  LogFormat : string
}.

(** The values of the flags that are not given. *)
Definition default_flags (hostName : string) : mic_flags :=
  mkMicFlags "" "" false false (3600 * Second)
    (mkLeaderElectionConfig "default" "aad-pod-identity-mic" (15 * Second) hostName)
    "8080" "8888" false 20 float_5 "" "aad-pod-identity-config"
    (mkTypeUpgradeConfig "type-upgrade-status" true) (mkUpdateUserMSIConfig 2 (1 * Second)) (3 * Minute) textLogFormat.

Record mic_environment := mkMicEnvironment {
  os_Hostname : outcome string;
  flag_Parse : mic_flags → mic_flags;                       (* sets the flags that are given *)
  MIC_POD_NAMESPACE : string;
  mic_FORCENAMESPACED : string
}.

Definition mic_buildConfig (kubeconfigPath : string) : outcome config :=
  if bool_decide (kubeconfigPath ≠ "") then BuildConfigFromFlags "" kubeconfigPath else InClusterConfig.

Definition with_rate (qps : Float) (cfg : config) : config :=
  mkRestConfig (GroupVersion cfg) (APIPath cfg) (ContentType cfg) (NegotiatedSerializer cfg) (UserAgent cfg)
    (set_rate qps (rc_other cfg)).

Definition comma : ascii := ",".

Definition immutable_list (f : mic_flags) : list string :=
  if bool_decide (immutableUserMSIs f ≠ "") then Split (immutableUserMSIs f) comma else [].

Definition mic_config_of (env : mic_environment) (f : mic_flags) (cfg : config) : mic_Config :=
  mkMicConfig (cloudconfig f) (with_rate (clientQPS f) (with_user_agent userAgent cfg))
    (mf_forceNamespaced f || bool_decide ("true" = mic_FORCENAMESPACED env)) (syncRetryDuration f)
    (leaderElectionCfg f) (mf_createDeleteBatch f) (immutable_list f) (mkCMConfig (MIC_POD_NAMESPACE env) (cmConfig_Name f))
    (typeUpgradeConfig f) (updateUserMSIConfig f) (identityAssignmentReconcileInterval f).

(** [main], up to the call of [Run]: [None] when it only prints the version. [files] are the
    files when the client is built. *)
Definition mic_main (env : mic_environment) (files : Files) : M W (option mic_client) :=
  hostName ← fatal "failed to get hostname" (lift (os_Hostname env));
  let f := flag_Parse env (default_flags hostName) in
  _ ← fatal "unable to apply logging options" (Options_Apply (LogFormat f));
  if bool_decide (MIC_POD_NAMESPACE env = "")
  then fail (Errorf "namespace not specified. Please add meta.namespace as env variable MIC_POD_NAMESPACE")
  else if versionInfo f then mret None
  else
    _ ← (if enableProfile f then modify (go_serve_profile ("localhost:" +:+ "6060")) else mret tt);
    config ← fatal ("failed to build config from " +:+ kubeconfig f) (lift (mic_buildConfig (kubeconfig f)));
    micClient ← fatal "failed to create MIC client" (lift (NewMICClient files (mic_config_of env f config)));
    _ ← InitAndStart (httpProbePort f);
    _ ← fatal ("failed to register and export metrics on port " +:+ prometheusPort f) (RegisterAndExport (prometheusPort f));
    mret (Some micClient).

(** [Run], the last call of [main]: the election is counted and run. It returns only when the
    lease is lost, after the callback that ends the process. *)
Definition MIC_Run (c : mic_client) : M W unit :=
  _ ← Report (Some (mcl_Reporter c)) [(MICNewLeaderElectionCountM, 1%Z)];
  LeaderElector_Run (mcl_leaderElector c).

(** All of [main]. *)
Definition mic_process (env : mic_environment) (files : Files) : M W unit :=
  c ← mic_main env files;
  match c with Some c => MIC_Run c | None => mret tt end.

(** What the callbacks do: the winner starts, who loses the lease exits. *)
Definition run_callback (start : proc W) (c : callback) : proc W :=
  match c with CallStart => start | CallExit _ => Crash end.
End mic.

(** ** The sync loop and the probe *)

(** The two fields that the start of [Sync] changes: the guard and what the probe reads. *)
Record loop_state := mkLoopState { ls_syncing : Z; SyncLoopStarted : bool }.

(** [time.NewTicker] panics unless the interval is positive. *)
Definition NewTicker {W} (d : Z) : M W unit := λ w, (if (d <=? 0)%Z then Panic else Ret tt, w).

(** [Sync] around its loop: the deferred [setStopped] releases the guard however it ends. *)
Definition Sync (loop : M loop_state unit) (syncRetryInterval reconcileInterval : Z) : M loop_state unit := λ st,
  let '(ok, syncing') := canSync (ls_syncing st) in
  let st := mkLoopState syncing' (SyncLoopStarted st) in
  if negb ok then (Panic, st)
  else
    let '(r, st) := (_ ← NewTicker syncRetryInterval; _ ← NewTicker reconcileInterval;
                     _ ← modify (λ st, mkLoopState (ls_syncing st) true); loop) st in
    (r, mkLoopState (setStopped (ls_syncing st)) (SyncLoopStarted st)).

(** ** Properties *)

(** The part of client-go's behaviour that is not in [ClientGoLaws]: a handler does not
    change what an informer watches. *)
Class HandlerLaws `{laws : ClientGoLaws} := {
  law_handler f i : watch_of (AddEventHandler f i) = watch_of i
}.

Section crd_client.
Context `{hl : HandlerLaws}.
Variable tag_New : list (string * string) → option error.

Lemma delivers_handler i resource options f : delivers (Some i) resource options → delivers (Some (AddEventHandler f i)) resource options.
Proof. intros (i' & [= <-] & H). exists (AddEventHandler f i). by rewrite law_handler. Qed.

Lemma NewCRDClient_spec cfg c : NewCRDClient tag_New cfg = Ret c →
  delivers (BindingInformer c) AzureIDBindingResource zeroListOptions ∧
  delivers (IDInformer c) AzureIDResource zeroListOptions ∧
  delivers (AssignedIDInformer c) AzureAssignedIDResource zeroListOptions ∧ PodIdentityExceptionInformer c = None.
Proof.
  unfold NewCRDClient, newBindingInformer, newIDInformer, mbind, outcome_bind.
  destruct (newRestClient cfg) as [r| |]; [|done|done].
  destruct (new_informer (newBindingListWatch r) _ _) as [b| |] eqn:Eb; [|done|done].
  destruct (new_informer (newIDListWatch r) _ _) as [i| |] eqn:Ei; [|done|done].
  destruct (newAssignedIDInformer _) as [a| |] eqn:Ea; [|done|done].
  destruct (new_reporter tag_New); [|done|done]. intros [= <-]. cbn.
  split; [by apply delivers_handler, (delivers_list_watch r _ _ _ _ Eb)|].
  split; [by apply delivers_handler, (delivers_list_watch r _ _ _ _ Ei)|].
  split; [|done]. exact (delivers_list_watch r _ _ _ _ Ea).
Qed.

(** The start of a client with its three informers runs them all and waits for them. *)
Lemma Client_Start_run {W} `{rt : InformerRuntime W} c b i a (w : W) :
  BindingInformer c = Some b → IDInformer c = Some i → AssignedIDInformer c = Some a →
  Client_Start c w = Client_SyncCache true [b; i; a] (run_all [b; i; a] w).
Proof.
  intros Hb Hi Ha. unfold Client_Start, SyncCacheAll, run_informer, on_informer. rewrite Hb, Hi, Ha. done.
Qed.
End crd_client.

(** The immutable identities: those of the list in lower case, and the one MIC runs with. *)
Lemma immutable_map_lookup l cluster id : is_Some (immutableUserMSIsMap l cluster !! id) ↔
  (∃ item, item ∈ l ∧ ToLower item = id) ∨ (cluster ≠ "" ∧ id = cluster).
Proof.
  assert (∀ (m : gmap string bool), is_Some (foldl (λ m item, <[ToLower item := true]> m) m l !! id) ↔
    (∃ item, item ∈ l ∧ ToLower item = id) ∨ is_Some (m !! id)) as H.
  { induction l as [|x l IH]; intros m; cbn [foldl]; [set_solver|]. rewrite IH. destruct (decide (ToLower x = id)) as [<-|Hne].
    - rewrite lookup_insert_eq. split; [intros _; left; exists x; set_solver|]. intros _. right. by eexists.
    - rewrite lookup_insert_ne by done. set_solver. }
  unfold immutableUserMSIsMap. case_bool_decide as Hc.
  - rewrite H, lookup_empty. split; [intros [?|[? ?]]; [by left|done]|]. intros [?|[? ?]]; [by left|done].
  - destruct (decide (id = cluster)) as [->|Hne].
    + rewrite lookup_insert_eq. split; [by right|]. intros _. by eexists.
    + rewrite lookup_insert_ne by done. rewrite H, lookup_empty. split; [intros [?|[? ?]]; [by left|done]|].
      intros [?|[? ?]]; [by left|done].
Qed.

(** ** The process *)

Section process.
Context {W : Type} `{rt : InformerRuntime W} `{ml : !MicLib W} `{lib : CloudLib} `{fs : FsNotify} `{rec : Recorder W} `{pl : !ProcessLib W}.
Context `{laws : !ClientGoLaws} `{hl : !HandlerLaws}.
Variable tag_New : list (string * string) → option error.
Variable userAgent : string.
Variable codes : list Z.
Abbreviation client := (mic_client (W := W)).

Lemma NewCloudProvider_Ret files file n i p r : NewCloudProvider tag_New userAgent files file n i codes = Ret (p, r) →
  ∃ u, client_Init tag_New userAgent files (mkProvider None None zeroAzureConfig file codes) = (Ret u, p).
Proof. unfold NewCloudProvider. destruct (client_Init _ _ _ _) as [[u|e|] p']; [|done|done]. intros [= <- _]. by exists u. Qed.

Lemma or_error_Ret {A} prefix (o : outcome A) a : or_error prefix o = Ret a → o = Ret a.
Proof. by destruct o. Qed.

Lemma NewMICClient_inv files cfg (c : client) : NewMICClient tag_New userAgent codes files cfg = Ret c →
  ∃ n i, NewCloudProvider tag_New userAgent files (CloudCfgPath cfg) n i codes = Ret (mcl_CloudClient c) ∧
  NewCRDClient tag_New (RestConfig cfg) = Ret (mcl_CRDClient c) ∧
  (mcl_CMClient c = None ↔ EnableTypeUpgrade (cfg_TypeUpgradeCfg cfg) = false) ∧
  mcl_settings c = mkMicClient (cfg_IsNamespaced cfg) (CreateDeleteBatch cfg)
    (Some (immutableUserMSIsMap (ImmutableUserMSIsList cfg) (GetClusterIdentity (mcl_CloudClient c).1))) ∧
  fw_eventHandler (mcl_CloudConfigWatcher c) = Some (cloud_config_event tag_New userAgent) ∧
  fw_errorHandler (mcl_CloudConfigWatcher c) = Some (λ _, mret tt).
Proof.
  unfold NewMICClient, NewFileWatcher, file_watcher_Add, mbind, outcome_bind. intros H.
  destruct (NewForConfigOrDie _) as [cs| |]; [|done|done].
  destruct (NewCloudProvider _ _ _ _ _ _ _) as [cloud| |] eqn:Ec; [|done|done].
  destruct (NewCRDClient _ _) as [crd| |] eqn:Ed; [|done|done].
  destruct fsnotify_NewWatcher as [fw| |]; [|done|done]. cbn in H. destruct (Watcher_Add _ _) as [fw'| |]; [|done|done].
  destruct (or_error _ (NewLeaderElector _ _ _)); [|done|done]. destruct (new_reporter _); [|done|done].
  injection H as <-. eexists _, _. cbn. split; [exact Ec|]. split; [done|]. split; [|done].
  by destruct (EnableTypeUpgrade _).
Qed.

Lemma mic_main_inv env files host w (c : client) w' : os_Hostname env = Ret host →
  mic_main tag_New userAgent codes env files w = (Ret (Some c), w') →
  ∃ cfg, NewMICClient tag_New userAgent codes files (mic_config_of userAgent env (flag_Parse env (default_flags host)) cfg) = Ret c.
Proof.
  intros Hh. unfold mic_main. intros (h & w0 & Hf%fatal_Ret & H)%bind_Ret. unfold lift in Hf. rewrite Hh in Hf. injection Hf as <- <-.
  cbv zeta in H. set (f := flag_Parse env (default_flags host)) in *. apply bind_Ret in H as (u & w1 & _ & H).
  case_bool_decide; [done|]. destruct (versionInfo f); [by injection H|].
  apply bind_Ret in H as (u1 & w2 & _ & H). apply bind_Ret in H as (cfg & w3 & _ & H).
  apply bind_Ret in H as (c' & w4 & Hc%fatal_Ret & H). apply bind_Ret in H as (u2 & w5 & _ & H).
  apply bind_Ret in H as (u3 & w6 & _ & H). injection H as -> _.
  exists cfg. unfold lift in Hc. by injection Hc.
Qed.

(** C33: MIC is put together correctly. When [main] is about to run the election, its client of
    the resources watches bindings, identities and assigned identities of all namespaces, and
    its start runs exactly these informers and waits for them, without meeting one that was not built;
    the config map client is there if the type upgrade needs it; both clients of the cloud are of the
    subscription of the loaded configuration and have the credentials it calls for; the
    immutable identities are those of the flag, in lower case, and the one that MIC itself runs
    with, and no others; and matching is namespaced if the flag or the environment says so. *)
Theorem mic_is_put_together env files host w (c : client) w' :
  os_Hostname env = Ret host → mic_main tag_New userAgent codes env files w = (Ret (Some c), w') →
  let f := flag_Parse env (default_flags host) in
  let crd := mcl_CRDClient c in
  let p := (mcl_CloudClient c).1 in
  let conf := (load_config files (cloudconfig f)).1 in
  (∃ b i a, BindingInformer crd = Some b ∧ IDInformer crd = Some i ∧ AssignedIDInformer crd = Some a ∧
     delivers (Some b) AzureIDBindingResource zeroListOptions ∧ delivers (Some i) AzureIDResource zeroListOptions ∧
     delivers (Some a) AzureAssignedIDResource zeroListOptions ∧
     ∀ v : W, Client_Start crd v = Client_SyncCache true [b; i; a] (run_all [b; i; a] v)) ∧
  (mcl_CMClient c = None ↔ EnableTypeUpgrade (typeUpgradeConfig f) = false) ∧
  (p_Config p = conf ∧ p_configFile p = cloudconfig f ∧
   ∃ spt vm vmss, authenticate userAgent conf = Ret spt ∧ p_VMClient p = Some vm ∧ p_VMSSClient p = Some vmss ∧
     Forall (new_client conf spt) [vm; vmss]) ∧
  (∀ id, checkIfIdentityImmutable (mcl_settings c) id = true ↔
     (∃ item, item ∈ immutable_list f ∧ ToLower item = id) ∨
     (UserAssignedIdentityID conf ≠ "" ∧ id = UserAssignedIdentityID conf)) ∧
  IsNamespaced (mcl_settings c) = mf_forceNamespaced f || bool_decide (mic_FORCENAMESPACED env = "true").
Proof.
  intros Hh Hm f crd p conf.
  destruct (mic_main_inv env files host w c w' Hh Hm) as (cfg & (n & i & Hp & Hc & Hcm & Hset & _)%NewMICClient_inv).
  assert (p_Config p = conf ∧ p_configFile p = cloudconfig f ∧
    ∃ spt vm vmss, authenticate userAgent conf = Ret spt ∧ p_VMClient p = Some vm ∧ p_VMSSClient p = Some vmss ∧
      Forall (new_client conf spt) [vm; vmss]) as Hcloud.
  { unfold p. destruct (mcl_CloudClient c) as [p' r]. apply NewCloudProvider_Ret in Hp as [u Hp].
    apply client_Init_success in Hp as (_ & H). exact H. }
  apply NewCRDClient_spec in Hc as (Hb & Hi & Ha & _). split; [|split; [done|split; [done|split]]].
  - destruct Hb as (b & Hb & Hb'), Hi as (i' & Hi & Hi'), Ha as (a & Ha & Ha'). exists b, i', a. do 3 (split; [done|]).
    split; [by exists b|]. split; [by exists i'|]. split; [by exists a|]. intros v. by apply Client_Start_run.
  - intros id. rewrite Hset. unfold checkIfIdentityImmutable. cbn [ImmutableUserMSIsMap]. destruct Hcloud as [<- _].
    rewrite <- immutable_map_lookup. unfold is_Some. cbn. fold f p. unfold GetClusterIdentity.
    destruct (immutableUserMSIsMap _ _ !! id); split; try done; [by eexists|by intros [? ?]].
  - rewrite Hset. cbn. fold f. f_equal. apply bool_decide_ext. done.
Qed.

(** ** The cloud configuration *)

(** The provider holds the configuration that its file has and, if [Init] succeeds with it, clients
    of its subscription with its credentials. *)
Definition holds_file (files : Files) (file : string) (p : provider) : Prop :=
  let config := (load_config files file).1 in
  p_configFile p = file ∧ p_Config p = config ∧
  ((client_Init tag_New userAgent files (mkProvider None None zeroAzureConfig file codes)).1 = Ret tt →
   ∃ spt vm vmss, authenticate userAgent config = Ret spt ∧ p_VMClient p = Some vm ∧ p_VMSSClient p = Some vmss ∧
     Forall (new_client config spt) [vm; vmss]).

(** Whether [Init] succeeds depends on the file only. *)
Lemma client_Init_outcome files (p q : provider) : p_configFile p = p_configFile q →
  (client_Init tag_New userAgent files p).1 = (client_Init tag_New userAgent files q).1.
Proof.
  intros E. pose proof (client_Init_run tag_New userAgent files p) as Hp. pose proof (client_Init_run tag_New userAgent files q) as Hq.
  rewrite E in Hp. destruct (load_config files (p_configFile q)) as [config err]. rewrite Hp, Hq.
  destruct err; [done|]. destruct (authenticate _ _); [|done|done].
  destruct (NewVMSSClient _ _ _ _); [|done|done]. by destruct (NewVirtualMachinesClient _ _ _ _).
Qed.

Lemma client_Init_file files (p : provider) :
  p_configFile (client_Init tag_New userAgent files p).2 = p_configFile p ∧
  p_Config (client_Init tag_New userAgent files p).2 = (load_config files (p_configFile p)).1.
Proof.
  pose proof (client_Init_run tag_New userAgent files p) as H. destruct (load_config files (p_configFile p)) as [config err].
  rewrite H. destruct err; [done|]. destruct (authenticate _ _); [|done|done].
  destruct (NewVMSSClient _ _ _ _); [|done|done]. by destruct (NewVirtualMachinesClient _ _ _ _).
Qed.

Lemma client_Init_holds files (p : provider) : holds_file files (p_configFile p) (client_Init tag_New userAgent files p).2.
Proof.
  destruct (client_Init_file files p) as [H1 H2]. split; [done|]. split; [done|].
  rewrite <- (client_Init_outcome files p (mkProvider None None zeroAzureConfig (p_configFile p) codes) eq_refl).
  destruct (client_Init tag_New userAgent files p) as [r p'] eqn:E. cbn [fst snd]. intros ->.
  apply client_Init_success in E as (_ & _ & _ & H). exact H.
Qed.

Definition is_write (s : fw_signal) : bool :=
  match s with FwEvent Op => bool_decide (Z.land Op fsnotify_Write = fsnotify_Write) | _ => false end.

(** The files when a history of changes and signals ends, and when it last had a write. *)
Definition files_after (files : Files) (history : list ((Files → Files) * fw_signal)) : Files :=
  foldl (λ files h, h.1 files) files history.

Fixpoint last_written (files : Files) (history : list ((Files → Files) * fw_signal)) : option Files :=
  match history with
  | [] => None
  | (change, s) :: history =>
      match last_written (change files) history with
      | Some files' => Some files'
      | None => if is_write s then Some (change files) else None
      end
  end.

(** A change of the files leaves the client alone. *)
Definition on_files (h : (Files → Files) * fw_signal) : (Files * provider → Files * provider) * fw_signal :=
  (λ w, (h.1 w.1, w.2), h.2).

Definition watches (w : file_watcher (Files * provider)) : Prop :=
  fw_eventHandler w = Some (cloud_config_event tag_New userAgent) ∧ fw_errorHandler w = Some (λ _, mret tt).

(** Building the client never panics: the libraries do not. *)
Definition Init_returns : Prop := ∀ files p, (client_Init tag_New userAgent files p).1 ≠ Panic.

Lemma cloud_config_event_run Op files (p : provider) : Init_returns →
  ∃ p', cloud_config_event tag_New userAgent Op (files, p) = (Ret tt, (files, p')) ∧
    p_configFile p' = p_configFile p ∧ if is_write (FwEvent Op) then holds_file files (p_configFile p) p' else p' = p.
Proof.
  intros Hret. unfold cloud_config_event, is_write. case_bool_decide as Hw; [|by exists p].
  pose proof (client_Init_holds files p) as H. specialize (Hret files p). unfold catch.
  destruct (client_Init tag_New userAgent files p) as [[[]|e|] p1]; [| |done]; (exists p1; split; [done|exact (conj (proj1 H) H)]).
Qed.

Lemma watcher_keeps_file (w : file_watcher (Files * provider)) history files (p : provider) :
  Init_returns → watches w → FwExit ∉ history.*2 →
  ∃ p', file_watcher_loop w (on_files <$> history) (files, p) = (Ret false, (files_after files history, p')) ∧
    match last_written files history with
    | Some files' => holds_file files' (p_configFile p) p'
    | None => p' = p
    end.
Proof.
  intros Hret [He Hr]. revert files p. induction history as [|[change s] history IH]; intros files p Hex; [by exists p|].
  apply not_elem_of_cons in Hex as [Hs Hex]. cbn [fmap list_fmap file_watcher_loop on_files fst snd files_after foldl last_written].
  fold (files_after (change files) history). unfold modify. unfold mbind at 1, M_bind at 1. cbn [fst snd].
  assert (∃ p1, (match s with
      | FwExit => mret true
      | FwEvent event => _ ← call_handler (fw_eventHandler w) event; file_watcher_loop w (on_files <$> history)
      | FwError err => _ ← call_handler (fw_errorHandler w) err; file_watcher_loop w (on_files <$> history)
      end) (change files, p) = file_watcher_loop w (on_files <$> history) (change files, p1) ∧
      p_configFile p1 = p_configFile p ∧ if is_write s then holds_file (change files) (p_configFile p) p1 else p1 = p) as (p1 & -> & Hf & Hp1).
  { destruct s as [|Op|err]; [done| |by exists p; rewrite Hr]. rewrite He. destruct (cloud_config_event_run Op (change files) p Hret) as (p1 & H1 & H2).
    exists p1. split; [|done]. cbn [call_handler]. unfold mbind, M_bind. by rewrite H1. }
  destruct (IH (change files) p1 Hex) as (p' & Hl & Hp'). exists p'. split; [done|].
  destruct (last_written (change files) history) as [files'|]; [by rewrite <- Hf|]. subst p'. by destruct (is_write s).
Qed.

(** C34: the cloud client follows its configuration file. The watcher of MIC's client goes on
    listening whatever changes, events and errors there are. The client in use then holds
    what the file had at the last event that was a write - its configuration and, if that is
    usable, API clients of its subscription with its credentials - in whatever state
    earlier contents of the file had left it; without a write it is unchanged. *)
Theorem configuration_followed cfg files0 (c : client) history files (p : provider) :
  Init_returns → NewMICClient tag_New userAgent codes files0 cfg = Ret c → FwExit ∉ history.*2 →
  ∃ p', file_watcher_loop (mcl_CloudConfigWatcher c) (on_files <$> history) (files, p) = (Ret false, (files_after files history, p')) ∧
    match last_written files history with
    | Some files' => holds_file files' (p_configFile p) p'
    | None => p' = p
    end.
Proof. intros Hret (n & i & _ & _ & _ & _ & Hw)%NewMICClient_inv. by apply watcher_keeps_file. Qed.

(** ** The election *)

(** client-go asks for a renewal deadline within the lease, and for retries that, with a jitter
    of a fifth, are within the deadline: from four nanoseconds on this is so, for the default of
    fifteen seconds in particular. *)
Lemma election_periods cfg (lock : ResourceLock) : (4 ≤ le_Duration cfg)%Z →
  let e := leader_config cfg lock in
  (1 ≤ RetryPeriod e ∧ 12 * RetryPeriod e < 10 * RenewDeadline e ∧ RenewDeadline e < LeaseDuration e)%Z.
Proof. intros Hd. cbn. rewrite !Z.quot_div_nonneg by lia. Z.to_euclidean_division_equations. lia. Qed.
End process.

(** ** The sync loop starts once, and the probe says so *)

(** Whoever finds the guard taken panics and leaves it as it is. Otherwise the loop runs, with the
    guard taken and the probe active, if both intervals are positive (a ticker panics if
    not); in any case the guard is free afterwards. *)
Theorem Sync_spec loop d1 d2 st : Sync loop d1 d2 st =
  if decide (ls_syncing st = stopped) then
    if decide (0 < d1 ∧ 0 < d2)%Z
    then ((loop (mkLoopState running true)).1, mkLoopState stopped (SyncLoopStarted (loop (mkLoopState running true)).2))
    else (Panic, mkLoopState stopped (SyncLoopStarted st))
  else (Panic, st).
Proof.
  unfold Sync, canSync, CompareAndSwapInt32, NewTicker. cbv [mbind M_bind modify]. destruct st as [s b].
  case_bool_decide as Hs; cbn; [rewrite decide_True by done|by rewrite decide_False].
  destruct (Z.leb_spec d1 0); [by rewrite decide_False by lia|]. destruct (Z.leb_spec d2 0); [by rewrite decide_False by lia|].
  rewrite decide_True by done. by destruct (loop _).
Qed.

(** The probe answers 200 in any case; the text says whether the loop has started. *)
Lemma healthz_spec started h : healthz started (newResponseWriter h) =
  mkResponse h (Some (StatusOK, h)) StatusOK (if started then "Active" else "Not Active").
Proof. by destruct started. Qed.
