(* ===== verification/EndToEnd.v ===== *)
(** * From MIC to NMI: what MIC assigns, the NMI of the pod's node gives out.

    MIC writes assigned identities with the label of their node; the informer of NMI lists
    those with the label of its own. The two programs meet in the API server only: MIC's
    world holds the objects, NMI's world a cache of them. *)

From S2P Require Import Prelude GoStrings Types Conversion Fixtures Regex ResourceId MicDesired MicVmss MicNode MicConsolidate Concurrency Stats CrdInterface CloudInterface MicUpdate MicUpdateFacts CloudIdentity CloudProvider Crd CrdSim MicUpdateSpec MicReconcile MicSync MicSyncFacts MicSyncSpec MicQuiet MicMachine PodClient Metrics Auth CloudInit Kube Nmi NmiSpec Informers Http NmiServer Iptables NmiMain.

(** ** Label selectors *)

(** A character of a label key or value. *)
Definition label_char (c : Ascii.ascii) : bool :=
  let n := Ascii.nat_of_ascii c in
  (bool_decide (48 ≤ n ≤ 57) || bool_decide (65 ≤ n ≤ 90) || bool_decide (97 ≤ n ≤ 122) ||
   bool_decide (n = 45 ∨ n = 46 ∨ n = 47 ∨ n = 95))%nat.
Definition label_text (s : string) : bool := forallb label_char (String.list_ascii_of_string s).

(** What the API server documents of label selectors. *)
Class LabelSelection := {
  label_matches : string → gmap string string → bool;
  law_match_all l : label_matches "" l = true;
  law_match_equal k v l : label_text k = true → label_text v = true →
    label_matches (k +:+ "=" +:+ v) l = bool_decide (l !! k = Some v)
}.

(** ** What a new assignment looks like *)

Lemma desired_shape c pods bindings idMap k a :
  (createDesiredAssignedIdentityList c pods bindings idMap).1 !! k = Some a →
  Labels (aai_ObjectMeta a) = {["nodename" := aai_node a]} ∧
  ∃ id, identity_of a = Some id ∧
    (IsNamespaced c = true ∨ IsNamespacedIdentity id = true → Namespace (ai_ObjectMeta id) = aas_PodNamespace (aai_Spec a)).
Proof.
  rewrite createDesired_reference. intros [_ Ha]%keep_first_Some.
  apply elem_of_all_assignments in Ha as (pod & b & id & (_ & _ & _ & _ & _ & _ & Hm) & ->). split; [done|].
  exists id. split; [done|]. intros Hns. by destruct (namespace_mismatch_false _ _ _ _ Hm Hns).
Qed.

(** The object that a decision of the diff has written. *)
Definition written (act : action) : option AzureAssignedIdentity :=
  match act with ToCreate a | ToUpdate _ a => Some a | _ => None end.

(** The update takes spec and labels from the desired object, hence also in shape. *)
Lemma written_desired old new a : written (classify old new) = Some a →
  ∃ n, new = Some n ∧ aai_Spec a = aai_Spec n ∧ Labels (aai_ObjectMeta a) = Labels (aai_ObjectMeta n).
Proof.
  unfold classify. destruct old as [o|], new as [n|]; try done; simpl.
  - destruct (same_assignment o n); [by case_bool_decide|]. intros [= <-]. by exists n.
  - intros [= <-]. by exists n.
Qed.

Lemma retyped_ref a id : identity_of a = Some id → aas_AzureIdentityRef (aai_Spec (retype_assigned a)) = Some (retype_identity id).
Proof. unfold identity_of. intros H. simpl. by rewrite H. Qed.

(** ** The answer of NMI from its cache *)

(** In a list of objects, [id] is the identity of an assignment of the pod in state [Assigned]. *)
Definition assigned_in (l : list V1AzureAssignedIdentity) (podns podname : string) (id : AzureIdentity) : Prop :=
  ∃ o, o ∈ l ∧ v1aas_Pod (v1aai_Spec o) = podname ∧ v1aas_PodNamespace (v1aai_Spec o) = podns ∧
    v1aast_Status (v1aai_Status o) = AssignedIDAssigned ∧ aas_AzureIdentityRef (aai_Spec (listed_assigned o)) = Some id.

(** The objects of the pod all have a state: none was made by a version of MIC without states. *)
Definition states_set (l : list V1AzureAssignedIdentity) (podns podname : string) : Prop :=
  ∀ o, o ∈ l → v1aas_Pod (v1aai_Spec o) = podname → v1aas_PodNamespace (v1aai_Spec o) = podns →
    v1aast_Status (v1aai_Status o) ≠ "".

Lemma pod_ids_assigned l podns podname id :
  id ∈ pod_ids_in_state podns podname AssignedIDAssigned (listed_assigned <$> l) ↔ assigned_in l podns podname id.
Proof.
  unfold pod_ids_in_state. rewrite list_elem_of_omap. split.
  - intros (v & (o & -> & Ho)%list_elem_of_fmap & Hif). case_bool_decide as Hc; [|done]. destruct Hc as (H1 & H2 & H3).
    by exists o.
  - intros (o & Ho & H1 & H2 & H3 & H4). exists (listed_assigned o). split; [by apply list_elem_of_fmap_2|].
    by rewrite bool_decide_true.
Qed.

Lemma pod_ids_stateless l podns podname : states_set l podns podname →
  pod_ids_in_state podns podname "" (listed_assigned <$> l) = [].
Proof.
  intros Hs. unfold pod_ids_in_state. induction l as [|o l IH]; [done|]. cbn [fmap list_fmap omap list_omap].
  rewrite bool_decide_false.
  - apply IH. intros o' Ho'. apply Hs. by right.
  - intros (H1 & H2 & H3). by apply (Hs o); [left|..].
Qed.

(** With an assigned identity that answers the request in its cache, NMI gives one at once. *)
Lemma answered_at_once {U : Type} `{ki : KubeInt U} `{wt : Waiter U} sc podns podname clientID resourceID (u : U) l id :
  (∀ u, (ki_ListPodIds podns podname u).2 = u) → (ki_ListPodIds podns podname u).1 = ListPodIds (all_assigned l) podns podname →
  (0 < ListPodIDsRetryAttemptsForCreated sc + ListPodIDsRetryAttemptsForAssigned sc)%Z →
  states_set l podns podname → assigned_in l podns podname id →
  admitted (sc_IsNamespaced sc) podns id = true → answers clientID resourceID id →
  ∃ id', StandardClient_GetIdentities sc podns podname clientID resourceID u = (Ret (Some id', None), u) ∧
    assigned_in l podns podname id' ∧ admitted (sc_IsNamespaced sc) podns id' = true ∧ answers clientID resourceID id'.
Proof.
  intros Hro Hread Hpos Hst Hin Had Hans. destruct (ListPodIds_run l podns podname) as (m & Hm & Hlook).
  set (ids := pod_ids_in_state podns podname AssignedIDAssigned (listed_assigned <$> l)).
  assert (id ∈ ids) as Hid by (by apply pod_ids_assigned).
  assert (in_state m "" = []) as H0 by (rewrite Hlook; by rewrite pod_ids_stateless).
  assert (in_state m AssignedIDAssigned = ids) as H1 by (rewrite Hlook; fold ids; by destruct ids).
  assert (ready clientID resourceID m = Some ids) as Hready.
  { unfold ready. rewrite H0, H1. unfold answers in Hans. destruct (identityUnspecified clientID resourceID).
    - simpl. rewrite bool_decide_true; [done|]. by destruct ids; [apply not_elem_of_nil in Hid|].
    - simpl. destruct Hans as [|Hans]; [done|]. rewrite (proj2 (existsb_exists _ _)); [done|].
      exists id. split; [by apply list_elem_of_In|]. by apply (matches_usable clientID resourceID). }
  destruct (in_time_run sc podns podname clientID resourceID Hro 0 u m ids id) as (id' & Hg & Hin' & Ha' & Hans').
  - done.
  - intros j Hj. lia.
  - unfold view. change (polls sc 0 u) with u. by rewrite Hread.
  - done.
  - done.
  - done.
  - done.
  - exists id'. split; [exact Hg|]. split; [by apply pod_ids_assigned|done].
Qed.

(** ** MIC, the API server and NMI *)

Section end_to_end.
Context `{R : GoRange} {S C : Type} `{api : CrdAPI S} `{al : !CrdAPILaws api} {cc : CloudInt C} {cll : CloudIntLaws cc}.
Context {U : Type} `{rt : InformerRuntime U} `{cgl : !ClientGoLaws} `{wt : Waiter U} `{rec : Recorder U} `{adal : Adal U}.
Context `{ls : LabelSelection}.
Variable tag_New : list (string * string) → option error.
Variable sleep : Z → U → U.
Variable secrets : string → string → M U Secret.
Abbreviation W := (mic_world S C).

(** The informer has caught up with the API server: it holds the objects that its selector
    selects, and no others. *)
Definition in_sync (s : S) (i : SharedInformer) (u : U) (l : list V1AzureAssignedIdentity) : Prop :=
  store_items i u = all_assigned l ∧
  ∀ o, o ∈ l ↔ ∃ ns name, api_obj s ns name = Some o ∧
    label_matches (LabelSelector (lw_options (watch_of i))) (Labels (v1aai_ObjectMeta o)) = true.

(** An object that MIC stored as assigned is delivered to the informer of its node. *)
Lemma delivered_to_node (s : S) f i u l a :
  lw_options (watch_of i) = mkListOptions (assigned_selector f) "" → label_text (nodename f) = true →
  Labels (aai_ObjectMeta a) = {["nodename" := nodename f]} → in_sync s i u l →
  stored s (aai_key a) = Some (content_of (with_status a AssignedIDAssigned)) →
  ∃ o, o ∈ l ∧ v1_content o = content_of (with_status a AssignedIDAssigned).
Proof.
  intros Hi Hn Hlab [_ Hl] Hs. simpl in Hs. unfold crd_stored in Hs.
  destruct (api_obj s _ _) as [o|] eqn:Eo; [|done]. apply (inj Some) in Hs. exists o. split; [|done]. apply Hl.
  eexists _, _. split; [exact Eo|]. rewrite Hi. simpl.
  assert (Labels (v1aai_ObjectMeta o) = {["nodename" := nodename f]}) as ->
    by (transitivity (c_Labels (v1_content o)); [done|]; rewrite Hs; exact Hlab).
  unfold assigned_selector. destruct (enableScaleFeatures f); [|apply law_match_all].
  change ("nodename=" +:+ nodename f) with ("nodename" +:+ "=" +:+ nodename f).
  rewrite law_match_equal by done. by rewrite lookup_singleton_eq, bool_decide_true.
Qed.

Lemma content_assigned o a id l : o ∈ l → v1_content o = content_of (with_status a AssignedIDAssigned) →
  identity_of a = Some id →
  assigned_in l (aas_PodNamespace (aai_Spec a)) (aas_Pod (aai_Spec a)) (retype_identity id).
Proof.
  intros Ho Hc Hid. exists o. split; [done|]. pose proof (f_equal c_Status Hc) as H2.
  assert (aai_Spec (listed_assigned o) = aai_Spec (retype_assigned (with_status a AssignedIDAssigned))) as E
    by exact (f_equal c_Spec Hc).
  split; [exact (f_equal aas_Pod E)|]. split; [exact (f_equal aas_PodNamespace E)|]. split; [exact H2|].
  rewrite E. by apply retyped_ref.
Qed.

(** C1: the two programs together. MIC runs a cycle without errors that creates or updates the
    assigned identity [a] of a pod on node [nodename f]; on that node NMI runs in standard
    mode, with the same namespace setting, and its informer has caught up. Then a request
    of the pod for that identity is answered at once, with an identity assigned to the pod;
    and if the identity is a user-assigned one, the machine (or scale set) of the pod's
    node has it, so that a token for it can be had. *)
Theorem assigned_pod_is_served c nc v p current (w w' : W) env f n u0 u0' k a id i u l clientID resourceID :
  (* the cycle *)
  plan c nc v = Ret p → sv_assigned v = Ret current → cycle_wf nc current p → w_inv w →
  runs (wd := mic_World) (cycle_fp p) (execute nc p Done) w w' → mw_errors w' = mw_errors w →
  written (classify (current !! k) (sp_newAssignedIDs p !! k)) = Some a → identity_of a = Some id →
  aai_node a = nodename f → node_class_of nc (nodename f) ≠ Gone →
  (* NMI on the node *)
  nmi_main tag_New env f u0 = (Ret n, u0') → ToLower (operationMode f) = StandardMode →
  nmi_namespaced env f = IsNamespaced c → label_text (nodename f) = true →
  (0 < retryAttemptsForCreated f + retryAttemptsForAssigned f)%Z →
  (* what it has seen *)
  AssignedIDInformer (kc_CrdClient (nmi_KubeClient n)) = Some i → in_sync (mw_store w') i u l →
  states_set l (aas_PodNamespace (aai_Spec a)) (aas_Pod (aai_Spec a)) →
  answers clientID resourceID id →
  (∃ id', nmi_GetIdentities tag_New sleep secrets n (aas_PodNamespace (aai_Spec a)) (aas_Pod (aai_Spec a)) clientID resourceID u =
            (Ret (Some id', None), u) ∧
     assigned_in l (aas_PodNamespace (aai_Spec a)) (aas_Pod (aai_Spec a)) id' ∧ answers clientID resourceID id') ∧
  (checkIfUserAssignedMSI id = true →
     ∃ b m, machine nc (nodename f) = Some (b, m) ∧
       cl_assigned (mw_cloud w') b m (ToLower (ais_ResourceID (ai_Spec id))) = true).
Proof.
  intros Hplan Hcur Hwf Hinv Hruns Herr Hact Hid Hnode Hgone Hmain Hmode Hns Htext Hpos Hinf Hsync Hst Hans.
  destruct (cycle_run c nc v p current w w' Hplan Hcur Hwf Hinv Hruns Herr) as [Hset Hmach].
  specialize (Hset k). pose proof (classify_object c nc v p current Hplan Hcur Hwf k) as Hobj.
  pose proof (lists_cases c nc v p current Hplan Hcur Hwf k) as Hlists. cbv zeta in Hlists.
  destruct (written_desired _ _ _ Hact) as (d & Hd & Hspec & Hlabel).
  assert (stored (mw_store w') (aai_key a) = Some (content_of (with_status a AssignedIDAssigned)) ∧ aai_status a = "" ∧
          (us_add (sp_lists p) !! k = Some a ∨ us_after (sp_lists p) !! k = Some a)) as (Hstored & Hempty & Hin).
  { destruct (classify _ _); try done; injection Hact as ->; rewrite <- Hnode in Hgone; destruct_and?; auto. }
  clear Hset Hobj Hlists. split.
  - destruct (plan_inv c nc v p current Hplan Hcur) as (pods & bs & idMap & Hnew & _).
    destruct (desired_shape c pods bs idMap k d) as (Hlab & idd & Hidd & Hnsd); [by rewrite <- Hnew|].
    unfold identity_of in Hid, Hidd. rewrite Hspec, Hidd in Hid. injection Hid as ->.
    pose proof (nmi_starts tag_New sleep secrets env f u0 n u0' Hmain) as H. cbv zeta in H.
    rewrite decide_True in H by done. destruct H as (Hdel & _ & _ & _ & Hreads & _).
    destruct Hdel as (i' & Ei & _ & _ & Hopt). rewrite Hinf in Ei. injection Ei as <-.
    destruct (delivered_to_node (mw_store w') f i u l a) as (o & Ho & Hc); [done|done| |done|done|].
    { by rewrite Hlabel, Hlab, <- Hspec, Hnode. }
    assert (assigned_in l (aas_PodNamespace (aai_Spec a)) (aas_Pod (aai_Spec a)) (retype_identity id)) as Hassigned.
    { apply (content_assigned o); [done|done|]. unfold identity_of. by rewrite Hspec. }
    destruct (nmi_main_inv tag_New env f u0 n u0' Hmain) as (_ & _ & Ht).
    apply GetTokenClient_mode in Ht as [(_ & Ht)|(Hmanaged & _)]; [|by rewrite Hmode in Hmanaged].
    rewrite Hreads. unfold cached_GetIdentities. rewrite Ht. simpl.
    match goal with |- ∃ id', StandardClient_GetIdentities ?sc _ _ _ _ _ = _ ∧ _ =>
      destruct (answered_at_once (ki := kube_client (H := client_pods sleep (nmi_KubeClient n))
        (H0 := client_caches secrets (nmi_KubeClient n)) tag_New (nmi_Reporter n)) sc
        (aas_PodNamespace (aai_Spec a)) (aas_Pod (aai_Spec a)) clientID resourceID u l (retype_identity id))
        as (id' & Hg & Hin' & _ & Hans') end; try done.
    + simpl. unfold items_of. by rewrite Hinf, (proj1 Hsync).
    + simpl. unfold admitted. rewrite Hns. destruct (IsNamespaced c || IsNamespacedIdentity (retype_identity id)) eqn:En; [|done].
      apply bool_decide_eq_true. simpl. rewrite Hspec. apply Hnsd. by apply orb_true_iff in En.
    + exists id'. split; [exact Hg|]. done.
  - intros Hmsi. destruct (machine nc (nodename f)) as [[b m]|] eqn:Em.
    + exists b, m. split; [done|].
      destruct (plan_machine_adds c nc v p current Hplan Hcur Hwf k a (ais_ResourceID (ai_Spec id)) b m Hin)
        as (t & Ht & <- & Hx); [by exists id; auto|by rewrite Hnode|].
      rewrite (Hmach m t Ht). unfold wanted_after. rewrite decide_True; [done|]. by apply list_elem_of_fmap_2.
    + unfold machine in Em. by destruct (node_class_of nc (nodename f)).
Qed.
(** *** Nobody else is served *)

(** The references of two assignments that the diff takes for the same. *)
Lemma same_assignment_refs x y idy : same_assignment x y = true → identity_of y = Some idy →
  ∃ idx, identity_of x = Some idx ∧ Name (ai_ObjectMeta idx) = Name (ai_ObjectMeta idy) ∧
    ResourceVersion (ai_ObjectMeta idx) = ResourceVersion (ai_ObjectMeta idy) ∧
    aas_Pod (aai_Spec x) = aas_Pod (aai_Spec y) ∧ aas_PodNamespace (aai_Spec x) = aas_PodNamespace (aai_Spec y) ∧
    aas_NodeName (aai_Spec x) = aas_NodeName (aai_Spec y).
Proof.
  unfold same_assignment, matchAssignedID, identity_of. intros H%bool_decide_eq_true Hid. rewrite Hid in H.
  destruct (aas_AzureBindingRef (aai_Spec x)), (aas_AzureBindingRef (aai_Spec y)); try done. cbn in H.
  destruct (negb _); [done|]. destruct (aas_AzureIdentityRef (aai_Spec x)) as [idx|]; [|done]. cbn in H.
  injection H as (H1 & H2 & H3 & H4 & H5)%bool_decide_eq_true. by exists idx.
Qed.

(** An object of the cluster after a cycle is one that the cycle wants. *)
Lemma stored_is_wanted c nc v p current next (w w' : W) pods bindings ids ns k o id :
  sv_pods v = Ret pods → sv_bindings v = Ret bindings → sv_ids v = Ret ids →
  plan c nc v = Ret p → sv_assigned v = Ret current → cycle_wf nc current p → w_inv w →
  runs (wd := mic_World) (cycle_fp p) (execute nc p Done) w w' → mw_errors w' = mw_errors w →
  listing_of (mw_store w) current → listing_of (mw_store w') next →
  (∀ key, ¬ cycle_fp p (CKey key) → stored (mw_store w') key = stored (mw_store w) key) →
  (∀ k a, sp_newAssignedIDs p !! k = Some a → node_class_of nc (aai_node a) ≠ Gone) →
  api_obj (mw_store w') ns k = Some o → aas_AzureIdentityRef (aai_Spec (listed_assigned o)) = Some id →
  ∃ pod b azureID,
    wants c bindings (convertIDListToMap (λ r, bool_decide (ValidateResourceID r = None)) ids) pods pod b azureID ∧
    pod_name pod = v1aas_Pod (v1aai_Spec o) ∧ pod_ns pod = v1aas_PodNamespace (v1aai_Spec o) ∧
    pod_NodeName pod = v1aas_NodeName (v1aai_Spec o) ∧
    Name (ai_ObjectMeta id) = Name (ai_ObjectMeta azureID) ∧ ResourceVersion (ai_ObjectMeta id) = ResourceVersion (ai_ObjectMeta azureID).
Proof.
  intros E1 E2 E3 Hplan Hcur Hwf Hinv Hruns Herr Hbefore Hafter Halone Hnodes Ho Hid.
  destruct (cycle_run c nc v p current w w' Hplan Hcur Hwf Hinv Hruns Herr) as [Hset _].
  assert (stored (mw_store w') (ns, k) = Some (v1_content o)) as Hs by (simpl; unfold crd_stored; simpl; by rewrite Ho).
  destruct (listed_object _ _ _ _ _ Hafter Hs) as (a & Ha & Hspec & _).
  pose proof (next_unchanged c nc v p current w w' Hplan Hcur Hwf next Hbefore Hafter Hset Halone Hnodes k) as Hun.
  rewrite Ha in Hun. unfold classify in Hun. destruct (sp_newAssignedIDs p !! k) as [d|] eqn:Ed; [|done].
  destruct (same_assignment a d) eqn:Esame; [|done]. clear Hun.
  destruct (plan_lists c nc v p current Hplan Hcur) as (pods' & bs' & ids' & F1 & F2 & F3 & F4).
  rewrite E1 in F1. rewrite E2 in F2. rewrite E3 in F3. injection F1 as <-. injection F2 as <-. injection F3 as <-.
  assert ((createDesiredAssignedIdentityList c pods bindings
    (convertIDListToMap (λ r, bool_decide (ValidateResourceID r = None)) ids)).1 !! k = Some d) as Hd by (by rewrite F4).
  rewrite createDesired_reference in Hd. apply keep_first_Some in Hd as [_ (pod & b & azureID & Hw & Hd)%elem_of_all_assignments].
  destruct (same_assignment_refs a d azureID Esame) as (idx & Hidx & H1 & H2 & H3 & H4 & H5); [by rewrite Hd|].
  assert (aai_Spec a = aai_Spec (listed_assigned o)) as Hao by exact Hspec.
  unfold identity_of in Hidx. rewrite Hao in Hidx, H3, H4, H5. rewrite Hid in Hidx. injection Hidx as <-.
  rewrite Hd in H3, H4, H5. exists pod, b, azureID. split; [exact Hw|]. split; [by symmetry|]. split; [by symmetry|].
  split; [by symmetry|]. split; [exact H1|exact H2].
Qed.
(** What NMI hands out comes from its cache as it is at that moment. *)
Lemma served_from_cache env f n u0 u0' i u u' l podns podname clientID resourceID id :
  nmi_main tag_New env f u0 = (Ret n, u0') → ToLower (operationMode f) = StandardMode →
  AssignedIDInformer (kc_CrdClient (nmi_KubeClient n)) = Some i → (∀ v, ∃ l, store_items i v = all_assigned l) →
  nmi_GetIdentities tag_New sleep secrets n podns podname clientID resourceID u = (Ret (Some id, None), u') →
  store_items i u' = all_assigned l →
  answers clientID resourceID id ∧ admitted (nmi_namespaced env f) podns id = true ∧
  ∃ o, o ∈ l ∧ v1aas_Pod (v1aai_Spec o) = podname ∧ v1aas_PodNamespace (v1aai_Spec o) = podns ∧
    aas_AzureIdentityRef (aai_Spec (listed_assigned o)) = Some id.
Proof.
  intros Hmain Hmode Hinf Htyped Hget Hl.
  pose proof (nmi_starts tag_New sleep secrets env f u0 n u0' Hmain) as H. cbv zeta in H.
  destruct H as (_ & _ & _ & _ & Hreads & _). rewrite Hreads in Hget.
  destruct (nmi_main_inv tag_New env f u0 n u0' Hmain) as (_ & _ & Ht).
  apply GetTokenClient_mode in Ht as [(_ & Ht)|(Hmanaged & _)]; [|by rewrite Hmode in Hmanaged].
  unfold cached_GetIdentities in Hget. rewrite Ht in Hget. simpl in Hget.
  apply GetIdentities_sound in Hget.
  - destruct Hget as (k & m & ids & _ & Hw & Hview & Hready & Hin & Had & Hans).
    split; [exact Hans|]. split; [exact Had|].
    destruct (ready_elem _ _ _ _ _ Hready Hin) as (st & _ & Hst). unfold view in Hview. simpl in Hview.
    unfold items_of in Hview. rewrite Hinf, Hl in Hview. destruct (ListPodIds_run l podns podname) as (m' & Hm & Hlook).
    rewrite Hm in Hview. injection Hview as <-. rewrite Hlook in Hst.
    assert (id ∈ pod_ids_in_state podns podname st (listed_assigned <$> l)) as Hst' by (by destruct (pod_ids_in_state _ _ _ _)).
    unfold pod_ids_in_state in Hst'. apply list_elem_of_omap in Hst' as (a & (o & -> & Ho)%list_elem_of_fmap & Hif).
    case_bool_decide as Hc; [|done]. destruct Hc as (H1 & H2 & _). by exists o.
  - done.
  - intros k. unfold view. simpl. unfold items_of. rewrite Hinf. 
    match goal with |- context [store_items i ?v] => destruct (Htyped v) as [l' ->] end.
    by destruct (ListPodIds_run l' podns podname) as (m & -> & _).
Qed.

(** C2: nobody else is served. MIC runs a cycle without errors over the objects of the cluster,
    nobody else wrote the objects that it did not work on, and no wanted node has
    disappeared. If NMI, in standard mode on any node, then answers a request with an identity,
    and its informer has caught up at that moment, then the pods that the cycle listed have
    one of that name and namespace, on a node and with a label, which a binding selects whose
    identity this is, in the version listed, with the namespaces as required; and the answer fits the
    request. *)
Theorem served_only_if_wanted c nc v p current next (w w' : W) pods bindings ids env f n u0 u0' i u u' l podns podname clientID resourceID id :
  (* the cycle *)
  sv_pods v = Ret pods → sv_bindings v = Ret bindings → sv_ids v = Ret ids → sv_assigned v = Ret current →
  plan c nc v = Ret p → cycle_wf nc current p → w_inv w →
  runs (wd := mic_World) (cycle_fp p) (execute nc p Done) w w' → mw_errors w' = mw_errors w →
  listing_of (mw_store w) current → listing_of (mw_store w') next →
  (∀ key, ¬ cycle_fp p (CKey key) → stored (mw_store w') key = stored (mw_store w) key) →
  (∀ k a, sp_newAssignedIDs p !! k = Some a → node_class_of nc (aai_node a) ≠ Gone) →
  (* NMI on some node, and its answer *)
  nmi_main tag_New env f u0 = (Ret n, u0') → ToLower (operationMode f) = StandardMode →
  AssignedIDInformer (kc_CrdClient (nmi_KubeClient n)) = Some i → (∀ v, ∃ l, store_items i v = all_assigned l) →
  nmi_GetIdentities tag_New sleep secrets n podns podname clientID resourceID u = (Ret (Some id, None), u') →
  in_sync (mw_store w') i u' l →
  answers clientID resourceID id ∧
  ∃ pod b azureID,
    wants c bindings (convertIDListToMap (λ r, bool_decide (ValidateResourceID r = None)) ids) pods pod b azureID ∧
    pod_name pod = podname ∧ pod_ns pod = podns ∧
    Name (ai_ObjectMeta id) = Name (ai_ObjectMeta azureID) ∧ ResourceVersion (ai_ObjectMeta id) = ResourceVersion (ai_ObjectMeta azureID).
Proof.
  intros E1 E2 E3 Hcur Hplan Hwf Hinv Hruns Herr Hbefore Hafter Halone Hnodes Hmain Hmode Hinf Htyped Hget [Hl Hsync].
  destruct (served_from_cache env f n u0 u0' i u u' l podns podname clientID resourceID id Hmain Hmode Hinf Htyped Hget Hl)
    as (Hans & _ & o & Ho & H1 & H2 & Hid). split; [exact Hans|].
  apply Hsync in Ho as (ns & k & Ho & _).
  destruct (stored_is_wanted c nc v p current next w w' pods bindings ids ns k o id E1 E2 E3 Hplan Hcur Hwf Hinv Hruns Herr
    Hbefore Hafter Halone Hnodes Ho Hid) as (pod & b & azureID & Hw & P1 & P2 & _ & P3).
  exists pod, b, azureID. split; [exact Hw|]. rewrite P1, P2. done.
Qed.
End end_to_end.
