(* ===== verification/EndToEndSim.v ===== *)
(** * The two programs on a concrete cluster: MIC's cycle of [MicSyncSpec], and NMI started on
    node [n1] with informers that list what the API server holds. *)

From S2P Require Import Prelude GoStrings Types Conversion Fixtures Regex ResourceId MicDesired MicVmss MicNode MicConsolidate Concurrency Stats CrdInterface CloudInterface MicUpdate MicUpdateFacts CloudIdentity CloudProvider Crd CrdSim MicUpdateSpec MicReconcile MicSync MicSyncFacts MicSyncSpec MicQuiet MicMachine PodClient Metrics Auth CloudInit Kube Nmi NmiSpec Http NmiServer NmiServerSpec NmiSim Informers Iptables NmiMain EndToEnd.

(** Selectors are one equation, or empty. *)
Definition sim_matches (selector : string) (labels : gmap string string) : bool :=
  match Split selector "=" with
  | [k; v] => bool_decide (labels !! k = Some v)
  | [""] => true
  | _ => false
  end.

Lemma label_text_free s : label_text s = true → free_of "=" s = true.
Proof.
  unfold label_text. induction s as [|c s IH]; [done|]. intros H. cbn in H. apply andb_true_iff in H as [Hc Hs].
  cbn [free_of]. rewrite IH, andb_true_r by done. apply negb_true_iff, Ascii.eqb_neq. intros <-.
  vm_compute in Hc. discriminate Hc.
Qed.

#[export, refine] Instance sim_selection : LabelSelection := {| label_matches := sim_matches |}.
Proof.
  - done.
  - intros k v l Hk%label_text_free Hv%label_text_free. unfold sim_matches.
    change (k +:+ "=" +:+ v) with (k +:+ String "=" v). rewrite Split_app, Split_free by done. by destruct k.
Defined.

(** Informers are the requests that they make. *)
Record sim_watch := mkSimWatch { sw_resource : string; sw_namespace : string; sw_options : ListOptions }.

#[export] Instance sim_clientgo : ClientGo := {|
  config_other := unit; Scheme := list (string * string); NewScheme := [];
  AddKnownTypes := λ gv types s, s ++ (pair gv <$> types); AddToGroupVersion := λ _ s, s;
  clientgoscheme_AddToScheme := λ s, Ret s; Serializer := unit; WithoutConversionCodecFactory := λ _, tt;
  RESTClient := unit; RESTClientFor := λ _, Ret tt; Clientset := unit; NewForConfig := λ _, Ret tt;
  BuildConfigFromFlags := λ _ _, Fail (Errorf "no such file");
  InClusterConfig := Ret (mkRestConfig None "" "" None "" tt);
  ListWatch := sim_watch;
  NewFilteredListWatchFromClient := λ _ resource ns tweak, mkSimWatch resource ns (tweak zeroListOptions);
  NewListWatchFromClient := λ _ resource ns selector, mkSimWatch resource ns (mkListOptions "" selector);
  SharedInformer := sim_watch; NewSharedInformer := λ lw _ _, Some lw; AddEventHandler := λ _ i, i;
  PodInformer := string * ListOptions;
  NewFilteredPodInformer := λ _ ns _ tweak, (ns, tweak zeroListOptions);
  SharedInformerFactory := unit; factory_Pods := λ _, ("", zeroListOptions); AddPodEventHandler := λ _ i, i
|}.

#[export, refine] Instance sim_clientgo_laws : ClientGoLaws := {|
  watch_of := id; lw_resource := sw_resource; lw_namespace := sw_namespace; lw_options := sw_options;
  pod_namespace := fst; pod_options := snd
|}.
Proof. all: try done. by intros lw object resync i [= <-]. Defined.

(** A node whose caches are those of [NmiSim]; only the assigned identities are selected. *)
Definition selected (i : sim_watch) (l : list V1AzureAssignedIdentity) : list V1AzureAssignedIdentity :=
  filter (λ o, sim_matches (LabelSelector (sw_options i)) (Labels (v1aai_ObjectMeta o)) = true) l.

#[export] Instance sim_runtime : InformerRuntime node := {|
  go_Run := λ _ w, w; go_Run_pods := λ _ w, w; WaitForCacheSync := λ _ w, (true, w); WaitForPodSync := λ _ w, (true, w);
  NodeInformer := unit; node_Lister_Get := λ _ name _, Ret (Types.mkNode name ""); go_Run_nodes := λ _ w, w;
  WaitForNodeSync := λ _ w, (true, w);
  store_items := λ i w,
    if bool_decide (sw_resource i = AzureAssignedIDResource) then all_assigned (selected i (assigned_now w))
    else if bool_decide (sw_resource i = AzureIDBindingResource) then all_bindings (n_bindings w)
    else if bool_decide (sw_resource i = AzureIDResource) then all_ids_items (n_ids w)
    else all_exceptions (n_exceptions w);
  pod_items := λ _ w, Some <$> n_pods w;
  pod_by_key := λ _ w, ca_pod w
|}.

(** NMI on [n1] with its defaults. *)
Definition flags1 : nmi_flags :=
  mkNmiFlags "127.0.0.1" "2579" "169.254.169.254" "80" "n1" false "default" 16 4 5 true false true "Standard" true "" false false.
Definition env1 : nmi_environment := mkNmiEnvironment "" "" "NMI" (λ _, Fail (Errorf "no such file")).

Definition api_objects (s : cluster) : list V1AzureAssignedIdentity := (map_to_list s).*2.*1.

Lemma elem_of_api_objects (s : cluster) o : o ∈ api_objects s ↔ ∃ ns name, api_obj s ns name = Some o.
Proof.
  unfold api_objects. rewrite list_elem_of_fmap. split.
  - intros ([o' t] & -> & ([k x] & -> & Hk%elem_of_map_to_list)%list_elem_of_fmap). destruct k as [ns name].
    exists ns, name. simpl in *. by rewrite Hk.
  - intros (ns & name & H). simpl in H. destruct (s !! (ns, name)) as [[o' t]|] eqn:E; [|done]. injection H as ->.
    exists (o, t). split; [done|]. apply list_elem_of_fmap. exists ((ns, name), (o, t)).
    split; [done|]. by apply elem_of_map_to_list.
Qed.

(** The node after MIC's cycle. *)
Definition served_node : node :=
  NmiSim.mkNode 0 [mk_pod "ns" "p2" "n1" "sel"] [(0%Z, api_objects (mw_store cycle_world'))] [] [] [] [].

Definition watch1 : sim_watch := mkSimWatch AzureAssignedIDResource "" (mkListOptions "nodename=n1" "").

Lemma served_in_sync : in_sync (S := cluster) (U := node) (mw_store cycle_world') watch1 served_node
  (selected watch1 (api_objects (mw_store cycle_world'))).
Proof.
  split; [done|]. intros o. unfold selected. rewrite list_elem_of_filter, elem_of_api_objects.
  split; [intros (Hl & ns & name & Ho); eauto|]. intros (ns & name & Ho & Hl). eauto.
Qed.

#[local] Instance range_e2e : GoRange := canonical_range.
Definition no_secrets : string → string → M node Secret := λ _ _, fail (Errorf "no secrets").

(** The process as it starts. *)
Definition nmi_run : outcome nmi * node := nmi_main accept_tags env1 flags1 served_node.

Definition crd_client1 : CrdClient := mkCrdClient tt None None (Some watch1)
  (Some (mkSimWatch AzurePodIdentityExceptionResource "" zeroListOptions)) (mkReporter []).
Definition nmi1 : nmi := mkNmi
  (mkServer "169.254.169.254" "80" "default" false true false)
  (mkRulesConfig "127.0.0.1" "2579" "169.254.169.254" "80" false) (Some (mkReporter []))
  (mkKubeClient tt crd_client1 ("", mkListOptions "" "spec.nodeName=n1") (mkReporter []))
  (Standard (mkStandardClient 16 4 5 false)).

Lemma nmi_run_nmi1 : nmi_run = (Ret nmi1, served_node).
Proof. vm_compute. reflexivity. Qed.

Lemma nmi_reads_its_caches_witness :
  nmi_main accept_tags env1 flags1 served_node = (Ret nmi1, served_node) ∧
  delivers (AssignedIDInformer crd_client1) AzureAssignedIDResource (mkListOptions "nodename=n1" "").
Proof.
  split; [exact nmi_run_nmi1|].
  pose proof (nmi_reads_its_caches (W := node) accept_tags advance no_secrets env1 flags1 served_node nmi1 served_node nmi_run_nmi1) as H.
  cbv zeta in H. rewrite decide_True in H by (vm_compute; reflexivity). exact (proj1 H).
Defined.

(** What MIC wrote for pod [p2]. *)
Definition p2_assigned : AzureAssignedIdentity :=
  match written (classify (current1 !! "p2-ns-b") (sp_newAssignedIDs plan1 !! "p2-ns-b")) with
  | Some a => a
  | None => p1_assigned
  end.

Lemma assigned_pod_is_served_witness :
  (∃ id', nmi_GetIdentities accept_tags advance no_secrets nmi1 "ns" "p2" "b" "" served_node = (Ret (Some id', None), served_node) ∧
     assigned_in (selected watch1 (api_objects (mw_store cycle_world'))) "ns" "p2" id' ∧ answers "b" "" id') ∧
  cl_assigned (mw_cloud cycle_world') false "n1" (ToLower (rid "b")) = true.
Proof.
  destruct (assigned_pod_is_served (S := cluster) (U := node) accept_tags advance no_secrets client0 nc_one view1 plan1 current1
    cycle_world cycle_world' env1 flags1 nmi1 served_node served_node "p2-ns-b" p2_assigned (mk_identity "ns" "b") watch1
    served_node (selected watch1 (api_objects (mw_store cycle_world'))) "b" "") as [Hserved Hmachine].
  - exact plan1_runs.
  - reflexivity.
  - exact cycle1_wf.
  - apply crd_ok_create; [constructor|]. intros ns name o. simpl. by rewrite lookup_empty.
  - exact (run_proc_runs _ _ _ _ cycle_ends).
  - vm_compute. reflexivity.
  - vm_compute. reflexivity.
  - vm_compute. reflexivity.
  - vm_compute. reflexivity.
  - intros Hg. vm_compute in Hg. discriminate Hg.
  - exact nmi_run_nmi1.
  - vm_compute. reflexivity.
  - vm_compute. reflexivity.
  - vm_compute. reflexivity.
  - vm_compute. reflexivity.
  - reflexivity.
  - exact served_in_sync.
  - intros o Ho _ _. revert o Ho. apply Forall_forall. apply (bool_decide_unpack _). vm_compute. exact I.
  - right. vm_compute. reflexivity.
  - split; [exact Hserved|]. destruct Hmachine as (b & m & Hm & Hcl); [vm_compute; reflexivity|].
    vm_compute in Hm. injection Hm as <- <-. exact Hcl.
Defined.

(** The answer to the pod, and where it comes from. *)
Definition served_answer : outcome (option AzureIdentity * option error) * node :=
  nmi_GetIdentities accept_tags advance no_secrets nmi1 "ns" "p2" "b" "" served_node.
Definition served_id : AzureIdentity :=
  match served_answer with (Ret (Some id, _), _) => id | _ => mk_identity "" "" end.

Lemma served_answer_id : served_answer = (Ret (Some served_id, None), served_node).
Proof. vm_compute. reflexivity. Qed.

Lemma served_only_if_wanted_witness :
  ∃ pod b azureID, pod ∈ [mk_pod "ns" "p2" "n1" "sel"] ∧ b ∈ [mk_binding "ns" "bb" "b" "sel"] ∧
    aibs_Selector (aib_Spec b) = pod_label pod ∧ Name (ai_ObjectMeta served_id) = Name (ai_ObjectMeta azureID).
Proof.
  destruct (served_only_if_wanted (S := cluster) (U := node) accept_tags advance no_secrets client0 nc_one view1 plan1 current1 next1
    cycle_world cycle_world' [mk_pod "ns" "p2" "n1" "sel"] [mk_binding "ns" "bb" "b" "sel"] [mk_identity "ns" "b"]
    env1 flags1 nmi1 served_node served_node watch1 served_node served_node
    (selected watch1 (api_objects (mw_store cycle_world'))) "ns" "p2" "b" "" served_id) as [_ H].
  - reflexivity.
  - reflexivity.
  - reflexivity.
  - reflexivity.
  - exact plan1_runs.
  - exact cycle1_wf.
  - apply crd_ok_create; [constructor|]. intros ns name o. simpl. by rewrite lookup_empty.
  - exact (run_proc_runs _ _ _ _ cycle_ends).
  - vm_compute. reflexivity.
  - exact current1_listing.
  - exact next1_listing.
  - exact cycle1_alone.
  - assert (map_Forall (λ _ a, node_class_of nc_one (aai_node a) ≠ Gone) (sp_newAssignedIDs plan1)) as H by by_computation.
    exact H.
  - exact nmi_run_nmi1.
  - vm_compute. reflexivity.
  - reflexivity.
  - intros v. by eexists.
  - exact served_answer_id.
  - exact served_in_sync.
  - destruct H as (pod & b & azureID & (H1 & _ & _ & H2 & H3 & _) & _ & _ & H4 & _). exists pod, b, azureID.
    split; [exact H1|]. split; [exact H2|]. split; [exact H3|exact H4].
Defined.
