(* ===== verification/MicMainSim.v ===== *)
(** * The process of MIC, started on simulated libraries. *)

From S2P Require Import Prelude GoStrings Types Conversion Fixtures Regex ResourceId MicDesired MicVmss MicNode Concurrency Retry Crd PodClient Metrics Auth CloudIdentity CloudInterface CloudProvider CloudInit Kube Nmi NmiSpec Http NmiServer NmiServerSpec NmiSim Informers Iptables NmiMain MicStart Process MicMain EndToEndSim.

#[export] Instance sim_handler_laws : HandlerLaws.
Proof. done. Defined.

(** Two contents of the configuration file, of different subscriptions; the first has a cluster
    identity. *)
Definition sim_config : AzureConfig := mkAzureConfig "" "tenant" "client" "secret" "sub" "rg" "" "" true "cluster-identity".

Definition sim_config2 : AzureConfig := mkAzureConfig "" "tenant" "client" "secret" "sub2" "rg" "" "" true "".

(** The files are the content of one file. *)
#[export] Instance sim_cloudlib : CloudLib := {|
  Files := string;
  os_ReadFile := λ content f, if bool_decide (f = "/etc/azure.json") then inl content else inr (Errorf "no such file");
  os_Getenv := λ _, "";
  yaml_Unmarshal := λ s c,
    if bool_decide (s = "config") then (sim_config, None)
    else if bool_decide (s = "config2") then (sim_config2, None) else (c, Some (Errorf "bad YAML"));
  EnvironmentFromName := λ _, Ret (mkEnvironment "https://login/" "https://management/");
  PublicCloud := mkEnvironment "https://login/" "https://management/";
  cl_OAuthConfig := unit; SPT := string;
  cl_AddToUserAgent := λ _, Ret tt; cl_NewOAuthConfig := λ _ _, Ret tt;
  NewServicePrincipalTokenFromMSI := λ _ _, Ret "system";
  NewServicePrincipalTokenFromMSIWithUserAssignedID := λ _ _ id, Ret id;
  cl_NewServicePrincipalToken := λ _ id _ _, Ret id;
  client_AddToUserAgent := λ _ _, Ret tt
|}.

#[export] Instance sim_fsnotify : FsNotify := {|
  Watcher := list string; fsnotify_NewWatcher := Ret []; Watcher_Add := λ p w, Ret (p :: w); fsnotify_Write := 2
|}.

#[export] Instance sim_miclib : MicLib node := {|
  NewForConfigOrDie := λ _, Ret tt; NewSharedInformerFactory := λ _ _, tt; factory_Nodes := λ _, tt;
  EventRecorder := string; NewRecorder := λ _ component, component;
  ConfigMapInterface := string; clientset_ConfigMaps := λ _ ns, ns;
  ResourceLock := string * string; EndpointsResourceLock := "endpoints";
  resourcelock_New := λ _ ns name _ _ _, Ret (ns, name);
  LeaderElector := elector_config (string * string);
  leaderelection_NewLeaderElector := λ e,
    if (12 * RetryPeriod e <? 10 * RenewDeadline e)%Z && (RenewDeadline e <? LeaseDuration e)%Z then Ret e
    else Fail (Errorf "renewDeadline must be greater than retryPeriod*JitterFactor");
  LeaderElector_Run := λ _, mret tt;
  Float := Z; float_5 := 5%Z; set_rate := λ _ o, o; go_serve_profile := λ _ w, w
|}.

#[export] Instance sim_processlib : ProcessLib node := {|
  SetLogger_json := id; view_Register := λ _, mret tt; Exporter := unit; prometheus_NewExporter := λ _, Ret tt;
  view_RegisterExporter := λ _ w, w; go_serve_metrics := λ _ _ w, w; go_serve_health := λ _ w, w
|}.

(** The flags that are given: the configuration file and two protected identities. *)
Definition sim_flags (f : mic_flags) : mic_flags :=
  mkMicFlags (kubeconfig f) "/etc/azure.json" (mf_forceNamespaced f) (versionInfo f) (syncRetryDuration f) (leaderElectionCfg f)
    (httpProbePort f) (prometheusPort f) (enableProfile f) (mf_createDeleteBatch f) (clientQPS f) "ID-1,id-2" (cmConfig_Name f)
    (typeUpgradeConfig f) (updateUserMSIConfig f) (identityAssignmentReconcileInterval f) (LogFormat f).

Definition mic_env1 : mic_environment := mkMicEnvironment (Ret "host") sim_flags "default" "".

Definition mic_run : outcome (option mic_client) * node := mic_main accept_tags "MIC" [429; 500]%Z mic_env1 "config" served_node.

Definition mic_client1 : mic_client :=
  match mic_run.1 with
  | Ret (Some c) => c
  | _ => mkMicProcess (mkCrdClient tt None None None None (mkReporter [])) (mkProvider None None zeroAzureConfig "" [], NewRetryClient 0 0)
           ("", zeroListOptions) (mkFileWatcher [] None None) "" tt (mkMicClient false 0 None) 0 (mkTypeUpgradeConfig "" false)
           (mkCMConfig "" "") None 0 (mkElectorConfig 0 0 0 CallStart CallStart ("", "")) (mkReporter [])
  end.

Lemma mic_runs : mic_run = (Ret (Some mic_client1), mic_run.2).
Proof.
  unfold mic_client1. assert (match mic_run.1 with Ret (Some _) => true | _ => false end = true) as H by (vm_compute; reflexivity).
  destruct mic_run as [[[c|]|e|] w]; done.
Qed.

Lemma mic_is_put_together_witness :
  checkIfIdentityImmutable (mcl_settings mic_client1) "id-1" = true ∧
  checkIfIdentityImmutable (mcl_settings mic_client1) "cluster-identity" = true ∧
  checkIfIdentityImmutable (mcl_settings mic_client1) "ID-1" = false ∧
  ∃ vm, p_VMClient (mcl_CloudClient mic_client1).1 = Some vm ∧ sc_Subscription (mc_client vm) = "sub" ∧
    Authorizer (mc_client vm) = "cluster-identity".
Proof.
  destruct (mic_is_put_together (lib := sim_cloudlib) accept_tags "MIC" [429; 500]%Z mic_env1 "config" "host" served_node mic_client1 mic_run.2 eq_refl mic_runs)
    as (_ & _ & (_ & _ & spt & vm & vmss & Hspt & Hvm & _ & Hnew) & H & _).
  split; [|split; [|split]].
  - apply (H "id-1"). left. exists "ID-1". split; [apply (bool_decide_unpack _); vm_compute; exact I|reflexivity].
  - apply (H "cluster-identity"). right. split; [discriminate|reflexivity].
  - vm_compute. reflexivity.
  - exists vm. split; [exact Hvm|]. apply Forall_inv in Hnew as (Hsub & Hauth & _). rewrite Hauth. split; [exact Hsub|].
    injection Hspt as <-. reflexivity.
Defined.

(** A client that started without a configuration; the file is written twice, with different
    contents, becomes unusable and is repaired without an event that is a write. *)
Definition provider0 : provider := mkProvider None None zeroAzureConfig "/etc/azure.json" [].
Definition history0 : list ((string → string) * fw_signal) :=
  [(id, FwEvent 1); (λ _, "config", FwEvent 2); (id, FwError (Errorf "overflow")); (λ _, "config2", FwEvent 3);
   (λ _, "broken", FwEvent 4); (λ _, "config", FwEvent 1)].

Lemma sim_Init_returns : Init_returns accept_tags "MIC".
Proof.
  intros files p. pose proof (client_Init_run accept_tags "MIC" files p) as H.
  destruct (load_config files (p_configFile p)) as [config [err|]]; rewrite H; [done|].
  unfold authenticate, credentials. cbn. destruct (UseManagedIdentityExtension config); [|done]. by case_bool_decide.
Qed.

Lemma configuration_followed_witness :
  last_written "" history0 = Some "config2" ∧ files_after "" history0 = "config" ∧
  ∃ p', file_watcher_loop (mcl_CloudConfigWatcher mic_client1) (on_files <$> history0) ("", provider0) = (Ret false, ("config", p')) ∧
    p_Config p' = sim_config2 ∧ ∃ vm, p_VMClient p' = Some vm ∧ sc_Subscription (mc_client vm) = "sub2".
Proof.
  split; [vm_compute; reflexivity|]. split; [vm_compute; reflexivity|].
  destruct (mic_main_inv (lib := sim_cloudlib) accept_tags "MIC" [429; 500]%Z mic_env1 "config" "host" served_node mic_client1 mic_run.2 eq_refl mic_runs) as [cfg Hc].
  destruct (configuration_followed (lib := sim_cloudlib) accept_tags "MIC" [429; 500]%Z _ "config" mic_client1 history0 "" provider0 sim_Init_returns Hc)
    as (p' & Hl & (_ & Hcfg & Hclients)).
  - by_computation.
  - exists p'. split; [exact Hl|]. split; [exact Hcfg|]. destruct Hclients as (spt & vm & vmss & _ & Hvm & _ & Hnew); [vm_compute; reflexivity|].
    exists vm. split; [exact Hvm|]. apply Forall_inv in Hnew as (Hsub & _ & _). exact Hsub.
Defined.
